(* ===== verification/_CoqProject ===== *)
-Q . S2P
Prelude.v
Endian.v
CType.v
Vmlinux.v
KernelAbi.v
HelperDefs.v
BpfHelpers.v
Tracing.v
Objects.v
Maps.v
Kernel.v
Classify.v
Hooks.v
Fixtures.v
HookProps.v
Egress.v
Privilege.v
Grants.v
Abi.v
Classes.v
Gc.v
Control.v
Broker.v
Approval.v
System.v
Bytes.v
Sha256.v
Json.v
Verify.v
AuditLog.v
VerifyCmd.v
AuditFiles.v
AuditProps.v
AuditWriter.v
ChainProps.v
LogClients.v
Events.v
EventsProps.v
MapTypes.v
VsockMux.v
VsockProps.v
Retention.v
Attest.v
AttestProps.v
Enroll.v
NetIP.v
Allowlist.v
Proxy.v
GuardProps.v
ProxyProps.v
ProxyRelay.v
RelayProps.v
AgentDial.v
Commands.v
Monitor.v
MonitorTurns.v
MonitorProps.v
MonitorHistory.v
MonitorCollector.v
EnrollProps.v
MonitorExamples.v
Float64.v
RateLimit.v
Router.v
RouterProps.v
RouterChain.v
RouterExamples.v
Agent.v
AgentProps.v
AgentLoop.v
AgentPlans.v
AgentExamples.v
