(* ===== verification/Prelude.v ===== *)
(** * bulkhead: verification of the enforcement object, the authority around it and its evidence

    bulkhead is an appliance that runs agents under confinement. Its kernel-side core is
    one BPF object, [src/src/collector/provenance.bpf.c]: five LSM programs that observe
    and, when armed, deny bpf, ptrace, connect, setuid and capset operations of agent
    cgroups. User space (the collector and the broker, [src/src/collector/*.go]) loads the
    object and configures it through five BPF maps; the kernel calls the programs.

    ** Components and how they interact

    - The programs read the maps [enforce_flags] (which hooks are armed), [tcb_cgroups] (who
      is exempt), [egress_policy] (which destination classes a cgroup may reach) and
      [grant_once] (single-use exceptions), spend entries of the last one, and submit
      records to the ring buffer [events]. They run concurrently, on behalf of any task.
    - The connect program classifies the destination from the bytes of its socket address;
      the setuid and capset programs compute a gain of privilege from the credentials.
    - The headers supply the kernel's types and their layout, the helper functions, byte
      order and the macros the programs are written with.

    - User space writes the maps in four ways: the control socket (an agent's own manifest,
      the broker's TCB entry, the enforce flags), the broker after an operator's approval
      (EXPAND, GRANT-ONCE; DELEGATE starts a child), the operator's NARROW, and the
      collector's garbage collection, which removes what dead agents left behind.
    - The collector's daemon reads the ring buffer and writes every record to its chain;
      operators switch enforcement through the control socket.
    - What happened is written to signed hash chains, one per domain, in files that are
      rotated and pruned; the boot gate and relying parties run verify-audit on them. The
      collector measures its binary, the flags and the TCB list into a TPM register at boot
      and answers challenges with a quote that also binds the heads of the chains. A
      verifier enrols the attestation key against the TPM's endorsement key.
    - Agents have no route. Their way out is the egress proxy ([src/src/proxy/*.go]), which
      checks one parsed destination against a policy file, guards the address it dials,
      inspects or splices the flow, and writes a chain of its own. Their way to a language
      model is the router ([src/src/router/*.go]), which serves short prompts from a local
      model and long ones from a paid provider, whose keys only it holds, and writes a chain
      of its own. From a micro-VM both are reached through a multiplexer of vsock connections
      ([src/src/fc-vsockmux/main.go]), which splices bytes.
    - The agent ([src/src/agent/*.go]) talks to the router and fetches through the proxy. In
      quarantine a planning model commits a plan before any page is read, an interpreter
      carries it out, and pages are read by a model without tools; otherwise a loop lets one
      model choose a tool per step.
    - Off the box the chain monitor ([src/src/chain-monitor/main.go]) asks every device for
      a quote and for its chains, runs the collector's commands on them, remembers the key
      and the heads it saw, and raises alerts.

    ** Files

    - [Prelude]: machine integers, bits, bytes, counting; hint databases and tactics.
    - [Endian]: the macros of [headers/bpf_endian.h].
    - [CType]: C types as data and the layout a compiler gives them; [Vmlinux]: the types of
      [headers/vmlinux.h] the object reaches; [KernelAbi]: its enumerations and LSM hook
      prototypes; [HelperDefs]: the 180 helpers of [headers/bpf_helper_defs.h].
    - [BpfHelpers], [Tracing]: the macros of [headers/bpf_helpers.h] and
      [headers/bpf_tracing.h].
    - [Objects]: constants, shared structures and map declarations of [provenance.bpf.c].
    - [Maps]: what a BPF map promises (class [MapLaws]) and the hash and array maps that keep
      it. [Kernel]: the state the maps hold ([kstate]), what one invocation sees of the
      kernel ([env]), the monad of programs and the helpers in it, frame reasoning.
    - [Classify]: [classify_v4] and [classify_dest], and the specification by prefixes.
    - [Hooks]: every other function of the object, the five programs as the kernel enters
      them ([run_prog]), the abstract gate ([spec]) and the refinement.
    - [Fixtures]: a concrete appliance the examples are evaluated in.
    - [HookProps], [Egress], [Privilege]: the properties of the programs.
    - [Grants]: [try_consume_grant] as atomic steps, interleaved.
    - [Abi]: the contracts with the kernel and with user space.
    - [Classes]: hook and class names, class lists and masks ([main.go], [narrow.go]).
    - [Gc]: [gc.go], the collector's periodic pass.
    - [Control]: [control.go], authentication and verbs of the control socket.
    - [Broker]: [broker.go] and [grant.go] up to the approval gate, and the gate.
    - [Approval]: what runs behind the gate, the decision chain, the unit of a delegated
      child, the operator's socket and [narrow.go].
    - [System]: all of it as one transition system over the shared maps.
    - [Bytes]: byte strings, hexadecimal, UTF-8, white space and lines, as Go's library has
      them; [Sha256]: the hash function, executable; [Json]: the audit record, its line of
      JSON and what reading it back must satisfy (class [JsonReader], with an instance).
    - [Verify]: [canonical] of [main.go] and [verify.go]; [VerifyCmd]: the command.
    - [AuditLog]: the writer in [main.go]: [append], [rotate], [pruneSegments],
      [repairTornTail], [openAuditLog] over a directory of files, with every fault.
    - [AuditFiles], [AuditProps], [AuditWriter]: names and lines of the files, what the
      verifier accepts, the invariant of the writer. [ChainProps]: the guarantees of the
      chains, the chains of a concrete run, faults outside the design. [Retention]: the
      footprint. [LogClients]: what a service that appends to such a log keeps.
    - [Events]: [runCollector], [tcbCgroupIDs] and [selfCgroupPath] of [main.go], the start
      and the event loop, as a transition system ([daemon_run]) over [System] and the log;
      [EventsProps]: its properties. [MapTypes]: the values the maps can hold over any
      sequence of events.
    - [VsockMux]: [copyIdle], [splice], [serveHost], [serveGuest] and the binding of legs of
      the multiplexer; [VsockProps]: their properties.
    - [Attest]: [attest.go]; [AttestProps]: what attestation proves. [Enroll]: its enrolment,
      [doAttestEK] to [cmdAttestEnrollVerify]; [EnrollProps]: what a pin proves, against the
      promise of a TPM (class [CredentialProtection]).
    - [NetIP]: addresses, networks and host:port strings as Go's [net] has them, and the
      arithmetic of prefixes. [Allowlist]: [proxy/allowlist.go]. [Proxy]: the dial guard, the
      request, [handleConn] and the inspected relay of [proxy/proxy.go] and [mitm.go], the
      records of [proxy/audit.go], and the proxy as interleaved connections ([sys_run]) over
      the log of [AuditLog]. [GuardProps], [ProxyProps]: their properties. [ProxyRelay]:
      [splice], the deadlines and the slots of [handleConn] in time; [RelayProps]: what they
      promise, and what a peer that stalls can do. [AgentDial]:
      [proxyDial] of [agent/egress.go] against [handleConn], through splices of [VsockMux].
    - [Commands]: the client of the control socket with its retry loops, [cmdControl] of
      [control.go], [cmdEnforce] and [cmdEgress] of [main.go], against a collector whose own
      bpf() calls the programs judge ([control_server]) in the system of [System].
    - [Monitor]: the chain monitor, the collector it runs (class [Verifier]) with the text of
      verify-audit, the devices (class [Transport]) and its host (class [Host]).
      [MonitorTurns]: what a poll does to one chain. [MonitorProps]: sequences of polls.
      [MonitorHistory]: the histories a device can show, against the promise of a verifier
      (class [ChainVerifier]), which [MonitorCollector] discharges for the collector.
      [MonitorExamples]: polls of scripted devices, and where the monitor falls short.
    - [Float64]: rounding to float64. [RateLimit]: [router/ratelimit.go] and its bound.
      [Router]: the rule, configuration, providers and [handleChat], and the router as
      interleaved requests ([router_run]) over one limiter and one log. [RouterProps],
      [RouterChain]: its properties. [RouterExamples]: a configured router, evaluated.
    - [Agent]: plans and their interpreter ([planexec.go], [qresponse.go]), directives, tools
      and the loop ([protocol.go], [tools.go], [loop.go]) as programs over the calls they
      make. [AgentProps]: the quarantine. [AgentLoop]: the loop, and agents before the router
      of [Router]. [AgentPlans]: plans as text. [AgentExamples]: runs, evaluated.

    ** How the model corresponds to the code

    An [n]-bit integer is a [Z] with its conversions written out ([u8], [u32], [u64],
    [s32]); [int] parameters are converted from the 64-bit context words as [BPF_PROG]
    does. Kernel memory is a map from addresses to bytes; a pointer is a number, a member
    access adds the offset the layout of its type gives, and [bpf_probe_read_kernel] fails
    when a byte is unreadable. What the kernel decides is a parameter of the environment:
    what a failing read leaves in its destination ([fault_fill]), whether the ring buffer
    has room ([reserve_ok]), whether a hash map reuses elements ([reuse] in [Grants]).
    A map lookup returns the value instead of a pointer to it; the only place where the
    pointer matters, the compare-and-swap on a grant, is modelled with pointers in [Grants].
    The target is little-endian, as the object is built ([bpf_bpfel]).
    In user space a handler is a function from the attested caller, the request and the
    state to the reply and the new state. Handlers run under the mutexes of the code
    ([controlMu], [egressMu], [grantMu], [pendMu]), so each is one step; these exclude
    handlers of one process only, and that a read and write of one map by the broker is
    not interleaved with the collector's is a simplification of [System]. A request waiting
    for its verdict and one whose verdict has arrived but which has not run are separate
    states of [System]. What the moment supplies (file system answers, a random name part,
    the clock, whether an append or a unit start succeeds, the cryptographic digest, the
    matches of a file-name pattern) is an argument of the step, so the theorems hold for
    every answer. A missing key of a Go map reads as zero; [int] is 64 bits ([s64]).
    A directory is a map from names to contents; an open log remembers the name its handle
    was opened on, so a rename moves the handle's file. One append is one step, as its
    mutex makes it; a loss of power is a step that leaves a prefix of the line, or the
    directory between the two halves of a rotation. SHA-256 is the real function, checked
    against its published vectors and the golden digests of the repository's tests; JSON
    parsing, Ed25519, ECDSA, the parser of quotes and the TPM are parameters whose laws are
    stated where they are used and satisfied by the instances the witnesses are evaluated
    with. A connection of the proxy is a process that acts and appends records; processes
    interleave at these steps. Name resolution, the order of dial attempts, TLS handshakes
    and the requests the HTTP parser reads are inputs of a connection; the mapping of case
    outside ASCII (class [Unicode]) and [http.Request.Write] are parameters without laws.
    A request of the router is a process of the same kind: it asks the limiter, appends,
    calls one upstream, which takes two steps, and answers. Requests and replies are the
    typed values JSON carries; [net/url] is a parameter (class [URLs]) with one law on
    appended paths. A float64 is a rational that is a multiple of a power of two, and each
    operation rounds; instants are nanoseconds. A poll of the monitor threads the world
    behind the device, the collector and the host, which may answer anything. The agent is
    a finite tree of calls ([prog]); a [world] answers each call knowing all that happened
    before, so a theorem about every world is about every model, page and operator.
    The daemon is a sequence of steps: a start, an event of [System], a turn of the reader, a
    stop, a crash. A stopped process has no programs attached, since its links are not
    pinned. A peer of a splice is the list of what it sends and when, and how long each write
    to it takes; the two directions are independent, and a leg keeps the instants at which
    its slots are released. An exchange over the control socket takes time and fails before
    or after the server acted, as a script says, and other events happen in between.
    No theorem assumes that SHA-256 has no collisions: where one is needed the
    conclusion names the byte strings that collide. The one exception is the promise of a
    TPM in [EnrollProps], where names of public areas are taken as unique.

    ** What the theorems show

    - Programs: refinement of the abstract gate on every branch; the ratchet over earlier
      verdicts; exactly who is denied; TCB and observe mode are inert; bpf and connect are
      independent of grants; a grant acts on its own key only and is worth exactly one
      operation over any sequence of invocations; the configuration cannot be changed; a
      denial is exactly a record (1, 1); every connect is recorded; the programs keep the
      maps well-formed.
    - Egress: the classifier computes the address-plan specification and depends on the
      [addrlen] bytes only; IPv4-mapped addresses are no bypass; the end-to-end decision;
      shrinking a manifest never widens.
    - Privilege: setuid is denied exactly on acquiring effective uid 0, capset exactly on a
      raise in one of the three sets; what failed reads do.
    - Concurrency: no double spend under any interleaving; exactly one winner of a race,
      within four steps per thread; no crossing of keys unless the kernel reuses elements,
      in which case there is one; agreement with the sequential function.
    - Interfaces: layouts are sound, offsets are the kernel's, records survive their encoding, programs match their hooks' prototypes, helper numbers match, byte
      swaps agree, register accessors agree (with one exception), variadic macros count.
    - Control socket: agents are confined to their own entries and can never touch flags or
      TCB list; only the broker's own cgroup, as the collector resolves it, joins the TCB.
    - Broker: the gate is bounded and decides each request at most once; approved actions
      change only the requester and only within the ceiling; delegation attenuates; nothing
      an agent supplies reaches unit syntax; every gated request is audited; the operator's
      socket only narrows.
    - Garbage collection: only the dead lose entries, and they do lose them; the TCB list is
      reconciled.
    - System: over every sequence of events, operations that pass thanks to a grant never
      exceed operator approvals; without root nothing is gained.
    - Audit chains: a stat, write, sync, rename or reopening may fail and power may be lost at
      any time; then the verifier accepts what the writer leaves and the writer continues from
      the head the verifier computes, provided that what the writer does to recover succeeds:
      the truncation after a failed write, the rename that undoes a rotation, the repair of the
      tail at boot, and removals from the oldest segment on ([tame]). Two lemmas show chains
      that break otherwise. Under the same condition acknowledged records stay, except in whole
      segments pruned from the oldest on; the footprint is bounded; equal heads mean equal
      records; a chain in which an earlier head is found begins with what had that head;
      chains of different domains cannot be exchanged; verify-audit fails closed. The theorems
      on the daemon's, the proxy's and the router's chains have the same condition.
    - Daemon: the chain of the collector tells verdicts of the programs, in order, each at
      most once, denied exactly if denied; no verdict is lost while the daemon runs; the
      reader and the programs agree on every byte of a record; a start observes only.
    - Maps: from a start on, no event of the system writes a value the programs do not expect
      or exceeds a capacity.
    - Commands: the bpf() calls of the collector are judged like any others; since its start
      lists its own cgroup and its ticks keep it, the switch works with the bpf hook armed,
      while direct writes from other cgroups fail; the retry loops end.
    - Multiplexer: a splice is transparent and bounded in time; a leg never wedges, reaches
      the operator's target only, and follows no planted link; accept errors do not end it.
    - Attestation: a passed gate, and an accepted quote, mean that the kernel programs deny;
      a quote binds nonce and heads; the boot register is extended once; an honest box
      verifies; the retry loop ends; a pin is written only for a key in the TPM that owns the
      challenged endorsement key, and an honest box obtains one.
    - Egress proxy: under every interleaving, fault and loss of power, bytes flow only to a
      validated, permitted, guarded and recorded destination, inspected where the policy
      says so; the records stay on the chain; the guard is its list of prefixes and denies
      whatever the kernel's classifier does not call public; the destination is parsed once;
      the policy means the entries of its file; the relay is transparent and its slots recover
      as long as peers take what they are sent, and only then; a tunnel the agent gets is one
      the proxy admitted for the destination the agent sent, to an address the guard admitted,
      with no byte lost.
    - Monitor: what it accepts over any sequence of polls is one history; of 3T polls one
      verifies or alerts; every poll accounts for key, quote and chains. The first two are for
      a host on which every load and save of the monitor's state succeeds (class [Durable]).
    - Router: a paid call needs a long prompt that its client did not keep local, a token and an
      acknowledged record, and is the only one of its request; its record stays on the chain; keys go to their own hosts
      only; the volume of paid calls is bounded by bursts, rate and rounding.
    - Agent: in quarantine the calls are those of the plan, in its order, whatever pages
      say; two worlds with one plan make calls of one shape; plans survive being printed; the
      loop is bounded and its tools are validated; agents drive no paid call of the router.

    ** Bounds

    Fuel is used in [run_thread], where four steps are proved enough; in [Itoa], where twenty
    digits hold every 64-bit number ([digits_Itoa]); in [copyIdle], where the bytes and chunks
    of the source are enough ([copyIdle_total], and [cp_total] for the proxy's loop); in
    [rpc_loop], where the pauses of 62 turns fill the window ([client_ends]); and in [nv_chunks], where 17 turns read the 8192 bytes
    that are allowed ([nv_chunks_read]). Layouts and tables
    are computed; tables are compared by evaluation. The gate's counter is a [uint64]: its
    theorem is about fewer than 2^64 events, as is the writer's (segment numbers are [uint64]).
    Decoding UTF-8 has the length of the string as fuel, proved enough
    ([chunks_fuel_enough]). The guard recurses once, into an address carried by another
    ([internal_fuel 1]); the carried address is IPv4 and needs no further step
    ([internal_IPv4]). The bound on paid calls is for rates up to 2^52 per minute, which
    float64 represents exactly. Event strings are assumed to have at most 2^18 bytes in all, so
    that a line stays below the 8 MiB the verifier scans.

    ** Not modelled

    The BPF verifier, the loader and the JIT; the types of [vmlinux.h] the object does not
    reach; section and attribute macros, which have no behaviour. Of user space: a start of
    the collector that fails half-way, which ends the process; the probes, the self-test and
    the printing of status; the human-readable claims of an envelope. In [Control] and
    [Approval] an append to a chain either happens or fails; how is [AuditLog]. Of the proxy:
    leaf certificates and the provisioning of the CA. Of the router: the HTTP server, its time
    limits and the pages other than chat. Of the monitor: the metrics it renders, the command
    it runs per alert and its loop. Of the agent: the probes and the mock model; of the
    multiplexer: its probe and stub modes and the system calls behind a vsock connection. *)
From Stdlib Require Import ZArith Lia Btauto.
From stdpp Require Import base tactics numbers strings gmap list.

Declare Scope bulkhead_scope.
Delimit Scope bulkhead_scope with bulkhead.
#[local] Open Scope Z_scope.

(** ** Machine integers

    A [w]-bit unsigned integer is a [Z] in [[0, 2^w)]; [wrap w] is the reduction
    the C conversions and the unsigned operators perform. *)
Definition wrap (w x : Z) : Z := x mod 2 ^ w.

Definition u8 (x : Z) : Z := wrap 8 x.
Definition u16 (x : Z) : Z := wrap 16 x.
Definition u32 (x : Z) : Z := wrap 32 x.
Definition u64 (x : Z) : Z := wrap 64 x.

(** Conversion to [int]: 32 bits, two's complement. *)
Definition s32 (x : Z) : Z :=
  let y := wrap 32 x in if y <? 2 ^ 31 then y else y - 2 ^ 32.

(** Go's [int] on the target: 64 bits, two's complement. *)
Definition s64 (x : Z) : Z :=
  let y := wrap 64 x in if y <? 2 ^ 63 then y else y - 2 ^ 64.

(** The values of a [w]-bit unsigned type. *)
Definition in_width (w x : Z) : Prop := 0 <= x < 2 ^ w.

(** ** The development's hint databases *)
Create HintDb words.
Create Rewrite HintDb bits.
Create HintDb frame.

Lemma wrap_in_width w x : 0 <= w -> in_width w (wrap w x).
Proof. intros ?. apply Z.mod_pos_bound, Z.pow_pos_nonneg; lia. Qed.

Lemma wrap_id w x : in_width w x -> wrap w x = x.
Proof. apply Z.mod_small. Qed.

Lemma wrap_wrap w x : wrap w (wrap w x) = wrap w x.
Proof.
  unfold wrap. destruct (Z.eq_dec (2 ^ w) 0) as [->|?].
  - by rewrite !Z.mod_0_r.
  - by apply Z.mod_mod.
Qed.

Lemma wrap_land w x : 0 <= w -> wrap w x = Z.land x (Z.ones w).
Proof. intros ?. unfold wrap. by rewrite Z.land_ones. Qed.

Lemma s32_small x : 0 <= x < 2 ^ 31 -> s32 x = x.
Proof.
  intros ?. unfold s32. rewrite wrap_id by (unfold in_width; lia).
  destruct (Z.ltb_spec x (2 ^ 31)); lia.
Qed.

#[export] Hint Resolve wrap_in_width : words.

(** ** Bits

    [bitwise] proves an equality of two bit expressions by comparing every bit:
    the [bits] database pushes [Z.testbit] through the operators. *)
Lemma testbit_wrap w x i :
  0 <= w -> 0 <= i -> Z.testbit (wrap w x) i = (i <? w) && Z.testbit x i.
Proof.
  intros ??. unfold wrap. destruct (Z.ltb_spec i w) as [?|?]; simpl.
  - by rewrite Z.mod_pow2_bits_low by lia.
  - by rewrite Z.mod_pow2_bits_high by lia.
Qed.

Lemma testbit_shiftl x k i :
  0 <= i -> Z.testbit (Z.shiftl x k) i = (k <=? i) && Z.testbit x (i - k).
Proof.
  intros ?. rewrite Z.shiftl_spec by lia.
  destruct (Z.leb_spec k i); simpl; [done|].
  by rewrite Z.testbit_neg_r by lia.
Qed.

Lemma testbit_shiftr x k i :
  0 <= i -> Z.testbit (Z.shiftr x k) i = Z.testbit x (i + k).
Proof. intros. by rewrite Z.shiftr_spec. Qed.

#[export] Hint Rewrite Z.land_spec Z.lor_spec Z.lxor_spec Z.ldiff_spec
  Z.bits_0 : bits.
#[export] Hint Rewrite testbit_wrap testbit_shiftl testbit_shiftr Z.lnot_spec
  using lia : bits.

Ltac bitwise_intro i Hi :=
  apply Z.bits_inj'; intros i Hi; autorewrite with bits.

(** Decide every integer comparison the goal tests, then close by boolean algebra. *)
Ltac split_ltb :=
  repeat match goal with
         | |- context [?a <? ?b] => destruct (Z.ltb_spec a b); try lia
         | |- context [?a <=? ?b] => destruct (Z.leb_spec a b); try lia
         end; simpl.

Ltac bitwise :=
  let i := fresh "i" in let Hi := fresh "Hi" in
  bitwise_intro i Hi; split_ltb;
  repeat (rewrite Z.testbit_neg_r by lia);
  rewrite ?andb_false_r, ?andb_true_r, ?orb_false_r, ?orb_true_r; simpl;
  try solve [reflexivity | btauto | repeat f_equal; lia].

Lemma testbit_above w x i : in_width w x -> 0 <= w <= i -> Z.testbit x i = false.
Proof.
  intros Hx ?. rewrite <- (wrap_id w x Hx), testbit_wrap by lia.
  destruct (Z.ltb_spec i w); [lia|done].
Qed.

(** A mask has no bit outside another one exactly when it is a subset of it. *)
Definition subset_mask (a b : Z) : Prop := forall i, 0 <= i -> Z.testbit a i -> Z.testbit b i.

Lemma ldiff_0_subset a b : Z.ldiff a b = 0 <-> subset_mask a b.
Proof.
  split.
  - intros H i Hi Ha. apply (f_equal (fun z => Z.testbit z i)) in H.
    rewrite Z.ldiff_spec, Z.bits_0 in H. destruct (Z.testbit a i), (Z.testbit b i); done.
  - intros H. apply Z.bits_inj'. intros i Hi. rewrite Z.ldiff_spec, Z.bits_0.
    specialize (H i Hi). destruct (Z.testbit a i), (Z.testbit b i); naive_solver.
Qed.

(** Testing a single bit with a mask. *)
Lemma land_pow2 m k : 0 <= k -> (Z.land m (2 ^ k) =? 0) = negb (Z.testbit m k).
Proof.
  intros Hk. apply eq_true_iff_eq. rewrite Z.eqb_eq, negb_true_iff. split.
  - intros H. apply (f_equal (fun z => Z.testbit z k)) in H.
    rewrite Z.land_spec, Z.bits_0, Z.pow2_bits_true, andb_true_r in H by lia. done.
  - intros H. apply Z.bits_inj'. intros i Hi. rewrite Z.land_spec, Z.bits_0, Z.pow2_bits_eqb by lia.
    destruct (Z.eqb_spec k i) as [->|?]; [by rewrite H|apply andb_false_r].
Qed.

(** ** Bytes, least significant first *)
Fixpoint le_combine (bs : list Z) : Z :=
  match bs with
  | [] => 0
  | b :: bs => b + 256 * le_combine bs
  end.

Fixpoint le_split (n : nat) (x : Z) : list Z :=
  match n with
  | O => []
  | S n => x mod 256 :: le_split n (x / 256)
  end.

Definition is_byte (b : Z) : Prop := 0 <= b < 256.

Lemma length_le_split n x : length (le_split n x) = n.
Proof. revert x; induction n; intros; simpl; auto. Qed.

Lemma le_split_bytes n x : Forall is_byte (le_split n x).
Proof.
  revert x; induction n; intros; simpl; constructor; auto.
  apply Z.mod_pos_bound; lia.
Qed.

Lemma le_combine_split n x : le_combine (le_split n x) = x mod 256 ^ Z.of_nat n.
Proof.
  revert x; induction n as [|n IH]; intros x; [by rewrite Z.mod_1_r|].
  cbn [le_split le_combine]. rewrite IH, Nat2Z.inj_succ, Z.pow_succ_r by lia.
  rewrite Z.rem_mul_r; lia.
Qed.

Lemma le_split_combine bs :
  Forall is_byte bs -> le_split (length bs) (le_combine bs) = bs.
Proof.
  unfold is_byte. induction 1 as [|b bs Hb Hbs IH]; [done|]. cbn [length le_split le_combine].
  rewrite Z.mul_comm, Z.mod_add, Z.div_add, (Z.div_small b), (Z.mod_small b) by lia.
  by rewrite Z.add_0_l, IH.
Qed.

Lemma le_combine_bound bs :
  Forall is_byte bs -> 0 <= le_combine bs < 256 ^ Z.of_nat (length bs).
Proof.
  intros H. rewrite <- (le_split_combine bs H), le_combine_split, length_le_split.
  apply Z.mod_pos_bound, Z.pow_pos_nonneg; lia.
Qed.

Lemma le_combine_cons_lor b bs :
  is_byte b -> le_combine (b :: bs) = Z.lor b (Z.shiftl (le_combine bs) 8).
Proof.
  intros Hb. cbn [le_combine].
  replace (256 * le_combine bs) with (Z.shiftl (le_combine bs) 8)
    by (rewrite Z.shiftl_mul_pow2; lia).
  apply Z.add_nocarry_lor. bitwise_intro i Hi.
  destruct (Z.leb_spec 8 i); [|apply andb_false_r].
  by rewrite (testbit_above 8) by (unfold in_width, is_byte in *; lia).
Qed.

(** Bit [8k + j] of a little-endian byte list is bit [j] of its byte [k]. *)
Lemma testbit_le_combine bs (k : nat) j :
  Forall is_byte bs -> 0 <= j < 8 ->
  Z.testbit (le_combine bs) (8 * Z.of_nat k + j) = Z.testbit (nth k bs 0) j.
Proof.
  intros Hbs Hj. revert k. induction Hbs as [|b bs Hb Hbs IH]; intros k.
  - destruct k; cbn [nth]; by rewrite !Z.bits_0.
  - rewrite le_combine_cons_lor, Z.lor_spec, testbit_shiftl by (auto; lia).
    destruct k as [|k]; cbn [nth].
    + replace (8 * Z.of_nat 0 + j) with j by lia. split_ltb. by rewrite orb_false_r.
    + rewrite (testbit_above 8) by (unfold in_width, is_byte in *; lia).
      rewrite <- IH. split_ltb. f_equal; lia.
Qed.

Lemma nth_le_split n x (k : nat) :
  (k < n)%nat -> nth k (le_split n x) 0 = (x / 256 ^ Z.of_nat k) mod 256.
Proof.
  revert x k; induction n as [|n IH]; intros x k Hk; [lia|]. cbn [le_split].
  destruct k as [|k]; cbn [nth].
  - by rewrite Z.div_1_r.
  - rewrite IH, Nat2Z.inj_succ, Z.pow_succ_r, Z.div_div by lia. done.
Qed.

Lemma testbit_nth_le_split n x (k : nat) j :
  (k < n)%nat -> 0 <= j < 8 ->
  Z.testbit (nth k (le_split n x) 0) j = Z.testbit x (8 * Z.of_nat k + j).
Proof.
  intros Hk Hj. rewrite nth_le_split by done.
  replace (256 ^ Z.of_nat k) with (2 ^ (8 * Z.of_nat k))
    by (rewrite Z.pow_mul_r by lia; done).
  change 256 with (2 ^ 8). rewrite Z.mod_pow2_bits_low by lia.
  rewrite Z.div_pow2_bits by lia. f_equal; lia.
Qed.

(** A decidable property of all bytes, by enumeration. *)
Lemma byte_forall (P : Z -> bool) b :
  forallb P (Z.of_nat <$> seq 0 256) = true -> is_byte b -> P b = true.
Proof.
  intros HP Hb. rewrite forallb_forall in HP. apply HP, list_elem_of_In, list_elem_of_fmap.
  exists (Z.to_nat b). unfold is_byte in Hb. split; [lia|]. apply elem_of_seq. lia.
Qed.

Lemma le_combine_inj a b :
  length a = length b -> Forall is_byte a -> Forall is_byte b ->
  le_combine a = le_combine b -> a = b.
Proof.
  intros Hl Ha Hb H. rewrite <- (le_split_combine a Ha), <- (le_split_combine b Hb).
  by rewrite Hl, H.
Qed.

Lemma le_combine_app a b :
  le_combine (a ++ b) = le_combine a + 256 ^ Z.of_nat (length a) * le_combine b.
Proof.
  induction a as [|x a IH]; cbn [app le_combine length]; [change (Z.of_nat 0) with 0; lia|].
  rewrite IH, Nat2Z.inj_succ, Z.pow_succ_r by lia. lia.
Qed.

(** ** Counting

    How many elements of a list, or entries of a map, satisfy a test, and how the count
    changes when one element is replaced. *)
Definition count_if {A} (f : A -> bool) (l : list A) : nat := length (filter (fun x => f x = true) l).

Lemma count_if_cons {A} (f : A -> bool) x l : count_if f (x :: l) = ((if f x then 1 else 0) + count_if f l)%nat.
Proof.
  unfold count_if. destruct (f x) eqn:E; [by rewrite filter_cons_True|].
  rewrite filter_cons_False; [done|congruence].
Qed.

Lemma count_if_app {A} (f : A -> bool) l l' : count_if f (l ++ l') = (count_if f l + count_if f l')%nat.
Proof. unfold count_if. by rewrite filter_app, length_app. Qed.

Lemma count_if_true {A} (l : list A) : count_if (fun _ => true) l = length l.
Proof. induction l as [|x l IH]; [done|]. rewrite count_if_cons, IH. done. Qed.

Lemma count_if_insert {A} (f : A -> bool) (i : nat) x y l :
  l !! i = Some x ->
  (count_if f (<[i := y]> l) + (if f x then 1 else 0))%nat = (count_if f l + (if f y then 1 else 0))%nat.
Proof.
  revert i; induction l as [|z l IH]; intros [|i] Hi; [done..| |].
  - injection Hi as ->. change (<[0%nat := y]> (x :: l)) with (y :: l). rewrite !count_if_cons. lia.
  - change (<[S i := y]> (z :: l)) with (z :: <[i := y]> l). rewrite !count_if_cons.
    specialize (IH i Hi). lia.
Qed.

Lemma sum_list_with_insert {A} (f : A -> nat) (i : nat) x y l :
  l !! i = Some x ->
  (sum_list_with f (<[i := y]> l) + f x)%nat = (sum_list_with f l + f y)%nat.
Proof.
  revert i; induction l as [|z l IH]; intros [|i] Hi; [done..| |].
  - injection Hi as ->. simpl. lia.
  - change (<[S i := y]> (z :: l)) with (z :: <[i := y]> l). cbn [sum_list_with].
    specialize (IH i Hi). lia.
Qed.

Section count_map.
  Context {K A : Type} `{Countable K}.

Definition count_map (f : K -> A -> bool) (m : gmap K A) : nat :=
  size (filter (fun p => f p.1 p.2 = true) m).

Lemma count_map_insert f k y m :
  (count_map f (<[k := y]> m) + (if m !! k is Some x then if f k x then 1 else 0 else 0))%nat
  = (count_map f m + (if f k y then 1 else 0))%nat.
Proof.
  unfold count_map. set (P := fun p : K * A => f p.1 p.2 = true).
  rewrite <- (insert_delete_eq m k y).
  assert (forall m' : gmap K A, m' !! k = None ->
    size (filter P (<[k := y]> m')) = (size (filter P m') + (if f k y then 1 else 0))%nat) as Hins.
  { intros m' Hk. destruct (f k y) eqn:E.
    - rewrite map_filter_insert_True, map_size_insert_None by (done || by apply map_lookup_filter_None_2; left). lia.
    - rewrite map_filter_insert_False, delete_id by (done || unfold P; simpl; congruence). lia. }
  rewrite Hins by apply lookup_delete_eq. rewrite map_filter_delete, map_size_delete.
  destruct (m !! k) as [x|] eqn:Hk.
  - destruct (f k x) eqn:E.
    + assert (filter P m !! k = Some x) as Hf by (by apply map_lookup_filter_Some_2).
      rewrite Hf. assert (size (filter P m) <> 0%nat); [|lia].
      intros Hs%map_size_empty_iff. by rewrite Hs in Hf.
    + assert (filter P m !! k = None) as ->; [|unfold id; lia]. apply map_lookup_filter_None_2. right.
      intros x' Hx' HP. unfold P in HP. simpl in HP. congruence.
  - assert (filter P m !! k = None) as -> by (apply map_lookup_filter_None_2; by left). unfold id. lia.
Qed.

Lemma count_map_ext f g m :
  (forall k x, m !! k = Some x -> f k x = g k x) -> count_map f m = count_map g m.
Proof.
  intros Hfg. unfold count_map. f_equal. apply map_filter_ext. intros k x Hk. simpl.
  by rewrite (Hfg k x Hk).
Qed.
End count_map.
