(* ===== verification/Endian.v ===== *)
(** * Byte order: [headers/bpf_endian.h] *)
From Stdlib Require Import ZArith Lia Btauto.
From stdpp Require Import base tactics numbers list.
From S2P Require Import Prelude.
#[local] Open Scope Z_scope.

(** [___bpf_mvb(x, b, n, m)]: isolate byte [n] of an [__u##b] and move it to byte [m].
    The shifts are computed at the promoted width of [__u##b]: [int] (32 bits) for
    [__u16], the type's own width otherwise. *)
Definition ___bpf_mvb (b x n m : Z) : Z :=
  let w := Z.max b 32 in
  wrap w (Z.shiftl (Z.shiftr (wrap w (Z.shiftl (wrap b x) (b - (n + 1) * 8))) (b - 8)) (m * 8)).

Definition ___bpf_swab16 (x : Z) : Z :=
  u16 (Z.lor (___bpf_mvb 16 x 0 1) (___bpf_mvb 16 x 1 0)).

Definition ___bpf_swab32 (x : Z) : Z :=
  u32 (Z.lor (Z.lor (Z.lor (___bpf_mvb 32 x 0 3) (___bpf_mvb 32 x 1 2))
                    (___bpf_mvb 32 x 2 1)) (___bpf_mvb 32 x 3 0)).

Definition ___bpf_swab64 (x : Z) : Z :=
  u64 (Z.lor (Z.lor (Z.lor (Z.lor (Z.lor (Z.lor (Z.lor
        (___bpf_mvb 64 x 0 7) (___bpf_mvb 64 x 1 6)) (___bpf_mvb 64 x 2 5))
        (___bpf_mvb 64 x 3 4)) (___bpf_mvb 64 x 4 3)) (___bpf_mvb 64 x 5 2))
        (___bpf_mvb 64 x 6 1)) (___bpf_mvb 64 x 7 0)).

(** The compiler's [__builtin_bswap{16,32,64}]: the [n] bytes of the operand reversed. *)
Definition __builtin_bswap (n : nat) (x : Z) : Z := le_combine (rev (le_split n x)).

(** [__BYTE_ORDER__], and the conversion macros it selects. A macro applied to a
    compile-time constant ([constp], [__builtin_constant_p]) expands to the [swab]
    macro, otherwise to the builtin. *)
Inductive byte_order := LittleEndian | BigEndian.

Definition bpf_swap16 (o : byte_order) (constp : bool) (x : Z) : Z :=
  match o with
  | LittleEndian => if constp then ___bpf_swab16 x else __builtin_bswap 2 x
  | BigEndian => x
  end.

Definition bpf_swap32 (o : byte_order) (constp : bool) (x : Z) : Z :=
  match o with
  | LittleEndian => if constp then ___bpf_swab32 x else __builtin_bswap 4 x
  | BigEndian => x
  end.

Definition bpf_swap64 (o : byte_order) (constp : bool) (x : Z) : Z :=
  match o with
  | LittleEndian => if constp then ___bpf_swab64 x else __builtin_bswap 8 x
  | BigEndian => x
  end.

Definition bpf_htons := bpf_swap16.
Definition bpf_ntohs := bpf_swap16.
Definition bpf_htonl := bpf_swap32.
Definition bpf_ntohl := bpf_swap32.
Definition bpf_cpu_to_be64 := bpf_swap64.
Definition bpf_be64_to_cpu := bpf_swap64.

Example swab16_ex : ___bpf_swab16 0x1234 = 0x3412. Proof. vm_compute. reflexivity. Qed.
Example swab32_ex : ___bpf_swab32 0x12345678 = 0x78563412. Proof. vm_compute. reflexivity. Qed.
Example swab64_ex : ___bpf_swab64 0x123456789abcdef0 = 0xf0debc9a78563412. Proof. vm_compute. reflexivity. Qed.

(** ** The builtin reverses bytes *)
Lemma rev_bytes n x : Forall is_byte (rev (le_split n x)).
Proof. rewrite <- (Permutation_rev (le_split n x)). apply le_split_bytes. Qed.

Lemma testbit_bswap n x (k : nat) j :
  (k < n)%nat -> 0 <= j < 8 ->
  Z.testbit (__builtin_bswap n x) (8 * Z.of_nat k + j)
  = Z.testbit x (8 * (Z.of_nat n - 1 - Z.of_nat k) + j).
Proof.
  intros Hk Hj. unfold __builtin_bswap.
  rewrite testbit_le_combine by auto using rev_bytes.
  rewrite rev_nth, length_le_split by (rewrite length_le_split; lia).
  rewrite testbit_nth_le_split by lia. f_equal. lia.
Qed.

Lemma bswap_bound n x : 0 <= __builtin_bswap n x < 256 ^ Z.of_nat n.
Proof.
  unfold __builtin_bswap. pose proof (le_combine_bound _ (rev_bytes n x)) as H.
  by rewrite length_rev, length_le_split in H.
Qed.

Lemma bswap_involutive n x :
  __builtin_bswap n (__builtin_bswap n x) = x mod 256 ^ Z.of_nat n.
Proof.
  unfold __builtin_bswap. rewrite <- (length_le_split n x) at 1. rewrite <- length_rev.
  rewrite le_split_combine by apply rev_bytes.
  by rewrite rev_involutive, le_combine_split.
Qed.

(** Bits of one [___bpf_mvb] term at the widths where no promotion occurs. *)
Lemma testbit_mvb b x n m i :
  32 <= b -> 0 <= n -> (n + 1) * 8 <= b -> 0 <= m -> (m + 1) * 8 <= b -> 0 <= i ->
  Z.testbit (___bpf_mvb b x n m) i
  = (m * 8 <=? i) && (i <? m * 8 + 8) && Z.testbit x (i - m * 8 + n * 8).
Proof.
  intros ??????. unfold ___bpf_mvb. cbv zeta.
  replace (Z.max b 32) with b by lia. autorewrite with bits.
  destruct (Z.leb_spec (m * 8) i); simpl; [|by rewrite andb_false_r].
  rewrite testbit_shiftr, !testbit_wrap, testbit_shiftl, testbit_wrap by lia.
  split_ltb; try done. f_equal; lia.
Qed.

Lemma testbit_bswap_at n x i (k : nat) :
  (k < n)%nat -> 8 * Z.of_nat k <= i < 8 * Z.of_nat k + 8 ->
  Z.testbit (__builtin_bswap n x) i
  = Z.testbit x (i + 8 * (Z.of_nat n - 1 - 2 * Z.of_nat k)).
Proof.
  intros Hk Hi. replace i with (8 * Z.of_nat k + (i - 8 * Z.of_nat k)) at 1 by lia.
  rewrite testbit_bswap by lia. f_equal; lia.
Qed.

Lemma bswap_above n x i : 8 * Z.of_nat n <= i -> Z.testbit (__builtin_bswap n x) i = false.
Proof.
  intros Hi. apply (testbit_above (8 * Z.of_nat n)); [|lia].
  unfold in_width. rewrite Z.pow_mul_r by lia. apply bswap_bound.
Qed.

(** Locate bit [i] in its byte: fails unless [i] lies in byte [k]. *)
Ltac in_byte n k i :=
  rewrite (testbit_bswap_at n _ i k) by lia; split_ltb;
  rewrite ?orb_false_r; f_equal; lia.

Lemma swab16_builtin x : ___bpf_swab16 x = __builtin_bswap 2 x.
Proof.
  apply Z.bits_inj'. intros i Hi. unfold ___bpf_swab16, ___bpf_mvb, u16. cbv zeta.
  change (Z.max 16 32) with 32.
  rewrite testbit_wrap, Z.lor_spec, !(testbit_wrap 32), !testbit_shiftl by lia.
  destruct (Z.ltb_spec i 16); simpl; [|by rewrite bswap_above by lia].
  assert (i < 8 \/ 8 <= i) as [?|?] by lia.
  - rewrite (testbit_bswap_at 2 _ i 0) by lia. split_ltb.
    rewrite testbit_shiftr, testbit_wrap, testbit_shiftl, testbit_wrap by lia. split_ltb. f_equal; lia.
  - rewrite (testbit_bswap_at 2 _ i 1) by lia. split_ltb.
    rewrite !testbit_shiftr, !(testbit_wrap 32), !testbit_shiftl, !testbit_wrap by lia. split_ltb.
    rewrite orb_false_r. f_equal; lia.
Qed.

Lemma swab32_builtin x : ___bpf_swab32 x = __builtin_bswap 4 x.
Proof.
  apply Z.bits_inj'. intros i Hi. unfold ___bpf_swab32, u32.
  rewrite testbit_wrap, !Z.lor_spec, !testbit_mvb by lia.
  destruct (Z.ltb_spec i 32); simpl; [|by rewrite bswap_above by lia].
  assert (i < 8 \/ 8 <= i < 16 \/ 16 <= i < 24 \/ 24 <= i) as [?|[?|[?|?]]] by lia;
    [in_byte 4%nat 0%nat i|in_byte 4%nat 1%nat i|in_byte 4%nat 2%nat i|in_byte 4%nat 3%nat i].
Qed.

Lemma swab64_builtin x : ___bpf_swab64 x = __builtin_bswap 8 x.
Proof.
  apply Z.bits_inj'. intros i Hi. unfold ___bpf_swab64, u64.
  rewrite testbit_wrap, !Z.lor_spec, !testbit_mvb by lia.
  destruct (Z.ltb_spec i 64); simpl; [|by rewrite bswap_above by lia].
  assert (i < 8 \/ 8 <= i < 16 \/ 16 <= i < 24 \/ 24 <= i < 32 \/ 32 <= i < 40
          \/ 40 <= i < 48 \/ 48 <= i < 56 \/ 56 <= i) as [?|[?|[?|[?|[?|[?|[?|?]]]]]]] by lia;
    [in_byte 8%nat 0%nat i|in_byte 8%nat 1%nat i|in_byte 8%nat 2%nat i|in_byte 8%nat 3%nat i
    |in_byte 8%nat 4%nat i|in_byte 8%nat 5%nat i|in_byte 8%nat 6%nat i|in_byte 8%nat 7%nat i].
Qed.

(** Bytes, most significant first, and a native load in either byte order. *)
Definition be_combine (bs : list Z) : Z := le_combine (rev bs).

Definition load (o : byte_order) (bs : list Z) : Z :=
  match o with LittleEndian => le_combine bs | BigEndian => be_combine bs end.

Lemma bpf_swap32_constp o c x : bpf_swap32 o c x = bpf_swap32 o false x.
Proof. destruct o, c; cbn [bpf_swap32]; [apply swab32_builtin|done..]. Qed.

Lemma bpf_swap32_load o c bs :
  Forall is_byte bs -> length bs = 4%nat -> bpf_swap32 o c (load o bs) = be_combine bs.
Proof.
  intros Hbs Hlen. rewrite bpf_swap32_constp. destruct o; [|done].
  cbn [bpf_swap32 load]. unfold __builtin_bswap. rewrite <- Hlen.
  by rewrite le_split_combine.
Qed.

Lemma be_combine_app a b :
  be_combine (a ++ b) = be_combine a * 256 ^ Z.of_nat (length b) + be_combine b.
Proof. unfold be_combine. rewrite rev_app_distr, le_combine_app, length_rev. lia. Qed.

Lemma be_combine_bound bs :
  Forall is_byte bs -> 0 <= be_combine bs < 256 ^ Z.of_nat (length bs).
Proof.
  intros H. unfold be_combine. rewrite <- length_rev. apply le_combine_bound.
  by rewrite <- (Permutation_rev bs).
Qed.

(** A stored word equals a constant converted to network order exactly when its bytes,
    read most significant first, are that constant. *)
Lemma load_eqb_htonl c v bs :
  Forall is_byte bs -> length bs = 4%nat -> 0 <= v < 2 ^ 32 ->
  (le_combine bs =? bpf_htonl LittleEndian c v) = (be_combine bs =? v).
Proof.
  intros Hbs Hlen Hv. unfold bpf_htonl. rewrite bpf_swap32_constp. cbn [bpf_swap32].
  pose proof (bpf_swap32_load LittleEndian false bs Hbs Hlen) as Hl. cbn [bpf_swap32 load] in Hl.
  pose proof (bswap_involutive 4 v) as Hi. pose proof (bswap_involutive 4 (le_combine bs)) as Hj.
  change (256 ^ Z.of_nat 4) with (2 ^ 32) in *. rewrite Z.mod_small in Hi by lia.
  pose proof (le_combine_bound bs Hbs) as Hb. rewrite Hlen in Hb.
  change (256 ^ Z.of_nat 4) with (2 ^ 32) in Hb. rewrite Z.mod_small, Hl in Hj by lia.
  apply eq_true_iff_eq. rewrite !Z.eqb_eq. split; intros H; congruence.
Qed.
