(* ===== verification/CType.v ===== *)
(** * C object layout

    The types of [headers/vmlinux.h] as data, and the layout the compiler gives them on
    the little-endian LP64 targets of the object (sizes, alignments, member offsets,
    bit-fields). Offsets inside a structure are in bits, because of the bit-fields. *)
From Stdlib Require Import ZArith Znumtheory Lia.
From stdpp Require Import base tactics numbers strings option sets list.
From S2P Require Import Prelude.
#[local] Open Scope Z_scope.

(** A member declaration: its name ([""] when it has none), its width if it is a
    bit-field, its type. *)
Record fdecl (T : Type) := Field { f_name : string; f_bits : option Z; f_type : T }.
Arguments Field {T}.
Arguments f_name {T}.
Arguments f_bits {T}.
Arguments f_type {T}.

Inductive ctype :=
| CInt (size : Z) (signed : bool)
| CEnum (enumerators : list (string * Z))
| CPtr (pointee : string)
| CArray (t : ctype) (n : Z)
| CStruct (fs : list (fdecl ctype))
| CUnion (fs : list (fdecl ctype)).

Definition member (n : string) (t : ctype) : fdecl ctype := Field n None t.
Definition bitfield (n : string) (t : ctype) (w : Z) : fdecl ctype := Field n (Some w) t.

(** ** Placement of members *)
Definition align_up (x a : Z) : Z := (x + a - 1) / a * a.

(** What placement needs to know of a member: declared width, size and alignment of its
    type in bytes, and whether it has a name (an unnamed bit-field does not raise the
    alignment of the structure). *)
Record slot := Slot { s_bits : option Z; s_size : Z; s_align : Z; s_named : bool }.

Definition width (s : slot) : Z :=
  match s_bits s with None => 8 * s_size s | Some w => w end.

(** The first bit of a member placed at or after bit [pos]. A bit-field may not straddle
    a boundary of its declared type; one of width zero only closes the current unit. *)
Definition place (pos : Z) (s : slot) : Z :=
  match s_bits s with
  | None => align_up pos (8 * s_align s)
  | Some w =>
      let u := 8 * s_size s in
      if (w =? 0) || negb (pos / u =? (pos + w - 1) / u) then align_up pos u else pos
  end.

Fixpoint offsets (pos : Z) (ss : list slot) : list Z :=
  match ss with
  | [] => []
  | s :: ss => place pos s :: offsets (place pos s + width s) ss
  end.

Fixpoint end_of (pos : Z) (ss : list slot) : Z :=
  match ss with
  | [] => pos
  | s :: ss => end_of (place pos s + width s) ss
  end.

Definition raises_align (s : slot) : bool :=
  match s_bits s with None => true | Some _ => s_named s end.

Fixpoint comp_align (ss : list slot) : Z :=
  match ss with
  | [] => 1
  | s :: ss => if raises_align s then Z.max (s_align s) (comp_align ss) else comp_align ss
  end.

Definition struct_size (ss : list slot) : Z :=
  align_up (end_of 0 ss) (8 * comp_align ss) / 8.

Fixpoint widest (ss : list slot) : Z :=
  match ss with [] => 0 | s :: ss => Z.max (width s) (widest ss) end.

Definition union_size (ss : list slot) : Z :=
  align_up (widest ss) (8 * comp_align ss) / 8.

Definition slot_of {T} (lay : T -> Z * Z) (f : fdecl T) : slot :=
  let '(s, a) := lay (f_type f) in Slot (f_bits f) s a (negb (bool_decide (f_name f = ""%string))).

(** Size and alignment, in bytes. *)
Fixpoint layout (t : ctype) : Z * Z :=
  match t with
  | CInt s _ => (s, s)
  | CEnum _ => (4, 4)
  | CPtr _ => (8, 8)
  | CArray t n => let '(s, a) := layout t in (s * n, a)
  | CStruct fs => let ss := map (slot_of layout) fs in (struct_size ss, comp_align ss)
  | CUnion fs => let ss := map (slot_of layout) fs in (union_size ss, comp_align ss)
  end.

Definition sizeof (t : ctype) : Z := (layout t).1.
Definition alignof (t : ctype) : Z := (layout t).2.

(** ** Member designators

    [find_member] also looks inside unnamed members, as C does; the result is the bit
    offset, the width in bits and the type of the member. *)
Fixpoint zip_find {T} (find : T -> option (Z * Z * T)) (n : string)
    (fs : list (fdecl T)) (os ws : list Z) : option (Z * Z * T) :=
  match fs, os, ws with
  | f :: fs, o :: os, w :: ws =>
      if String.eqb (f_name f) n then Some (o, w, f_type f)
      else if String.eqb (f_name f) "" then
        match f_bits f, find (f_type f) with
        | None, Some (o', w', t) => Some (o + o', w', t)
        | _, _ => zip_find find n fs os ws
        end
      else zip_find find n fs os ws
  | _, _, _ => None
  end.

Fixpoint find_member (n : string) (t : ctype) {struct t} : option (Z * Z * ctype) :=
  match t with
  | CStruct fs =>
      let ss := map (slot_of layout) fs in
      zip_find (find_member n) n fs (offsets 0 ss) (map width ss)
  | CUnion fs =>
      let ss := map (slot_of layout) fs in
      zip_find (find_member n) n fs (map (fun _ => 0) ss) (map width ss)
  | _ => None
  end.

Fixpoint designator (t : ctype) (path : list string) : option (Z * Z * ctype) :=
  match path with
  | [] => Some (0, 8 * sizeof t, t)
  | [n] => find_member n t
  | n :: path =>
      match find_member n t with
      | Some (o, _, t') =>
          match designator t' path with
          | Some (o', w, t'') => Some (o + o', w, t'')
          | None => None
          end
      | None => None
      end
  end.

(** [offsetof(t, path)] in bytes; [None] for a member that does not exist or does not
    start on a byte boundary. *)
Definition offsetof (t : ctype) (path : list string) : option Z :=
  match designator t path with
  | Some (o, _, _) => if o mod 8 =? 0 then Some (o / 8) else None
  | None => None
  end.

(** ** Well-formed declarations *)
Definition is_scalar (t : ctype) : bool :=
  match t with CInt _ _ | CEnum _ => true | _ => false end.

Definition bits_ok (f : fdecl ctype) : bool :=
  match f_bits f with
  | None => true
  | Some w => is_scalar (f_type f) && (0 <=? w) && (w <=? 8 * sizeof (f_type f))
  end.

Fixpoint wf_ctype (t : ctype) : bool :=
  match t with
  | CInt s _ => (s =? 1) || (s =? 2) || (s =? 4) || (s =? 8)
  | CEnum _ | CPtr _ => true
  | CArray t n => wf_ctype t && (0 <=? n)
  | CStruct fs | CUnion fs => forallb (fun f => wf_ctype (f_type f) && bits_ok f) fs
  end.

(** ** Generic facts *)
Lemma align_up_ge x a : 0 < a -> x <= align_up x a < x + a.
Proof. intros ?. unfold align_up. pose proof (Z.div_mod (x + a - 1) a).
  pose proof (Z.mod_pos_bound (x + a - 1) a). nia. Qed.

Lemma align_up_divide x a : (a | align_up x a).
Proof. unfold align_up. apply Z.divide_factor_r. Qed.

Definition pow2 (a : Z) : Prop := exists k : nat, a = 2 ^ Z.of_nat k.

Lemma pow2_pos a : pow2 a -> 0 < a.
Proof. intros [k ->]. apply Z.pow_pos_nonneg; lia. Qed.

Lemma pow2_divide a b : pow2 a -> pow2 b -> a <= b -> (a | b).
Proof.
  intros [k ->] [l ->] H. apply Z.pow_le_mono_r_iff in H; [|lia..].
  exists (2 ^ (Z.of_nat l - Z.of_nat k)). rewrite <- Z.pow_add_r by lia. f_equal; lia.
Qed.

Lemma pow2_max a b : pow2 a -> pow2 b -> pow2 (Z.max a b).
Proof. intros ??. destruct (Z.max_spec a b) as [[_ ->]|[_ ->]]; done. Qed.

(** ** Soundness of the placement *)
Record wf_slot (s : slot) : Prop := {
  ws_align : pow2 (s_align s);
  ws_size : 0 <= s_size s;
  ws_div : (s_align s | s_size s);
  ws_bits : forall w, s_bits s = Some w -> 0 <= w <= 8 * s_size s /\ 0 < s_size s }.

Lemma width_nonneg s : wf_slot s -> 0 <= width s.
Proof.
  intros [_ Hs _ Hb]. unfold width. destruct (s_bits s) eqn:E; [|lia].
  destruct (Hb _ eq_refl). lia.
Qed.

Lemma place_ge pos s : wf_slot s -> pos <= place pos s.
Proof.
  intros [Ha _ _ Hb]. apply pow2_pos in Ha. unfold place. destruct (s_bits s) as [w|].
  - destruct (Hb _ eq_refl). destruct (_ || _); [|lia]. apply align_up_ge; lia.
  - apply align_up_ge; lia.
Qed.

Lemma place_aligned pos s : s_bits s = None -> (8 * s_align s | place pos s).
Proof. intros H. unfold place. rewrite H. apply align_up_divide. Qed.

(** A non-empty bit-field lies inside one unit of its declared type. *)
Lemma place_in_unit pos s w :
  wf_slot s -> s_bits s = Some w -> 0 < w ->
  let u := 8 * s_size s in
  place pos s / u = (place pos s + w - 1) / u.
Proof.
  intros Hwf E Hw u. destruct (ws_bits s Hwf w E) as [Hw' Hs]. unfold place. rewrite E. fold u.
  replace (w =? 0) with false by lia. simpl.
  destruct (Z.eqb_spec (pos / u) ((pos + w - 1) / u)) as [?|_]; [done|]. simpl.
  destruct (align_up_divide pos u) as [k ->].
  replace (k * u + w - 1) with ((w - 1) + k * u) by lia.
  rewrite Z.div_mul, Z.div_add, Z.div_small by lia. lia.
Qed.

Lemma length_offsets pos ss : length (offsets pos ss) = length ss.
Proof. revert pos; induction ss; intros; simpl; auto. Qed.

Lemma end_of_ge pos ss : Forall wf_slot ss -> pos <= end_of pos ss.
Proof.
  intros H. revert pos. induction H as [|s ss Hs _ IH]; intros pos; simpl; [lia|].
  specialize (IH (place pos s + width s)).
  pose proof (place_ge pos s Hs). pose proof (width_nonneg s Hs). lia.
Qed.

Lemma offsets_bounds pos ss i o s :
  Forall wf_slot ss -> offsets pos ss !! i = Some o -> ss !! i = Some s ->
  pos <= o /\ o + width s <= end_of pos ss.
Proof.
  intros H. revert pos i. induction H as [|s' ss Hs' Hss IH]; intros pos i Ho Hi; [done|].
  pose proof (place_ge pos s' Hs'). pose proof (width_nonneg s' Hs').
  destruct i as [|i]; simpl in *.
  - simplify_eq. split; [lia|]. by apply end_of_ge.
  - destruct (IH _ _ Ho Hi). lia.
Qed.

Lemma offsets_disjoint pos ss i j oi oj s :
  Forall wf_slot ss -> (i < j)%nat ->
  offsets pos ss !! i = Some oi -> offsets pos ss !! j = Some oj -> ss !! i = Some s ->
  oi + width s <= oj.
Proof.
  intros H. revert pos i j. induction H as [|s' ss Hs' Hss IH]; intros pos i j Hij Hi Hj Hs; [done|].
  destruct j as [|j]; [lia|]. destruct i as [|i]; simpl in *.
  - simplify_eq. destruct (lookup_lt_is_Some_2 ss j) as [t Ht].
    { apply lookup_lt_Some in Hj. by rewrite length_offsets in Hj. }
    by destruct (offsets_bounds _ _ _ _ _ Hss Hj Ht).
  - eapply (IH _ i j); [lia|eauto..].
Qed.

Lemma offsets_place pos ss i o s :
  offsets pos ss !! i = Some o -> ss !! i = Some s -> exists p, o = place p s.
Proof.
  revert pos i. induction ss as [|s' ss IH]; intros pos i Ho Hi; [done|].
  destruct i as [|i]; simpl in *; [simplify_eq; eauto|eauto].
Qed.

Lemma comp_align_pow2 ss : Forall wf_slot ss -> pow2 (comp_align ss).
Proof.
  induction 1 as [|s ss Hs _ IH]; simpl; [by exists 0%nat|].
  destruct (raises_align s); [|done]. apply pow2_max; [apply Hs|done].
Qed.

Lemma comp_align_divide ss i s :
  Forall wf_slot ss -> ss !! i = Some s -> raises_align s = true -> (s_align s | comp_align ss).
Proof.
  intros Hss Hi Hr. apply pow2_divide; [by eapply ws_align, Forall_lookup_1|by apply comp_align_pow2|].
  clear Hss. revert i Hi. induction ss as [|s' ss IH]; intros i Hi; [done|].
  destruct i as [|i]; simpl in *; [simplify_eq; destruct (raises_align s); [lia|done]|].
  specialize (IH _ Hi). destruct (raises_align s'); lia.
Qed.

Lemma round_size e a : (a | align_up e (8 * a) / 8) /\ 8 * (align_up e (8 * a) / 8) = align_up e (8 * a).
Proof.
  destruct (align_up_divide e (8 * a)) as [k ->].
  replace (k * (8 * a)) with (k * a * 8) by lia. rewrite Z.div_mul by lia.
  split; [apply Z.divide_factor_r|lia].
Qed.

Lemma struct_size_fits ss : Forall wf_slot ss -> end_of 0 ss <= 8 * struct_size ss.
Proof.
  intros H. apply comp_align_pow2, pow2_pos in H. unfold struct_size.
  rewrite (proj2 (round_size _ _)). apply align_up_ge; lia.
Qed.

Lemma widest_ge ss i s : ss !! i = Some s -> width s <= widest ss.
Proof.
  revert i. induction ss as [|s' ss IH]; intros i Hi; [done|].
  destruct i as [|i]; simpl in *; [simplify_eq; lia|]. specialize (IH _ Hi). lia.
Qed.

Lemma widest_nonneg ss : 0 <= widest ss.
Proof. induction ss; simpl; lia. Qed.

Lemma union_size_fits ss : Forall wf_slot ss -> widest ss <= 8 * union_size ss.
Proof.
  intros H. apply comp_align_pow2, pow2_pos in H. unfold union_size.
  rewrite (proj2 (round_size _ _)). apply align_up_ge; lia.
Qed.

(** ** Soundness of [layout] on well-formed types *)
Section ctype_induction.
  Context (P : ctype -> Prop).
  Context (Hint : forall s b, P (CInt s b)) (Henum : forall es, P (CEnum es))
          (Hptr : forall p, P (CPtr p)) (Harr : forall t n, P t -> P (CArray t n))
          (Hstruct : forall fs, Forall (fun f => P (f_type f)) fs -> P (CStruct fs))
          (Hunion : forall fs, Forall (fun f => P (f_type f)) fs -> P (CUnion fs)).

Fixpoint ctype_nested_ind (t : ctype) : P t :=
  let all := fix all (fs : list (fdecl ctype)) : Forall (fun f => P (f_type f)) fs :=
    match fs with
    | [] => Forall_nil_2 _
    | f :: fs => Forall_cons_2 _ _ _ (ctype_nested_ind (f_type f)) (all fs)
    end in
  match t with
  | CInt s b => Hint s b
  | CEnum es => Henum es
  | CPtr p => Hptr p
  | CArray t n => Harr t n (ctype_nested_ind t)
  | CStruct fs => Hstruct fs (all fs)
  | CUnion fs => Hunion fs (all fs)
  end.
End ctype_induction.

Definition layout_ok (t : ctype) : Prop :=
  pow2 (alignof t) /\ 0 <= sizeof t /\ (alignof t | sizeof t)
  /\ (is_scalar t = true -> 0 < sizeof t).

Lemma slot_of_wf f : layout_ok (f_type f) -> bits_ok f = true -> wf_slot (slot_of layout f).
Proof.
  intros (Ha & Hs & Hd & Hp) Hb. unfold slot_of, bits_ok, sizeof, alignof in *.
  destruct (layout (f_type f)) as [sz al]; simpl in *. split; simpl; [done..|].
  intros w E. rewrite E in Hb. destruct (is_scalar (f_type f)); [|done]. simpl in Hb.
  split; [lia|by apply Hp].
Qed.

Lemma slots_wf fs :
  Forall (fun f => wf_ctype (f_type f) = true -> layout_ok (f_type f)) fs ->
  forallb (fun f => wf_ctype (f_type f) && bits_ok f) fs = true ->
  Forall wf_slot (map (slot_of layout) fs).
Proof.
  induction 1 as [|f fs Hf _ IH]; simpl; [constructor|]. intros H.
  apply andb_prop in H as [[Ht Hb]%andb_prop Hfs]. constructor; auto using slot_of_wf.
Qed.

Lemma layout_sound t : wf_ctype t = true -> layout_ok t.
Proof.
  induction t as [s b|es|p|t n IH|fs IH|fs IH] using ctype_nested_ind; intros Hwf.
  - simpl in Hwf. assert (s = 1 \/ s = 2 \/ s = 4 \/ s = 8) as Hs by lia.
    unfold layout_ok, sizeof, alignof; simpl.
    split_and!; [|lia|apply Z.divide_refl|lia].
    destruct Hs as [->|[->|[->| ->]]];
      [by exists 0%nat|by exists 1%nat|by exists 2%nat|by exists 3%nat].
  - split_and!; [by exists 2%nat|done|apply Z.divide_refl|done].
  - split_and!; [by exists 3%nat|done|apply Z.divide_refl|done].
  - simpl in Hwf. apply andb_prop in Hwf as [Ht Hn]. destruct (IH Ht) as (Ha & Hs & Hd & _).
    unfold layout_ok, sizeof, alignof in *. simpl. destruct (layout t) as [sz al]; simpl in *.
    split_and!; [done|nia|by apply Z.divide_mul_l|done].
  - pose proof (slots_wf fs IH Hwf) as Hss.
    split_and!; [by apply comp_align_pow2| |apply round_size|done].
    pose proof (struct_size_fits _ Hss). pose proof (end_of_ge 0 _ Hss).
    unfold sizeof; simpl. lia.
  - pose proof (slots_wf fs IH Hwf) as Hss.
    split_and!; [by apply comp_align_pow2| |apply round_size|done].
    pose proof (union_size_fits _ Hss). pose proof (widest_nonneg (map (slot_of layout) fs)).
    unfold sizeof; simpl. lia.
Qed.

Lemma wf_slots fs :
  forallb (fun f => wf_ctype (f_type f) && bits_ok f) fs = true ->
  Forall wf_slot (map (slot_of layout) fs).
Proof. apply slots_wf, Forall_forall. auto using layout_sound. Qed.

(** ** Every designator denotes a member inside its object *)
Definition inside (t : ctype) (r : Z * Z * ctype) : Prop :=
  let '(o, w, t') := r in
  0 <= o /\ o + w <= 8 * sizeof t /\ wf_ctype t' = true
  /\ (w = 8 * sizeof t' \/ is_scalar t' = true).

Lemma zip_find_sound find n (t : ctype) fs os ws r :
  (forall f, f ∈ fs -> wf_ctype (f_type f) = true ->
     forall r, find (f_type f) = Some r -> inside (f_type f) r) ->
  forallb (fun f => wf_ctype (f_type f) && bits_ok f) fs = true ->
  Forall2 (fun f w => w = width (slot_of layout f)) fs ws ->
  Forall2 (fun o w => 0 <= o /\ o + w <= 8 * sizeof t) os ws ->
  zip_find find n fs os ws = Some r -> inside t r.
Proof.
  intros Hfind Hwf Hw. revert os Hfind Hwf.
  induction Hw as [|f w fs ws -> Hw IH]; intros os Hfind Hwf Ho; [done|].
  destruct os as [|o os]; [done|]. apply Forall2_cons in Ho as [[Ho0 Ho1] Ho].
  simpl in Hwf. apply andb_prop in Hwf as [[Ht Hb]%andb_prop Hwf].
  assert (forall x, x ∈ fs -> x ∈ f :: fs) as Hsub by set_solver.
  specialize (IH os (fun x Hx => Hfind x (Hsub x Hx)) Hwf Ho).
  assert (f_bits f = None -> width (slot_of layout f) = 8 * sizeof (f_type f)) as Hnone.
  { unfold slot_of, width, sizeof. destruct (layout (f_type f)); simpl. by intros ->. }
  simpl. destruct (String.eqb (f_name f) n).
  - intros [= <-]. unfold inside. split_and!; [done..|].
    unfold bits_ok in Hb. destruct (f_bits f); [|by left; apply Hnone].
    right. by apply andb_prop in Hb as [[-> _]%andb_prop _].
  - destruct (String.eqb (f_name f) ""); [|done].
    destruct (f_bits f) eqn:E; [done|]. destruct (find (f_type f)) as [[[o' w'] t']|] eqn:Ef; [|done].
    intros [= <-]. destruct (Hfind f (list_elem_of_here f fs) Ht _ Ef) as (?&?&?&?).
    rewrite Hnone in Ho1 by done. unfold inside. split_and!; [lia..|done|done].
Qed.

Lemma widths_spec fs :
  Forall2 (fun f w => w = width (slot_of layout f)) fs (map width (map (slot_of layout) fs)).
Proof. induction fs; simpl; constructor; auto. Qed.

Lemma offsets_inside pos ss hi :
  Forall wf_slot ss -> 0 <= pos -> end_of pos ss <= hi ->
  Forall2 (fun o w => 0 <= o /\ o + w <= hi) (offsets pos ss) (map width ss).
Proof.
  intros H. revert pos. induction H as [|s ss Hs Hss IH]; intros pos Hpos Hhi; simpl; constructor.
  - pose proof (place_ge pos s Hs).
    pose proof (end_of_ge (place pos s + width s) ss Hss). simpl in Hhi. lia.
  - pose proof (place_ge pos s Hs). pose proof (width_nonneg s Hs). apply IH; [lia|done].
Qed.

Lemma widths_inside (ss : list slot) hi :
  widest ss <= hi ->
  Forall2 (fun o w => 0 <= o /\ o + w <= hi) (map (fun _ => 0) ss) (map width ss).
Proof. induction ss as [|s ss IH]; simpl; constructor; [lia|]. apply IH. lia. Qed.

Lemma find_member_sound n t r : wf_ctype t = true -> find_member n t = Some r -> inside t r.
Proof.
  revert r. induction t as [| | | |fs IH|fs IH] using ctype_nested_ind; intros r Hwf Hr; try done.
  - pose proof (wf_slots fs Hwf) as Hss. revert Hr. apply zip_find_sound; [|done|apply widths_spec|].
    + rewrite Forall_forall in IH. intros f Hf Ht r' Hr'. by apply (IH f Hf).
    + apply offsets_inside; [done|lia|]. by apply struct_size_fits.
  - pose proof (wf_slots fs Hwf) as Hss. revert Hr. apply zip_find_sound; [|done|apply widths_spec|].
    + rewrite Forall_forall in IH. intros f Hf Ht r' Hr'. by apply (IH f Hf).
    + apply widths_inside. by apply union_size_fits.
Qed.

Lemma find_member_scalar n t : is_scalar t = true -> find_member n t = None.
Proof. by destruct t. Qed.

Lemma designator_sound t path r : wf_ctype t = true -> designator t path = Some r -> inside t r.
Proof.
  revert t r. induction path as [|n path IH]; intros t r Hwf Hr.
  - simpl in Hr. simplify_eq. unfold inside. destruct (layout_sound t Hwf) as (_&?&_).
    split_and!; [lia..|done|by left].
  - destruct path as [|n' path]; [by eapply find_member_sound|].
    remember (n' :: path) as path' eqn:Ep. simpl in Hr. rewrite Ep in Hr. rewrite <- Ep in Hr.
    destruct (find_member n t) as [[[o w] t']|] eqn:Ef; [|done].
    destruct (designator t' path') as [[[o' w'] t'']|] eqn:Ed; [|done]. simplify_eq.
    destruct (find_member_sound n t _ Hwf Ef) as (?&?&Hwf'&Hw).
    destruct (IH t' _ Hwf' Ed) as (?&?&?&?).
    destruct Hw as [->|Hsc]; [unfold inside; split_and!; [lia..|done|done]|].
    simpl in Ed. rewrite find_member_scalar in Ed by done. by destruct path.
Qed.
