(* ===== verification/Vmlinux.v ===== *)
(** * Kernel types: [headers/vmlinux.h]

    The types the LSM hooks of the object receive ([struct sockaddr] and its INET forms,
    [struct cred], [kernel_cap_t], [struct socket], [struct task_struct],
    [union bpf_attr], and [struct pt_regs] of the tracing macros) with every type they
    contain by value, member by member, and the enumerations and hook prototypes the
    object relies on. A typedef [t] is [ty_t], a tag [struct t] is [struct_t]; a pointer
    keeps the text of what it points to. *)
From Stdlib Require Import ZArith.
From stdpp Require Import base strings list.
From S2P Require Import Prelude CType.
#[local] Open Scope Z_scope.
#[local] Open Scope string_scope.
#[local] Open Scope list_scope.

(** [vmlinux.h:8]: [__u32]. *)
Definition ty___u32 : ctype := (CInt 4 false).

(** [vmlinux.h:10]: [__u64]. *)
Definition ty___u64 : ctype := (CInt 8 false).

(** [vmlinux.h:12]: [u32]. *)
Definition ty_u32 : ctype := ty___u32.

(** [vmlinux.h:14]: [u64]. *)
Definition ty_u64 : ctype := ty___u64.

(** [vmlinux.h:22]: [bool]. *)
Definition ty_bool : ctype := (CInt 1 false).

(** [vmlinux.h:80]: [__u8]. *)
Definition ty___u8 : ctype := (CInt 1 false).

(** [vmlinux.h:84]: [__u16]. *)
Definition ty___u16 : ctype := (CInt 2 false).

(** [vmlinux.h:86]: [__s32]. *)
Definition ty___s32 : ctype := (CInt 4 true).

(** [vmlinux.h:88]: [__s64]. *)
Definition ty___s64 : ctype := (CInt 8 true).

(** [vmlinux.h:92]: [u8]. *)
Definition ty_u8 : ctype := ty___u8.

(** [vmlinux.h:96]: [u16]. *)
Definition ty_u16 : ctype := ty___u16.

(** [vmlinux.h:100]: [s64]. *)
Definition ty_s64 : ctype := ty___s64.

(** [vmlinux.h:109]: [__kernel_ulong_t]. *)
Definition ty___kernel_ulong_t : ctype := (CInt 8 false).

(** [vmlinux.h:111]: [__kernel_pid_t]. *)
Definition ty___kernel_pid_t : ctype := (CInt 4 true).

(** [vmlinux.h:113]: [__kernel_uid32_t]. *)
Definition ty___kernel_uid32_t : ctype := (CInt 4 false).

(** [vmlinux.h:115]: [__kernel_gid32_t]. *)
Definition ty___kernel_gid32_t : ctype := (CInt 4 false).

(** [vmlinux.h:117]: [__kernel_size_t]. *)
Definition ty___kernel_size_t : ctype := ty___kernel_ulong_t.

(** [vmlinux.h:129]: [__kernel_clockid_t]. *)
Definition ty___kernel_clockid_t : ctype := (CInt 4 true).

(** [vmlinux.h:133]: [pid_t]. *)
Definition ty_pid_t : ctype := ty___kernel_pid_t.

(** [vmlinux.h:135]: [clockid_t]. *)
Definition ty_clockid_t : ctype := ty___kernel_clockid_t.

(** [vmlinux.h:137]: [uid_t]. *)
Definition ty_uid_t : ctype := ty___kernel_uid32_t.

(** [vmlinux.h:139]: [gid_t]. *)
Definition ty_gid_t : ctype := ty___kernel_gid32_t.

(** [vmlinux.h:143]: [size_t]. *)
Definition ty_size_t : ctype := ty___kernel_size_t.

(** [vmlinux.h:151]: [ktime_t]. *)
Definition ty_ktime_t : ctype := ty_s64.

(** [vmlinux.h:165]: [atomic_t]. *)
Definition ty_atomic_t : ctype := CStruct
  [ member "counter" (CInt 4 true) ].

(** [vmlinux.h:169]: [atomic64_t]. *)
Definition ty_atomic64_t : ctype := CStruct
  [ member "counter" ty_s64 ].

(** [vmlinux.h:173]: [struct list_head]. *)
Definition struct_list_head : ctype := CStruct
  [ member "next" (CPtr "struct list_head");
    member "prev" (CPtr "struct list_head") ].

(** [vmlinux.h:184]: [struct hlist_node]. *)
Definition struct_hlist_node : ctype := CStruct
  [ member "next" (CPtr "struct hlist_node");
    member "pprev" (CPtr "struct hlist_node *") ].

(** [vmlinux.h:189]: [struct callback_head]. *)
Definition struct_callback_head : ctype := CStruct
  [ member "next" (CPtr "struct callback_head");
    member "func" (CPtr "void (struct callback_head *)") ].

(** [vmlinux.h:198]: [atomic_long_t]. *)
Definition ty_atomic_long_t : ctype := ty_atomic64_t.

(** [vmlinux.h:232]: [struct qspinlock]. *)
Definition struct_qspinlock : ctype := CStruct
  [ member "" (CUnion
    [ member "val" ty_atomic_t;
      member "" (CStruct
      [ member "locked" ty_u8;
        member "pending" ty_u8 ]);
      member "" (CStruct
      [ member "locked_pending" ty_u16;
        member "tail" ty_u16 ]) ]) ].

(** [vmlinux.h:246]: [arch_spinlock_t]. *)
Definition ty_arch_spinlock_t : ctype := struct_qspinlock.

(** [vmlinux.h:263]: [struct raw_spinlock]. *)
Definition struct_raw_spinlock : ctype := CStruct
  [ member "raw_lock" ty_arch_spinlock_t ].

(** [vmlinux.h:267]: [raw_spinlock_t]. *)
Definition ty_raw_spinlock_t : ctype := struct_raw_spinlock.

(** [vmlinux.h:383]: [struct fred_cs]. *)
Definition struct_fred_cs : ctype := CStruct
  [ bitfield "cs" ty_u64 16;
    bitfield "sl" ty_u64 2;
    bitfield "wfe" ty_u64 1 ].

(** [vmlinux.h:389]: [struct fred_ss]. *)
Definition struct_fred_ss : ctype := CStruct
  [ bitfield "ss" ty_u64 16;
    bitfield "sti" ty_u64 1;
    bitfield "swevent" ty_u64 1;
    bitfield "nmi" ty_u64 1;
    bitfield "" (CInt 4 true) 13;
    bitfield "vector" ty_u64 8;
    bitfield "" (CInt 2 true) 8;
    bitfield "type" ty_u64 4;
    bitfield "" (CInt 1 true) 4;
    bitfield "enclave" ty_u64 1;
    bitfield "lm" ty_u64 1;
    bitfield "nested" ty_u64 1;
    bitfield "" (CInt 1 true) 1;
    bitfield "insnlen" ty_u64 4 ].

(** [vmlinux.h:406]: [struct pt_regs]. *)
Definition struct_pt_regs : ctype := CStruct
  [ member "r15" (CInt 8 false);
    member "r14" (CInt 8 false);
    member "r13" (CInt 8 false);
    member "r12" (CInt 8 false);
    member "bp" (CInt 8 false);
    member "bx" (CInt 8 false);
    member "r11" (CInt 8 false);
    member "r10" (CInt 8 false);
    member "r9" (CInt 8 false);
    member "r8" (CInt 8 false);
    member "ax" (CInt 8 false);
    member "cx" (CInt 8 false);
    member "dx" (CInt 8 false);
    member "si" (CInt 8 false);
    member "di" (CInt 8 false);
    member "orig_ax" (CInt 8 false);
    member "ip" (CInt 8 false);
    member "" (CUnion
    [ member "cs" ty_u16;
      member "csx" ty_u64;
      member "fred_cs" struct_fred_cs ]);
    member "flags" (CInt 8 false);
    member "sp" (CInt 8 false);
    member "" (CUnion
    [ member "ss" ty_u16;
      member "ssx" ty_u64;
      member "fred_ss" struct_fred_ss ]) ].

(** [vmlinux.h:438]: [struct desc_struct]. *)
Definition struct_desc_struct : ctype := CStruct
  [ member "limit0" ty_u16;
    member "base0" ty_u16;
    bitfield "base1" ty_u16 8;
    bitfield "type" ty_u16 4;
    bitfield "s" ty_u16 1;
    bitfield "dpl" ty_u16 2;
    bitfield "p" ty_u16 1;
    bitfield "limit1" ty_u16 4;
    bitfield "avl" ty_u16 1;
    bitfield "l" ty_u16 1;
    bitfield "d" ty_u16 1;
    bitfield "g" ty_u16 1;
    bitfield "base2" ty_u16 8 ].

(** [vmlinux.h:544]: [struct thread_info]. *)
Definition struct_thread_info : ctype := CStruct
  [ member "flags" (CInt 8 false);
    member "syscall_work" (CInt 8 false);
    member "status" ty_u32;
    member "cpu" ty_u32 ].

(** [vmlinux.h:551]: [struct refcount_struct]. *)
Definition struct_refcount_struct : ctype := CStruct
  [ member "refs" ty_atomic_t ].

(** [vmlinux.h:555]: [refcount_t]. *)
Definition ty_refcount_t : ctype := struct_refcount_struct.

(** [vmlinux.h:557]: [struct llist_node]. *)
Definition struct_llist_node : ctype := CStruct
  [ member "next" (CPtr "struct llist_node") ].

(** [vmlinux.h:561]: [struct __call_single_node]. *)
Definition struct___call_single_node : ctype := CStruct
  [ member "llist" struct_llist_node;
    member "" (CUnion
    [ member "u_flags" (CInt 4 false);
      member "a_flags" ty_atomic_t ]);
    member "src" ty_u16;
    member "dst" ty_u16 ].

(** [vmlinux.h:571]: [struct load_weight]. *)
Definition struct_load_weight : ctype := CStruct
  [ member "weight" (CInt 8 false);
    member "inv_weight" ty_u32 ].

(** [vmlinux.h:576]: [struct rb_node]. *)
Definition struct_rb_node : ctype := CStruct
  [ member "__rb_parent_color" (CInt 8 false);
    member "rb_right" (CPtr "struct rb_node");
    member "rb_left" (CPtr "struct rb_node") ].

(** [vmlinux.h:582]: [struct sched_avg]. *)
Definition struct_sched_avg : ctype := CStruct
  [ member "last_update_time" ty_u64;
    member "load_sum" ty_u64;
    member "runnable_sum" ty_u64;
    member "util_sum" ty_u32;
    member "period_contrib" ty_u32;
    member "load_avg" (CInt 8 false);
    member "runnable_avg" (CInt 8 false);
    member "util_avg" (CInt 8 false);
    member "util_est" (CInt 4 false) ].

(** [vmlinux.h:596]: [struct sched_entity]. *)
Definition struct_sched_entity : ctype := CStruct
  [ member "load" struct_load_weight;
    member "run_node" struct_rb_node;
    member "deadline" ty_u64;
    member "min_vruntime" ty_u64;
    member "min_slice" ty_u64;
    member "group_node" struct_list_head;
    member "on_rq" (CInt 1 false);
    member "sched_delayed" (CInt 1 false);
    member "rel_deadline" (CInt 1 false);
    member "custom_slice" (CInt 1 false);
    member "exec_start" ty_u64;
    member "sum_exec_runtime" ty_u64;
    member "prev_sum_exec_runtime" ty_u64;
    member "vruntime" ty_u64;
    member "vlag" ty_s64;
    member "slice" ty_u64;
    member "nr_migrations" ty_u64;
    member "depth" (CInt 4 true);
    member "parent" (CPtr "struct sched_entity");
    member "cfs_rq" (CPtr "struct cfs_rq");
    member "my_q" (CPtr "struct cfs_rq");
    member "runnable_weight" (CInt 8 false);
    bitfield "" (CInt 8 true) 64;
    member "avg" struct_sched_avg ].

(** [vmlinux.h:623]: [struct sched_rt_entity]. *)
Definition struct_sched_rt_entity : ctype := CStruct
  [ member "run_list" struct_list_head;
    member "timeout" (CInt 8 false);
    member "watchdog_stamp" (CInt 8 false);
    member "time_slice" (CInt 4 false);
    member "on_rq" (CInt 2 false);
    member "on_list" (CInt 2 false);
    member "back" (CPtr "struct sched_rt_entity") ].

(** [vmlinux.h:633]: [struct timerqueue_node]. *)
Definition struct_timerqueue_node : ctype := CStruct
  [ member "node" struct_rb_node;
    member "expires" ty_ktime_t ].

(** [vmlinux.h:645]: [struct hrtimer]. *)
Definition struct_hrtimer : ctype := CStruct
  [ member "node" struct_timerqueue_node;
    member "_softexpires" ty_ktime_t;
    member "function" (CPtr "enum hrtimer_restart (struct hrtimer *)");
    member "base" (CPtr "struct hrtimer_clock_base");
    member "state" ty_u8;
    member "is_rel" ty_u8;
    member "is_soft" ty_u8;
    member "is_hard" ty_u8 ].

(** [vmlinux.h:658]: [dl_server_has_tasks_f]. *)
Definition ty_dl_server_has_tasks_f : ctype := (CPtr "bool (struct sched_dl_entity *)").

(** [vmlinux.h:662]: [dl_server_pick_f]. *)
Definition ty_dl_server_pick_f : ctype := (CPtr "struct task_struct * (struct sched_dl_entity *)").

(** [vmlinux.h:666]: [struct sched_dl_entity]. *)
Definition struct_sched_dl_entity : ctype := CStruct
  [ member "rb_node" struct_rb_node;
    member "dl_runtime" ty_u64;
    member "dl_deadline" ty_u64;
    member "dl_period" ty_u64;
    member "dl_bw" ty_u64;
    member "dl_density" ty_u64;
    member "runtime" ty_s64;
    member "deadline" ty_u64;
    member "flags" (CInt 4 false);
    bitfield "dl_throttled" (CInt 4 false) 1;
    bitfield "dl_yielded" (CInt 4 false) 1;
    bitfield "dl_non_contending" (CInt 4 false) 1;
    bitfield "dl_overrun" (CInt 4 false) 1;
    bitfield "dl_server" (CInt 4 false) 1;
    bitfield "dl_server_active" (CInt 4 false) 1;
    bitfield "dl_defer" (CInt 4 false) 1;
    bitfield "dl_defer_armed" (CInt 4 false) 1;
    bitfield "dl_defer_running" (CInt 4 false) 1;
    member "dl_timer" struct_hrtimer;
    member "inactive_timer" struct_hrtimer;
    member "rq" (CPtr "struct rq");
    member "server_has_tasks" ty_dl_server_has_tasks_f;
    member "server_pick_task" ty_dl_server_pick_f;
    member "pi_se" (CPtr "struct sched_dl_entity") ].

(** [vmlinux.h:693]: [struct sched_statistics]. *)
Definition struct_sched_statistics : ctype := CStruct [].

(** [vmlinux.h:695]: [struct cpumask]. *)
Definition struct_cpumask : ctype := CStruct
  [ member "bits" (CArray (CInt 8 false) 1) ].

(** [vmlinux.h:699]: [cpumask_t]. *)
Definition ty_cpumask_t : ctype := struct_cpumask.

(** [vmlinux.h:701]: [union rcu_special]. *)
Definition union_rcu_special : ctype := CUnion
  [ member "b" (CStruct
    [ member "blocked" ty_u8;
      member "need_qs" ty_u8;
      member "exp_hint" ty_u8;
      member "need_mb" ty_u8 ]);
    member "s" ty_u32 ].

(** [vmlinux.h:711]: [struct sched_info]. *)
Definition struct_sched_info : ctype := CStruct [].

(** [vmlinux.h:713]: [struct plist_node]. *)
Definition struct_plist_node : ctype := CStruct
  [ member "prio" (CInt 4 true);
    member "prio_list" struct_list_head;
    member "node_list" struct_list_head ].

(** [vmlinux.h:719]: [enum timespec_type]. *)
Definition enum_timespec_type : ctype := CEnum
  [ ("TT_NONE", 0);
    ("TT_NATIVE", 1);
    ("TT_COMPAT", 2) ].

(** [vmlinux.h:731]: [struct restart_block]. *)
Definition struct_restart_block : ctype := CStruct
  [ member "arch_data" (CInt 8 false);
    member "fn" (CPtr "long int (struct restart_block *)");
    member "" (CUnion
    [ member "futex" (CStruct
      [ member "uaddr" (CPtr "u32");
        member "val" ty_u32;
        member "flags" ty_u32;
        member "bitset" ty_u32;
        member "time" ty_u64;
        member "uaddr2" (CPtr "u32") ]);
      member "nanosleep" (CStruct
      [ member "clockid" ty_clockid_t;
        member "type" enum_timespec_type;
        member "" (CUnion
        [ member "rmtp" (CPtr "struct __kernel_timespec");
          member "compat_rmtp" (CPtr "struct old_timespec32") ]);
        member "expires" ty_u64 ]);
      member "poll" (CStruct
      [ member "ufds" (CPtr "struct pollfd");
        member "nfds" (CInt 4 true);
        member "has_timeout" (CInt 4 true);
        member "tv_sec" (CInt 8 false);
        member "tv_nsec" (CInt 8 false) ]) ]) ].

(** [vmlinux.h:762]: [struct prev_cputime]. *)
Definition struct_prev_cputime : ctype := CStruct
  [ member "utime" ty_u64;
    member "stime" ty_u64;
    member "lock" ty_raw_spinlock_t ].

(** [vmlinux.h:768]: [struct rb_root]. *)
Definition struct_rb_root : ctype := CStruct
  [ member "rb_node" (CPtr "struct rb_node") ].

(** [vmlinux.h:772]: [struct rb_root_cached]. *)
Definition struct_rb_root_cached : ctype := CStruct
  [ member "rb_root" struct_rb_root;
    member "rb_leftmost" (CPtr "struct rb_node") ].

(** [vmlinux.h:777]: [struct timerqueue_head]. *)
Definition struct_timerqueue_head : ctype := CStruct
  [ member "rb_root" struct_rb_root_cached ].

(** [vmlinux.h:781]: [struct posix_cputimer_base]. *)
Definition struct_posix_cputimer_base : ctype := CStruct
  [ member "nextevt" ty_u64;
    member "tqhead" struct_timerqueue_head ].

(** [vmlinux.h:786]: [struct posix_cputimers]. *)
Definition struct_posix_cputimers : ctype := CStruct
  [ member "bases" (CArray struct_posix_cputimer_base 3);
    member "timers_active" (CInt 4 false);
    member "expiry_active" (CInt 4 false) ].

(** [vmlinux.h:792]: [struct optimistic_spin_queue]. *)
Definition struct_optimistic_spin_queue : ctype := CStruct
  [ member "tail" ty_atomic_t ].

(** [vmlinux.h:796]: [struct mutex]. *)
Definition struct_mutex : ctype := CStruct
  [ member "owner" ty_atomic_long_t;
    member "wait_lock" ty_raw_spinlock_t;
    member "osq" struct_optimistic_spin_queue;
    member "wait_list" struct_list_head ].

(** [vmlinux.h:803]: [struct posix_cputimers_work]. *)
Definition struct_posix_cputimers_work : ctype := CStruct
  [ member "work" struct_callback_head;
    member "mutex" struct_mutex;
    member "scheduled" (CInt 4 false) ].

(** [vmlinux.h:811]: [struct sysv_sem]. *)
Definition struct_sysv_sem : ctype := CStruct
  [ member "undo_list" (CPtr "struct sem_undo_list") ].

(** [vmlinux.h:815]: [struct sysv_shm]. *)
Definition struct_sysv_shm : ctype := CStruct
  [ member "shm_clist" struct_list_head ].

(** [vmlinux.h:819]: [sigset_t]. *)
Definition ty_sigset_t : ctype := CStruct
  [ member "sig" (CArray (CInt 8 false) 1) ].

(** [vmlinux.h:823]: [struct sigpending]. *)
Definition struct_sigpending : ctype := CStruct
  [ member "list" struct_list_head;
    member "signal" ty_sigset_t ].

(** [vmlinux.h:830]: [struct seccomp]. *)
Definition struct_seccomp : ctype := CStruct
  [ member "mode" (CInt 4 true);
    member "filter_count" ty_atomic_t;
    member "filter" (CPtr "struct seccomp_filter") ].

(** [vmlinux.h:836]: [struct syscall_user_dispatch]. *)
Definition struct_syscall_user_dispatch : ctype := CStruct
  [ member "selector" (CPtr "char");
    member "offset" (CInt 8 false);
    member "len" (CInt 8 false);
    member "on_dispatch" ty_bool ].

(** [vmlinux.h:843]: [struct spinlock]. *)
Definition struct_spinlock : ctype := CStruct
  [ member "" (CUnion
    [ member "rlock" struct_raw_spinlock ]) ].

(** [vmlinux.h:849]: [spinlock_t]. *)
Definition ty_spinlock_t : ctype := struct_spinlock.

(** [vmlinux.h:851]: [struct wake_q_node]. *)
Definition struct_wake_q_node : ctype := CStruct
  [ member "next" (CPtr "struct wake_q_node") ].

(** [vmlinux.h:855]: [struct task_io_accounting]. *)
Definition struct_task_io_accounting : ctype := CStruct [].

(** [vmlinux.h:857]: [nodemask_t]. *)
Definition ty_nodemask_t : ctype := CStruct
  [ member "bits" (CArray (CInt 8 false) 1) ].

(** [vmlinux.h:861]: [struct seqcount]. *)
Definition struct_seqcount : ctype := CStruct
  [ member "sequence" (CInt 4 false) ].

(** [vmlinux.h:865]: [seqcount_t]. *)
Definition ty_seqcount_t : ctype := struct_seqcount.

(** [vmlinux.h:867]: [struct seqcount_spinlock]. *)
Definition struct_seqcount_spinlock : ctype := CStruct
  [ member "seqcount" ty_seqcount_t ].

(** [vmlinux.h:871]: [seqcount_spinlock_t]. *)
Definition ty_seqcount_spinlock_t : ctype := struct_seqcount_spinlock.

(** [vmlinux.h:873]: [struct arch_tlbflush_unmap_batch]. *)
Definition struct_arch_tlbflush_unmap_batch : ctype := CStruct
  [ member "cpumask" struct_cpumask ].

(** [vmlinux.h:877]: [struct tlbflush_unmap_batch]. *)
Definition struct_tlbflush_unmap_batch : ctype := CStruct
  [ member "arch" struct_arch_tlbflush_unmap_batch;
    member "flush_required" ty_bool;
    member "writable" ty_bool ].

(** [vmlinux.h:883]: [struct page_frag]. *)
Definition struct_page_frag : ctype := CStruct
  [ member "page" (CPtr "struct page");
    member "offset" ty___u32;
    member "size" ty___u32 ].

(** [vmlinux.h:889]: [struct kmap_ctrl]. *)
Definition struct_kmap_ctrl : ctype := CStruct [].

(** [vmlinux.h:891]: [struct timer_list]. *)
Definition struct_timer_list : ctype := CStruct
  [ member "entry" struct_hlist_node;
    member "expires" (CInt 8 false);
    member "function" (CPtr "void (struct timer_list *)");
    member "flags" ty_u32 ].

(** [vmlinux.h:898]: [struct llist_head]. *)
Definition struct_llist_head : ctype := CStruct
  [ member "first" (CPtr "struct llist_node") ].

(** [vmlinux.h:902]: [struct fpu_state_perm]. *)
Definition struct_fpu_state_perm : ctype := CStruct
  [ member "__state_perm" ty_u64;
    member "__state_size" (CInt 4 false);
    member "__user_state_size" (CInt 4 false) ].

(** [vmlinux.h:908]: [struct fregs_state]. *)
Definition struct_fregs_state : ctype := CStruct
  [ member "cwd" ty_u32;
    member "swd" ty_u32;
    member "twd" ty_u32;
    member "fip" ty_u32;
    member "fcs" ty_u32;
    member "foo" ty_u32;
    member "fos" ty_u32;
    member "st_space" (CArray ty_u32 20);
    member "status" ty_u32 ].

(** [vmlinux.h:920]: [struct fxregs_state]. *)
Definition struct_fxregs_state : ctype := CStruct
  [ member "cwd" ty_u16;
    member "swd" ty_u16;
    member "twd" ty_u16;
    member "fop" ty_u16;
    member "" (CUnion
    [ member "" (CStruct
      [ member "rip" ty_u64;
        member "rdp" ty_u64 ]);
      member "" (CStruct
      [ member "fip" ty_u32;
        member "fcs" ty_u32;
        member "foo" ty_u32;
        member "fos" ty_u32 ]) ]);
    member "mxcsr" ty_u32;
    member "mxcsr_mask" ty_u32;
    member "st_space" (CArray ty_u32 32);
    member "xmm_space" (CArray ty_u32 64);
    member "padding" (CArray ty_u32 12);
    member "" (CUnion
    [ member "padding1" (CArray ty_u32 12);
      member "sw_reserved" (CArray ty_u32 12) ]) ].

(** [vmlinux.h:950]: [struct swregs_state]. *)
Definition struct_swregs_state : ctype := CStruct
  [ member "cwd" ty_u32;
    member "swd" ty_u32;
    member "twd" ty_u32;
    member "fip" ty_u32;
    member "fcs" ty_u32;
    member "foo" ty_u32;
    member "fos" ty_u32;
    member "st_space" (CArray ty_u32 20);
    member "ftop" ty_u8;
    member "changed" ty_u8;
    member "lookahead" ty_u8;
    member "no_update" ty_u8;
    member "rm" ty_u8;
    member "alimit" ty_u8;
    member "info" (CPtr "struct math_emu_info");
    member "entry_eip" ty_u32 ].

(** [vmlinux.h:969]: [struct xstate_header]. *)
Definition struct_xstate_header : ctype := CStruct
  [ member "xfeatures" ty_u64;
    member "xcomp_bv" ty_u64;
    member "reserved" (CArray ty_u64 6) ].

(** [vmlinux.h:975]: [struct xregs_state]. *)
Definition struct_xregs_state : ctype := CStruct
  [ member "i387" struct_fxregs_state;
    member "header" struct_xstate_header;
    member "extended_state_area" (CArray ty_u8 0) ].

(** [vmlinux.h:981]: [union fpregs_state]. *)
Definition union_fpregs_state : ctype := CUnion
  [ member "fsave" struct_fregs_state;
    member "fxsave" struct_fxregs_state;
    member "soft" struct_swregs_state;
    member "xsave" struct_xregs_state;
    member "__padding" (CArray ty_u8 4096) ].

(** [vmlinux.h:989]: [struct fpstate]. *)
Definition struct_fpstate : ctype := CStruct
  [ member "size" (CInt 4 false);
    member "user_size" (CInt 4 false);
    member "xfeatures" ty_u64;
    member "user_xfeatures" ty_u64;
    member "xfd" ty_u64;
    bitfield "is_valloc" (CInt 4 false) 1;
    bitfield "is_guest" (CInt 4 false) 1;
    bitfield "is_confidential" (CInt 4 false) 1;
    bitfield "in_use" (CInt 4 false) 1;
    bitfield "" (CInt 8 true) 64;
    bitfield "" (CInt 8 true) 64;
    bitfield "" (CInt 8 true) 64;
    member "regs" union_fpregs_state ].

(** [vmlinux.h:1005]: [struct fpu]. *)
Definition struct_fpu : ctype := CStruct
  [ member "last_cpu" (CInt 4 false);
    member "avx512_timestamp" (CInt 8 false);
    member "fpstate" (CPtr "struct fpstate");
    member "__task_fpstate" (CPtr "struct fpstate");
    member "perm" struct_fpu_state_perm;
    member "guest_perm" struct_fpu_state_perm;
    member "__fpstate" struct_fpstate ].

(** [vmlinux.h:1019]: [struct thread_struct]. *)
Definition struct_thread_struct : ctype := CStruct
  [ member "tls_array" (CArray struct_desc_struct 3);
    member "sp" (CInt 8 false);
    member "es" (CInt 2 false);
    member "ds" (CInt 2 false);
    member "fsindex" (CInt 2 false);
    member "gsindex" (CInt 2 false);
    member "fsbase" (CInt 8 false);
    member "gsbase" (CInt 8 false);
    member "ptrace_bps" (CArray (CPtr "struct perf_event") 4);
    member "virtual_dr6" (CInt 8 false);
    member "ptrace_dr7" (CInt 8 false);
    member "cr2" (CInt 8 false);
    member "trap_nr" (CInt 8 false);
    member "error_code" (CInt 8 false);
    member "io_bitmap" (CPtr "struct io_bitmap");
    member "iopl_emul" (CInt 8 false);
    bitfield "iopl_warn" (CInt 4 false) 1;
    member "pkru" ty_u32;
    bitfield "" (CInt 8 true) 64;
    bitfield "" (CInt 8 true) 64;
    bitfield "" (CInt 8 true) 64;
    bitfield "" (CInt 8 true) 64;
    bitfield "" (CInt 8 true) 64;
    member "fpu" struct_fpu ].

(** [vmlinux.h:1118]: [struct task_struct]. *)
Definition struct_task_struct_members_1 : list (fdecl ctype) :=
  [ member "thread_info" struct_thread_info;
    member "__state" (CInt 4 false);
    member "saved_state" (CInt 4 false);
    member "stack" (CPtr "void");
    member "usage" ty_refcount_t;
    member "flags" (CInt 4 false);
    member "ptrace" (CInt 4 false);
    member "on_cpu" (CInt 4 true);
    member "wake_entry" struct___call_single_node;
    member "wakee_flips" (CInt 4 false);
    member "wakee_flip_decay_ts" (CInt 8 false);
    member "last_wakee" (CPtr "struct task_struct");
    member "recent_used_cpu" (CInt 4 true);
    member "wake_cpu" (CInt 4 true);
    member "on_rq" (CInt 4 true);
    member "prio" (CInt 4 true);
    member "static_prio" (CInt 4 true);
    member "normal_prio" (CInt 4 true);
    member "rt_priority" (CInt 4 false);
    member "se" struct_sched_entity;
    member "rt" struct_sched_rt_entity;
    member "dl" struct_sched_dl_entity;
    member "dl_server" (CPtr "struct sched_dl_entity");
    member "sched_class" (CPtr "const struct sched_class");
    member "sched_task_group" (CPtr "struct task_group");
    member "stats" struct_sched_statistics;
    member "policy" (CInt 4 false);
    member "max_allowed_capacity" (CInt 8 false);
    member "nr_cpus_allowed" (CInt 4 true);
    member "cpus_ptr" (CPtr "const cpumask_t");
    member "user_cpus_ptr" (CPtr "cpumask_t");
    member "cpus_mask" ty_cpumask_t;
    member "migration_pending" (CPtr "void");
    member "migration_disabled" (CInt 2 false);
    member "migration_flags" (CInt 2 false);
    member "rcu_read_lock_nesting" (CInt 4 true);
    member "rcu_read_unlock_special" union_rcu_special;
    member "rcu_node_entry" struct_list_head;
    member "rcu_blocked_node" (CPtr "struct rcu_node");
    member "rcu_tasks_nvcsw" (CInt 8 false);
    member "rcu_tasks_holdout" ty_u8;
    member "rcu_tasks_idx" ty_u8;
    member "rcu_tasks_idle_cpu" (CInt 4 true);
    member "rcu_tasks_holdout_list" struct_list_head;
    member "rcu_tasks_exit_cpu" (CInt 4 true);
    member "rcu_tasks_exit_list" struct_list_head;
    member "trc_reader_nesting" (CInt 4 true);
    member "trc_ipi_to_cpu" (CInt 4 true);
    member "trc_reader_special" union_rcu_special;
    member "trc_holdout_list" struct_list_head;
    member "trc_blkd_node" struct_list_head;
    member "trc_blkd_cpu" (CInt 4 true);
    member "sched_info" struct_sched_info;
    member "tasks" struct_list_head;
    member "pushable_tasks" struct_plist_node;
    member "pushable_dl_tasks" struct_rb_node;
    member "mm" (CPtr "struct mm_struct");
    member "active_mm" (CPtr "struct mm_struct");
    member "faults_disabled_mapping" (CPtr "struct address_space");
    member "exit_state" (CInt 4 true);
    member "exit_code" (CInt 4 true);
    member "exit_signal" (CInt 4 true);
    member "pdeath_signal" (CInt 4 true);
    member "jobctl" (CInt 8 false);
    member "personality" (CInt 4 false);
    bitfield "sched_reset_on_fork" (CInt 4 false) 1;
    bitfield "sched_contributes_to_load" (CInt 4 false) 1;
    bitfield "sched_migrated" (CInt 4 false) 1;
    bitfield "sched_task_hot" (CInt 4 false) 1;
    bitfield "" (CInt 8 true) 28;
    bitfield "sched_remote_wakeup" (CInt 4 false) 1;
    bitfield "sched_rt_mutex" (CInt 4 false) 1;
    bitfield "in_execve" (CInt 4 false) 1;
    bitfield "in_iowait" (CInt 4 false) 1;
    bitfield "restore_sigmask" (CInt 4 false) 1;
    bitfield "brk_randomized" (CInt 4 false) 1;
    bitfield "no_cgroup_migration" (CInt 4 false) 1;
    bitfield "frozen" (CInt 4 false) 1;
    bitfield "use_memdelay" (CInt 4 false) 1;
    bitfield "in_eventfd" (CInt 4 false) 1;
    bitfield "reported_split_lock" (CInt 4 false) 1;
    member "atomic_flags" (CInt 8 false);
    member "restart_block" struct_restart_block;
    member "pid" ty_pid_t;
    member "tgid" ty_pid_t;
    member "stack_canary" (CInt 8 false);
    member "real_parent" (CPtr "struct task_struct");
    member "parent" (CPtr "struct task_struct");
    member "children" struct_list_head;
    member "sibling" struct_list_head;
    member "group_leader" (CPtr "struct task_struct");
    member "ptraced" struct_list_head;
    member "ptrace_entry" struct_list_head;
    member "thread_pid" (CPtr "struct pid");
    member "pid_links" (CArray struct_hlist_node 4);
    member "thread_node" struct_list_head;
    member "vfork_done" (CPtr "struct completion");
    member "set_child_tid" (CPtr "int");
    member "clear_child_tid" (CPtr "int");
    member "worker_private" (CPtr "void");
    member "utime" ty_u64;
    member "stime" ty_u64;
    member "gtime" ty_u64;
    member "prev_cputime" struct_prev_cputime;
    member "nvcsw" (CInt 8 false);
    member "nivcsw" (CInt 8 false);
    member "start_time" ty_u64;
    member "start_boottime" ty_u64;
    member "min_flt" (CInt 8 false);
    member "maj_flt" (CInt 8 false);
    member "posix_cputimers" struct_posix_cputimers;
    member "posix_cputimers_work" struct_posix_cputimers_work;
    member "ptracer_cred" (CPtr "const struct cred");
    member "real_cred" (CPtr "const struct cred");
    member "cred" (CPtr "const struct cred");
    member "cached_requested_key" (CPtr "struct key");
    member "comm" (CArray (CInt 1 true) 16);
    member "nameidata" (CPtr "struct nameidata");
    member "sysvsem" struct_sysv_sem;
    member "sysvshm" struct_sysv_shm;
    member "fs" (CPtr "struct fs_struct");
    member "files" (CPtr "struct files_struct");
    member "io_uring" (CPtr "struct io_uring_task");
    member "nsproxy" (CPtr "struct nsproxy");
    member "signal" (CPtr "struct signal_struct");
    member "sighand" (CPtr "struct sighand_struct");
    member "blocked" ty_sigset_t;
    member "real_blocked" ty_sigset_t;
    member "saved_sigmask" ty_sigset_t;
    member "pending" struct_sigpending;
    member "sas_ss_sp" (CInt 8 false);
    member "sas_ss_size" ty_size_t;
    member "sas_ss_flags" (CInt 4 false);
    member "task_works" (CPtr "struct callback_head");
    member "seccomp" struct_seccomp;
    member "syscall_dispatch" struct_syscall_user_dispatch;
    member "parent_exec_id" ty_u64;
    member "self_exec_id" ty_u64;
    member "alloc_lock" ty_spinlock_t;
    member "pi_lock" ty_raw_spinlock_t ].

Definition struct_task_struct_members_2 : list (fdecl ctype) :=
  [ member "wake_q" struct_wake_q_node;
    member "pi_waiters" struct_rb_root_cached;
    member "pi_top_task" (CPtr "struct task_struct");
    member "pi_blocked_on" (CPtr "struct rt_mutex_waiter");
    member "journal_info" (CPtr "void");
    member "bio_list" (CPtr "struct bio_list");
    member "plug" (CPtr "struct blk_plug");
    member "reclaim_state" (CPtr "struct reclaim_state");
    member "io_context" (CPtr "struct io_context");
    member "capture_control" (CPtr "struct capture_control");
    member "ptrace_message" (CInt 8 false);
    member "last_siginfo" (CPtr "kernel_siginfo_t");
    member "ioac" struct_task_io_accounting;
    member "mems_allowed" ty_nodemask_t;
    member "mems_allowed_seq" ty_seqcount_spinlock_t;
    member "cpuset_mem_spread_rotor" (CInt 4 true);
    member "cgroups" (CPtr "struct css_set");
    member "cg_list" struct_list_head;
    member "robust_list" (CPtr "struct robust_list_head");
    member "pi_state_list" struct_list_head;
    member "pi_state_cache" (CPtr "struct futex_pi_state");
    member "futex_exit_mutex" struct_mutex;
    member "futex_state" (CInt 4 false);
    member "perf_recursion" (CArray ty_u8 4);
    member "perf_event_ctxp" (CPtr "struct perf_event_context");
    member "perf_event_mutex" struct_mutex;
    member "perf_event_list" struct_list_head;
    member "rseq" (CPtr "struct rseq");
    member "rseq_len" ty_u32;
    member "rseq_sig" ty_u32;
    member "rseq_event_mask" (CInt 8 false);
    member "mm_cid" (CInt 4 true);
    member "last_mm_cid" (CInt 4 true);
    member "migrate_from_cpu" (CInt 4 true);
    member "mm_cid_active" (CInt 4 true);
    member "cid_work" struct_callback_head;
    member "tlb_ubc" struct_tlbflush_unmap_batch;
    member "splice_pipe" (CPtr "struct pipe_inode_info");
    member "task_frag" struct_page_frag;
    member "nr_dirtied" (CInt 4 true);
    member "nr_dirtied_pause" (CInt 4 true);
    member "dirty_paused_when" (CInt 8 false);
    member "timer_slack_ns" ty_u64;
    member "default_timer_slack_ns" ty_u64;
    member "trace_recursion" (CInt 8 false);
    member "memcg_nr_pages_over_high" (CInt 4 false);
    member "active_memcg" (CPtr "struct mem_cgroup");
    member "objcg" (CPtr "struct obj_cgroup");
    member "throttle_disk" (CPtr "struct gendisk");
    member "utask" (CPtr "struct uprobe_task");
    member "kmap_ctrl" struct_kmap_ctrl;
    member "rcu" struct_callback_head;
    member "rcu_users" ty_refcount_t;
    member "pagefault_disabled" (CInt 4 true);
    member "oom_reaper_list" (CPtr "struct task_struct");
    member "oom_reaper_timer" struct_timer_list;
    member "stack_vm_area" (CPtr "struct vm_struct");
    member "stack_refcount" ty_refcount_t;
    member "security" (CPtr "void");
    member "bpf_storage" (CPtr "struct bpf_local_storage");
    member "bpf_ctx" (CPtr "struct bpf_run_ctx");
    member "bpf_net_context" (CPtr "struct bpf_net_context");
    member "mce_vaddr" (CPtr "void");
    member "mce_kflags" ty___u64;
    member "mce_addr" ty_u64;
    bitfield "mce_ripv" ty___u64 1;
    bitfield "mce_whole_page" ty___u64 1;
    bitfield "__mce_reserved" ty___u64 62;
    member "mce_kill_me" struct_callback_head;
    member "mce_count" (CInt 4 true);
    member "kretprobe_instances" struct_llist_head;
    member "rethooks" struct_llist_head;
    member "l1d_flush_kill" struct_callback_head;
    bitfield "" (CInt 8 true) 64;
    bitfield "" (CInt 8 true) 64;
    bitfield "" (CInt 8 true) 64;
    bitfield "" (CInt 8 true) 64;
    bitfield "" (CInt 8 true) 64;
    bitfield "" (CInt 8 true) 64;
    member "thread" struct_thread_struct ].

Definition struct_task_struct : ctype := CStruct (struct_task_struct_members_1 ++ struct_task_struct_members_2).

(** [vmlinux.h:1742]: [struct wait_queue_head]. *)
Definition struct_wait_queue_head : ctype := CStruct
  [ member "lock" ty_spinlock_t;
    member "head" struct_list_head ].

(** [vmlinux.h:1747]: [wait_queue_head_t]. *)
Definition ty_wait_queue_head_t : ctype := struct_wait_queue_head.

(** [vmlinux.h:2141]: [kuid_t]. *)
Definition ty_kuid_t : ctype := CStruct
  [ member "val" ty_uid_t ].

(** [vmlinux.h:2175]: [kgid_t]. *)
Definition ty_kgid_t : ctype := CStruct
  [ member "val" ty_gid_t ].

(** [vmlinux.h:2254]: [kernel_cap_t]. *)
Definition ty_kernel_cap_t : ctype := CStruct
  [ member "val" ty_u64 ].

(** [vmlinux.h:2262]: [struct cred]. *)
Definition struct_cred : ctype := CStruct
  [ member "usage" ty_atomic_long_t;
    member "uid" ty_kuid_t;
    member "gid" ty_kgid_t;
    member "suid" ty_kuid_t;
    member "sgid" ty_kgid_t;
    member "euid" ty_kuid_t;
    member "egid" ty_kgid_t;
    member "fsuid" ty_kuid_t;
    member "fsgid" ty_kgid_t;
    member "securebits" (CInt 4 false);
    member "cap_inheritable" ty_kernel_cap_t;
    member "cap_permitted" ty_kernel_cap_t;
    member "cap_effective" ty_kernel_cap_t;
    member "cap_bset" ty_kernel_cap_t;
    member "cap_ambient" ty_kernel_cap_t;
    member "jit_keyring" (CInt 1 false);
    member "session_keyring" (CPtr "struct key");
    member "process_keyring" (CPtr "struct key");
    member "thread_keyring" (CPtr "struct key");
    member "request_key_auth" (CPtr "struct key");
    member "security" (CPtr "void");
    member "user" (CPtr "struct user_struct");
    member "user_ns" (CPtr "struct user_namespace");
    member "ucounts" (CPtr "struct ucounts");
    member "group_info" (CPtr "struct group_info");
    member "" (CUnion
    [ member "non_rcu" (CInt 4 true);
      member "rcu" struct_callback_head ]) ].

(** [vmlinux.h:6247]: [union bpf_attr]. *)
Definition union_bpf_attr_members_1 : list (fdecl ctype) :=
  [ member "" (CStruct
    [ member "map_type" ty___u32;
      member "key_size" ty___u32;
      member "value_size" ty___u32;
      member "max_entries" ty___u32;
      member "map_flags" ty___u32;
      member "inner_map_fd" ty___u32;
      member "numa_node" ty___u32;
      member "map_name" (CArray (CInt 1 true) 16);
      member "map_ifindex" ty___u32;
      member "btf_fd" ty___u32;
      member "btf_key_type_id" ty___u32;
      member "btf_value_type_id" ty___u32;
      member "btf_vmlinux_value_type_id" ty___u32;
      member "map_extra" ty___u64;
      member "value_type_btf_obj_fd" ty___s32;
      member "map_token_fd" ty___s32 ]);
    member "" (CStruct
    [ member "map_fd" ty___u32;
      member "key" ty___u64;
      member "" (CUnion
      [ member "value" ty___u64;
        member "next_key" ty___u64 ]);
      member "flags" ty___u64 ]);
    member "batch" (CStruct
    [ member "in_batch" ty___u64;
      member "out_batch" ty___u64;
      member "keys" ty___u64;
      member "values" ty___u64;
      member "count" ty___u32;
      member "map_fd" ty___u32;
      member "elem_flags" ty___u64;
      member "flags" ty___u64 ]);
    member "" (CStruct
    [ member "prog_type" ty___u32;
      member "insn_cnt" ty___u32;
      member "insns" ty___u64;
      member "license" ty___u64;
      member "log_level" ty___u32;
      member "log_size" ty___u32;
      member "log_buf" ty___u64;
      member "kern_version" ty___u32;
      member "prog_flags" ty___u32;
      member "prog_name" (CArray (CInt 1 true) 16);
      member "prog_ifindex" ty___u32;
      member "expected_attach_type" ty___u32;
      member "prog_btf_fd" ty___u32;
      member "func_info_rec_size" ty___u32;
      member "func_info" ty___u64;
      member "func_info_cnt" ty___u32;
      member "line_info_rec_size" ty___u32;
      member "line_info" ty___u64;
      member "line_info_cnt" ty___u32;
      member "attach_btf_id" ty___u32;
      member "" (CUnion
      [ member "attach_prog_fd" ty___u32;
        member "attach_btf_obj_fd" ty___u32 ]);
      member "core_relo_cnt" ty___u32;
      member "fd_array" ty___u64;
      member "core_relos" ty___u64;
      member "core_relo_rec_size" ty___u32;
      member "log_true_size" ty___u32;
      member "prog_token_fd" ty___s32 ]);
    member "" (CStruct
    [ member "pathname" ty___u64;
      member "bpf_fd" ty___u32;
      member "file_flags" ty___u32;
      member "path_fd" ty___s32 ]);
    member "" (CStruct
    [ member "" (CUnion
      [ member "target_fd" ty___u32;
        member "target_ifindex" ty___u32 ]);
      member "attach_bpf_fd" ty___u32;
      member "attach_type" ty___u32;
      member "attach_flags" ty___u32;
      member "replace_bpf_fd" ty___u32;
      member "" (CUnion
      [ member "relative_fd" ty___u32;
        member "relative_id" ty___u32 ]);
      member "expected_revision" ty___u64 ]);
    member "test" (CStruct
    [ member "prog_fd" ty___u32;
      member "retval" ty___u32;
      member "data_size_in" ty___u32;
      member "data_size_out" ty___u32;
      member "data_in" ty___u64;
      member "data_out" ty___u64;
      member "repeat" ty___u32;
      member "duration" ty___u32;
      member "ctx_size_in" ty___u32;
      member "ctx_size_out" ty___u32;
      member "ctx_in" ty___u64;
      member "ctx_out" ty___u64;
      member "flags" ty___u32;
      member "cpu" ty___u32;
      member "batch_size" ty___u32 ]);
    member "" (CStruct
    [ member "" (CUnion
      [ member "start_id" ty___u32;
        member "prog_id" ty___u32;
        member "map_id" ty___u32;
        member "btf_id" ty___u32;
        member "link_id" ty___u32 ]);
      member "next_id" ty___u32;
      member "open_flags" ty___u32 ]);
    member "info" (CStruct
    [ member "bpf_fd" ty___u32;
      member "info_len" ty___u32;
      member "info" ty___u64 ]) ].

Definition union_bpf_attr_members_2 : list (fdecl ctype) :=
  [ member "query" (CStruct
    [ member "" (CUnion
      [ member "target_fd" ty___u32;
        member "target_ifindex" ty___u32 ]);
      member "attach_type" ty___u32;
      member "query_flags" ty___u32;
      member "attach_flags" ty___u32;
      member "prog_ids" ty___u64;
      member "" (CUnion
      [ member "prog_cnt" ty___u32;
        member "count" ty___u32 ]);
      member "prog_attach_flags" ty___u64;
      member "link_ids" ty___u64;
      member "link_attach_flags" ty___u64;
      member "revision" ty___u64 ]);
    member "raw_tracepoint" (CStruct
    [ member "name" ty___u64;
      member "prog_fd" ty___u32;
      member "cookie" ty___u64 ]);
    member "" (CStruct
    [ member "btf" ty___u64;
      member "btf_log_buf" ty___u64;
      member "btf_size" ty___u32;
      member "btf_log_size" ty___u32;
      member "btf_log_level" ty___u32;
      member "btf_log_true_size" ty___u32;
      member "btf_flags" ty___u32;
      member "btf_token_fd" ty___s32 ]);
    member "task_fd_query" (CStruct
    [ member "pid" ty___u32;
      member "fd" ty___u32;
      member "flags" ty___u32;
      member "buf_len" ty___u32;
      member "buf" ty___u64;
      member "prog_id" ty___u32;
      member "fd_type" ty___u32;
      member "probe_offset" ty___u64;
      member "probe_addr" ty___u64 ]);
    member "link_create" (CStruct
    [ member "" (CUnion
      [ member "prog_fd" ty___u32;
        member "map_fd" ty___u32 ]);
      member "" (CUnion
      [ member "target_fd" ty___u32;
        member "target_ifindex" ty___u32 ]);
      member "attach_type" ty___u32;
      member "flags" ty___u32;
      member "" (CUnion
      [ member "target_btf_id" ty___u32;
        member "" (CStruct
        [ member "iter_info" ty___u64;
          member "iter_info_len" ty___u32 ]);
        member "perf_event" (CStruct
        [ member "bpf_cookie" ty___u64 ]);
        member "kprobe_multi" (CStruct
        [ member "flags" ty___u32;
          member "cnt" ty___u32;
          member "syms" ty___u64;
          member "addrs" ty___u64;
          member "cookies" ty___u64 ]);
        member "tracing" (CStruct
        [ member "target_btf_id" ty___u32;
          member "cookie" ty___u64 ]);
        member "netfilter" (CStruct
        [ member "pf" ty___u32;
          member "hooknum" ty___u32;
          member "priority" ty___s32;
          member "flags" ty___u32 ]);
        member "tcx" (CStruct
        [ member "" (CUnion
          [ member "relative_fd" ty___u32;
            member "relative_id" ty___u32 ]);
          member "expected_revision" ty___u64 ]);
        member "uprobe_multi" (CStruct
        [ member "path" ty___u64;
          member "offsets" ty___u64;
          member "ref_ctr_offsets" ty___u64;
          member "cookies" ty___u64;
          member "cnt" ty___u32;
          member "flags" ty___u32;
          member "pid" ty___u32 ]);
        member "netkit" (CStruct
        [ member "" (CUnion
          [ member "relative_fd" ty___u32;
            member "relative_id" ty___u32 ]);
          member "expected_revision" ty___u64 ]) ]) ]);
    member "link_update" (CStruct
    [ member "link_fd" ty___u32;
      member "" (CUnion
      [ member "new_prog_fd" ty___u32;
        member "new_map_fd" ty___u32 ]);
      member "flags" ty___u32;
      member "" (CUnion
      [ member "old_prog_fd" ty___u32;
        member "old_map_fd" ty___u32 ]) ]);
    member "link_detach" (CStruct
    [ member "link_fd" ty___u32 ]);
    member "enable_stats" (CStruct
    [ member "type" ty___u32 ]);
    member "iter_create" (CStruct
    [ member "link_fd" ty___u32;
      member "flags" ty___u32 ]);
    member "prog_bind_map" (CStruct
    [ member "prog_fd" ty___u32;
      member "map_fd" ty___u32;
      member "flags" ty___u32 ]);
    member "token_create" (CStruct
    [ member "flags" ty___u32;
      member "bpffs_fd" ty___u32 ]) ].

Definition union_bpf_attr : ctype := CUnion (union_bpf_attr_members_1 ++ union_bpf_attr_members_2).

(** [vmlinux.h:9808]: [__be16]. *)
Definition ty___be16 : ctype := ty___u16.

(** [vmlinux.h:9810]: [__be32]. *)
Definition ty___be32 : ctype := ty___u32.

(** [vmlinux.h:9870]: [struct in6_addr]. *)
Definition struct_in6_addr : ctype := CStruct
  [ member "in6_u" (CUnion
    [ member "u6_addr8" (CArray ty___u8 16);
      member "u6_addr16" (CArray ty___be16 8);
      member "u6_addr32" (CArray ty___be32 4) ]) ].

(** [vmlinux.h:11179]: [__kernel_sa_family_t]. *)
Definition ty___kernel_sa_family_t : ctype := (CInt 2 false).

(** [vmlinux.h:11181]: [sa_family_t]. *)
Definition ty_sa_family_t : ctype := ty___kernel_sa_family_t.

(** [vmlinux.h:11183]: [struct sockaddr]. *)
Definition struct_sockaddr : ctype := CStruct
  [ member "sa_family" ty_sa_family_t;
    member "" (CUnion
    [ member "sa_data_min" (CArray (CInt 1 true) 14);
      member "" (CStruct
      [ member "__empty_sa_data" (CStruct []);
        member "sa_data" (CArray (CInt 1 true) 0) ]) ]) ].

(** [vmlinux.h:16008]: [struct in_addr]. *)
Definition struct_in_addr : ctype := CStruct
  [ member "s_addr" ty___be32 ].

(** [vmlinux.h:16012]: [struct sockaddr_in]. *)
Definition struct_sockaddr_in : ctype := CStruct
  [ member "sin_family" ty___kernel_sa_family_t;
    member "sin_port" ty___be16;
    member "sin_addr" struct_in_addr;
    member "__pad" (CArray (CInt 1 false) 8) ].

(** [vmlinux.h:16247]: [socket_state]. *)
Definition ty_socket_state : ctype := CEnum
  [ ("SS_FREE", 0);
    ("SS_UNCONNECTED", 1);
    ("SS_CONNECTING", 2);
    ("SS_CONNECTED", 3);
    ("SS_DISCONNECTING", 4) ].

(** [vmlinux.h:16265]: [struct socket_wq]. *)
Definition struct_socket_wq : ctype := CStruct
  [ member "wait" ty_wait_queue_head_t;
    member "fasync_list" (CPtr "struct fasync_struct");
    member "flags" (CInt 8 false);
    member "rcu" struct_callback_head;
    bitfield "" (CInt 8 true) 64 ].

(** [vmlinux.h:16275]: [struct socket]. *)
Definition struct_socket : ctype := CStruct
  [ member "state" ty_socket_state;
    member "type" (CInt 2 true);
    member "flags" (CInt 8 false);
    member "file" (CPtr "struct file");
    member "sk" (CPtr "struct sock");
    member "ops" (CPtr "const struct proto_ops");
    bitfield "" (CInt 8 true) 64;
    bitfield "" (CInt 8 true) 64;
    bitfield "" (CInt 8 true) 64;
    member "wq" struct_socket_wq ].

(** [vmlinux.h:16341]: [struct sockaddr_in6]. *)
Definition struct_sockaddr_in6 : ctype := CStruct
  [ member "sin6_family" (CInt 2 false);
    member "sin6_port" ty___be16;
    member "sin6_flowinfo" ty___be32;
    member "sin6_addr" struct_in6_addr;
    member "sin6_scope_id" ty___u32 ].

(** Every type of this file with its name. *)
Definition vmlinux_types : list (string * ctype) :=
  [ ("ty___u32", ty___u32);
    ("ty___u64", ty___u64);
    ("ty_u32", ty_u32);
    ("ty_u64", ty_u64);
    ("ty_bool", ty_bool);
    ("ty___u8", ty___u8);
    ("ty___u16", ty___u16);
    ("ty___s32", ty___s32);
    ("ty___s64", ty___s64);
    ("ty_u8", ty_u8);
    ("ty_u16", ty_u16);
    ("ty_s64", ty_s64);
    ("ty___kernel_ulong_t", ty___kernel_ulong_t);
    ("ty___kernel_pid_t", ty___kernel_pid_t);
    ("ty___kernel_uid32_t", ty___kernel_uid32_t);
    ("ty___kernel_gid32_t", ty___kernel_gid32_t);
    ("ty___kernel_size_t", ty___kernel_size_t);
    ("ty___kernel_clockid_t", ty___kernel_clockid_t);
    ("ty_pid_t", ty_pid_t);
    ("ty_clockid_t", ty_clockid_t);
    ("ty_uid_t", ty_uid_t);
    ("ty_gid_t", ty_gid_t);
    ("ty_size_t", ty_size_t);
    ("ty_ktime_t", ty_ktime_t);
    ("ty_atomic_t", ty_atomic_t);
    ("ty_atomic64_t", ty_atomic64_t);
    ("struct_list_head", struct_list_head);
    ("struct_hlist_node", struct_hlist_node);
    ("struct_callback_head", struct_callback_head);
    ("ty_atomic_long_t", ty_atomic_long_t);
    ("struct_qspinlock", struct_qspinlock);
    ("ty_arch_spinlock_t", ty_arch_spinlock_t);
    ("struct_raw_spinlock", struct_raw_spinlock);
    ("ty_raw_spinlock_t", ty_raw_spinlock_t);
    ("struct_fred_cs", struct_fred_cs);
    ("struct_fred_ss", struct_fred_ss);
    ("struct_pt_regs", struct_pt_regs);
    ("struct_desc_struct", struct_desc_struct);
    ("struct_thread_info", struct_thread_info);
    ("struct_refcount_struct", struct_refcount_struct);
    ("ty_refcount_t", ty_refcount_t);
    ("struct_llist_node", struct_llist_node);
    ("struct___call_single_node", struct___call_single_node);
    ("struct_load_weight", struct_load_weight);
    ("struct_rb_node", struct_rb_node);
    ("struct_sched_avg", struct_sched_avg);
    ("struct_sched_entity", struct_sched_entity);
    ("struct_sched_rt_entity", struct_sched_rt_entity);
    ("struct_timerqueue_node", struct_timerqueue_node);
    ("struct_hrtimer", struct_hrtimer);
    ("ty_dl_server_has_tasks_f", ty_dl_server_has_tasks_f);
    ("ty_dl_server_pick_f", ty_dl_server_pick_f);
    ("struct_sched_dl_entity", struct_sched_dl_entity);
    ("struct_sched_statistics", struct_sched_statistics);
    ("struct_cpumask", struct_cpumask);
    ("ty_cpumask_t", ty_cpumask_t);
    ("union_rcu_special", union_rcu_special);
    ("struct_sched_info", struct_sched_info);
    ("struct_plist_node", struct_plist_node);
    ("enum_timespec_type", enum_timespec_type);
    ("struct_restart_block", struct_restart_block);
    ("struct_prev_cputime", struct_prev_cputime);
    ("struct_rb_root", struct_rb_root);
    ("struct_rb_root_cached", struct_rb_root_cached);
    ("struct_timerqueue_head", struct_timerqueue_head);
    ("struct_posix_cputimer_base", struct_posix_cputimer_base);
    ("struct_posix_cputimers", struct_posix_cputimers);
    ("struct_optimistic_spin_queue", struct_optimistic_spin_queue);
    ("struct_mutex", struct_mutex);
    ("struct_posix_cputimers_work", struct_posix_cputimers_work);
    ("struct_sysv_sem", struct_sysv_sem);
    ("struct_sysv_shm", struct_sysv_shm);
    ("ty_sigset_t", ty_sigset_t);
    ("struct_sigpending", struct_sigpending);
    ("struct_seccomp", struct_seccomp);
    ("struct_syscall_user_dispatch", struct_syscall_user_dispatch);
    ("struct_spinlock", struct_spinlock);
    ("ty_spinlock_t", ty_spinlock_t);
    ("struct_wake_q_node", struct_wake_q_node);
    ("struct_task_io_accounting", struct_task_io_accounting);
    ("ty_nodemask_t", ty_nodemask_t);
    ("struct_seqcount", struct_seqcount);
    ("ty_seqcount_t", ty_seqcount_t);
    ("struct_seqcount_spinlock", struct_seqcount_spinlock);
    ("ty_seqcount_spinlock_t", ty_seqcount_spinlock_t);
    ("struct_arch_tlbflush_unmap_batch", struct_arch_tlbflush_unmap_batch);
    ("struct_tlbflush_unmap_batch", struct_tlbflush_unmap_batch);
    ("struct_page_frag", struct_page_frag);
    ("struct_kmap_ctrl", struct_kmap_ctrl);
    ("struct_timer_list", struct_timer_list);
    ("struct_llist_head", struct_llist_head);
    ("struct_fpu_state_perm", struct_fpu_state_perm);
    ("struct_fregs_state", struct_fregs_state);
    ("struct_fxregs_state", struct_fxregs_state);
    ("struct_swregs_state", struct_swregs_state);
    ("struct_xstate_header", struct_xstate_header);
    ("struct_xregs_state", struct_xregs_state);
    ("union_fpregs_state", union_fpregs_state);
    ("struct_fpstate", struct_fpstate);
    ("struct_fpu", struct_fpu);
    ("struct_thread_struct", struct_thread_struct);
    ("struct_task_struct", struct_task_struct);
    ("struct_wait_queue_head", struct_wait_queue_head);
    ("ty_wait_queue_head_t", ty_wait_queue_head_t);
    ("ty_kuid_t", ty_kuid_t);
    ("ty_kgid_t", ty_kgid_t);
    ("ty_kernel_cap_t", ty_kernel_cap_t);
    ("struct_cred", struct_cred);
    ("union_bpf_attr", union_bpf_attr);
    ("ty___be16", ty___be16);
    ("ty___be32", ty___be32);
    ("struct_in6_addr", struct_in6_addr);
    ("ty___kernel_sa_family_t", ty___kernel_sa_family_t);
    ("ty_sa_family_t", ty_sa_family_t);
    ("struct_sockaddr", struct_sockaddr);
    ("struct_in_addr", struct_in_addr);
    ("struct_sockaddr_in", struct_sockaddr_in);
    ("ty_socket_state", ty_socket_state);
    ("struct_socket_wq", struct_socket_wq);
    ("struct_socket", struct_socket);
    ("struct_sockaddr_in6", struct_sockaddr_in6) ].
