(* ===== verification/KernelAbi.v ===== *)
(** * Kernel interfaces: enumerations and LSM hook prototypes of [headers/vmlinux.h]

    The enumerations a BPF object is loaded with (map types, program types, attach
    points, commands, helper numbers) and [union security_list_options], the prototypes
    of every LSM hook. A prototype keeps the text of its types. *)
From Stdlib Require Import ZArith.
From stdpp Require Import base strings list.
From S2P Require Import Prelude CType.
#[local] Open Scope Z_scope.
#[local] Open Scope string_scope.
#[local] Open Scope list_scope.

(** A function prototype: name, return type, parameter types. *)
Record proto := Proto { p_name : string; p_ret : string; p_args : list string }.

(** [vmlinux.h:6109]: [enum bpf_map_type]. *)
Definition enum_bpf_map_type : list (string * Z) :=
  [ ("BPF_MAP_TYPE_UNSPEC", 0);
    ("BPF_MAP_TYPE_HASH", 1);
    ("BPF_MAP_TYPE_ARRAY", 2);
    ("BPF_MAP_TYPE_PROG_ARRAY", 3);
    ("BPF_MAP_TYPE_PERF_EVENT_ARRAY", 4);
    ("BPF_MAP_TYPE_PERCPU_HASH", 5);
    ("BPF_MAP_TYPE_PERCPU_ARRAY", 6);
    ("BPF_MAP_TYPE_STACK_TRACE", 7);
    ("BPF_MAP_TYPE_CGROUP_ARRAY", 8);
    ("BPF_MAP_TYPE_LRU_HASH", 9);
    ("BPF_MAP_TYPE_LRU_PERCPU_HASH", 10);
    ("BPF_MAP_TYPE_LPM_TRIE", 11);
    ("BPF_MAP_TYPE_ARRAY_OF_MAPS", 12);
    ("BPF_MAP_TYPE_HASH_OF_MAPS", 13);
    ("BPF_MAP_TYPE_DEVMAP", 14);
    ("BPF_MAP_TYPE_SOCKMAP", 15);
    ("BPF_MAP_TYPE_CPUMAP", 16);
    ("BPF_MAP_TYPE_XSKMAP", 17);
    ("BPF_MAP_TYPE_SOCKHASH", 18);
    ("BPF_MAP_TYPE_CGROUP_STORAGE_DEPRECATED", 19);
    ("BPF_MAP_TYPE_CGROUP_STORAGE", 19);
    ("BPF_MAP_TYPE_REUSEPORT_SOCKARRAY", 20);
    ("BPF_MAP_TYPE_PERCPU_CGROUP_STORAGE_DEPRECATED", 21);
    ("BPF_MAP_TYPE_PERCPU_CGROUP_STORAGE", 21);
    ("BPF_MAP_TYPE_QUEUE", 22);
    ("BPF_MAP_TYPE_STACK", 23);
    ("BPF_MAP_TYPE_SK_STORAGE", 24);
    ("BPF_MAP_TYPE_DEVMAP_HASH", 25);
    ("BPF_MAP_TYPE_STRUCT_OPS", 26);
    ("BPF_MAP_TYPE_RINGBUF", 27);
    ("BPF_MAP_TYPE_INODE_STORAGE", 28);
    ("BPF_MAP_TYPE_TASK_STORAGE", 29);
    ("BPF_MAP_TYPE_BLOOM_FILTER", 30);
    ("BPF_MAP_TYPE_USER_RINGBUF", 31);
    ("BPF_MAP_TYPE_CGRP_STORAGE", 32);
    ("BPF_MAP_TYPE_ARENA", 33);
    ("__MAX_BPF_MAP_TYPE", 34) ].

(** [vmlinux.h:6149]: [enum bpf_prog_type]. *)
Definition enum_bpf_prog_type : list (string * Z) :=
  [ ("BPF_PROG_TYPE_UNSPEC", 0);
    ("BPF_PROG_TYPE_SOCKET_FILTER", 1);
    ("BPF_PROG_TYPE_KPROBE", 2);
    ("BPF_PROG_TYPE_SCHED_CLS", 3);
    ("BPF_PROG_TYPE_SCHED_ACT", 4);
    ("BPF_PROG_TYPE_TRACEPOINT", 5);
    ("BPF_PROG_TYPE_XDP", 6);
    ("BPF_PROG_TYPE_PERF_EVENT", 7);
    ("BPF_PROG_TYPE_CGROUP_SKB", 8);
    ("BPF_PROG_TYPE_CGROUP_SOCK", 9);
    ("BPF_PROG_TYPE_LWT_IN", 10);
    ("BPF_PROG_TYPE_LWT_OUT", 11);
    ("BPF_PROG_TYPE_LWT_XMIT", 12);
    ("BPF_PROG_TYPE_SOCK_OPS", 13);
    ("BPF_PROG_TYPE_SK_SKB", 14);
    ("BPF_PROG_TYPE_CGROUP_DEVICE", 15);
    ("BPF_PROG_TYPE_SK_MSG", 16);
    ("BPF_PROG_TYPE_RAW_TRACEPOINT", 17);
    ("BPF_PROG_TYPE_CGROUP_SOCK_ADDR", 18);
    ("BPF_PROG_TYPE_LWT_SEG6LOCAL", 19);
    ("BPF_PROG_TYPE_LIRC_MODE2", 20);
    ("BPF_PROG_TYPE_SK_REUSEPORT", 21);
    ("BPF_PROG_TYPE_FLOW_DISSECTOR", 22);
    ("BPF_PROG_TYPE_CGROUP_SYSCTL", 23);
    ("BPF_PROG_TYPE_RAW_TRACEPOINT_WRITABLE", 24);
    ("BPF_PROG_TYPE_CGROUP_SOCKOPT", 25);
    ("BPF_PROG_TYPE_TRACING", 26);
    ("BPF_PROG_TYPE_STRUCT_OPS", 27);
    ("BPF_PROG_TYPE_EXT", 28);
    ("BPF_PROG_TYPE_LSM", 29);
    ("BPF_PROG_TYPE_SK_LOOKUP", 30);
    ("BPF_PROG_TYPE_SYSCALL", 31);
    ("BPF_PROG_TYPE_NETFILTER", 32);
    ("__MAX_BPF_PROG_TYPE", 33) ].

(** [vmlinux.h:6186]: [enum bpf_attach_type]. *)
Definition enum_bpf_attach_type : list (string * Z) :=
  [ ("BPF_CGROUP_INET_INGRESS", 0);
    ("BPF_CGROUP_INET_EGRESS", 1);
    ("BPF_CGROUP_INET_SOCK_CREATE", 2);
    ("BPF_CGROUP_SOCK_OPS", 3);
    ("BPF_SK_SKB_STREAM_PARSER", 4);
    ("BPF_SK_SKB_STREAM_VERDICT", 5);
    ("BPF_CGROUP_DEVICE", 6);
    ("BPF_SK_MSG_VERDICT", 7);
    ("BPF_CGROUP_INET4_BIND", 8);
    ("BPF_CGROUP_INET6_BIND", 9);
    ("BPF_CGROUP_INET4_CONNECT", 10);
    ("BPF_CGROUP_INET6_CONNECT", 11);
    ("BPF_CGROUP_INET4_POST_BIND", 12);
    ("BPF_CGROUP_INET6_POST_BIND", 13);
    ("BPF_CGROUP_UDP4_SENDMSG", 14);
    ("BPF_CGROUP_UDP6_SENDMSG", 15);
    ("BPF_LIRC_MODE2", 16);
    ("BPF_FLOW_DISSECTOR", 17);
    ("BPF_CGROUP_SYSCTL", 18);
    ("BPF_CGROUP_UDP4_RECVMSG", 19);
    ("BPF_CGROUP_UDP6_RECVMSG", 20);
    ("BPF_CGROUP_GETSOCKOPT", 21);
    ("BPF_CGROUP_SETSOCKOPT", 22);
    ("BPF_TRACE_RAW_TP", 23);
    ("BPF_TRACE_FENTRY", 24);
    ("BPF_TRACE_FEXIT", 25);
    ("BPF_MODIFY_RETURN", 26);
    ("BPF_LSM_MAC", 27);
    ("BPF_TRACE_ITER", 28);
    ("BPF_CGROUP_INET4_GETPEERNAME", 29);
    ("BPF_CGROUP_INET6_GETPEERNAME", 30);
    ("BPF_CGROUP_INET4_GETSOCKNAME", 31);
    ("BPF_CGROUP_INET6_GETSOCKNAME", 32);
    ("BPF_XDP_DEVMAP", 33);
    ("BPF_CGROUP_INET_SOCK_RELEASE", 34);
    ("BPF_XDP_CPUMAP", 35);
    ("BPF_SK_LOOKUP", 36);
    ("BPF_XDP", 37);
    ("BPF_SK_SKB_VERDICT", 38);
    ("BPF_SK_REUSEPORT_SELECT", 39);
    ("BPF_SK_REUSEPORT_SELECT_OR_MIGRATE", 40);
    ("BPF_PERF_EVENT", 41);
    ("BPF_TRACE_KPROBE_MULTI", 42);
    ("BPF_LSM_CGROUP", 43);
    ("BPF_STRUCT_OPS", 44);
    ("BPF_NETFILTER", 45);
    ("BPF_TCX_INGRESS", 46);
    ("BPF_TCX_EGRESS", 47);
    ("BPF_TRACE_UPROBE_MULTI", 48);
    ("BPF_CGROUP_UNIX_CONNECT", 49);
    ("BPF_CGROUP_UNIX_SENDMSG", 50);
    ("BPF_CGROUP_UNIX_RECVMSG", 51);
    ("BPF_CGROUP_UNIX_GETPEERNAME", 52);
    ("BPF_CGROUP_UNIX_GETSOCKNAME", 53);
    ("BPF_NETKIT_PRIMARY", 54);
    ("BPF_NETKIT_PEER", 55);
    ("BPF_TRACE_KPROBE_SESSION", 56);
    ("__MAX_BPF_ATTACH_TYPE", 57) ].

(** [vmlinux.h:16471]: [enum bpf_cmd]. *)
Definition enum_bpf_cmd : list (string * Z) :=
  [ ("BPF_MAP_CREATE", 0);
    ("BPF_MAP_LOOKUP_ELEM", 1);
    ("BPF_MAP_UPDATE_ELEM", 2);
    ("BPF_MAP_DELETE_ELEM", 3);
    ("BPF_MAP_GET_NEXT_KEY", 4);
    ("BPF_PROG_LOAD", 5);
    ("BPF_OBJ_PIN", 6);
    ("BPF_OBJ_GET", 7);
    ("BPF_PROG_ATTACH", 8);
    ("BPF_PROG_DETACH", 9);
    ("BPF_PROG_TEST_RUN", 10);
    ("BPF_PROG_RUN", 10);
    ("BPF_PROG_GET_NEXT_ID", 11);
    ("BPF_MAP_GET_NEXT_ID", 12);
    ("BPF_PROG_GET_FD_BY_ID", 13);
    ("BPF_MAP_GET_FD_BY_ID", 14);
    ("BPF_OBJ_GET_INFO_BY_FD", 15);
    ("BPF_PROG_QUERY", 16);
    ("BPF_RAW_TRACEPOINT_OPEN", 17);
    ("BPF_BTF_LOAD", 18);
    ("BPF_BTF_GET_FD_BY_ID", 19);
    ("BPF_TASK_FD_QUERY", 20);
    ("BPF_MAP_LOOKUP_AND_DELETE_ELEM", 21);
    ("BPF_MAP_FREEZE", 22);
    ("BPF_BTF_GET_NEXT_ID", 23);
    ("BPF_MAP_LOOKUP_BATCH", 24);
    ("BPF_MAP_LOOKUP_AND_DELETE_BATCH", 25);
    ("BPF_MAP_UPDATE_BATCH", 26);
    ("BPF_MAP_DELETE_BATCH", 27);
    ("BPF_LINK_CREATE", 28);
    ("BPF_LINK_UPDATE", 29);
    ("BPF_LINK_GET_FD_BY_ID", 30);
    ("BPF_LINK_GET_NEXT_ID", 31);
    ("BPF_ENABLE_STATS", 32);
    ("BPF_ITER_CREATE", 33);
    ("BPF_LINK_DETACH", 34);
    ("BPF_PROG_BIND_MAP", 35);
    ("BPF_TOKEN_CREATE", 36);
    ("__MAX_BPF_CMD", 37) ].

(** [vmlinux.h:39908]. *)
Definition enum_bpf_func_id_1 : list (string * Z) :=
  [ ("BPF_FUNC_unspec", 0);
    ("BPF_FUNC_map_lookup_elem", 1);
    ("BPF_FUNC_map_update_elem", 2);
    ("BPF_FUNC_map_delete_elem", 3);
    ("BPF_FUNC_probe_read", 4);
    ("BPF_FUNC_ktime_get_ns", 5);
    ("BPF_FUNC_trace_printk", 6);
    ("BPF_FUNC_get_prandom_u32", 7);
    ("BPF_FUNC_get_smp_processor_id", 8);
    ("BPF_FUNC_skb_store_bytes", 9);
    ("BPF_FUNC_l3_csum_replace", 10);
    ("BPF_FUNC_l4_csum_replace", 11);
    ("BPF_FUNC_tail_call", 12);
    ("BPF_FUNC_clone_redirect", 13);
    ("BPF_FUNC_get_current_pid_tgid", 14);
    ("BPF_FUNC_get_current_uid_gid", 15);
    ("BPF_FUNC_get_current_comm", 16);
    ("BPF_FUNC_get_cgroup_classid", 17);
    ("BPF_FUNC_skb_vlan_push", 18);
    ("BPF_FUNC_skb_vlan_pop", 19);
    ("BPF_FUNC_skb_get_tunnel_key", 20);
    ("BPF_FUNC_skb_set_tunnel_key", 21);
    ("BPF_FUNC_perf_event_read", 22);
    ("BPF_FUNC_redirect", 23);
    ("BPF_FUNC_get_route_realm", 24);
    ("BPF_FUNC_perf_event_output", 25);
    ("BPF_FUNC_skb_load_bytes", 26);
    ("BPF_FUNC_get_stackid", 27);
    ("BPF_FUNC_csum_diff", 28);
    ("BPF_FUNC_skb_get_tunnel_opt", 29);
    ("BPF_FUNC_skb_set_tunnel_opt", 30);
    ("BPF_FUNC_skb_change_proto", 31);
    ("BPF_FUNC_skb_change_type", 32);
    ("BPF_FUNC_skb_under_cgroup", 33);
    ("BPF_FUNC_get_hash_recalc", 34);
    ("BPF_FUNC_get_current_task", 35);
    ("BPF_FUNC_probe_write_user", 36);
    ("BPF_FUNC_current_task_under_cgroup", 37);
    ("BPF_FUNC_skb_change_tail", 38);
    ("BPF_FUNC_skb_pull_data", 39);
    ("BPF_FUNC_csum_update", 40);
    ("BPF_FUNC_set_hash_invalid", 41);
    ("BPF_FUNC_get_numa_node_id", 42);
    ("BPF_FUNC_skb_change_head", 43);
    ("BPF_FUNC_xdp_adjust_head", 44);
    ("BPF_FUNC_probe_read_str", 45);
    ("BPF_FUNC_get_socket_cookie", 46);
    ("BPF_FUNC_get_socket_uid", 47);
    ("BPF_FUNC_set_hash", 48);
    ("BPF_FUNC_setsockopt", 49);
    ("BPF_FUNC_skb_adjust_room", 50);
    ("BPF_FUNC_redirect_map", 51);
    ("BPF_FUNC_sk_redirect_map", 52);
    ("BPF_FUNC_sock_map_update", 53);
    ("BPF_FUNC_xdp_adjust_meta", 54);
    ("BPF_FUNC_perf_event_read_value", 55);
    ("BPF_FUNC_perf_prog_read_value", 56);
    ("BPF_FUNC_getsockopt", 57);
    ("BPF_FUNC_override_return", 58);
    ("BPF_FUNC_sock_ops_cb_flags_set", 59);
    ("BPF_FUNC_msg_redirect_map", 60);
    ("BPF_FUNC_msg_apply_bytes", 61);
    ("BPF_FUNC_msg_cork_bytes", 62);
    ("BPF_FUNC_msg_pull_data", 63);
    ("BPF_FUNC_bind", 64);
    ("BPF_FUNC_xdp_adjust_tail", 65);
    ("BPF_FUNC_skb_get_xfrm_state", 66);
    ("BPF_FUNC_get_stack", 67);
    ("BPF_FUNC_skb_load_bytes_relative", 68);
    ("BPF_FUNC_fib_lookup", 69);
    ("BPF_FUNC_sock_hash_update", 70);
    ("BPF_FUNC_msg_redirect_hash", 71);
    ("BPF_FUNC_sk_redirect_hash", 72);
    ("BPF_FUNC_lwt_push_encap", 73);
    ("BPF_FUNC_lwt_seg6_store_bytes", 74);
    ("BPF_FUNC_lwt_seg6_adjust_srh", 75);
    ("BPF_FUNC_lwt_seg6_action", 76);
    ("BPF_FUNC_rc_repeat", 77);
    ("BPF_FUNC_rc_keydown", 78);
    ("BPF_FUNC_skb_cgroup_id", 79);
    ("BPF_FUNC_get_current_cgroup_id", 80);
    ("BPF_FUNC_get_local_storage", 81);
    ("BPF_FUNC_sk_select_reuseport", 82);
    ("BPF_FUNC_skb_ancestor_cgroup_id", 83);
    ("BPF_FUNC_sk_lookup_tcp", 84);
    ("BPF_FUNC_sk_lookup_udp", 85);
    ("BPF_FUNC_sk_release", 86);
    ("BPF_FUNC_map_push_elem", 87);
    ("BPF_FUNC_map_pop_elem", 88);
    ("BPF_FUNC_map_peek_elem", 89);
    ("BPF_FUNC_msg_push_data", 90);
    ("BPF_FUNC_msg_pop_data", 91);
    ("BPF_FUNC_rc_pointer_rel", 92);
    ("BPF_FUNC_spin_lock", 93);
    ("BPF_FUNC_spin_unlock", 94);
    ("BPF_FUNC_sk_fullsock", 95);
    ("BPF_FUNC_tcp_sock", 96);
    ("BPF_FUNC_skb_ecn_set_ce", 97);
    ("BPF_FUNC_get_listener_sock", 98);
    ("BPF_FUNC_skc_lookup_tcp", 99);
    ("BPF_FUNC_tcp_check_syncookie", 100);
    ("BPF_FUNC_sysctl_get_name", 101);
    ("BPF_FUNC_sysctl_get_current_value", 102);
    ("BPF_FUNC_sysctl_get_new_value", 103);
    ("BPF_FUNC_sysctl_set_new_value", 104);
    ("BPF_FUNC_strtol", 105) ].

(** [vmlinux.h:40014]. *)
Definition enum_bpf_func_id_2 : list (string * Z) :=
  [ ("BPF_FUNC_strtoul", 106);
    ("BPF_FUNC_sk_storage_get", 107);
    ("BPF_FUNC_sk_storage_delete", 108);
    ("BPF_FUNC_send_signal", 109);
    ("BPF_FUNC_tcp_gen_syncookie", 110);
    ("BPF_FUNC_skb_output", 111);
    ("BPF_FUNC_probe_read_user", 112);
    ("BPF_FUNC_probe_read_kernel", 113);
    ("BPF_FUNC_probe_read_user_str", 114);
    ("BPF_FUNC_probe_read_kernel_str", 115);
    ("BPF_FUNC_tcp_send_ack", 116);
    ("BPF_FUNC_send_signal_thread", 117);
    ("BPF_FUNC_jiffies64", 118);
    ("BPF_FUNC_read_branch_records", 119);
    ("BPF_FUNC_get_ns_current_pid_tgid", 120);
    ("BPF_FUNC_xdp_output", 121);
    ("BPF_FUNC_get_netns_cookie", 122);
    ("BPF_FUNC_get_current_ancestor_cgroup_id", 123);
    ("BPF_FUNC_sk_assign", 124);
    ("BPF_FUNC_ktime_get_boot_ns", 125);
    ("BPF_FUNC_seq_printf", 126);
    ("BPF_FUNC_seq_write", 127);
    ("BPF_FUNC_sk_cgroup_id", 128);
    ("BPF_FUNC_sk_ancestor_cgroup_id", 129);
    ("BPF_FUNC_ringbuf_output", 130);
    ("BPF_FUNC_ringbuf_reserve", 131);
    ("BPF_FUNC_ringbuf_submit", 132);
    ("BPF_FUNC_ringbuf_discard", 133);
    ("BPF_FUNC_ringbuf_query", 134);
    ("BPF_FUNC_csum_level", 135);
    ("BPF_FUNC_skc_to_tcp6_sock", 136);
    ("BPF_FUNC_skc_to_tcp_sock", 137);
    ("BPF_FUNC_skc_to_tcp_timewait_sock", 138);
    ("BPF_FUNC_skc_to_tcp_request_sock", 139);
    ("BPF_FUNC_skc_to_udp6_sock", 140);
    ("BPF_FUNC_get_task_stack", 141);
    ("BPF_FUNC_load_hdr_opt", 142);
    ("BPF_FUNC_store_hdr_opt", 143);
    ("BPF_FUNC_reserve_hdr_opt", 144);
    ("BPF_FUNC_inode_storage_get", 145);
    ("BPF_FUNC_inode_storage_delete", 146);
    ("BPF_FUNC_d_path", 147);
    ("BPF_FUNC_copy_from_user", 148);
    ("BPF_FUNC_snprintf_btf", 149);
    ("BPF_FUNC_seq_printf_btf", 150);
    ("BPF_FUNC_skb_cgroup_classid", 151);
    ("BPF_FUNC_redirect_neigh", 152);
    ("BPF_FUNC_per_cpu_ptr", 153);
    ("BPF_FUNC_this_cpu_ptr", 154);
    ("BPF_FUNC_redirect_peer", 155);
    ("BPF_FUNC_task_storage_get", 156);
    ("BPF_FUNC_task_storage_delete", 157);
    ("BPF_FUNC_get_current_task_btf", 158);
    ("BPF_FUNC_bprm_opts_set", 159);
    ("BPF_FUNC_ktime_get_coarse_ns", 160);
    ("BPF_FUNC_ima_inode_hash", 161);
    ("BPF_FUNC_sock_from_file", 162);
    ("BPF_FUNC_check_mtu", 163);
    ("BPF_FUNC_for_each_map_elem", 164);
    ("BPF_FUNC_snprintf", 165);
    ("BPF_FUNC_sys_bpf", 166);
    ("BPF_FUNC_btf_find_by_name_kind", 167);
    ("BPF_FUNC_sys_close", 168);
    ("BPF_FUNC_timer_init", 169);
    ("BPF_FUNC_timer_set_callback", 170);
    ("BPF_FUNC_timer_start", 171);
    ("BPF_FUNC_timer_cancel", 172);
    ("BPF_FUNC_get_func_ip", 173);
    ("BPF_FUNC_get_attach_cookie", 174);
    ("BPF_FUNC_task_pt_regs", 175);
    ("BPF_FUNC_get_branch_snapshot", 176);
    ("BPF_FUNC_trace_vprintk", 177);
    ("BPF_FUNC_skc_to_unix_sock", 178);
    ("BPF_FUNC_kallsyms_lookup_name", 179);
    ("BPF_FUNC_find_vma", 180);
    ("BPF_FUNC_loop", 181);
    ("BPF_FUNC_strncmp", 182);
    ("BPF_FUNC_get_func_arg", 183);
    ("BPF_FUNC_get_func_ret", 184);
    ("BPF_FUNC_get_func_arg_cnt", 185);
    ("BPF_FUNC_get_retval", 186);
    ("BPF_FUNC_set_retval", 187);
    ("BPF_FUNC_xdp_get_buff_len", 188);
    ("BPF_FUNC_xdp_load_bytes", 189);
    ("BPF_FUNC_xdp_store_bytes", 190);
    ("BPF_FUNC_copy_from_user_task", 191);
    ("BPF_FUNC_skb_set_tstamp", 192);
    ("BPF_FUNC_ima_file_hash", 193);
    ("BPF_FUNC_kptr_xchg", 194);
    ("BPF_FUNC_map_lookup_percpu_elem", 195);
    ("BPF_FUNC_skc_to_mptcp_sock", 196);
    ("BPF_FUNC_dynptr_from_mem", 197);
    ("BPF_FUNC_ringbuf_reserve_dynptr", 198);
    ("BPF_FUNC_ringbuf_submit_dynptr", 199);
    ("BPF_FUNC_ringbuf_discard_dynptr", 200);
    ("BPF_FUNC_dynptr_read", 201);
    ("BPF_FUNC_dynptr_write", 202);
    ("BPF_FUNC_dynptr_data", 203);
    ("BPF_FUNC_tcp_raw_gen_syncookie_ipv4", 204);
    ("BPF_FUNC_tcp_raw_gen_syncookie_ipv6", 205);
    ("BPF_FUNC_tcp_raw_check_syncookie_ipv4", 206);
    ("BPF_FUNC_tcp_raw_check_syncookie_ipv6", 207);
    ("BPF_FUNC_ktime_get_tai_ns", 208);
    ("BPF_FUNC_user_ringbuf_drain", 209);
    ("BPF_FUNC_cgrp_storage_get", 210);
    ("BPF_FUNC_cgrp_storage_delete", 211);
    ("__BPF_FUNC_MAX_ID", 212) ].

Definition enum_bpf_func_id : list (string * Z) := enum_bpf_func_id_1 ++ enum_bpf_func_id_2.

(** [vmlinux.h:17126]. *)
Definition security_list_options_1 : list proto :=
  [ Proto "binder_set_context_mgr" "int" ["const struct cred *"];
    Proto "binder_transaction" "int" ["const struct cred *"; "const struct cred *"];
    Proto "binder_transfer_binder" "int" ["const struct cred *"; "const struct cred *"];
    Proto "binder_transfer_file" "int" ["const struct cred *"; "const struct cred *"; "const struct file *"];
    Proto "ptrace_access_check" "int" ["struct task_struct *"; "unsigned int"];
    Proto "ptrace_traceme" "int" ["struct task_struct *"];
    Proto "capget" "int" ["const struct task_struct *"; "kernel_cap_t *"; "kernel_cap_t *"; "kernel_cap_t *"];
    Proto "capset" "int" ["struct cred *"; "const struct cred *"; "const kernel_cap_t *"; "const kernel_cap_t *"; "const kernel_cap_t *"];
    Proto "capable" "int" ["const struct cred *"; "struct user_namespace *"; "int"; "unsigned int"];
    Proto "quotactl" "int" ["int"; "int"; "int"; "const struct super_block *"];
    Proto "quota_on" "int" ["struct dentry *"];
    Proto "syslog" "int" ["int"];
    Proto "settime" "int" ["const struct timespec64 *"; "const struct timezone *"];
    Proto "vm_enough_memory" "int" ["struct mm_struct *"; "long int"];
    Proto "bprm_creds_for_exec" "int" ["struct linux_binprm *"];
    Proto "bprm_creds_from_file" "int" ["struct linux_binprm *"; "const struct file *"];
    Proto "bprm_check_security" "int" ["struct linux_binprm *"];
    Proto "bprm_committing_creds" "void" ["const struct linux_binprm *"];
    Proto "bprm_committed_creds" "void" ["const struct linux_binprm *"];
    Proto "fs_context_submount" "int" ["struct fs_context *"; "struct super_block *"];
    Proto "fs_context_dup" "int" ["struct fs_context *"; "struct fs_context *"];
    Proto "fs_context_parse_param" "int" ["struct fs_context *"; "struct fs_parameter *"];
    Proto "sb_alloc_security" "int" ["struct super_block *"];
    Proto "sb_delete" "void" ["struct super_block *"];
    Proto "sb_free_security" "void" ["struct super_block *"];
    Proto "sb_free_mnt_opts" "void" ["void *"];
    Proto "sb_eat_lsm_opts" "int" ["char *"; "void **"];
    Proto "sb_mnt_opts_compat" "int" ["struct super_block *"; "void *"];
    Proto "sb_remount" "int" ["struct super_block *"; "void *"];
    Proto "sb_kern_mount" "int" ["const struct super_block *"];
    Proto "sb_show_options" "int" ["struct seq_file *"; "struct super_block *"];
    Proto "sb_statfs" "int" ["struct dentry *"];
    Proto "sb_mount" "int" ["const char *"; "const struct path *"; "const char *"; "long unsigned int"; "void *"];
    Proto "sb_umount" "int" ["struct vfsmount *"; "int"];
    Proto "sb_pivotroot" "int" ["const struct path *"; "const struct path *"];
    Proto "sb_set_mnt_opts" "int" ["struct super_block *"; "void *"; "long unsigned int"; "long unsigned int *"];
    Proto "sb_clone_mnt_opts" "int" ["const struct super_block *"; "struct super_block *"; "long unsigned int"; "long unsigned int *"];
    Proto "move_mount" "int" ["const struct path *"; "const struct path *"];
    Proto "dentry_init_security" "int" ["struct dentry *"; "int"; "const struct qstr *"; "const char **"; "void **"; "u32 *"];
    Proto "dentry_create_files_as" "int" ["struct dentry *"; "int"; "struct qstr *"; "const struct cred *"; "struct cred *"];
    Proto "path_unlink" "int" ["const struct path *"; "struct dentry *"];
    Proto "path_mkdir" "int" ["const struct path *"; "struct dentry *"; "umode_t"];
    Proto "path_rmdir" "int" ["const struct path *"; "struct dentry *"];
    Proto "path_mknod" "int" ["const struct path *"; "struct dentry *"; "umode_t"; "unsigned int"];
    Proto "path_post_mknod" "void" ["struct mnt_idmap *"; "struct dentry *"];
    Proto "path_truncate" "int" ["const struct path *"];
    Proto "path_symlink" "int" ["const struct path *"; "struct dentry *"; "const char *"];
    Proto "path_link" "int" ["struct dentry *"; "const struct path *"; "struct dentry *"];
    Proto "path_rename" "int" ["const struct path *"; "struct dentry *"; "const struct path *"; "struct dentry *"; "unsigned int"];
    Proto "path_chmod" "int" ["const struct path *"; "umode_t"];
    Proto "path_chown" "int" ["const struct path *"; "kuid_t"; "kgid_t"];
    Proto "path_chroot" "int" ["const struct path *"];
    Proto "path_notify" "int" ["const struct path *"; "u64"; "unsigned int"];
    Proto "inode_alloc_security" "int" ["struct inode *"];
    Proto "inode_free_security" "void" ["struct inode *"];
    Proto "inode_free_security_rcu" "void" ["void *"];
    Proto "inode_init_security" "int" ["struct inode *"; "struct inode *"; "const struct qstr *"; "struct xattr *"; "int *"];
    Proto "inode_init_security_anon" "int" ["struct inode *"; "const struct qstr *"; "const struct inode *"];
    Proto "inode_create" "int" ["struct inode *"; "struct dentry *"; "umode_t"];
    Proto "inode_post_create_tmpfile" "void" ["struct mnt_idmap *"; "struct inode *"];
    Proto "inode_link" "int" ["struct dentry *"; "struct inode *"; "struct dentry *"];
    Proto "inode_unlink" "int" ["struct inode *"; "struct dentry *"];
    Proto "inode_symlink" "int" ["struct inode *"; "struct dentry *"; "const char *"];
    Proto "inode_mkdir" "int" ["struct inode *"; "struct dentry *"; "umode_t"];
    Proto "inode_rmdir" "int" ["struct inode *"; "struct dentry *"];
    Proto "inode_mknod" "int" ["struct inode *"; "struct dentry *"; "umode_t"; "dev_t"];
    Proto "inode_rename" "int" ["struct inode *"; "struct dentry *"; "struct inode *"; "struct dentry *"];
    Proto "inode_readlink" "int" ["struct dentry *"];
    Proto "inode_follow_link" "int" ["struct dentry *"; "struct inode *"; "bool"];
    Proto "inode_permission" "int" ["struct inode *"; "int"];
    Proto "inode_setattr" "int" ["struct mnt_idmap *"; "struct dentry *"; "struct iattr *"];
    Proto "inode_post_setattr" "void" ["struct mnt_idmap *"; "struct dentry *"; "int"];
    Proto "inode_getattr" "int" ["const struct path *"];
    Proto "inode_xattr_skipcap" "int" ["const char *"];
    Proto "inode_setxattr" "int" ["struct mnt_idmap *"; "struct dentry *"; "const char *"; "const void *"; "size_t"; "int"];
    Proto "inode_post_setxattr" "void" ["struct dentry *"; "const char *"; "const void *"; "size_t"; "int"];
    Proto "inode_getxattr" "int" ["struct dentry *"; "const char *"];
    Proto "inode_listxattr" "int" ["struct dentry *"];
    Proto "inode_removexattr" "int" ["struct mnt_idmap *"; "struct dentry *"; "const char *"];
    Proto "inode_post_removexattr" "void" ["struct dentry *"; "const char *"];
    Proto "inode_set_acl" "int" ["struct mnt_idmap *"; "struct dentry *"; "const char *"; "struct posix_acl *"];
    Proto "inode_post_set_acl" "void" ["struct dentry *"; "const char *"; "struct posix_acl *"];
    Proto "inode_get_acl" "int" ["struct mnt_idmap *"; "struct dentry *"; "const char *"];
    Proto "inode_remove_acl" "int" ["struct mnt_idmap *"; "struct dentry *"; "const char *"];
    Proto "inode_post_remove_acl" "void" ["struct mnt_idmap *"; "struct dentry *"; "const char *"];
    Proto "inode_need_killpriv" "int" ["struct dentry *"];
    Proto "inode_killpriv" "int" ["struct mnt_idmap *"; "struct dentry *"];
    Proto "inode_getsecurity" "int" ["struct mnt_idmap *"; "struct inode *"; "const char *"; "void **"; "bool"];
    Proto "inode_setsecurity" "int" ["struct inode *"; "const char *"; "const void *"; "size_t"; "int"];
    Proto "inode_listsecurity" "int" ["struct inode *"; "char *"; "size_t"];
    Proto "inode_getsecid" "void" ["struct inode *"; "u32 *"];
    Proto "inode_copy_up" "int" ["struct dentry *"; "struct cred **"];
    Proto "inode_copy_up_xattr" "int" ["struct dentry *"; "const char *"];
    Proto "inode_setintegrity" "int" ["const struct inode *"; "enum lsm_integrity_type"; "const void *"; "size_t"];
    Proto "kernfs_init_security" "int" ["struct kernfs_node *"; "struct kernfs_node *"];
    Proto "file_permission" "int" ["struct file *"; "int"];
    Proto "file_alloc_security" "int" ["struct file *"];
    Proto "file_release" "void" ["struct file *"];
    Proto "file_free_security" "void" ["struct file *"];
    Proto "file_ioctl" "int" ["struct file *"; "unsigned int"; "long unsigned int"];
    Proto "file_ioctl_compat" "int" ["struct file *"; "unsigned int"; "long unsigned int"];
    Proto "mmap_addr" "int" ["long unsigned int"];
    Proto "mmap_file" "int" ["struct file *"; "long unsigned int"; "long unsigned int"; "long unsigned int"];
    Proto "file_mprotect" "int" ["struct vm_area_struct *"; "long unsigned int"; "long unsigned int"];
    Proto "file_lock" "int" ["struct file *"; "unsigned int"];
    Proto "file_fcntl" "int" ["struct file *"; "unsigned int"; "long unsigned int"];
    Proto "file_set_fowner" "void" ["struct file *"];
    Proto "file_send_sigiotask" "int" ["struct task_struct *"; "struct fown_struct *"; "int"];
    Proto "file_receive" "int" ["struct file *"];
    Proto "file_open" "int" ["struct file *"];
    Proto "file_post_open" "int" ["struct file *"; "int"];
    Proto "file_truncate" "int" ["struct file *"];
    Proto "task_alloc" "int" ["struct task_struct *"; "long unsigned int"];
    Proto "task_free" "void" ["struct task_struct *"];
    Proto "cred_alloc_blank" "int" ["struct cred *"; "gfp_t"];
    Proto "cred_free" "void" ["struct cred *"];
    Proto "cred_prepare" "int" ["struct cred *"; "const struct cred *"; "gfp_t"];
    Proto "cred_transfer" "void" ["struct cred *"; "const struct cred *"];
    Proto "cred_getsecid" "void" ["const struct cred *"; "u32 *"];
    Proto "kernel_act_as" "int" ["struct cred *"; "u32"];
    Proto "kernel_create_files_as" "int" ["struct cred *"; "struct inode *"];
    Proto "kernel_module_request" "int" ["char *"];
    Proto "kernel_load_data" "int" ["enum kernel_load_data_id"; "bool"];
    Proto "kernel_post_load_data" "int" ["char *"; "loff_t"; "enum kernel_load_data_id"; "char *"] ].

(** [vmlinux.h:17250]. *)
Definition security_list_options_2 : list proto :=
  [ Proto "kernel_read_file" "int" ["struct file *"; "enum kernel_read_file_id"; "bool"];
    Proto "kernel_post_read_file" "int" ["struct file *"; "char *"; "loff_t"; "enum kernel_read_file_id"];
    Proto "task_fix_setuid" "int" ["struct cred *"; "const struct cred *"; "int"];
    Proto "task_fix_setgid" "int" ["struct cred *"; "const struct cred *"; "int"];
    Proto "task_fix_setgroups" "int" ["struct cred *"; "const struct cred *"];
    Proto "task_setpgid" "int" ["struct task_struct *"; "pid_t"];
    Proto "task_getpgid" "int" ["struct task_struct *"];
    Proto "task_getsid" "int" ["struct task_struct *"];
    Proto "current_getsecid_subj" "void" ["u32 *"];
    Proto "task_getsecid_obj" "void" ["struct task_struct *"; "u32 *"];
    Proto "task_setnice" "int" ["struct task_struct *"; "int"];
    Proto "task_setioprio" "int" ["struct task_struct *"; "int"];
    Proto "task_getioprio" "int" ["struct task_struct *"];
    Proto "task_prlimit" "int" ["const struct cred *"; "const struct cred *"; "unsigned int"];
    Proto "task_setrlimit" "int" ["struct task_struct *"; "unsigned int"; "struct rlimit *"];
    Proto "task_setscheduler" "int" ["struct task_struct *"];
    Proto "task_getscheduler" "int" ["struct task_struct *"];
    Proto "task_movememory" "int" ["struct task_struct *"];
    Proto "task_kill" "int" ["struct task_struct *"; "struct kernel_siginfo *"; "int"; "const struct cred *"];
    Proto "task_prctl" "int" ["int"; "long unsigned int"; "long unsigned int"; "long unsigned int"; "long unsigned int"];
    Proto "task_to_inode" "void" ["struct task_struct *"; "struct inode *"];
    Proto "userns_create" "int" ["const struct cred *"];
    Proto "ipc_permission" "int" ["struct kern_ipc_perm *"; "short int"];
    Proto "ipc_getsecid" "void" ["struct kern_ipc_perm *"; "u32 *"];
    Proto "msg_msg_alloc_security" "int" ["struct msg_msg *"];
    Proto "msg_msg_free_security" "void" ["struct msg_msg *"];
    Proto "msg_queue_alloc_security" "int" ["struct kern_ipc_perm *"];
    Proto "msg_queue_free_security" "void" ["struct kern_ipc_perm *"];
    Proto "msg_queue_associate" "int" ["struct kern_ipc_perm *"; "int"];
    Proto "msg_queue_msgctl" "int" ["struct kern_ipc_perm *"; "int"];
    Proto "msg_queue_msgsnd" "int" ["struct kern_ipc_perm *"; "struct msg_msg *"; "int"];
    Proto "msg_queue_msgrcv" "int" ["struct kern_ipc_perm *"; "struct msg_msg *"; "struct task_struct *"; "long int"; "int"];
    Proto "shm_alloc_security" "int" ["struct kern_ipc_perm *"];
    Proto "shm_free_security" "void" ["struct kern_ipc_perm *"];
    Proto "shm_associate" "int" ["struct kern_ipc_perm *"; "int"];
    Proto "shm_shmctl" "int" ["struct kern_ipc_perm *"; "int"];
    Proto "shm_shmat" "int" ["struct kern_ipc_perm *"; "char *"; "int"];
    Proto "sem_alloc_security" "int" ["struct kern_ipc_perm *"];
    Proto "sem_free_security" "void" ["struct kern_ipc_perm *"];
    Proto "sem_associate" "int" ["struct kern_ipc_perm *"; "int"];
    Proto "sem_semctl" "int" ["struct kern_ipc_perm *"; "int"];
    Proto "sem_semop" "int" ["struct kern_ipc_perm *"; "struct sembuf *"; "unsigned int"; "int"];
    Proto "netlink_send" "int" ["struct sock *"; "struct sk_buff *"];
    Proto "d_instantiate" "void" ["struct dentry *"; "struct inode *"];
    Proto "getselfattr" "int" ["unsigned int"; "struct lsm_ctx *"; "u32 *"; "u32"];
    Proto "setselfattr" "int" ["unsigned int"; "struct lsm_ctx *"; "u32"; "u32"];
    Proto "getprocattr" "int" ["struct task_struct *"; "const char *"; "char **"];
    Proto "setprocattr" "int" ["const char *"; "void *"; "size_t"];
    Proto "ismaclabel" "int" ["const char *"];
    Proto "secid_to_secctx" "int" ["u32"; "char **"; "u32 *"];
    Proto "secctx_to_secid" "int" ["const char *"; "u32"; "u32 *"];
    Proto "release_secctx" "void" ["char *"; "u32"];
    Proto "inode_invalidate_secctx" "void" ["struct inode *"];
    Proto "inode_notifysecctx" "int" ["struct inode *"; "void *"; "u32"];
    Proto "inode_setsecctx" "int" ["struct dentry *"; "void *"; "u32"];
    Proto "inode_getsecctx" "int" ["struct inode *"; "void **"; "u32 *"];
    Proto "unix_stream_connect" "int" ["struct sock *"; "struct sock *"; "struct sock *"];
    Proto "unix_may_send" "int" ["struct socket *"; "struct socket *"];
    Proto "socket_create" "int" ["int"; "int"; "int"; "int"];
    Proto "socket_post_create" "int" ["struct socket *"; "int"; "int"; "int"; "int"];
    Proto "socket_socketpair" "int" ["struct socket *"; "struct socket *"];
    Proto "socket_bind" "int" ["struct socket *"; "struct sockaddr *"; "int"];
    Proto "socket_connect" "int" ["struct socket *"; "struct sockaddr *"; "int"];
    Proto "socket_listen" "int" ["struct socket *"; "int"];
    Proto "socket_accept" "int" ["struct socket *"; "struct socket *"];
    Proto "socket_sendmsg" "int" ["struct socket *"; "struct msghdr *"; "int"];
    Proto "socket_recvmsg" "int" ["struct socket *"; "struct msghdr *"; "int"; "int"];
    Proto "socket_getsockname" "int" ["struct socket *"];
    Proto "socket_getpeername" "int" ["struct socket *"];
    Proto "socket_getsockopt" "int" ["struct socket *"; "int"; "int"];
    Proto "socket_setsockopt" "int" ["struct socket *"; "int"; "int"];
    Proto "socket_shutdown" "int" ["struct socket *"; "int"];
    Proto "socket_sock_rcv_skb" "int" ["struct sock *"; "struct sk_buff *"];
    Proto "socket_getpeersec_stream" "int" ["struct socket *"; "sockptr_t"; "sockptr_t"; "unsigned int"];
    Proto "socket_getpeersec_dgram" "int" ["struct socket *"; "struct sk_buff *"; "u32 *"];
    Proto "sk_alloc_security" "int" ["struct sock *"; "int"; "gfp_t"];
    Proto "sk_free_security" "void" ["struct sock *"];
    Proto "sk_clone_security" "void" ["const struct sock *"; "struct sock *"];
    Proto "sk_getsecid" "void" ["const struct sock *"; "u32 *"];
    Proto "sock_graft" "void" ["struct sock *"; "struct socket *"];
    Proto "inet_conn_request" "int" ["const struct sock *"; "struct sk_buff *"; "struct request_sock *"];
    Proto "inet_csk_clone" "void" ["struct sock *"; "const struct request_sock *"];
    Proto "inet_conn_established" "void" ["struct sock *"; "struct sk_buff *"];
    Proto "secmark_relabel_packet" "int" ["u32"];
    Proto "secmark_refcount_inc" "void" [];
    Proto "secmark_refcount_dec" "void" [];
    Proto "req_classify_flow" "void" ["const struct request_sock *"; "struct flowi_common *"];
    Proto "tun_dev_alloc_security" "int" ["void *"];
    Proto "tun_dev_create" "int" [];
    Proto "tun_dev_attach_queue" "int" ["void *"];
    Proto "tun_dev_attach" "int" ["struct sock *"; "void *"];
    Proto "tun_dev_open" "int" ["void *"];
    Proto "sctp_assoc_request" "int" ["struct sctp_association *"; "struct sk_buff *"];
    Proto "sctp_bind_connect" "int" ["struct sock *"; "int"; "struct sockaddr *"; "int"];
    Proto "sctp_sk_clone" "void" ["struct sctp_association *"; "struct sock *"; "struct sock *"];
    Proto "sctp_assoc_established" "int" ["struct sctp_association *"; "struct sk_buff *"];
    Proto "mptcp_add_subflow" "int" ["struct sock *"; "struct sock *"];
    Proto "key_alloc" "int" ["struct key *"; "const struct cred *"; "long unsigned int"];
    Proto "key_permission" "int" ["key_ref_t"; "const struct cred *"; "enum key_need_perm"];
    Proto "key_getsecurity" "int" ["struct key *"; "char **"];
    Proto "key_post_create_or_update" "void" ["struct key *"; "struct key *"; "const void *"; "size_t"; "long unsigned int"; "bool"];
    Proto "bpf" "int" ["int"; "union bpf_attr *"; "unsigned int"];
    Proto "bpf_map" "int" ["struct bpf_map *"; "fmode_t"];
    Proto "bpf_prog" "int" ["struct bpf_prog *"];
    Proto "bpf_map_create" "int" ["struct bpf_map *"; "union bpf_attr *"; "struct bpf_token *"];
    Proto "bpf_map_free" "void" ["struct bpf_map *"];
    Proto "bpf_prog_load" "int" ["struct bpf_prog *"; "union bpf_attr *"; "struct bpf_token *"];
    Proto "bpf_prog_free" "void" ["struct bpf_prog *"];
    Proto "bpf_token_create" "int" ["struct bpf_token *"; "union bpf_attr *"; "const struct path *"];
    Proto "bpf_token_free" "void" ["struct bpf_token *"];
    Proto "bpf_token_cmd" "int" ["const struct bpf_token *"; "enum bpf_cmd"];
    Proto "bpf_token_capable" "int" ["const struct bpf_token *"; "int"];
    Proto "locked_down" "int" ["enum lockdown_reason"];
    Proto "perf_event_open" "int" ["struct perf_event_attr *"; "int"];
    Proto "perf_event_alloc" "int" ["struct perf_event *"];
    Proto "perf_event_read" "int" ["struct perf_event *"];
    Proto "perf_event_write" "int" ["struct perf_event *"];
    Proto "uring_override_creds" "int" ["const struct cred *"];
    Proto "uring_sqpoll" "int" [];
    Proto "uring_cmd" "int" ["struct io_uring_cmd *"];
    Proto "initramfs_populated" "void" [];
    Proto "bdev_alloc_security" "int" ["struct block_device *"];
    Proto "bdev_free_security" "void" ["struct block_device *"];
    Proto "bdev_setintegrity" "int" ["struct block_device *"; "enum lsm_integrity_type"; "const void *"; "size_t"] ].

(** The LSM hooks, by name. The last member of the union, [lsm_func_addr], is not a hook. *)
Definition security_list_options : list proto := security_list_options_1 ++ security_list_options_2.
