(* ===== verification/HelperDefs.v ===== *)
(** * BPF helpers: [headers/bpf_helper_defs.h]

    One definition per helper of the header: its number, its prototype, and what its
    documentation says a caller must expect (a null pointer, a negative error, the error
    codes and the flags it names). *)
From Stdlib Require Import ZArith.
From stdpp Require Import base strings list.
From S2P Require Import Prelude CType KernelAbi.
#[local] Open Scope Z_scope.
#[local] Open Scope string_scope.
#[local] Open Scope list_scope.

Record helper := Helper {
  h_name : string;                     (* the function pointer's name *)
  h_id : Z;                            (* its value: the helper's number *)
  h_ret : string;
  h_params : list (string * string);   (* type and name; [...] for a variadic tail *)
  h_null : bool;                       (* Returns mentions NULL *)
  h_negative : bool;                   (* Returns mentions a negative error *)
  h_errnos : list string;              (* the error codes the documentation names *)
  h_flags : list string }.             (* the BPF_* flags and constants it names *)

(** [bpf_helper_defs.h:51]. *)
Definition helper_bpf_map_lookup_elem : helper :=
  Helper "bpf_map_lookup_elem" 1 "void *"
    [("void *", "map"); ("const void *", "key")]
    true false []
    [].

(** [bpf_helper_defs.h:73]. *)
Definition helper_bpf_map_update_elem : helper :=
  Helper "bpf_map_update_elem" 2 "long"
    [("void *", "map"); ("const void *", "key"); ("const void *", "value"); ("__u64", "flags")]
    false true []
    ["BPF_NOEXIST"; "BPF_EXIST"; "BPF_ANY"; "BPF_MAP_TYPE_ARRAY"; "BPF_MAP_TYPE_PERCPU_ARRAY"].

(** [bpf_helper_defs.h:83]. *)
Definition helper_bpf_map_delete_elem : helper :=
  Helper "bpf_map_delete_elem" 3 "long"
    [("void *", "map"); ("const void *", "key")]
    false true []
    [].

(** [bpf_helper_defs.h:97]. *)
Definition helper_bpf_probe_read : helper :=
  Helper "bpf_probe_read" 4 "long"
    [("void *", "dst"); ("__u32", "size"); ("const void *", "unsafe_ptr")]
    false true []
    [].

(** [bpf_helper_defs.h:109]. *)
Definition helper_bpf_ktime_get_ns : helper :=
  Helper "bpf_ktime_get_ns" 5 "__u64"
    []
    false false []
    [].

(** [bpf_helper_defs.h:172]. *)
Definition helper_bpf_trace_printk : helper :=
  Helper "bpf_trace_printk" 6 "long"
    [("const char *", "fmt"); ("__u32", "fmt_size"); ("...", "...")]
    false true ["EINVAL"]
    [].

(** [bpf_helper_defs.h:188]. *)
Definition helper_bpf_get_prandom_u32 : helper :=
  Helper "bpf_get_prandom_u32" 7 "__u32"
    []
    false false []
    [].

(** [bpf_helper_defs.h:201]. *)
Definition helper_bpf_get_smp_processor_id : helper :=
  Helper "bpf_get_smp_processor_id" 8 "__u32"
    []
    false false []
    [].

(** [bpf_helper_defs.h:222]. *)
Definition helper_bpf_skb_store_bytes : helper :=
  Helper "bpf_skb_store_bytes" 9 "long"
    [("struct __sk_buff *", "skb"); ("__u32", "offset"); ("const void *", "from"); ("__u32", "len"); ("__u64", "flags")]
    false true []
    ["BPF_F_RECOMPUTE_CSUM"; "BPF_F_INVALIDATE_HASH"].

(** [bpf_helper_defs.h:251]. *)
Definition helper_bpf_l3_csum_replace : helper :=
  Helper "bpf_l3_csum_replace" 10 "long"
    [("struct __sk_buff *", "skb"); ("__u32", "offset"); ("__u64", "from"); ("__u64", "to"); ("__u64", "size")]
    false true []
    [].

(** [bpf_helper_defs.h:287]. *)
Definition helper_bpf_l4_csum_replace : helper :=
  Helper "bpf_l4_csum_replace" 11 "long"
    [("struct __sk_buff *", "skb"); ("__u32", "offset"); ("__u64", "from"); ("__u64", "to"); ("__u64", "flags")]
    false true []
    ["BPF_F_MARK_MANGLED_0"; "BPF_F_MARK_ENFORCE"; "BPF_F_PSEUDO_HDR"].

(** [bpf_helper_defs.h:322]. *)
Definition helper_bpf_tail_call : helper :=
  Helper "bpf_tail_call" 12 "long"
    [("void *", "ctx"); ("void *", "prog_array_map"); ("__u32", "index")]
    false true []
    ["BPF_MAP_TYPE_PROG_ARRAY"].

(** [bpf_helper_defs.h:350]. *)
Definition helper_bpf_clone_redirect : helper :=
  Helper "bpf_clone_redirect" 13 "long"
    [("struct __sk_buff *", "skb"); ("__u32", "ifindex"); ("__u64", "flags")]
    false true []
    ["BPF_F_INGRESS"].

(** [bpf_helper_defs.h:362]. *)
Definition helper_bpf_get_current_pid_tgid : helper :=
  Helper "bpf_get_current_pid_tgid" 14 "__u64"
    []
    false false []
    [].

(** [bpf_helper_defs.h:372]. *)
Definition helper_bpf_get_current_uid_gid : helper :=
  Helper "bpf_get_current_uid_gid" 15 "__u64"
    []
    false false []
    [].

(** [bpf_helper_defs.h:387]. *)
Definition helper_bpf_get_current_comm : helper :=
  Helper "bpf_get_current_comm" 16 "long"
    [("void *", "buf"); ("__u32", "size_of_buf")]
    false true []
    [].

(** [bpf_helper_defs.h:417]. *)
Definition helper_bpf_get_cgroup_classid : helper :=
  Helper "bpf_get_cgroup_classid" 17 "__u32"
    [("struct __sk_buff *", "skb")]
    false false []
    [].

(** [bpf_helper_defs.h:437]. *)
Definition helper_bpf_skb_vlan_push : helper :=
  Helper "bpf_skb_vlan_push" 18 "long"
    [("struct __sk_buff *", "skb"); ("__be16", "vlan_proto"); ("__u16", "vlan_tci")]
    false true []
    [].

(** [bpf_helper_defs.h:453]. *)
Definition helper_bpf_skb_vlan_pop : helper :=
  Helper "bpf_skb_vlan_pop" 19 "long"
    [("struct __sk_buff *", "skb")]
    false true []
    [].

(** [bpf_helper_defs.h:508]. *)
Definition helper_bpf_skb_get_tunnel_key : helper :=
  Helper "bpf_skb_get_tunnel_key" 20 "long"
    [("struct __sk_buff *", "skb"); ("struct bpf_tunnel_key *", "key"); ("__u32", "size"); ("__u64", "flags")]
    false true []
    ["BPF_F_TUNINFO_IPV6"].

(** [bpf_helper_defs.h:549]. *)
Definition helper_bpf_skb_set_tunnel_key : helper :=
  Helper "bpf_skb_set_tunnel_key" 21 "long"
    [("struct __sk_buff *", "skb"); ("struct bpf_tunnel_key *", "key"); ("__u32", "size"); ("__u64", "flags")]
    false true []
    ["BPF_F_TUNINFO_IPV6"; "BPF_F_ZERO_CSUM_TX"; "BPF_F_DONT_FRAGMENT"; "BPF_F_SEQ_NUMBER"].

(** [bpf_helper_defs.h:582]. *)
Definition helper_bpf_perf_event_read : helper :=
  Helper "bpf_perf_event_read" 22 "__u64"
    [("void *", "map"); ("__u64", "flags")]
    false true []
    ["BPF_MAP_TYPE_PERF_EVENT_ARRAY"; "BPF_F_INDEX_MASK"; "BPF_F_CURRENT_CPU"].

(** [bpf_helper_defs.h:609]. *)
Definition helper_bpf_redirect : helper :=
  Helper "bpf_redirect" 23 "long"
    [("__u32", "ifindex"); ("__u64", "flags")]
    false false []
    ["BPF_F_INGRESS"].

(** [bpf_helper_defs.h:637]. *)
Definition helper_bpf_get_route_realm : helper :=
  Helper "bpf_get_route_realm" 24 "__u32"
    [("struct __sk_buff *", "skb")]
    false false []
    [].

(** [bpf_helper_defs.h:686]. *)
Definition helper_bpf_perf_event_output : helper :=
  Helper "bpf_perf_event_output" 25 "long"
    [("void *", "ctx"); ("void *", "map"); ("__u64", "flags"); ("void *", "data"); ("__u64", "size")]
    false true []
    ["BPF_MAP_TYPE_PERF_EVENT_ARRAY"; "BPF_F_INDEX_MASK"; "BPF_F_CURRENT_CPU"].

(** [bpf_helper_defs.h:707]. *)
Definition helper_bpf_skb_load_bytes : helper :=
  Helper "bpf_skb_load_bytes" 26 "long"
    [("const void *", "skb"); ("__u32", "offset"); ("void *", "to"); ("__u32", "len")]
    false true []
    [].

(** [bpf_helper_defs.h:753]. *)
Definition helper_bpf_get_stackid : helper :=
  Helper "bpf_get_stackid" 27 "long"
    [("void *", "ctx"); ("void *", "map"); ("__u64", "flags")]
    false true []
    ["BPF_MAP_TYPE_STACK_TRACE"; "BPF_F_SKIP_FIELD_MASK"; "BPF_F_USER_STACK"; "BPF_F_FAST_STACK_CMP"; "BPF_F_REUSE_STACKID"].

(** [bpf_helper_defs.h:784]. *)
Definition helper_bpf_csum_diff : helper :=
  Helper "bpf_csum_diff" 28 "__s64"
    [("__be32 *", "from"); ("__u32", "from_size"); ("__be32 *", "to"); ("__u32", "to_size"); ("__wsum", "seed")]
    false true []
    [].

(** [bpf_helper_defs.h:806]. *)
Definition helper_bpf_skb_get_tunnel_opt : helper :=
  Helper "bpf_skb_get_tunnel_opt" 29 "long"
    [("struct __sk_buff *", "skb"); ("void *", "opt"); ("__u32", "size")]
    false false []
    [].

(** [bpf_helper_defs.h:820]. *)
Definition helper_bpf_skb_set_tunnel_opt : helper :=
  Helper "bpf_skb_set_tunnel_opt" 30 "long"
    [("struct __sk_buff *", "skb"); ("void *", "opt"); ("__u32", "size")]
    false true []
    [].

(** [bpf_helper_defs.h:851]. *)
Definition helper_bpf_skb_change_proto : helper :=
  Helper "bpf_skb_change_proto" 31 "long"
    [("struct __sk_buff *", "skb"); ("__be16", "proto"); ("__u64", "flags")]
    false true []
    [].

(** [bpf_helper_defs.h:882]. *)
Definition helper_bpf_skb_change_type : helper :=
  Helper "bpf_skb_change_type" 32 "long"
    [("struct __sk_buff *", "skb"); ("__u32", "type")]
    false true []
    ["BPF_F_INGRESS"].

(** [bpf_helper_defs.h:897]. *)
Definition helper_bpf_skb_under_cgroup : helper :=
  Helper "bpf_skb_under_cgroup" 33 "long"
    [("struct __sk_buff *", "skb"); ("void *", "map"); ("__u32", "index")]
    false true []
    ["BPF_MAP_TYPE_CGROUP_ARRAY"].

(** [bpf_helper_defs.h:917]. *)
Definition helper_bpf_get_hash_recalc : helper :=
  Helper "bpf_get_hash_recalc" 34 "__u32"
    [("struct __sk_buff *", "skb")]
    false false []
    ["BPF_F_INVALIDATE_HASH"].

(** [bpf_helper_defs.h:926]. *)
Definition helper_bpf_get_current_task : helper :=
  Helper "bpf_get_current_task" 35 "__u64"
    []
    false false []
    [].

(** [bpf_helper_defs.h:949]. *)
Definition helper_bpf_probe_write_user : helper :=
  Helper "bpf_probe_write_user" 36 "long"
    [("void *", "dst"); ("const void *", "src"); ("__u32", "len")]
    false true []
    [].

(** [bpf_helper_defs.h:965]. *)
Definition helper_bpf_current_task_under_cgroup : helper :=
  Helper "bpf_current_task_under_cgroup" 37 "long"
    [("void *", "map"); ("__u32", "index")]
    false true []
    ["BPF_MAP_TYPE_CGROUP_ARRAY"].

(** [bpf_helper_defs.h:993]. *)
Definition helper_bpf_skb_change_tail : helper :=
  Helper "bpf_skb_change_tail" 38 "long"
    [("struct __sk_buff *", "skb"); ("__u32", "len"); ("__u64", "flags")]
    false true []
    [].

(** [bpf_helper_defs.h:1033]. *)
Definition helper_bpf_skb_pull_data : helper :=
  Helper "bpf_skb_pull_data" 39 "long"
    [("struct __sk_buff *", "skb"); ("__u32", "len")]
    false true []
    [].

(** [bpf_helper_defs.h:1049]. *)
Definition helper_bpf_csum_update : helper :=
  Helper "bpf_csum_update" 40 "__s64"
    [("struct __sk_buff *", "skb"); ("__wsum", "csum")]
    false true []
    [].

(** [bpf_helper_defs.h:1061]. *)
Definition helper_bpf_set_hash_invalid : helper :=
  Helper "bpf_set_hash_invalid" 41 "void"
    [("struct __sk_buff *", "skb")]
    false false []
    [].

(** [bpf_helper_defs.h:1076]. *)
Definition helper_bpf_get_numa_node_id : helper :=
  Helper "bpf_get_numa_node_id" 42 "long"
    []
    false false []
    [].

(** [bpf_helper_defs.h:1101]. *)
Definition helper_bpf_skb_change_head : helper :=
  Helper "bpf_skb_change_head" 43 "long"
    [("struct __sk_buff *", "skb"); ("__u32", "len"); ("__u64", "flags")]
    false true []
    [].

(** [bpf_helper_defs.h:1120]. *)
Definition helper_bpf_xdp_adjust_head : helper :=
  Helper "bpf_xdp_adjust_head" 44 "long"
    [("struct xdp_md *", "xdp_md"); ("int", "delta")]
    false true []
    [].

(** [bpf_helper_defs.h:1137]. *)
Definition helper_bpf_probe_read_str : helper :=
  Helper "bpf_probe_read_str" 45 "long"
    [("void *", "dst"); ("__u32", "size"); ("const void *", "unsafe_ptr")]
    false true []
    [].

(** [bpf_helper_defs.h:1154]. *)
Definition helper_bpf_get_socket_cookie : helper :=
  Helper "bpf_get_socket_cookie" 46 "__u64"
    [("void *", "ctx")]
    false false []
    [].

(** [bpf_helper_defs.h:1167]. *)
Definition helper_bpf_get_socket_uid : helper :=
  Helper "bpf_get_socket_uid" 47 "__u32"
    [("struct __sk_buff *", "skb")]
    true false []
    [].

(** [bpf_helper_defs.h:1178]. *)
Definition helper_bpf_set_hash : helper :=
  Helper "bpf_set_hash" 48 "long"
    [("struct __sk_buff *", "skb"); ("__u32", "hash")]
    false false []
    [].

(** [bpf_helper_defs.h:1213]. *)
Definition helper_bpf_setsockopt : helper :=
  Helper "bpf_setsockopt" 49 "long"
    [("void *", "bpf_socket"); ("int", "level"); ("int", "optname"); ("void *", "optval"); ("int", "optlen")]
    false true []
    ["BPF_PROG_TYPE_SOCK_OPS"; "BPF_CGROUP_INET4_CONNECT"; "BPF_CGROUP_INET6_CONNECT"].

(** [bpf_helper_defs.h:1267]. *)
Definition helper_bpf_skb_adjust_room : helper :=
  Helper "bpf_skb_adjust_room" 50 "long"
    [("struct __sk_buff *", "skb"); ("__s32", "len_diff"); ("__u32", "mode"); ("__u64", "flags")]
    false true []
    ["BPF_F_ADJ_ROOM_NO_CSUM_RESET"; "BPF_ADJ_ROOM_MAC"; "BPF_ADJ_ROOM_NET"; "BPF_F_ADJ_ROOM_FIXED_GSO"; "BPF_F_ADJ_ROOM_ENCAP_L3_IPV4"; "BPF_F_ADJ_ROOM_ENCAP_L3_IPV6"; "BPF_F_ADJ_ROOM_ENCAP_L4_GRE"; "BPF_F_ADJ_ROOM_ENCAP_L4_UDP"; "BPF_F_ADJ_ROOM_ENCAP_L2"; "BPF_F_ADJ_ROOM_ENCAP_L2_ETH"].

(** [bpf_helper_defs.h:1296]. *)
Definition helper_bpf_redirect_map : helper :=
  Helper "bpf_redirect_map" 51 "long"
    [("void *", "map"); ("__u32", "key"); ("__u64", "flags")]
    false false []
    [].

(** [bpf_helper_defs.h:1311]. *)
Definition helper_bpf_sk_redirect_map : helper :=
  Helper "bpf_sk_redirect_map" 52 "long"
    [("struct __sk_buff *", "skb"); ("void *", "map"); ("__u32", "key"); ("__u64", "flags")]
    false false []
    ["BPF_MAP_TYPE_SOCKMAP"; "BPF_F_INGRESS"].

(** [bpf_helper_defs.h:1334]. *)
Definition helper_bpf_sock_map_update : helper :=
  Helper "bpf_sock_map_update" 53 "long"
    [("struct bpf_sock_ops *", "skops"); ("void *", "map"); ("void *", "key"); ("__u64", "flags")]
    false true []
    ["BPF_NOEXIST"; "BPF_EXIST"; "BPF_ANY"].

(** [bpf_helper_defs.h:1367]. *)
Definition helper_bpf_xdp_adjust_meta : helper :=
  Helper "bpf_xdp_adjust_meta" 54 "long"
    [("struct xdp_md *", "xdp_md"); ("int", "delta")]
    false true []
    [].

(** [bpf_helper_defs.h:1421]. *)
Definition helper_bpf_perf_event_read_value : helper :=
  Helper "bpf_perf_event_read_value" 55 "long"
    [("void *", "map"); ("__u64", "flags"); ("struct bpf_perf_event_value *", "buf"); ("__u32", "buf_size")]
    false true []
    ["BPF_MAP_TYPE_PERF_EVENT_ARRAY"; "BPF_F_INDEX_MASK"; "BPF_F_CURRENT_CPU"].

(** [bpf_helper_defs.h:1436]. *)
Definition helper_bpf_perf_prog_read_value : helper :=
  Helper "bpf_perf_prog_read_value" 56 "long"
    [("struct bpf_perf_event_data *", "ctx"); ("struct bpf_perf_event_value *", "buf"); ("__u32", "buf_size")]
    false true []
    [].

(** [bpf_helper_defs.h:1465]. *)
Definition helper_bpf_getsockopt : helper :=
  Helper "bpf_getsockopt" 57 "long"
    [("void *", "bpf_socket"); ("int", "level"); ("int", "optname"); ("void *", "optval"); ("int", "optlen")]
    false true []
    ["BPF_PROG_TYPE_SOCK_OPS"; "BPF_CGROUP_INET4_CONNECT"; "BPF_CGROUP_INET6_CONNECT"].

(** [bpf_helper_defs.h:1494]. *)
Definition helper_bpf_override_return : helper :=
  Helper "bpf_override_return" 58 "long"
    [("struct pt_regs *", "regs"); ("__u64", "rc")]
    false false []
    [].

(** [bpf_helper_defs.h:1542]. *)
Definition helper_bpf_sock_ops_cb_flags_set : helper :=
  Helper "bpf_sock_ops_cb_flags_set" 59 "long"
    [("struct bpf_sock_ops *", "bpf_sock"); ("int", "argval")]
    false true ["EINVAL"]
    ["BPF_PROG_TYPE_SOCK_OPS"; "BPF_SOCK_OPS_RTO_CB_FLAG"; "BPF_SOCK_OPS_RETRANS_CB_FLAG"; "BPF_SOCK_OPS_STATE_CB_FLAG"; "BPF_SOCK_OPS_RTT_CB_FLAG"].

(** [bpf_helper_defs.h:1560]. *)
Definition helper_bpf_msg_redirect_map : helper :=
  Helper "bpf_msg_redirect_map" 60 "long"
    [("struct sk_msg_md *", "msg"); ("void *", "map"); ("__u32", "key"); ("__u64", "flags")]
    false false []
    ["BPF_MAP_TYPE_SOCKMAP"; "BPF_F_INGRESS"].

(** [bpf_helper_defs.h:1598]. *)
Definition helper_bpf_msg_apply_bytes : helper :=
  Helper "bpf_msg_apply_bytes" 61 "long"
    [("struct sk_msg_md *", "msg"); ("__u32", "bytes")]
    false false []
    [].

(** [bpf_helper_defs.h:1620]. *)
Definition helper_bpf_msg_cork_bytes : helper :=
  Helper "bpf_msg_cork_bytes" 62 "long"
    [("struct sk_msg_md *", "msg"); ("__u32", "bytes")]
    false false []
    [].

(** [bpf_helper_defs.h:1655]. *)
Definition helper_bpf_msg_pull_data : helper :=
  Helper "bpf_msg_pull_data" 63 "long"
    [("struct sk_msg_md *", "msg"); ("__u32", "start"); ("__u32", "end"); ("__u64", "flags")]
    false true []
    ["BPF_PROG_TYPE_SK_MSG"].

(** [bpf_helper_defs.h:1677]. *)
Definition helper_bpf_bind : helper :=
  Helper "bpf_bind" 64 "long"
    [("struct bpf_sock_addr *", "ctx"); ("struct sockaddr *", "addr"); ("int", "addr_len")]
    false true []
    [].

(** [bpf_helper_defs.h:1695]. *)
Definition helper_bpf_xdp_adjust_tail : helper :=
  Helper "bpf_xdp_adjust_tail" 65 "long"
    [("struct xdp_md *", "xdp_md"); ("int", "delta")]
    false true []
    [].

(** [bpf_helper_defs.h:1715]. *)
Definition helper_bpf_skb_get_xfrm_state : helper :=
  Helper "bpf_skb_get_xfrm_state" 66 "long"
    [("struct __sk_buff *", "skb"); ("__u32", "index"); ("struct bpf_xfrm_state *", "xfrm_state"); ("__u32", "size"); ("__u64", "flags")]
    false true []
    [].

(** [bpf_helper_defs.h:1752]. *)
Definition helper_bpf_get_stack : helper :=
  Helper "bpf_get_stack" 67 "long"
    [("void *", "ctx"); ("void *", "buf"); ("__u32", "size"); ("__u64", "flags")]
    false true []
    ["BPF_F_SKIP_FIELD_MASK"; "BPF_F_USER_STACK"; "BPF_F_USER_BUILD_ID"].

(** [bpf_helper_defs.h:1778]. *)
Definition helper_bpf_skb_load_bytes_relative : helper :=
  Helper "bpf_skb_load_bytes_relative" 68 "long"
    [("const void *", "skb"); ("__u32", "offset"); ("void *", "to"); ("__u32", "len"); ("__u32", "start_header")]
    false true []
    ["BPF_HDR_START_MAC"; "BPF_HDR_START_NET"].

(** [bpf_helper_defs.h:1816]. *)
Definition helper_bpf_fib_lookup : helper :=
  Helper "bpf_fib_lookup" 69 "long"
    [("void *", "ctx"); ("struct bpf_fib_lookup *", "params"); ("int", "plen"); ("__u32", "flags")]
    false true []
    ["BPF_FIB_LOOKUP_DIRECT"; "BPF_FIB_LOOKUP_OUTPUT"; "BPF_FIB_LKUP_RET_"].

(** [bpf_helper_defs.h:1839]. *)
Definition helper_bpf_sock_hash_update : helper :=
  Helper "bpf_sock_hash_update" 70 "long"
    [("struct bpf_sock_ops *", "skops"); ("void *", "map"); ("void *", "key"); ("__u64", "flags")]
    false true []
    ["BPF_NOEXIST"; "BPF_EXIST"; "BPF_ANY"].

(** [bpf_helper_defs.h:1857]. *)
Definition helper_bpf_msg_redirect_hash : helper :=
  Helper "bpf_msg_redirect_hash" 71 "long"
    [("struct sk_msg_md *", "msg"); ("void *", "map"); ("void *", "key"); ("__u64", "flags")]
    false false []
    ["BPF_MAP_TYPE_SOCKHASH"; "BPF_F_INGRESS"].

(** [bpf_helper_defs.h:1875]. *)
Definition helper_bpf_sk_redirect_hash : helper :=
  Helper "bpf_sk_redirect_hash" 72 "long"
    [("struct __sk_buff *", "skb"); ("void *", "map"); ("void *", "key"); ("__u64", "flags")]
    false false []
    ["BPF_MAP_TYPE_SOCKHASH"; "BPF_F_INGRESS"].

(** [bpf_helper_defs.h:1916]. *)
Definition helper_bpf_lwt_push_encap : helper :=
  Helper "bpf_lwt_push_encap" 73 "long"
    [("struct __sk_buff *", "skb"); ("__u32", "type"); ("void *", "hdr"); ("__u32", "len")]
    false true []
    ["BPF_LWT_ENCAP_SEG6"; "BPF_LWT_ENCAP_SEG6_INLINE"; "BPF_LWT_ENCAP_IP"; "BPF_PROG_TYPE_LWT_IN"; "BPF_PROG_TYPE_LWT_XMIT"].

(** [bpf_helper_defs.h:1935]. *)
Definition helper_bpf_lwt_seg6_store_bytes : helper :=
  Helper "bpf_lwt_seg6_store_bytes" 74 "long"
    [("struct __sk_buff *", "skb"); ("__u32", "offset"); ("const void *", "from"); ("__u32", "len")]
    false true []
    [].

(** [bpf_helper_defs.h:1955]. *)
Definition helper_bpf_lwt_seg6_adjust_srh : helper :=
  Helper "bpf_lwt_seg6_adjust_srh" 75 "long"
    [("struct __sk_buff *", "skb"); ("__u32", "offset"); ("__s32", "delta")]
    false true []
    [].

(** [bpf_helper_defs.h:1988]. *)
Definition helper_bpf_lwt_seg6_action : helper :=
  Helper "bpf_lwt_seg6_action" 76 "long"
    [("struct __sk_buff *", "skb"); ("__u32", "action"); ("void *", "param"); ("__u32", "param_len")]
    false true []
    [].

(** [bpf_helper_defs.h:2011]. *)
Definition helper_bpf_rc_repeat : helper :=
  Helper "bpf_rc_repeat" 77 "long"
    [("void *", "ctx")]
    false false []
    [].

(** [bpf_helper_defs.h:2041]. *)
Definition helper_bpf_rc_keydown : helper :=
  Helper "bpf_rc_keydown" 78 "long"
    [("void *", "ctx"); ("__u32", "protocol"); ("__u64", "scancode"); ("__u32", "toggle")]
    false false []
    [].

(** [bpf_helper_defs.h:2061]. *)
Definition helper_bpf_skb_cgroup_id : helper :=
  Helper "bpf_skb_cgroup_id" 79 "__u64"
    [("struct __sk_buff *", "skb")]
    false false []
    [].

(** [bpf_helper_defs.h:2071]. *)
Definition helper_bpf_get_current_cgroup_id : helper :=
  Helper "bpf_get_current_cgroup_id" 80 "__u64"
    []
    false false []
    [].

(** [bpf_helper_defs.h:2093]. *)
Definition helper_bpf_get_local_storage : helper :=
  Helper "bpf_get_local_storage" 81 "void *"
    [("void *", "map"); ("__u64", "flags")]
    false false []
    ["BPF_ATOMIC"].

(** [bpf_helper_defs.h:2106]. *)
Definition helper_bpf_sk_select_reuseport : helper :=
  Helper "bpf_sk_select_reuseport" 82 "long"
    [("struct sk_reuseport_md *", "reuse"); ("void *", "map"); ("void *", "key"); ("__u64", "flags")]
    false true []
    ["BPF_MAP_TYPE_REUSEPORT_SOCKARRAY"].

(** [bpf_helper_defs.h:2128]. *)
Definition helper_bpf_skb_ancestor_cgroup_id : helper :=
  Helper "bpf_skb_ancestor_cgroup_id" 83 "__u64"
    [("struct __sk_buff *", "skb"); ("int", "ancestor_level")]
    false false []
    [].

(** [bpf_helper_defs.h:2169]. *)
Definition helper_bpf_sk_lookup_tcp : helper :=
  Helper "bpf_sk_lookup_tcp" 84 "struct bpf_sock *"
    [("void *", "ctx"); ("struct bpf_sock_tuple *", "tuple"); ("__u32", "tuple_size"); ("__u64", "netns"); ("__u64", "flags")]
    true false []
    [].

(** [bpf_helper_defs.h:2210]. *)
Definition helper_bpf_sk_lookup_udp : helper :=
  Helper "bpf_sk_lookup_udp" 85 "struct bpf_sock *"
    [("void *", "ctx"); ("struct bpf_sock_tuple *", "tuple"); ("__u32", "tuple_size"); ("__u64", "netns"); ("__u64", "flags")]
    true false []
    [].

(** [bpf_helper_defs.h:2222]. *)
Definition helper_bpf_sk_release : helper :=
  Helper "bpf_sk_release" 86 "long"
    [("void *", "sock")]
    false true []
    [].

(** [bpf_helper_defs.h:2236]. *)
Definition helper_bpf_map_push_elem : helper :=
  Helper "bpf_map_push_elem" 87 "long"
    [("void *", "map"); ("const void *", "value"); ("__u64", "flags")]
    false true []
    ["BPF_EXIST"].

(** [bpf_helper_defs.h:2246]. *)
Definition helper_bpf_map_pop_elem : helper :=
  Helper "bpf_map_pop_elem" 88 "long"
    [("void *", "map"); ("void *", "value")]
    false true []
    [].

(** [bpf_helper_defs.h:2256]. *)
Definition helper_bpf_map_peek_elem : helper :=
  Helper "bpf_map_peek_elem" 89 "long"
    [("void *", "map"); ("void *", "value")]
    false true []
    [].

(** [bpf_helper_defs.h:2276]. *)
Definition helper_bpf_msg_push_data : helper :=
  Helper "bpf_msg_push_data" 90 "long"
    [("struct sk_msg_md *", "msg"); ("__u32", "start"); ("__u32", "len"); ("__u64", "flags")]
    false true []
    ["BPF_PROG_TYPE_SK_MSG"].

(** [bpf_helper_defs.h:2292]. *)
Definition helper_bpf_msg_pop_data : helper :=
  Helper "bpf_msg_pop_data" 91 "long"
    [("struct sk_msg_md *", "msg"); ("__u32", "start"); ("__u32", "len"); ("__u64", "flags")]
    false true []
    [].

(** [bpf_helper_defs.h:2310]. *)
Definition helper_bpf_rc_pointer_rel : helper :=
  Helper "bpf_rc_pointer_rel" 92 "long"
    [("void *", "ctx"); ("__s32", "rel_x"); ("__s32", "rel_y")]
    false false []
    [].

(** [bpf_helper_defs.h:2362]. *)
Definition helper_bpf_spin_lock : helper :=
  Helper "bpf_spin_lock" 93 "long"
    [("struct bpf_spin_lock *", "lock")]
    false false []
    ["BPF_MAP_TYPE_HASH"; "BPF_MAP_TYPE_ARRAY"; "BPF_LD_ABS"; "BPF_LD_IND"; "BPF_MAP_LOOKUP_ELEM"; "BPF_MAP_UPDATE_ELEM"].

(** [bpf_helper_defs.h:2373]. *)
Definition helper_bpf_spin_unlock : helper :=
  Helper "bpf_spin_unlock" 94 "long"
    [("struct bpf_spin_lock *", "lock")]
    false false []
    [].

(** [bpf_helper_defs.h:2385]. *)
Definition helper_bpf_sk_fullsock : helper :=
  Helper "bpf_sk_fullsock" 95 "struct bpf_sock *"
    [("struct bpf_sock *", "sk")]
    true false []
    [].

(** [bpf_helper_defs.h:2397]. *)
Definition helper_bpf_tcp_sock : helper :=
  Helper "bpf_tcp_sock" 96 "struct bpf_tcp_sock *"
    [("struct bpf_sock *", "sk")]
    true false []
    [].

(** [bpf_helper_defs.h:2411]. *)
Definition helper_bpf_skb_ecn_set_ce : helper :=
  Helper "bpf_skb_ecn_set_ce" 97 "long"
    [("struct __sk_buff *", "skb")]
    false false []
    [].

(** [bpf_helper_defs.h:2423]. *)
Definition helper_bpf_get_listener_sock : helper :=
  Helper "bpf_get_listener_sock" 98 "struct bpf_sock *"
    [("struct bpf_sock *", "sk")]
    true false []
    [].

(** [bpf_helper_defs.h:2446]. *)
Definition helper_bpf_skc_lookup_tcp : helper :=
  Helper "bpf_skc_lookup_tcp" 99 "struct bpf_sock *"
    [("void *", "ctx"); ("struct bpf_sock_tuple *", "tuple"); ("__u32", "tuple_size"); ("__u64", "netns"); ("__u64", "flags")]
    true false []
    [].

(** [bpf_helper_defs.h:2465]. *)
Definition helper_bpf_tcp_check_syncookie : helper :=
  Helper "bpf_tcp_check_syncookie" 100 "long"
    [("void *", "sk"); ("void *", "iph"); ("__u32", "iph_len"); ("struct tcphdr *", "th"); ("__u32", "th_len")]
    false true []
    [].

(** [bpf_helper_defs.h:2485]. *)
Definition helper_bpf_sysctl_get_name : helper :=
  Helper "bpf_sysctl_get_name" 101 "long"
    [("struct bpf_sysctl *", "ctx"); ("char *", "buf"); ("unsigned long", "buf_len"); ("__u64", "flags")]
    false true ["E2BIG"]
    ["BPF_F_SYSCTL_BASE_NAME"].

(** [bpf_helper_defs.h:2508]. *)
Definition helper_bpf_sysctl_get_current_value : helper :=
  Helper "bpf_sysctl_get_current_value" 102 "long"
    [("struct bpf_sysctl *", "ctx"); ("char *", "buf"); ("unsigned long", "buf_len")]
    false true ["E2BIG"; "EINVAL"]
    [].

(** [bpf_helper_defs.h:2529]. *)
Definition helper_bpf_sysctl_get_new_value : helper :=
  Helper "bpf_sysctl_get_new_value" 103 "long"
    [("struct bpf_sysctl *", "ctx"); ("char *", "buf"); ("unsigned long", "buf_len")]
    false true ["E2BIG"; "EINVAL"]
    [].

(** [bpf_helper_defs.h:2550]. *)
Definition helper_bpf_sysctl_set_new_value : helper :=
  Helper "bpf_sysctl_set_new_value" 104 "long"
    [("struct bpf_sysctl *", "ctx"); ("const char *", "buf"); ("unsigned long", "buf_len")]
    false true ["E2BIG"; "EINVAL"]
    [].

(** [bpf_helper_defs.h:2578]. *)
Definition helper_bpf_strtol : helper :=
  Helper "bpf_strtol" 105 "long"
    [("const char *", "buf"); ("unsigned long", "buf_len"); ("__u64", "flags"); ("long *", "res")]
    false true ["EINVAL"; "ERANGE"]
    [].

(** [bpf_helper_defs.h:2605]. *)
Definition helper_bpf_strtoul : helper :=
  Helper "bpf_strtoul" 106 "long"
    [("const char *", "buf"); ("unsigned long", "buf_len"); ("__u64", "flags"); ("unsigned long *", "res")]
    false true ["EINVAL"; "ERANGE"]
    [].

(** [bpf_helper_defs.h:2640]. *)
Definition helper_bpf_sk_storage_get : helper :=
  Helper "bpf_sk_storage_get" 107 "void *"
    [("void *", "map"); ("void *", "sk"); ("void *", "value"); ("__u64", "flags")]
    true false []
    ["BPF_MAP_TYPE_SK_STORAGE"; "BPF_SK_STORAGE_GET_F_CREATE"].

(** [bpf_helper_defs.h:2653]. *)
Definition helper_bpf_sk_storage_delete : helper :=
  Helper "bpf_sk_storage_delete" 108 "long"
    [("void *", "map"); ("void *", "sk")]
    false true ["ENOENT"; "EINVAL"]
    [].

(** [bpf_helper_defs.h:2672]. *)
Definition helper_bpf_send_signal : helper :=
  Helper "bpf_send_signal" 109 "long"
    [("__u32", "sig")]
    false true ["EBUSY"; "EINVAL"; "EPERM"; "EAGAIN"]
    [].

(** [bpf_helper_defs.h:2702]. *)
Definition helper_bpf_tcp_gen_syncookie : helper :=
  Helper "bpf_tcp_gen_syncookie" 110 "__s64"
    [("void *", "sk"); ("void *", "iph"); ("__u32", "iph_len"); ("struct tcphdr *", "th"); ("__u32", "th_len")]
    false true ["EINVAL"; "ENOENT"; "EOPNOTSUPP"; "EPROTONOSUPPORT"]
    [].

(** [bpf_helper_defs.h:2730]. *)
Definition helper_bpf_skb_output : helper :=
  Helper "bpf_skb_output" 111 "long"
    [("void *", "ctx"); ("void *", "map"); ("__u64", "flags"); ("void *", "data"); ("__u64", "size")]
    false true []
    ["BPF_MAP_TYPE_PERF_EVENT_ARRAY"; "BPF_F_INDEX_MASK"; "BPF_F_CURRENT_CPU"].

(** [bpf_helper_defs.h:2741]. *)
Definition helper_bpf_probe_read_user : helper :=
  Helper "bpf_probe_read_user" 112 "long"
    [("void *", "dst"); ("__u32", "size"); ("const void *", "unsafe_ptr")]
    false true []
    [].

(** [bpf_helper_defs.h:2752]. *)
Definition helper_bpf_probe_read_kernel : helper :=
  Helper "bpf_probe_read_kernel" 113 "long"
    [("void *", "dst"); ("__u32", "size"); ("const void *", "unsafe_ptr")]
    false true []
    [].

(** [bpf_helper_defs.h:2800]. *)
Definition helper_bpf_probe_read_user_str : helper :=
  Helper "bpf_probe_read_user_str" 114 "long"
    [("void *", "dst"); ("__u32", "size"); ("const void *", "unsafe_ptr")]
    false true []
    [].

(** [bpf_helper_defs.h:2812]. *)
Definition helper_bpf_probe_read_kernel_str : helper :=
  Helper "bpf_probe_read_kernel_str" 115 "long"
    [("void *", "dst"); ("__u32", "size"); ("const void *", "unsafe_ptr")]
    false true []
    [].

(** [bpf_helper_defs.h:2823]. *)
Definition helper_bpf_tcp_send_ack : helper :=
  Helper "bpf_tcp_send_ack" 116 "long"
    [("void *", "tp"); ("__u32", "rcv_nxt")]
    false true []
    [].

(** [bpf_helper_defs.h:2841]. *)
Definition helper_bpf_send_signal_thread : helper :=
  Helper "bpf_send_signal_thread" 117 "long"
    [("__u32", "sig")]
    false true ["EBUSY"; "EINVAL"; "EPERM"; "EAGAIN"]
    [].

(** [bpf_helper_defs.h:2851]. *)
Definition helper_bpf_jiffies64 : helper :=
  Helper "bpf_jiffies64" 118 "__u64"
    []
    false false []
    [].

(** [bpf_helper_defs.h:2874]. *)
Definition helper_bpf_read_branch_records : helper :=
  Helper "bpf_read_branch_records" 119 "long"
    [("struct bpf_perf_event_data *", "ctx"); ("void *", "buf"); ("__u32", "size"); ("__u64", "flags")]
    true true ["EINVAL"; "ENOENT"]
    ["BPF_F_GET_BRANCH_RECORDS_SIZE"].

(** [bpf_helper_defs.h:2890]. *)
Definition helper_bpf_get_ns_current_pid_tgid : helper :=
  Helper "bpf_get_ns_current_pid_tgid" 120 "long"
    [("__u64", "dev"); ("__u64", "ino"); ("struct bpf_pidns_info *", "nsdata"); ("__u32", "size")]
    false true ["EINVAL"; "ENOENT"]
    [].

(** [bpf_helper_defs.h:2918]. *)
Definition helper_bpf_xdp_output : helper :=
  Helper "bpf_xdp_output" 121 "long"
    [("void *", "ctx"); ("void *", "map"); ("__u64", "flags"); ("void *", "data"); ("__u64", "size")]
    false true []
    ["BPF_MAP_TYPE_PERF_EVENT_ARRAY"; "BPF_F_INDEX_MASK"; "BPF_F_CURRENT_CPU"].

(** [bpf_helper_defs.h:2935]. *)
Definition helper_bpf_get_netns_cookie : helper :=
  Helper "bpf_get_netns_cookie" 122 "__u64"
    [("void *", "ctx")]
    false false []
    [].

(** [bpf_helper_defs.h:2957]. *)
Definition helper_bpf_get_current_ancestor_cgroup_id : helper :=
  Helper "bpf_get_current_ancestor_cgroup_id" 123 "__u64"
    [("int", "ancestor_level")]
    false false []
    [].

(** [bpf_helper_defs.h:2992]. *)
Definition helper_bpf_sk_assign : helper :=
  Helper "bpf_sk_assign" 124 "long"
    [("void *", "ctx"); ("void *", "sk"); ("__u64", "flags")]
    false true ["EINVAL"; "ENOENT"; "ENETUNREACH"; "EOPNOTSUPP"; "ESOCKTNOSUPPORT"]
    ["BPF_PROG_TYPE_SCHED_CLS"; "BPF_PROG_TYPE_SCHED_ACT"].

(** [bpf_helper_defs.h:3004]. *)
Definition helper_bpf_ktime_get_boot_ns : helper :=
  Helper "bpf_ktime_get_boot_ns" 125 "__u64"
    []
    false false []
    [].

(** [bpf_helper_defs.h:3037]. *)
Definition helper_bpf_seq_printf : helper :=
  Helper "bpf_seq_printf" 126 "long"
    [("struct seq_file *", "m"); ("const char *", "fmt"); ("__u32", "fmt_size"); ("const void *", "data"); ("__u32", "data_len")]
    false true ["EBUSY"; "EINVAL"; "E2BIG"; "EOVERFLOW"]
    [].

(** [bpf_helper_defs.h:3051]. *)
Definition helper_bpf_seq_write : helper :=
  Helper "bpf_seq_write" 127 "long"
    [("struct seq_file *", "m"); ("const void *", "data"); ("__u32", "len")]
    false true ["EOVERFLOW"]
    [].

(** [bpf_helper_defs.h:3069]. *)
Definition helper_bpf_sk_cgroup_id : helper :=
  Helper "bpf_sk_cgroup_id" 128 "__u64"
    [("void *", "sk")]
    false false []
    [].

(** [bpf_helper_defs.h:3091]. *)
Definition helper_bpf_sk_ancestor_cgroup_id : helper :=
  Helper "bpf_sk_ancestor_cgroup_id" 129 "__u64"
    [("void *", "sk"); ("int", "ancestor_level")]
    false false []
    [].

(** [bpf_helper_defs.h:3112]. *)
Definition helper_bpf_ringbuf_output : helper :=
  Helper "bpf_ringbuf_output" 130 "long"
    [("void *", "ringbuf"); ("void *", "data"); ("__u64", "size"); ("__u64", "flags")]
    false true []
    ["BPF_RB_NO_WAKEUP"; "BPF_RB_FORCE_WAKEUP"].

(** [bpf_helper_defs.h:3124]. *)
Definition helper_bpf_ringbuf_reserve : helper :=
  Helper "bpf_ringbuf_reserve" 131 "void *"
    [("void *", "ringbuf"); ("__u64", "size"); ("__u64", "flags")]
    true false []
    [].

(** [bpf_helper_defs.h:3142]. *)
Definition helper_bpf_ringbuf_submit : helper :=
  Helper "bpf_ringbuf_submit" 132 "void"
    [("void *", "data"); ("__u64", "flags")]
    false false []
    ["BPF_RB_NO_WAKEUP"; "BPF_RB_FORCE_WAKEUP"].

(** [bpf_helper_defs.h:3160]. *)
Definition helper_bpf_ringbuf_discard : helper :=
  Helper "bpf_ringbuf_discard" 133 "void"
    [("void *", "data"); ("__u64", "flags")]
    false false []
    ["BPF_RB_NO_WAKEUP"; "BPF_RB_FORCE_WAKEUP"].

(** [bpf_helper_defs.h:3181]. *)
Definition helper_bpf_ringbuf_query : helper :=
  Helper "bpf_ringbuf_query" 134 "__u64"
    [("void *", "ringbuf"); ("__u64", "flags")]
    false false []
    ["BPF_RB_AVAIL_DATA"; "BPF_RB_RING_SIZE"; "BPF_RB_CONS_POS"; "BPF_RB_PROD_POS"].

(** [bpf_helper_defs.h:3217]. *)
Definition helper_bpf_csum_level : helper :=
  Helper "bpf_csum_level" 135 "long"
    [("struct __sk_buff *", "skb"); ("__u64", "level")]
    false true []
    ["BPF_F_ADJ_ROOM_NO_CSUM_RESET"; "BPF_CSUM_LEVEL_DEC"; "BPF_CSUM_LEVEL_INC"; "BPF_CSUM_LEVEL_RESET"; "BPF_CSUM_LEVEL_QUERY"].

(** [bpf_helper_defs.h:3227]. *)
Definition helper_bpf_skc_to_tcp6_sock : helper :=
  Helper "bpf_skc_to_tcp6_sock" 136 "struct tcp6_sock *"
    [("void *", "sk")]
    true false []
    [].

(** [bpf_helper_defs.h:3237]. *)
Definition helper_bpf_skc_to_tcp_sock : helper :=
  Helper "bpf_skc_to_tcp_sock" 137 "struct tcp_sock *"
    [("void *", "sk")]
    true false []
    [].

(** [bpf_helper_defs.h:3247]. *)
Definition helper_bpf_skc_to_tcp_timewait_sock : helper :=
  Helper "bpf_skc_to_tcp_timewait_sock" 138 "struct tcp_timewait_sock *"
    [("void *", "sk")]
    true false []
    [].

(** [bpf_helper_defs.h:3257]. *)
Definition helper_bpf_skc_to_tcp_request_sock : helper :=
  Helper "bpf_skc_to_tcp_request_sock" 139 "struct tcp_request_sock *"
    [("void *", "sk")]
    true false []
    [].

(** [bpf_helper_defs.h:3267]. *)
Definition helper_bpf_skc_to_udp6_sock : helper :=
  Helper "bpf_skc_to_udp6_sock" 140 "struct udp6_sock *"
    [("void *", "sk")]
    true false []
    [].

(** [bpf_helper_defs.h:3303]. *)
Definition helper_bpf_get_task_stack : helper :=
  Helper "bpf_get_task_stack" 141 "long"
    [("struct task_struct *", "task"); ("void *", "buf"); ("__u32", "size"); ("__u64", "flags")]
    false true []
    ["BPF_F_SKIP_FIELD_MASK"; "BPF_F_USER_STACK"; "BPF_F_USER_BUILD_ID"].

(** [bpf_helper_defs.h:3370]. *)
Definition helper_bpf_load_hdr_opt : helper :=
  Helper "bpf_load_hdr_opt" 142 "long"
    [("struct bpf_sock_ops *", "skops"); ("void *", "searchby_res"); ("__u32", "len"); ("__u64", "flags")]
    false true ["EINVAL"; "ENOMSG"; "ENOENT"; "ENOSPC"; "EFAULT"; "EPERM"]
    ["BPF_PROG_TYPE_SOCK_OPS"; "BPF_LOAD_HDR_OPT_TCP_SYN"].

(** [bpf_helper_defs.h:3407]. *)
Definition helper_bpf_store_hdr_opt : helper :=
  Helper "bpf_store_hdr_opt" 143 "long"
    [("struct bpf_sock_ops *", "skops"); ("const void *", "from"); ("__u32", "len"); ("__u64", "flags")]
    false true ["EINVAL"; "ENOSPC"; "EEXIST"; "EFAULT"; "EPERM"]
    ["BPF_SOCK_OPS_WRITE_HDR_OPT_CB"].

(** [bpf_helper_defs.h:3433]. *)
Definition helper_bpf_reserve_hdr_opt : helper :=
  Helper "bpf_reserve_hdr_opt" 144 "long"
    [("struct bpf_sock_ops *", "skops"); ("__u32", "len"); ("__u64", "flags")]
    false true ["EINVAL"; "ENOSPC"; "EPERM"]
    ["BPF_SOCK_OPS_WRITE_HDR_OPT_CB"; "BPF_SOCK_OPS_HDR_OPT_LEN_CB"].

(** [bpf_helper_defs.h:3465]. *)
Definition helper_bpf_inode_storage_get : helper :=
  Helper "bpf_inode_storage_get" 145 "void *"
    [("void *", "map"); ("void *", "inode"); ("void *", "value"); ("__u64", "flags")]
    true false []
    ["BPF_MAP_TYPE_INODE_STORAGE"; "BPF_LOCAL_STORAGE_GET_F_CREATE"].

(** [bpf_helper_defs.h:3477]. *)
Definition helper_bpf_inode_storage_delete : helper :=
  Helper "bpf_inode_storage_delete" 146 "int"
    [("void *", "map"); ("void *", "inode")]
    false true ["ENOENT"]
    [].

(** [bpf_helper_defs.h:3493]. *)
Definition helper_bpf_d_path : helper :=
  Helper "bpf_d_path" 147 "long"
    [("struct path *", "path"); ("char *", "buf"); ("__u32", "sz")]
    false true []
    [].

(** [bpf_helper_defs.h:3504]. *)
Definition helper_bpf_copy_from_user : helper :=
  Helper "bpf_copy_from_user" 148 "long"
    [("void *", "dst"); ("__u32", "size"); ("const void *", "user_ptr")]
    false true []
    [].

(** [bpf_helper_defs.h:3544]. *)
Definition helper_bpf_snprintf_btf : helper :=
  Helper "bpf_snprintf_btf" 149 "long"
    [("char *", "str"); ("__u32", "str_size"); ("struct btf_ptr *", "ptr"); ("__u32", "btf_ptr_size"); ("__u64", "flags")]
    false true []
    [].

(** [bpf_helper_defs.h:3556]. *)
Definition helper_bpf_seq_printf_btf : helper :=
  Helper "bpf_seq_printf_btf" 150 "long"
    [("struct seq_file *", "m"); ("struct btf_ptr *", "ptr"); ("__u32", "ptr_size"); ("__u64", "flags")]
    false true []
    [].

(** [bpf_helper_defs.h:3569]. *)
Definition helper_bpf_skb_cgroup_classid : helper :=
  Helper "bpf_skb_cgroup_classid" 151 "__u64"
    [("struct __sk_buff *", "skb")]
    false false []
    [].

(** [bpf_helper_defs.h:3594]. *)
Definition helper_bpf_redirect_neigh : helper :=
  Helper "bpf_redirect_neigh" 152 "long"
    [("__u32", "ifindex"); ("struct bpf_redir_neigh *", "params"); ("int", "plen"); ("__u64", "flags")]
    false false []
    [].

(** [bpf_helper_defs.h:3615]. *)
Definition helper_bpf_per_cpu_ptr : helper :=
  Helper "bpf_per_cpu_ptr" 153 "void *"
    [("const void *", "percpu_ptr"); ("__u32", "cpu")]
    true false []
    [].

(** [bpf_helper_defs.h:3631]. *)
Definition helper_bpf_this_cpu_ptr : helper :=
  Helper "bpf_this_cpu_ptr" 154 "void *"
    [("const void *", "percpu_ptr")]
    false false []
    [].

(** [bpf_helper_defs.h:3651]. *)
Definition helper_bpf_redirect_peer : helper :=
  Helper "bpf_redirect_peer" 155 "long"
    [("__u32", "ifindex"); ("__u64", "flags")]
    false false []
    [].

(** [bpf_helper_defs.h:3683]. *)
Definition helper_bpf_task_storage_get : helper :=
  Helper "bpf_task_storage_get" 156 "void *"
    [("void *", "map"); ("struct task_struct *", "task"); ("void *", "value"); ("__u64", "flags")]
    true false []
    ["BPF_MAP_TYPE_TASK_STORAGE"; "BPF_LOCAL_STORAGE_GET_F_CREATE"].

(** [bpf_helper_defs.h:3695]. *)
Definition helper_bpf_task_storage_delete : helper :=
  Helper "bpf_task_storage_delete" 157 "long"
    [("void *", "map"); ("struct task_struct *", "task")]
    false true ["ENOENT"]
    [].

(** [bpf_helper_defs.h:3707]. *)
Definition helper_bpf_get_current_task_btf : helper :=
  Helper "bpf_get_current_task_btf" 158 "struct task_struct *"
    []
    false false []
    [].

(** [bpf_helper_defs.h:3721]. *)
Definition helper_bpf_bprm_opts_set : helper :=
  Helper "bpf_bprm_opts_set" 159 "long"
    [("struct linux_binprm *", "bprm"); ("__u64", "flags")]
    false true ["EINVAL"]
    ["BPF_F_BPRM_SECUREEXEC"].

(** [bpf_helper_defs.h:3735]. *)
Definition helper_bpf_ktime_get_coarse_ns : helper :=
  Helper "bpf_ktime_get_coarse_ns" 160 "__u64"
    []
    false false []
    [].

(** [bpf_helper_defs.h:3749]. *)
Definition helper_bpf_ima_inode_hash : helper :=
  Helper "bpf_ima_inode_hash" 161 "long"
    [("struct inode *", "inode"); ("void *", "dst"); ("__u32", "size")]
    false true ["EOPNOTSUP"; "EINVAL"]
    [].

(** [bpf_helper_defs.h:3761]. *)
Definition helper_bpf_sock_from_file : helper :=
  Helper "bpf_sock_from_file" 162 "struct socket *"
    [("struct file *", "file")]
    true false []
    [].

(** [bpf_helper_defs.h:3832]. *)
Definition helper_bpf_check_mtu : helper :=
  Helper "bpf_check_mtu" 163 "long"
    [("void *", "ctx"); ("__u32", "ifindex"); ("__u32 *", "mtu_len"); ("__s32", "len_diff"); ("__u64", "flags")]
    false true []
    ["BPF_MTU_CHK_SEGS"; "BPF_MTU_CHK_RET_FRAG_NEEDED"; "BPF_MTU_CHK_RET_SEGS_TOOBIG"].

(** [bpf_helper_defs.h:3865]. *)
Definition helper_bpf_for_each_map_elem : helper :=
  Helper "bpf_for_each_map_elem" 164 "long"
    [("void *", "map"); ("void *", "callback_fn"); ("void *", "callback_ctx"); ("__u64", "flags")]
    false true ["EINVAL"]
    [].

(** [bpf_helper_defs.h:3897]. *)
Definition helper_bpf_snprintf : helper :=
  Helper "bpf_snprintf" 165 "long"
    [("char *", "str"); ("__u32", "str_size"); ("const char *", "fmt"); ("__u64 *", "data"); ("__u32", "data_len")]
    false true ["EBUSY"]
    [].

(** [bpf_helper_defs.h:3907]. *)
Definition helper_bpf_sys_bpf : helper :=
  Helper "bpf_sys_bpf" 166 "long"
    [("__u32", "cmd"); ("void *", "attr"); ("__u32", "attr_size")]
    false false []
    [].

(** [bpf_helper_defs.h:3917]. *)
Definition helper_bpf_btf_find_by_name_kind : helper :=
  Helper "bpf_btf_find_by_name_kind" 167 "long"
    [("char *", "name"); ("int", "name_sz"); ("__u32", "kind"); ("int", "flags")]
    false false []
    [].

(** [bpf_helper_defs.h:3927]. *)
Definition helper_bpf_sys_close : helper :=
  Helper "bpf_sys_close" 168 "long"
    [("__u32", "fd")]
    false false []
    [].

(** [bpf_helper_defs.h:3948]. *)
Definition helper_bpf_timer_init : helper :=
  Helper "bpf_timer_init" 169 "long"
    [("struct bpf_timer *", "timer"); ("void *", "map"); ("__u64", "flags")]
    false true ["EBUSY"; "EINVAL"; "EPERM"]
    [].

(** [bpf_helper_defs.h:3963]. *)
Definition helper_bpf_timer_set_callback : helper :=
  Helper "bpf_timer_set_callback" 170 "long"
    [("struct bpf_timer *", "timer"); ("void *", "callback_fn")]
    false true ["EINVAL"; "EPERM"]
    [].

(** [bpf_helper_defs.h:3993]. *)
Definition helper_bpf_timer_start : helper :=
  Helper "bpf_timer_start" 171 "long"
    [("struct bpf_timer *", "timer"); ("__u64", "nsecs"); ("__u64", "flags")]
    false true ["EINVAL"]
    [].

(** [bpf_helper_defs.h:4007]. *)
Definition helper_bpf_timer_cancel : helper :=
  Helper "bpf_timer_cancel" 172 "long"
    [("struct bpf_timer *", "timer")]
    false true ["EINVAL"; "EDEADLK"]
    [].

(** [bpf_helper_defs.h:4017]. *)
Definition helper_bpf_get_func_ip : helper :=
  Helper "bpf_get_func_ip" 173 "__u64"
    [("void *", "ctx")]
    false false []
    [].

(** [bpf_helper_defs.h:4036]. *)
Definition helper_bpf_get_attach_cookie : helper :=
  Helper "bpf_get_attach_cookie" 174 "__u64"
    [("void *", "ctx")]
    false false []
    [].

(** [bpf_helper_defs.h:4046]. *)
Definition helper_bpf_task_pt_regs : helper :=
  Helper "bpf_task_pt_regs" 175 "long"
    [("struct task_struct *", "task")]
    false false []
    [].

(** [bpf_helper_defs.h:4071]. *)
Definition helper_bpf_get_branch_snapshot : helper :=
  Helper "bpf_get_branch_snapshot" 176 "long"
    [("void *", "entries"); ("__u32", "size"); ("__u64", "flags")]
    false true ["EINVAL"; "ENOENT"]
    [].

(** [bpf_helper_defs.h:4085]. *)
Definition helper_bpf_trace_vprintk : helper :=
  Helper "bpf_trace_vprintk" 177 "long"
    [("const char *", "fmt"); ("__u32", "fmt_size"); ("const void *", "data"); ("__u32", "data_len")]
    false true []
    [].

(** [bpf_helper_defs.h:4095]. *)
Definition helper_bpf_skc_to_unix_sock : helper :=
  Helper "bpf_skc_to_unix_sock" 178 "struct unix_sock *"
    [("void *", "sk")]
    true false []
    [].

(** [bpf_helper_defs.h:4114]. *)
Definition helper_bpf_kallsyms_lookup_name : helper :=
  Helper "bpf_kallsyms_lookup_name" 179 "long"
    [("const char *", "name"); ("int", "name_sz"); ("int", "flags"); ("__u64 *", "res")]
    false true ["EINVAL"; "ENOENT"; "EPERM"]
    [].

(** [bpf_helper_defs.h:4137]. *)
Definition helper_bpf_find_vma : helper :=
  Helper "bpf_find_vma" 180 "long"
    [("struct task_struct *", "task"); ("__u64", "addr"); ("void *", "callback_fn"); ("void *", "callback_ctx"); ("__u64", "flags")]
    true true ["ENOENT"; "EBUSY"; "EINVAL"]
    [].

(** The helpers, in the order of the header. *)
Definition bpf_helpers : list helper :=
  [ helper_bpf_map_lookup_elem;
    helper_bpf_map_update_elem;
    helper_bpf_map_delete_elem;
    helper_bpf_probe_read;
    helper_bpf_ktime_get_ns;
    helper_bpf_trace_printk;
    helper_bpf_get_prandom_u32;
    helper_bpf_get_smp_processor_id;
    helper_bpf_skb_store_bytes;
    helper_bpf_l3_csum_replace;
    helper_bpf_l4_csum_replace;
    helper_bpf_tail_call;
    helper_bpf_clone_redirect;
    helper_bpf_get_current_pid_tgid;
    helper_bpf_get_current_uid_gid;
    helper_bpf_get_current_comm;
    helper_bpf_get_cgroup_classid;
    helper_bpf_skb_vlan_push;
    helper_bpf_skb_vlan_pop;
    helper_bpf_skb_get_tunnel_key;
    helper_bpf_skb_set_tunnel_key;
    helper_bpf_perf_event_read;
    helper_bpf_redirect;
    helper_bpf_get_route_realm;
    helper_bpf_perf_event_output;
    helper_bpf_skb_load_bytes;
    helper_bpf_get_stackid;
    helper_bpf_csum_diff;
    helper_bpf_skb_get_tunnel_opt;
    helper_bpf_skb_set_tunnel_opt;
    helper_bpf_skb_change_proto;
    helper_bpf_skb_change_type;
    helper_bpf_skb_under_cgroup;
    helper_bpf_get_hash_recalc;
    helper_bpf_get_current_task;
    helper_bpf_probe_write_user;
    helper_bpf_current_task_under_cgroup;
    helper_bpf_skb_change_tail;
    helper_bpf_skb_pull_data;
    helper_bpf_csum_update;
    helper_bpf_set_hash_invalid;
    helper_bpf_get_numa_node_id;
    helper_bpf_skb_change_head;
    helper_bpf_xdp_adjust_head;
    helper_bpf_probe_read_str;
    helper_bpf_get_socket_cookie;
    helper_bpf_get_socket_uid;
    helper_bpf_set_hash;
    helper_bpf_setsockopt;
    helper_bpf_skb_adjust_room;
    helper_bpf_redirect_map;
    helper_bpf_sk_redirect_map;
    helper_bpf_sock_map_update;
    helper_bpf_xdp_adjust_meta;
    helper_bpf_perf_event_read_value;
    helper_bpf_perf_prog_read_value;
    helper_bpf_getsockopt;
    helper_bpf_override_return;
    helper_bpf_sock_ops_cb_flags_set;
    helper_bpf_msg_redirect_map;
    helper_bpf_msg_apply_bytes;
    helper_bpf_msg_cork_bytes;
    helper_bpf_msg_pull_data;
    helper_bpf_bind;
    helper_bpf_xdp_adjust_tail;
    helper_bpf_skb_get_xfrm_state;
    helper_bpf_get_stack;
    helper_bpf_skb_load_bytes_relative;
    helper_bpf_fib_lookup;
    helper_bpf_sock_hash_update;
    helper_bpf_msg_redirect_hash;
    helper_bpf_sk_redirect_hash;
    helper_bpf_lwt_push_encap;
    helper_bpf_lwt_seg6_store_bytes;
    helper_bpf_lwt_seg6_adjust_srh;
    helper_bpf_lwt_seg6_action;
    helper_bpf_rc_repeat;
    helper_bpf_rc_keydown;
    helper_bpf_skb_cgroup_id;
    helper_bpf_get_current_cgroup_id;
    helper_bpf_get_local_storage;
    helper_bpf_sk_select_reuseport;
    helper_bpf_skb_ancestor_cgroup_id;
    helper_bpf_sk_lookup_tcp;
    helper_bpf_sk_lookup_udp;
    helper_bpf_sk_release;
    helper_bpf_map_push_elem;
    helper_bpf_map_pop_elem;
    helper_bpf_map_peek_elem;
    helper_bpf_msg_push_data;
    helper_bpf_msg_pop_data;
    helper_bpf_rc_pointer_rel;
    helper_bpf_spin_lock;
    helper_bpf_spin_unlock;
    helper_bpf_sk_fullsock;
    helper_bpf_tcp_sock;
    helper_bpf_skb_ecn_set_ce;
    helper_bpf_get_listener_sock;
    helper_bpf_skc_lookup_tcp;
    helper_bpf_tcp_check_syncookie;
    helper_bpf_sysctl_get_name;
    helper_bpf_sysctl_get_current_value;
    helper_bpf_sysctl_get_new_value;
    helper_bpf_sysctl_set_new_value;
    helper_bpf_strtol;
    helper_bpf_strtoul;
    helper_bpf_sk_storage_get;
    helper_bpf_sk_storage_delete;
    helper_bpf_send_signal;
    helper_bpf_tcp_gen_syncookie;
    helper_bpf_skb_output;
    helper_bpf_probe_read_user;
    helper_bpf_probe_read_kernel;
    helper_bpf_probe_read_user_str;
    helper_bpf_probe_read_kernel_str;
    helper_bpf_tcp_send_ack;
    helper_bpf_send_signal_thread;
    helper_bpf_jiffies64;
    helper_bpf_read_branch_records;
    helper_bpf_get_ns_current_pid_tgid;
    helper_bpf_xdp_output;
    helper_bpf_get_netns_cookie;
    helper_bpf_get_current_ancestor_cgroup_id;
    helper_bpf_sk_assign;
    helper_bpf_ktime_get_boot_ns;
    helper_bpf_seq_printf;
    helper_bpf_seq_write;
    helper_bpf_sk_cgroup_id;
    helper_bpf_sk_ancestor_cgroup_id;
    helper_bpf_ringbuf_output;
    helper_bpf_ringbuf_reserve;
    helper_bpf_ringbuf_submit;
    helper_bpf_ringbuf_discard;
    helper_bpf_ringbuf_query;
    helper_bpf_csum_level;
    helper_bpf_skc_to_tcp6_sock;
    helper_bpf_skc_to_tcp_sock;
    helper_bpf_skc_to_tcp_timewait_sock;
    helper_bpf_skc_to_tcp_request_sock;
    helper_bpf_skc_to_udp6_sock;
    helper_bpf_get_task_stack;
    helper_bpf_load_hdr_opt;
    helper_bpf_store_hdr_opt;
    helper_bpf_reserve_hdr_opt;
    helper_bpf_inode_storage_get;
    helper_bpf_inode_storage_delete;
    helper_bpf_d_path;
    helper_bpf_copy_from_user;
    helper_bpf_snprintf_btf;
    helper_bpf_seq_printf_btf;
    helper_bpf_skb_cgroup_classid;
    helper_bpf_redirect_neigh;
    helper_bpf_per_cpu_ptr;
    helper_bpf_this_cpu_ptr;
    helper_bpf_redirect_peer;
    helper_bpf_task_storage_get;
    helper_bpf_task_storage_delete;
    helper_bpf_get_current_task_btf;
    helper_bpf_bprm_opts_set;
    helper_bpf_ktime_get_coarse_ns;
    helper_bpf_ima_inode_hash;
    helper_bpf_sock_from_file;
    helper_bpf_check_mtu;
    helper_bpf_for_each_map_elem;
    helper_bpf_snprintf;
    helper_bpf_sys_bpf;
    helper_bpf_btf_find_by_name_kind;
    helper_bpf_sys_close;
    helper_bpf_timer_init;
    helper_bpf_timer_set_callback;
    helper_bpf_timer_start;
    helper_bpf_timer_cancel;
    helper_bpf_get_func_ip;
    helper_bpf_get_attach_cookie;
    helper_bpf_task_pt_regs;
    helper_bpf_get_branch_snapshot;
    helper_bpf_trace_vprintk;
    helper_bpf_skc_to_unix_sock;
    helper_bpf_kallsyms_lookup_name;
    helper_bpf_find_vma ].
