(* ===== verification/BpfHelpers.v ===== *)
(** * Macros and types of [headers/bpf_helpers.h]

    The preprocessor machinery the BPF programs are written with: argument counting,
    array filling, the choice of the printing helper, [KERNEL_VERSION], [container_of],
    the map-attribute macros, and the libbpf types. Macro arguments are list elements;
    a macro that fails to expand gives [None]. *)
From Stdlib Require Import ZArith Lia.
From stdpp Require Import base tactics numbers strings option list.
From S2P Require Import Prelude CType KernelAbi HelperDefs.
#[local] Open Scope Z_scope.
#[local] Open Scope list_scope.

(** [#define ___bpf_nth(_, _1, ..., _c, N, ...) N]: its fourteenth argument. *)
Definition ___bpf_nth {A} (args : list A) : option A := args !! 13%nat.

(** What an argument of the counting macros may be: one of the caller's, or a number of
    the trailing countdown. *)
Inductive token (A : Type) := TArg (x : A) | TNum (n : nat) | TUnder.
Arguments TArg {A}.
Arguments TNum {A}.
Arguments TUnder {A}.

Definition countdown {A} : list (token A) :=
  TNum <$> [12; 11; 10; 9; 8; 7; 6; 5; 4; 3; 2; 1; 0]%nat.

(** [___bpf_narg(...)]: the number of its arguments, up to twelve. *)
Definition ___bpf_narg {A} (args : list A) : option (token A) :=
  ___bpf_nth (TUnder :: (TArg <$> args) ++ countdown).

(** [___bpf_fillN(arr, p, args...)]: [arr[p] = x; ___bpf_fill(N-1)(arr, p + 1, args)]. *)
Fixpoint ___bpf_fillN {A} (arr : list A) (p : nat) (args : list A) : list A :=
  match args with
  | [] => arr
  | x :: args => ___bpf_fillN (<[p := x]> arr) (S p) args
  end.

(** [___bpf_fill(arr, args...)]: dispatch on the argument count; thirteen or more
    arguments name no [___bpf_fillN] macro. *)
Definition ___bpf_fill {A} (arr : list A) (args : list A) : option (list A) :=
  match ___bpf_narg args with
  | Some (TNum n) => if bool_decide (n = length args) then Some (___bpf_fillN arr 0 args) else None
  | _ => None
  end.

(** The parameter array the print macros build: [unsigned long long ___param[narg]]
    filled with the arguments. *)
Definition print_params (args : list Z) : option (list Z) :=
  ___bpf_fill (replicate (length args) 0) args.

Inductive printk := __bpf_printk | __bpf_vprintk.

Definition ___bpf_pick_printk {A} (args : list A) : option (A + printk) :=
  let picks := replicate 9 __bpf_vprintk ++ replicate 4 __bpf_printk in
  (* the leading [_] is an argument like any other: any pick serves in its place *)
  ___bpf_nth (inr __bpf_printk :: (inl <$> args) ++ (inr <$> picks)).

Definition KERNEL_VERSION (a b c : Z) : Z :=
  Z.shiftl a 16 + Z.shiftl b 8 + (if c >? 255 then 255 else c).

(** [container_of(ptr, type, member)]. *)
Definition container_of (ptr : Z) (t : ctype) (path : list string) : option Z :=
  (fun o => ptr - o) <$> offsetof t path.

(** [bpf_tail_call_static]: the helper number it calls and the registers it loads. *)
Definition bpf_tail_call_static (ctx map slot : Z) : Z * list Z := (12, [ctx; map; slot]).

(** Map attributes: [__uint(name, val)] declares a pointer to [int[val]], so the value is an
    array length; [__type(name, val)] declares a pointer to the type. *)
Definition __uint (n : string) (val : Z) : string * ctype := (n, CArray (CInt 4 true) val).
Definition __type (n : string) (val : ctype) : string * ctype := (n, val).

(** The loader reads an attribute back from the declared type. *)
Definition attr_uint (n : string) (attrs : list (string * ctype)) : option Z :=
  match list_find (fun p => p.1 = n) attrs with
  | Some (_, (_, CArray _ v)) => Some v
  | _ => None
  end.
Definition attr_type (n : string) (attrs : list (string * ctype)) : option ctype :=
  snd <$> (snd <$> list_find (fun p => p.1 = n) attrs).

Definition struct_bpf_map_def : ctype := CStruct
  [ member "type" (CInt 4 false);
    member "key_size" (CInt 4 false);
    member "value_size" (CInt 4 false);
    member "max_entries" (CInt 4 false);
    member "map_flags" (CInt 4 false) ].

Definition enum_libbpf_pin_type : ctype := CEnum
  [ ("LIBBPF_PIN_NONE"%string, 0); ("LIBBPF_PIN_BY_NAME"%string, 1) ].

Definition enum_libbpf_tristate : ctype := CEnum
  [ ("TRI_NO"%string, 0); ("TRI_YES"%string, 1); ("TRI_MODULE"%string, 2) ].

(** ** The counting macro counts *)
Lemma nth_cons {A} (x : A) l : ___bpf_nth (x :: l) = l !! 12%nat.
Proof. done. Qed.

Lemma narg_counts {A} (args : list A) :
  (length args <= 12)%nat -> ___bpf_narg args = Some (TNum (length args)).
Proof.
  intros H. unfold ___bpf_narg. rewrite nth_cons.
  rewrite lookup_app_r by (rewrite length_fmap; lia). rewrite length_fmap.
  revert H. generalize (length args). intros n Hn.
  do 13 (destruct n as [|n]; [done|]). lia.
Qed.

(** Above twelve arguments the "count" is the caller's own thirteenth argument. *)
Lemma narg_overflow {A} (args : list A) x :
  args !! 12%nat = Some x -> ___bpf_narg args = Some (TArg x).
Proof.
  intros H. unfold ___bpf_narg. rewrite nth_cons.
  rewrite lookup_app_l, list_lookup_fmap, H; [done|].
  rewrite length_fmap. by eapply lookup_lt_Some.
Qed.

Lemma fillN_spec {A} (args arr : list A) p :
  (p + length args <= length arr)%nat ->
  ___bpf_fillN arr p args = take p arr ++ args ++ drop (p + length args) arr.
Proof.
  revert arr p. induction args as [|x args IH]; intros arr p Hlen; cbn [___bpf_fillN length].
  - simpl. by rewrite Nat.add_0_r, take_drop.
  - cbn [length] in Hlen. rewrite IH by (rewrite length_insert; lia).
    rewrite (take_S_r _ _ x) by (apply list_lookup_insert_eq; lia).
    rewrite take_insert_ge, drop_insert_lt by lia.
    replace (S p + length args)%nat with (p + S (length args))%nat by lia.
    by rewrite <- (assoc_L (++)).
Qed.

Lemma print_params_spec args : (length args <= 12)%nat -> print_params args = Some args.
Proof.
  intros H. unfold print_params, ___bpf_fill. rewrite narg_counts by done.
  rewrite bool_decide_true by done. f_equal.
  rewrite fillN_spec by (rewrite length_replicate; lia). simpl.
  rewrite drop_ge by (rewrite length_replicate; lia). by rewrite app_nil_r.
Qed.

Lemma pick_printk_spec {A} (args : list A) :
  (length args <= 12)%nat ->
  ___bpf_pick_printk args
  = Some (inr (if bool_decide (length args <= 3)%nat then __bpf_printk else __bpf_vprintk)).
Proof.
  intros H. unfold ___bpf_pick_printk. rewrite nth_cons.
  rewrite lookup_app_r by (rewrite length_fmap; lia). rewrite length_fmap.
  revert H. generalize (length args). intros n Hn.
  do 13 (destruct n as [|n]; [done|]). lia.
Qed.

(** Version numbers are ordered as their components, the last one saturated at 255. *)
Lemma KERNEL_VERSION_lt a b c a' b' c' :
  0 <= b <= 255 -> 0 <= b' <= 255 -> 0 <= c -> 0 <= c' ->
  KERNEL_VERSION a b c < KERNEL_VERSION a' b' c'
  <-> a < a' \/ (a = a' /\ (b < b' \/ (b = b' /\ Z.min c 255 < Z.min c' 255))).
Proof.
  intros. unfold KERNEL_VERSION. rewrite !Z.shiftl_mul_pow2 by lia.
  destruct (Z.gtb_spec c 255), (Z.gtb_spec c' 255); lia.
Qed.
