(* ===== verification/Tracing.v ===== *)
(** * Tracing macros: [headers/bpf_tracing.h]

    The choice of the target architecture, the register accessors [PT_REGS_*] of each
    target, and the wrappers that unpack a program's context: [BPF_PROG] (the LSM
    programs of the object), [BPF_KPROBE], [BPF_KRETPROBE]. *)
From Stdlib Require Import ZArith Lia.
From stdpp Require Import base tactics numbers strings option sets list.
From S2P Require Import Prelude CType Vmlinux.
#[local] Open Scope Z_scope.
#[local] Open Scope string_scope.
#[local] Open Scope list_scope.

(** ** Target selection *)
Inductive bpf_target := T_x86 | T_s390 | T_arm | T_arm64 | T_mips | T_powerpc | T_sparc | T_riscv.

#[export] Instance bpf_target_eq_dec : EqDecision bpf_target.
Proof. solve_decision. Defined.

Definition target_arch_macros : list (string * bpf_target) :=
  [ ("__TARGET_ARCH_x86", T_x86); ("__TARGET_ARCH_s390", T_s390); ("__TARGET_ARCH_arm", T_arm);
    ("__TARGET_ARCH_arm64", T_arm64); ("__TARGET_ARCH_mips", T_mips);
    ("__TARGET_ARCH_powerpc", T_powerpc); ("__TARGET_ARCH_sparc", T_sparc);
    ("__TARGET_ARCH_riscv", T_riscv) ].

Definition compiler_macros : list (string * bpf_target) :=
  [ ("__x86_64__", T_x86); ("__s390__", T_s390); ("__arm__", T_arm); ("__aarch64__", T_arm64);
    ("__mips__", T_mips); ("__powerpc__", T_powerpc); ("__sparc__", T_sparc) ].

(** The [#if]/[#elif] chain: the first macro of the list that is defined. *)
Fixpoint first_defined (defined : string -> bool) (l : list (string * bpf_target)) : option bpf_target :=
  match l with
  | [] => None
  | (m, t) :: l => if defined m then Some t else first_defined defined l
  end.

(** [bpf_target_xxx]: what [__TARGET_ARCH_xxx] says, else what the compiler says (RISC-V
    only at 64 bits). [None]: [bpf_target_defined] stays undefined. *)
Definition select_target (defined : string -> bool) (riscv_xlen : Z) : option bpf_target :=
  match first_defined defined target_arch_macros with
  | Some t => Some t
  | None =>
      match first_defined defined compiler_macros with
      | Some t => Some t
      | None => if defined "__riscv" && (riscv_xlen =? 64)%Z then Some T_riscv else None
      end
  end.

(** ** Register accessors

    What a [PT_REGS_*] macro expands to: a member of the context (after a cast), a CO-RE
    read of one, the constant 0, or the [_Pragma] error of an unknown target. *)
Inductive accessor :=
| AMember (cast m : string)
| ACoreRead (cast m : string)
| AZero
| AMissing.

#[export] Instance accessor_eq_dec : EqDecision accessor.
Proof. solve_decision. Defined.

(** [bpf_tracing.h:69]. *)
Definition pt_regs_x86_kernel : list (string * accessor) :=
  [ ("PARM1", AMember "" "di");
    ("PARM2", AMember "" "si");
    ("PARM3", AMember "" "dx");
    ("PARM4", AMember "" "cx");
    ("PARM5", AMember "" "r8");
    ("RET", AMember "" "sp");
    ("FP", AMember "" "bp");
    ("RC", AMember "" "ax");
    ("SP", AMember "" "sp");
    ("IP", AMember "" "ip");
    ("PARM1_CORE", ACoreRead "" "di");
    ("PARM2_CORE", ACoreRead "" "si");
    ("PARM3_CORE", ACoreRead "" "dx");
    ("PARM4_CORE", ACoreRead "" "cx");
    ("PARM5_CORE", ACoreRead "" "r8");
    ("RET_CORE", ACoreRead "" "sp");
    ("FP_CORE", ACoreRead "" "bp");
    ("RC_CORE", ACoreRead "" "ax");
    ("SP_CORE", ACoreRead "" "sp");
    ("IP_CORE", ACoreRead "" "ip") ].

(** [bpf_tracing.h:95]. *)
Definition pt_regs_x86_i386 : list (string * accessor) :=
  [ ("PARM1", AMember "" "eax");
    ("PARM2", AMember "" "edx");
    ("PARM3", AMember "" "ecx");
    ("PARM4", AZero);
    ("PARM5", AZero);
    ("RET", AMember "" "esp");
    ("FP", AMember "" "ebp");
    ("RC", AMember "" "eax");
    ("SP", AMember "" "esp");
    ("IP", AMember "" "eip");
    ("PARM1_CORE", ACoreRead "" "eax");
    ("PARM2_CORE", ACoreRead "" "edx");
    ("PARM3_CORE", ACoreRead "" "ecx");
    ("PARM4_CORE", AZero);
    ("PARM5_CORE", AZero);
    ("RET_CORE", ACoreRead "" "esp");
    ("FP_CORE", ACoreRead "" "ebp");
    ("RC_CORE", ACoreRead "" "eax");
    ("SP_CORE", ACoreRead "" "esp");
    ("IP_CORE", ACoreRead "" "eip") ].

(** [bpf_tracing.h:119]. *)
Definition pt_regs_x86_user : list (string * accessor) :=
  [ ("PARM1", AMember "" "rdi");
    ("PARM2", AMember "" "rsi");
    ("PARM3", AMember "" "rdx");
    ("PARM4", AMember "" "rcx");
    ("PARM5", AMember "" "r8");
    ("RET", AMember "" "rsp");
    ("FP", AMember "" "rbp");
    ("RC", AMember "" "rax");
    ("SP", AMember "" "rsp");
    ("IP", AMember "" "rip");
    ("PARM1_CORE", ACoreRead "" "rdi");
    ("PARM2_CORE", ACoreRead "" "rsi");
    ("PARM3_CORE", ACoreRead "" "rdx");
    ("PARM4_CORE", ACoreRead "" "rcx");
    ("PARM5_CORE", ACoreRead "" "r8");
    ("RET_CORE", ACoreRead "" "rsp");
    ("FP_CORE", ACoreRead "" "rbp");
    ("RC_CORE", ACoreRead "" "rax");
    ("SP_CORE", ACoreRead "" "rsp");
    ("IP_CORE", ACoreRead "" "rip") ].

(** [bpf_tracing.h:149]. *)
Definition pt_regs_s390 : list (string * accessor) :=
  [ ("PARM1", AMember "PT_REGS_S390" "gprs[2]");
    ("PARM2", AMember "PT_REGS_S390" "gprs[3]");
    ("PARM3", AMember "PT_REGS_S390" "gprs[4]");
    ("PARM4", AMember "PT_REGS_S390" "gprs[5]");
    ("PARM5", AMember "PT_REGS_S390" "gprs[6]");
    ("RET", AMember "PT_REGS_S390" "gprs[14]");
    ("FP", AMember "PT_REGS_S390" "gprs[11]");
    ("RC", AMember "PT_REGS_S390" "gprs[2]");
    ("SP", AMember "PT_REGS_S390" "gprs[15]");
    ("IP", AMember "PT_REGS_S390" "psw.addr");
    ("PARM1_CORE", ACoreRead "PT_REGS_S390" "gprs[2]");
    ("PARM2_CORE", ACoreRead "PT_REGS_S390" "gprs[3]");
    ("PARM3_CORE", ACoreRead "PT_REGS_S390" "gprs[4]");
    ("PARM4_CORE", ACoreRead "PT_REGS_S390" "gprs[5]");
    ("PARM5_CORE", ACoreRead "PT_REGS_S390" "gprs[6]");
    ("RET_CORE", ACoreRead "PT_REGS_S390" "gprs[14]");
    ("FP_CORE", ACoreRead "PT_REGS_S390" "gprs[11]");
    ("RC_CORE", ACoreRead "PT_REGS_S390" "gprs[2]");
    ("SP_CORE", ACoreRead "PT_REGS_S390" "gprs[15]");
    ("IP_CORE", ACoreRead "PT_REGS_S390" "psw.addr") ].

(** [bpf_tracing.h:174]. *)
Definition pt_regs_arm : list (string * accessor) :=
  [ ("PARM1", AMember "" "uregs[0]");
    ("PARM2", AMember "" "uregs[1]");
    ("PARM3", AMember "" "uregs[2]");
    ("PARM4", AMember "" "uregs[3]");
    ("PARM5", AMember "" "uregs[4]");
    ("RET", AMember "" "uregs[14]");
    ("FP", AMember "" "uregs[11]");
    ("RC", AMember "" "uregs[0]");
    ("SP", AMember "" "uregs[13]");
    ("IP", AMember "" "uregs[12]");
    ("PARM1_CORE", ACoreRead "" "uregs[0]");
    ("PARM2_CORE", ACoreRead "" "uregs[1]");
    ("PARM3_CORE", ACoreRead "" "uregs[2]");
    ("PARM4_CORE", ACoreRead "" "uregs[3]");
    ("PARM5_CORE", ACoreRead "" "uregs[4]");
    ("RET_CORE", ACoreRead "" "uregs[14]");
    ("FP_CORE", ACoreRead "" "uregs[11]");
    ("RC_CORE", ACoreRead "" "uregs[0]");
    ("SP_CORE", ACoreRead "" "uregs[13]");
    ("IP_CORE", ACoreRead "" "uregs[12]") ].

(** [bpf_tracing.h:201]. *)
Definition pt_regs_arm64 : list (string * accessor) :=
  [ ("PARM1", AMember "PT_REGS_ARM64" "regs[0]");
    ("PARM2", AMember "PT_REGS_ARM64" "regs[1]");
    ("PARM3", AMember "PT_REGS_ARM64" "regs[2]");
    ("PARM4", AMember "PT_REGS_ARM64" "regs[3]");
    ("PARM5", AMember "PT_REGS_ARM64" "regs[4]");
    ("RET", AMember "PT_REGS_ARM64" "regs[30]");
    ("FP", AMember "PT_REGS_ARM64" "regs[29]");
    ("RC", AMember "PT_REGS_ARM64" "regs[0]");
    ("SP", AMember "PT_REGS_ARM64" "sp");
    ("IP", AMember "PT_REGS_ARM64" "pc");
    ("PARM1_CORE", ACoreRead "PT_REGS_ARM64" "regs[0]");
    ("PARM2_CORE", ACoreRead "PT_REGS_ARM64" "regs[1]");
    ("PARM3_CORE", ACoreRead "PT_REGS_ARM64" "regs[2]");
    ("PARM4_CORE", ACoreRead "PT_REGS_ARM64" "regs[3]");
    ("PARM5_CORE", ACoreRead "PT_REGS_ARM64" "regs[4]");
    ("RET_CORE", ACoreRead "PT_REGS_ARM64" "regs[30]");
    ("FP_CORE", ACoreRead "PT_REGS_ARM64" "regs[29]");
    ("RC_CORE", ACoreRead "PT_REGS_ARM64" "regs[0]");
    ("SP_CORE", ACoreRead "PT_REGS_ARM64" "sp");
    ("IP_CORE", ACoreRead "PT_REGS_ARM64" "pc") ].

(** [bpf_tracing.h:226]. *)
Definition pt_regs_mips : list (string * accessor) :=
  [ ("PARM1", AMember "" "regs[4]");
    ("PARM2", AMember "" "regs[5]");
    ("PARM3", AMember "" "regs[6]");
    ("PARM4", AMember "" "regs[7]");
    ("PARM5", AMember "" "regs[8]");
    ("RET", AMember "" "regs[31]");
    ("FP", AMember "" "regs[30]");
    ("RC", AMember "" "regs[2]");
    ("SP", AMember "" "regs[29]");
    ("IP", AMember "" "cp0_epc");
    ("PARM1_CORE", ACoreRead "" "regs[4]");
    ("PARM2_CORE", ACoreRead "" "regs[5]");
    ("PARM3_CORE", ACoreRead "" "regs[6]");
    ("PARM4_CORE", ACoreRead "" "regs[7]");
    ("PARM5_CORE", ACoreRead "" "regs[8]");
    ("RET_CORE", ACoreRead "" "regs[31]");
    ("FP_CORE", ACoreRead "" "regs[30]");
    ("RC_CORE", ACoreRead "" "regs[2]");
    ("SP_CORE", ACoreRead "" "regs[29]");
    ("IP_CORE", ACoreRead "" "cp0_epc") ].

(** [bpf_tracing.h:250]. *)
Definition pt_regs_powerpc : list (string * accessor) :=
  [ ("PARM1", AMember "" "gpr[3]");
    ("PARM2", AMember "" "gpr[4]");
    ("PARM3", AMember "" "gpr[5]");
    ("PARM4", AMember "" "gpr[6]");
    ("PARM5", AMember "" "gpr[7]");
    ("RC", AMember "" "gpr[3]");
    ("SP", AMember "" "sp");
    ("IP", AMember "" "nip");
    ("PARM1_CORE", ACoreRead "" "gpr[3]");
    ("PARM2_CORE", ACoreRead "" "gpr[4]");
    ("PARM3_CORE", ACoreRead "" "gpr[5]");
    ("PARM4_CORE", ACoreRead "" "gpr[6]");
    ("PARM5_CORE", ACoreRead "" "gpr[7]");
    ("RC_CORE", ACoreRead "" "gpr[3]");
    ("SP_CORE", ACoreRead "" "sp");
    ("IP_CORE", ACoreRead "" "nip") ].

(** [bpf_tracing.h:270]. *)
Definition pt_regs_sparc : list (string * accessor) :=
  [ ("PARM1", AMember "" "u_regs[UREG_I0]");
    ("PARM2", AMember "" "u_regs[UREG_I1]");
    ("PARM3", AMember "" "u_regs[UREG_I2]");
    ("PARM4", AMember "" "u_regs[UREG_I3]");
    ("PARM5", AMember "" "u_regs[UREG_I4]");
    ("RET", AMember "" "u_regs[UREG_I7]");
    ("RC", AMember "" "u_regs[UREG_I0]");
    ("SP", AMember "" "u_regs[UREG_FP]");
    ("PARM1_CORE", ACoreRead "" "u_regs[UREG_I0]");
    ("PARM2_CORE", ACoreRead "" "u_regs[UREG_I1]");
    ("PARM3_CORE", ACoreRead "" "u_regs[UREG_I2]");
    ("PARM4_CORE", ACoreRead "" "u_regs[UREG_I3]");
    ("PARM5_CORE", ACoreRead "" "u_regs[UREG_I4]");
    ("RET_CORE", ACoreRead "" "u_regs[UREG_I7]");
    ("RC_CORE", ACoreRead "" "u_regs[UREG_I0]");
    ("SP_CORE", ACoreRead "" "u_regs[UREG_FP]") ].

(** [bpf_tracing.h:301]. *)
Definition pt_regs_riscv : list (string * accessor) :=
  [ ("PARM1", AMember "PT_REGS_RV" "a0");
    ("PARM2", AMember "PT_REGS_RV" "a1");
    ("PARM3", AMember "PT_REGS_RV" "a2");
    ("PARM4", AMember "PT_REGS_RV" "a3");
    ("PARM5", AMember "PT_REGS_RV" "a4");
    ("RET", AMember "PT_REGS_RV" "ra");
    ("FP", AMember "PT_REGS_RV" "s5");
    ("RC", AMember "PT_REGS_RV" "a5");
    ("SP", AMember "PT_REGS_RV" "sp");
    ("IP", AMember "PT_REGS_RV" "epc");
    ("PARM1_CORE", ACoreRead "PT_REGS_RV" "a0");
    ("PARM2_CORE", ACoreRead "PT_REGS_RV" "a1");
    ("PARM3_CORE", ACoreRead "PT_REGS_RV" "a2");
    ("PARM4_CORE", ACoreRead "PT_REGS_RV" "a3");
    ("PARM5_CORE", ACoreRead "PT_REGS_RV" "a4");
    ("RET_CORE", ACoreRead "PT_REGS_RV" "ra");
    ("FP_CORE", ACoreRead "PT_REGS_RV" "fp");
    ("RC_CORE", ACoreRead "PT_REGS_RV" "a5");
    ("SP_CORE", ACoreRead "PT_REGS_RV" "sp");
    ("IP_CORE", ACoreRead "PT_REGS_RV" "epc") ].

(** [bpf_tracing.h:341]. *)
Definition pt_regs_missing : list (string * accessor) :=
  [ ("PARM1", AMissing);
    ("PARM2", AMissing);
    ("PARM3", AMissing);
    ("PARM4", AMissing);
    ("PARM5", AMissing);
    ("RET", AMissing);
    ("FP", AMissing);
    ("RC", AMissing);
    ("SP", AMissing);
    ("IP", AMissing);
    ("PARM1_CORE", AMissing);
    ("PARM2_CORE", AMissing);
    ("PARM3_CORE", AMissing);
    ("PARM4_CORE", AMissing);
    ("PARM5_CORE", AMissing);
    ("RET_CORE", AMissing);
    ("FP_CORE", AMissing);
    ("RC_CORE", AMissing);
    ("SP_CORE", AMissing);
    ("IP_CORE", AMissing) ].

(** [PT_REGS_IP] of sparc depends on [__arch64__]. *)
Definition pt_regs_sparc_ip (arch64 : bool) : list (string * accessor) :=
  let f := if arch64 then "tpc" else "pc" in
  [ ("IP", AMember "" f); ("IP_CORE", ACoreRead "" f) ].

(** The compilation the macros are expanded in: the target and the macros the tables
    test, [__KERNEL__ || __VMLINUX_H__], [__i386__], [__arch64__]. *)
Record tracing_cfg := Cfg {
  cfg_target : option bpf_target;
  cfg_kernel_headers : bool;
  cfg_i386 : bool;
  cfg_arch64 : bool }.

Definition pt_regs_table (c : tracing_cfg) : list (string * accessor) :=
  match cfg_target c with
  | Some T_x86 =>
      if cfg_kernel_headers c then pt_regs_x86_kernel
      else if cfg_i386 c then pt_regs_x86_i386 else pt_regs_x86_user
  | Some T_s390 => pt_regs_s390
  | Some T_arm => pt_regs_arm
  | Some T_arm64 => pt_regs_arm64
  | Some T_mips => pt_regs_mips
  | Some T_powerpc => pt_regs_powerpc
  | Some T_sparc => pt_regs_sparc ++ pt_regs_sparc_ip (cfg_arch64 c)
  | Some T_riscv => pt_regs_riscv
  | None => pt_regs_missing
  end.

(** [PT_REGS_<n>(ctx)]; [None] when the target does not define it. *)
Definition PT_REGS (c : tracing_cfg) (n : string) : option accessor :=
  snd <$> (snd <$> list_find (fun p => p.1 = n) (pt_regs_table c)).

(** How the return address is read at function entry and exit. *)
Inductive ret_ip :=
| IpField (m : string)          (* a member of the context *)
| IpReg (a : option accessor)   (* a register accessor *)
| IpLoad (a : option accessor)  (* memory at the address an accessor gives *)
| IpLoadAbove (a : option accessor)  (* memory one word above it *)
| IpMissing.

Definition BPF_KPROBE_READ_RET_IP (c : tracing_cfg) : ret_ip :=
  match cfg_target c with
  | Some T_powerpc => IpField "link"
  | Some T_sparc => IpReg (PT_REGS c "RET")
  | Some _ => IpLoad (PT_REGS c "RET")
  | None => IpMissing
  end.

Definition BPF_KRETPROBE_READ_RET_IP (c : tracing_cfg) : ret_ip :=
  match cfg_target c with
  | Some T_powerpc | Some T_sparc => BPF_KPROBE_READ_RET_IP c
  | Some _ => IpLoadAbove (PT_REGS c "FP")
  | None => IpMissing
  end.

(** ** Context unpacking *)

(** [___bpf_ctx_castN(x, args...)] is [___bpf_ctx_cast(N-1)(args), (void * )ctx[N-1]]: the
    arguments handed to the program's body, after [ctx] itself. [N] is at most twelve. *)
Fixpoint ___bpf_ctx_cast (n : nat) (ctx : list Z) : list Z :=
  match n with
  | O => []
  | S n => ___bpf_ctx_cast n ctx ++ [nth n ctx 0]
  end.

(** [BPF_PROG(name, args...)]: the program entered with the raw context calls its body
    with one context word per declared argument. *)
Definition BPF_PROG {R} (nargs : nat) (body : list Z -> R) (ctx : list Z) : R :=
  body (___bpf_ctx_cast nargs ctx).

Definition parm_name (n : nat) : string :=
  match n with
  | 1%nat => "PARM1" | 2%nat => "PARM2" | 3%nat => "PARM3" | 4%nat => "PARM4" | _ => "PARM5"
  end.

(** [___bpf_kprobe_argsN]: [PT_REGS_PARM1 .. PT_REGS_PARMN]. *)
Fixpoint kprobe_args (c : tracing_cfg) (n : nat) : list (option accessor) :=
  match n with
  | O => []
  | S m => kprobe_args c m ++ [PT_REGS c (parm_name n)]
  end.

(** [___bpf_kprobe_args(args...)] and [___bpf_kretprobe_args(args...)]: there are macros
    for at most five arguments and for at most one; a larger count names none. *)
Definition ___bpf_kprobe_args (c : tracing_cfg) (n : nat) : option (list (option accessor)) :=
  if (n <=? 5)%nat then Some (kprobe_args c n) else None.

Definition ___bpf_kretprobe_args (c : tracing_cfg) (n : nat) : option (list (option accessor)) :=
  match n with O => Some [] | 1%nat => Some [PT_REGS c "RC"] | _ => None end.

(** [BPF_KPROBE] and [BPF_KRETPROBE] over a reader of registers. *)
Definition BPF_KPROBE {R} (c : tracing_cfg) (read : option accessor -> Z) (nargs : nat)
    (body : list Z -> R) : option R := (fun l => body (map read l)) <$> ___bpf_kprobe_args c nargs.
Definition BPF_KRETPROBE {R} (c : tracing_cfg) (read : option accessor -> Z) (nargs : nat)
    (body : list Z -> R) : option R := (fun l => body (map read l)) <$> ___bpf_kretprobe_args c nargs.

(** ** Facts *)
Lemma ctx_cast_take n ctx : (n <= length ctx)%nat -> ___bpf_ctx_cast n ctx = take n ctx.
Proof.
  induction n as [|n IH]; intros H; [done|]. cbn [___bpf_ctx_cast].
  destruct (lookup_lt_is_Some_2 ctx n) as [x Hx]; [lia|].
  rewrite IH, (take_S_r _ _ x) by (done || lia).
  by rewrite <- nth_lookup_Some with (d := 0) (1 := Hx).
Qed.

Lemma select_target_explicit defined xlen m t :
  (m, t) ∈ target_arch_macros -> defined m = true ->
  (forall m' t', (m', t') ∈ target_arch_macros -> m' <> m -> defined m' = false) ->
  select_target defined xlen = Some t.
Proof.
  intros Hin Hm Hother. unfold select_target.
  assert (first_defined defined target_arch_macros = Some t) as ->; [|done].
  assert (NoDup target_arch_macros.*1) as Hnd by by apply (bool_decide_unpack _).
  revert Hin Hother Hnd. generalize target_arch_macros. intros l.
  induction l as [|[m' t'] l IH]; intros Hin Hother Hnd; [by apply not_elem_of_nil in Hin|].
  simpl. rewrite fmap_cons, NoDup_cons in Hnd. destruct Hnd as [Hfresh Hnd].
  destruct (decide (m' = m)) as [->|Hne].
  - rewrite Hm. f_equal. apply elem_of_cons in Hin as [[= ->]|Hin]; [done|].
    destruct Hfresh. apply list_elem_of_fmap. by exists (m, t).
  - rewrite (Hother m' t') by (set_solver || done).
    apply IH; [set_solver|set_solver|done].
Qed.

(** The two names the plain and the CO-RE accessor of a register go by. *)
Definition register_names : list string :=
  ["PARM1"; "PARM2"; "PARM3"; "PARM4"; "PARM5"; "RET"; "FP"; "RC"; "SP"; "IP"].

(** An accessor without the way it reads. *)
Definition reads (a : accessor) : option (string * string) :=
  match a with AMember c m | ACoreRead c m => Some (c, m) | AZero | AMissing => None end.

Definition core_agrees (c : tracing_cfg) (n : string) : bool :=
  bool_decide ((reads <$> PT_REGS c n) = (reads <$> PT_REGS c (n +:+ "_CORE"))).

Definition all_cfgs : list tracing_cfg :=
  t ← [None; Some T_x86; Some T_s390; Some T_arm; Some T_arm64; Some T_mips; Some T_powerpc;
       Some T_sparc; Some T_riscv];
  k ← [true; false]; i ← [true; false]; a ← [true; false]; [Cfg t k i a].

Lemma all_cfgs_complete c : c ∈ all_cfgs.
Proof.
  destruct c as [t k i a]. apply list_elem_of_In.
  destruct t as [[]|], k, i, a; vm_compute; tauto.
Qed.
