(* ===== verification/Objects.v ===== *)
(** * Data of the BPF object: [provenance.bpf.c], declarations

    Constants, the structures the object shares with user space, and the declarations of
    its five maps as the loader reads them. *)
From Stdlib Require Import ZArith Lia.
From stdpp Require Import base tactics numbers strings option list gmap.
From S2P Require Import Prelude CType Vmlinux KernelAbi BpfHelpers.
#[local] Open Scope Z_scope.
#[local] Open Scope list_scope.

Definition LICENSE : string := "GPL".

Definition TASK_COMM_LEN : Z := 16.
Definition EPERM : Z := 1.

Definition AF_INET : Z := 2.
Definition AF_INET6 : Z := 10.

(** Hook ids. *)
Definition HOOK_BPF : Z := 0.
Definition HOOK_PTRACE : Z := 1.
Definition HOOK_CONNECT : Z := 3.
Definition HOOK_SETUID : Z := 4.
Definition HOOK_CAPSET : Z := 5.

(** Destination classes: one bit each. *)
Definition DST_LOOPBACK : Z := Z.shiftl 1 0.
Definition DST_LINKLOCAL : Z := Z.shiftl 1 1.
Definition DST_PRIVATE : Z := Z.shiftl 1 2.
Definition DST_PUBLIC : Z := Z.shiftl 1 3.
Definition DST_OTHER : Z := Z.shiftl 1 4.

(** ** Structures, as C types (for their layout) and as records (for their values) *)
Definition struct_event : ctype := CStruct
  [ member "cgroup_id" ty___u64;
    member "pid" ty___u32;
    member "comm" (CArray ty___u8 TASK_COMM_LEN);
    member "hook" ty___u32;
    member "decision" ty___u32;
    member "mode" ty___u32 ].

Record event := Event {
  ev_cgroup_id : Z;
  ev_pid : Z;
  ev_comm : list Z;
  ev_hook : Z;
  ev_decision : Z;   (* 0 = allowed, 1 = denied or would-deny *)
  ev_mode : Z }.     (* 0 = observe, 1 = enforce *)

Definition struct_grant_key : ctype := CStruct
  [ member "cgid" ty___u64; member "hook" ty___u32; member "_pad" ty___u32 ].

Record grant_key := GrantKey { gk_cgid : Z; gk_hook : Z; gk_pad : Z }.

Definition struct_grant_val : ctype := CStruct
  [ member "count" ty___u64; member "expire_ns" ty___u64 ].

Record grant_val := GrantVal { gv_count : Z; gv_expire_ns : Z }.

#[export] Instance event_eq_dec : EqDecision event.
Proof. solve_decision. Defined.
#[export] Instance grant_key_eq_dec : EqDecision grant_key.
Proof. solve_decision. Defined.
#[export] Instance grant_val_eq_dec : EqDecision grant_val.
Proof. solve_decision. Defined.
#[export] Instance grant_key_countable : Countable grant_key.
Proof.
  refine (inj_countable' (fun k => (gk_cgid k, gk_hook k, gk_pad k))
            (fun '(c, h, p) => GrantKey c h p) _).
  by intros [].
Defined.

(** ** Map declarations *)
Definition map_type (n : string) : Z :=
  default (-1) (snd <$> (snd <$> list_find (fun p => p.1 = n) enum_bpf_map_type)).

Definition events_map : list (string * ctype) :=
  [ __uint "type" (map_type "BPF_MAP_TYPE_RINGBUF"); __uint "max_entries" (Z.shiftl 1 24) ].

Definition enforce_flags_map : list (string * ctype) :=
  [ __uint "type" (map_type "BPF_MAP_TYPE_ARRAY"); __uint "max_entries" 8;
    __type "key" ty___u32; __type "value" ty___u32 ].

Definition tcb_cgroups_map : list (string * ctype) :=
  [ __uint "type" (map_type "BPF_MAP_TYPE_HASH"); __uint "max_entries" 64;
    __type "key" ty___u64; __type "value" ty___u32 ].

Definition egress_policy_map : list (string * ctype) :=
  [ __uint "type" (map_type "BPF_MAP_TYPE_HASH"); __uint "max_entries" 1024;
    __type "key" ty___u64; __type "value" ty___u32 ].

Definition grant_once_map : list (string * ctype) :=
  [ __uint "type" (map_type "BPF_MAP_TYPE_HASH"); __uint "max_entries" 256;
    __type "key" struct_grant_key; __type "value" struct_grant_val ].

(** The capacity a declaration gives its map. *)
Definition max_entries (m : list (string * ctype)) : Z := default 0 (attr_uint "max_entries" m).

Example capacities :
  map max_entries [events_map; enforce_flags_map; tcb_cgroups_map; egress_policy_map; grant_once_map]
  = [16777216; 8; 64; 1024; 256].
Proof. vm_compute. reflexivity. Qed.

(** A structure has no padding: its members' widths add up to its size. *)
Definition no_padding (t : ctype) : bool :=
  match t with
  | CStruct fs => foldr Z.add 0 (map width (map (slot_of layout) fs)) =? 8 * sizeof t
  | _ => true
  end.
