(* ===== verification/Maps.v ===== *)
(** * BPF maps

    What a map promises to its users, as a record of operations with their laws, and the
    two kinds the object declares: a hash of bounded capacity and an array whose elements
    all exist. The operations and their flags follow the documentation of
    [bpf_map_lookup_elem], [bpf_map_update_elem] and [bpf_map_delete_elem] in
    [headers/bpf_helper_defs.h]; the programs and the user-space components are written
    against the record. *)
From Stdlib Require Import ZArith Lia.
From stdpp Require Import base tactics numbers option list gmap.
From S2P Require Import Prelude Objects.
#[local] Open Scope Z_scope.

Inductive errno := ENOENT | EEXIST | E2BIG | EINVAL.

Inductive result (E A : Type) := Ok (a : A) | Err (e : E).
Arguments Ok {E A}.
Arguments Err {E A}.

#[export] Instance errno_eq_dec : EqDecision errno.
Proof. solve_decision. Defined.

Inductive update_flag := BPF_ANY | BPF_NOEXIST | BPF_EXIST.

(** The operations on a map of type [M] from [K] to [V], and what they satisfy. *)
Record map_ops (K V M : Type) := MapOps {
  m_lookup : M -> K -> option V;
  m_update : update_flag -> K -> V -> M -> result errno M;
  m_delete : K -> M -> result errno M }.
Arguments MapOps {K V M}.
Arguments m_lookup {K V M}.
Arguments m_update {K V M}.
Arguments m_delete {K V M}.

Class MapLaws {K V M} (ops : map_ops K V M) : Prop := {
  update_same f k v m m' : m_update ops f k v m = Ok m' -> m_lookup ops m' k = Some v;
  update_other f k k' v m m' :
    m_update ops f k v m = Ok m' -> k <> k' -> m_lookup ops m' k' = m_lookup ops m k';
  (* BPF_EXIST writes an existing key and nothing else *)
  update_exist k v m :
    is_Some (m_lookup ops m k) <-> exists m', m_update ops BPF_EXIST k v m = Ok m';
  (* BPF_NOEXIST never overwrites *)
  update_noexist k v m m' :
    m_update ops BPF_NOEXIST k v m = Ok m' -> m_lookup ops m k = None;
  delete_same k m m' : m_delete ops k m = Ok m' -> m_lookup ops m' k = None;
  delete_other k k' m m' :
    m_delete ops k m = Ok m' -> k <> k' -> m_lookup ops m' k' = m_lookup ops m k';
  delete_missing k m : m_lookup ops m k = None -> exists e, m_delete ops k m = Err e }.

(** ** [BPF_MAP_TYPE_HASH] *)
Section hash.
  Context {K V : Type} `{Countable K} (cap : Z).

Definition hash_update (f : update_flag) (k : K) (v : V) (m : gmap K V) : result errno (gmap K V) :=
  match m !! k, f with
  | Some _, BPF_NOEXIST => Err EEXIST
  | Some _, _ => Ok (<[k := v]> m)
  | None, BPF_EXIST => Err ENOENT
  | None, _ => if Z.of_nat (size m) <? cap then Ok (<[k := v]> m) else Err E2BIG
  end.

Definition hash_delete (k : K) (m : gmap K V) : result errno (gmap K V) :=
  match m !! k with Some _ => Ok (delete k m) | None => Err ENOENT end.

Definition hash_ops : map_ops K V (gmap K V) :=
  MapOps (fun m k => m !! k) hash_update hash_delete.

Lemma hash_update_inv f k v m m' : hash_update f k v m = Ok m' -> m' = <[k := v]> m.
Proof. unfold hash_update. repeat case_match; naive_solver. Qed.

#[export] Instance hash_laws : MapLaws hash_ops.
Proof.
  split; cbn [m_lookup m_update m_delete hash_ops].
  - intros f k v m m' ->%hash_update_inv. apply lookup_insert_eq.
  - intros f k k' v m m' ->%hash_update_inv ?. by apply lookup_insert_ne.
  - intros k v m. unfold hash_update. destruct (m !! k); split; [eauto|eauto|intros [? ?]; done|].
    intros [? ?]; done.
  - intros k v m m'. unfold hash_update. by destruct (m !! k).
  - intros k m m'. unfold hash_delete. destruct (m !! k); [|done]. intros [= <-].
    apply lookup_delete_eq.
  - intros k k' m m'. unfold hash_delete. destruct (m !! k); [|done]. intros [= <-] ?.
    by apply lookup_delete_ne.
  - intros k m Hk. unfold hash_delete. rewrite Hk. eauto.
Qed.

(** The capacity is an invariant of every update. *)
Lemma hash_update_size f k v m m' :
  hash_update f k v m = Ok m' -> Z.of_nat (size m) <= cap -> Z.of_nat (size m') <= cap.
Proof.
  intros Hu. pose proof (hash_update_inv _ _ _ _ _ Hu) as ->. revert Hu. unfold hash_update.
  destruct (m !! k) eqn:Hk.
  - rewrite map_size_insert_Some by eauto. done.
  - rewrite map_size_insert_None by done.
    destruct f; [destruct (Z.ltb_spec (Z.of_nat (size m)) cap); [lia|done]..|done].
Qed.
End hash.

(** ** [BPF_MAP_TYPE_ARRAY]: keys [0 .. n-1], every element always present *)
Section array.
  Context {V : Type}.

Definition array_index (l : list V) (k : Z) : option nat :=
  if (0 <=? k) && (k <? Z.of_nat (length l)) then Some (Z.to_nat k) else None.

Definition array_lookup (l : list V) (k : Z) : option V := i ← array_index l k; l !! i.

Definition array_update (f : update_flag) (k : Z) (v : V) (l : list V) : result errno (list V) :=
  match array_index l k, f with
  | Some _, BPF_NOEXIST => Err EEXIST
  | Some i, _ => Ok (<[i := v]> l)
  | None, _ => Err E2BIG
  end.

Definition array_delete (k : Z) (l : list V) : result errno (list V) := Err EINVAL.

Definition array_ops : map_ops Z V (list V) := MapOps array_lookup array_update array_delete.

Lemma array_index_Some l k i : array_index l k = Some i -> k = Z.of_nat i /\ (i < length l)%nat.
Proof.
  unfold array_index. destruct (0 <=? k) eqn:?, (k <? _) eqn:?; simpl; intros; simplify_eq; lia.
Qed.

Lemma array_index_length l l' k : length l = length l' -> array_index l k = array_index l' k.
Proof. unfold array_index. by intros ->. Qed.

Lemma array_lookup_Some l k : is_Some (array_lookup l k) <-> is_Some (array_index l k).
Proof.
  unfold array_lookup. destruct (array_index l k) as [i|] eqn:E; simpl; [|done].
  apply array_index_Some in E as [_ ?]. split; [eauto|]. intros _. by apply lookup_lt_is_Some_2.
Qed.

Lemma array_update_inv f k v l l' :
  array_update f k v l = Ok l' ->
  exists i, array_index l k = Some i /\ array_index l' k = Some i /\ l' = <[i := v]> l.
Proof.
  unfold array_update. intros Hu. destruct (array_index l k) as [i|] eqn:E; [|by destruct f].
  exists i. assert (l' = <[i := v]> l) as -> by (destruct f; naive_solver).
  split_and!; [done| |done]. by rewrite (array_index_length _ l) by apply length_insert.
Qed.

#[export] Instance array_laws : MapLaws array_ops.
Proof.
  split; cbn [m_lookup m_update m_delete array_ops].
  - intros f k v l l' (i & Hi & Hi' & ->)%array_update_inv. unfold array_lookup. rewrite Hi'. simpl.
    apply array_index_Some in Hi as [_ ?]. by apply list_lookup_insert_eq.
  - intros f k k' v l l' (i & Hi & _ & ->)%array_update_inv Hne. unfold array_lookup.
    rewrite (array_index_length _ l) by apply length_insert.
    destruct (array_index l k') as [j|] eqn:Hj; [|done]. simpl.
    apply array_index_Some in Hi as [-> _], Hj as [-> _]. apply list_lookup_insert_ne. lia.
  - intros k v l. rewrite array_lookup_Some. unfold array_update.
    destruct (array_index l k); split; [eauto|eauto|by intros []|by intros [? ?]].
  - intros k v l l' Hu. unfold array_update, array_lookup in *. by destruct (array_index l k).
  - done.
  - done.
  - unfold array_delete. eauto.
Qed.
End array.
