(* ===== verification/Kernel.v ===== *)
(** * The state the programs run on and the helpers they call

    [kstate] is what the object's maps hold; [env] is what one invocation sees of the
    kernel: the current task, the clock, kernel memory, and the outcomes the kernel
    chooses (whether a ring-buffer reservation succeeds, what a faulting read leaves in
    its destination). A program is a computation in the state monad [prog]. *)
From Stdlib Require Import ZArith Lia.
From stdpp Require Import base tactics numbers strings option list gmap.
From S2P Require Import Prelude Endian CType Objects Maps.
#[local] Open Scope Z_scope.

Record env := Env {
  cur_cgroup : Z;                     (* cgroup id of the current task *)
  cur_pid_tgid : Z;                   (* tgid << 32 | pid *)
  cur_comm : list Z;                  (* its name, sixteen bytes *)
  cur_ktime : Z;                      (* CLOCK_MONOTONIC, ns *)
  kmem : gmap Z Z;                    (* readable kernel memory: address to byte *)
  fault_fill : list Z -> list Z;      (* destination bytes after a faulting read *)
  reserve_ok : list event -> bool }.  (* room in the ring buffer holding these records *)

Record kstate := KState {
  enforce_flags : list Z;             (* array of eight __u32 *)
  tcb_cgroups : gmap Z Z;
  egress_policy : gmap Z Z;
  grant_once : gmap grant_key grant_val;
  events : list event }.              (* submitted records, oldest first *)

Definition set_grants (g : gmap grant_key grant_val) (s : kstate) : kstate :=
  KState (enforce_flags s) (tcb_cgroups s) (egress_policy s) g (events s).
Definition set_events (es : list event) (s : kstate) : kstate :=
  KState (enforce_flags s) (tcb_cgroups s) (egress_policy s) (grant_once s) es.

(** The operations of each map, with the capacity its declaration gives. *)
Definition flags_ops : map_ops Z Z (list Z) := array_ops.
Definition tcb_ops : map_ops Z Z (gmap Z Z) := hash_ops (max_entries tcb_cgroups_map).
Definition egress_ops : map_ops Z Z (gmap Z Z) := hash_ops (max_entries egress_policy_map).
Definition grant_ops : map_ops grant_key grant_val (gmap grant_key grant_val) :=
  hash_ops (max_entries grant_once_map).

(** ** The monad of programs *)
Definition prog (A : Type) : Type := env -> kstate -> A * kstate.

#[export] Instance prog_ret : MRet prog := fun A x e s => (x, s).
#[export] Instance prog_bind : MBind prog :=
  fun A B f m e s => let '(x, s') := m e s in f x e s'.

Definition asks {A} (f : env -> A) : prog A := fun e s => (f e, s).
Definition gets {A} (f : kstate -> A) : prog A := fun e s => (f s, s).
Definition modify (f : kstate -> kstate) : prog unit := fun e s => (tt, f s).

(** ** Helpers *)
Definition bpf_get_current_cgroup_id : prog Z := asks cur_cgroup.
Definition bpf_get_current_pid_tgid : prog Z := asks cur_pid_tgid.
Definition bpf_get_current_comm : prog (list Z) := asks cur_comm.
Definition bpf_ktime_get_ns : prog Z := asks cur_ktime.

(** [bpf_probe_read_kernel(dst, size, ptr)] with [size] the length of [dst]: the bytes at
    [ptr] if all are readable, else what the kernel leaves in [dst]. *)
Fixpoint read_bytes (m : gmap Z Z) (a : Z) (n : nat) : option (list Z) :=
  match n with
  | O => Some []
  | S n => b ← m !! a; bs ← read_bytes m (u64 (a + 1)) n; Some (b :: bs)
  end.

Definition bpf_probe_read_kernel (e : env) (dst : list Z) (ptr : Z) : list Z :=
  default (fault_fill e dst) (read_bytes (kmem e) ptr (length dst)).

(** A scalar destination of [n] bytes initialised to [x], on the little-endian target. *)
Definition probe_read_scalar (e : env) (n : nat) (x ptr : Z) : Z :=
  le_combine (bpf_probe_read_kernel e (le_split n x) ptr).

(** [bs] is readable at [a]. *)
Definition holds (m : gmap Z Z) (a : Z) (bs : list Z) : Prop :=
  in_width 64 a /\ read_bytes m a (length bs) = Some bs.

Lemma length_read_bytes m a n bs : read_bytes m a n = Some bs -> length bs = n.
Proof.
  revert a bs; induction n as [|n IH]; intros a bs; cbn [read_bytes]; [by intros [= <-]|].
  destruct (m !! a); [|done]. simpl. destruct (read_bytes m (u64 (a + 1)) n) eqn:E; [|done].
  intros [= <-]. simpl. f_equal. eauto.
Qed.

Lemma read_bytes_app m a n1 n2 :
  in_width 64 a ->
  read_bytes m a (n1 + n2) =
    l1 ← read_bytes m a n1; l2 ← read_bytes m (u64 (a + Z.of_nat n1)) n2; Some (l1 ++ l2).
Proof.
  revert a; induction n1 as [|n1 IH]; intros a Ha; cbn [read_bytes Nat.add].
  - change (Z.of_nat 0) with 0. rewrite Z.add_0_r. unfold u64. rewrite wrap_id by done. simpl.
    by destruct (read_bytes m a n2).
  - destruct (m !! a); [|done]. simpl. rewrite IH by (apply wrap_in_width; lia).
    replace (u64 (u64 (a + 1) + Z.of_nat n1)) with (u64 (a + Z.of_nat (S n1)))
      by (unfold u64, wrap; rewrite Z.add_mod_idemp_l by lia; f_equal; lia).
    destruct (read_bytes m (u64 (a + 1)) n1); [|done]. simpl.
    by destruct (read_bytes m (u64 (a + Z.of_nat (S n1))) n2).
Qed.

(** A read inside a readable object gives its bytes. *)
Lemma probe_read_sub e a bs (off : nat) dst :
  holds (kmem e) a bs -> (off + length dst <= length bs)%nat ->
  bpf_probe_read_kernel e dst (u64 (a + Z.of_nat off)) = take (length dst) (drop off bs).
Proof.
  intros [Ha Hr] Hlen. unfold bpf_probe_read_kernel.
  replace (length bs) with (off + (length dst + (length bs - off - length dst)))%nat in Hr by lia.
  rewrite read_bytes_app in Hr by done.
  destruct (read_bytes _ a off) as [l1|] eqn:E1; [|done]. cbn [mbind option_bind] in Hr.
  rewrite read_bytes_app in Hr by (apply wrap_in_width; lia).
  destruct (read_bytes _ _ (length dst)) as [l2|] eqn:E2; [|done]. cbn [mbind option_bind] in Hr.
  destruct (read_bytes _ _ (length bs - _ - _)) as [l3|] eqn:E3; [|done]. simpl in Hr.
  simplify_eq. apply length_read_bytes in E1, E2. rewrite <- E2. subst off.
  by rewrite drop_app_length, take_app_length.
Qed.

Lemma probe_scalar_sub e a bs (off n : nat) x :
  holds (kmem e) a bs -> (off + n <= length bs)%nat ->
  probe_read_scalar e n x (u64 (a + Z.of_nat off)) = le_combine (take n (drop off bs)).
Proof.
  intros H Hn. unfold probe_read_scalar.
  rewrite (probe_read_sub _ _ bs) by (rewrite ?length_le_split; done). by rewrite length_le_split.
Qed.

(** [&ptr->path] for a pointer to [t]. *)
Definition field_addr (ptr : Z) (t : ctype) (path : list string) : Z :=
  u64 (ptr + default 0 (offsetof t path)).

Definition enforce_flags_lookup (k : Z) : prog (option Z) :=
  gets (fun s => m_lookup flags_ops (enforce_flags s) k).
Definition tcb_cgroups_lookup (k : Z) : prog (option Z) :=
  gets (fun s => m_lookup tcb_ops (tcb_cgroups s) k).
Definition egress_policy_lookup (k : Z) : prog (option Z) :=
  gets (fun s => m_lookup egress_ops (egress_policy s) k).
Definition grant_once_lookup (k : grant_key) : prog (option grant_val) :=
  gets (fun s => m_lookup grant_ops (grant_once s) k).

(** [bpf_map_delete_elem(&grant_once, &k)], its error ignored as the caller ignores it. *)
Definition grant_once_delete (k : grant_key) : prog unit :=
  modify (fun s => match m_delete grant_ops k (grant_once s) with
                   | Ok g => set_grants g s
                   | Err _ => s
                   end).

(** [__sync_val_compare_and_swap(&v->count, old, new)] on the value [v] of key [k]: the
    prior count. (The pointer [v] designates the entry just looked up.) *)
Definition grant_count_cas (k : grant_key) (old new : Z) : prog Z := fun e s =>
  match grant_once s !! k with
  | Some v =>
      if gv_count v =? old
      then (gv_count v, set_grants (<[k := GrantVal new (gv_expire_ns v)]> (grant_once s)) s)
      else (gv_count v, s)
  | None => (0, s)
  end.

(** [bpf_ringbuf_reserve] then, when it gives a record, [bpf_ringbuf_submit] of it. *)
Definition ringbuf_emit (mk : prog event) : prog unit := fun e s =>
  if reserve_ok e (events s)
  then let '(ev, s') := mk e s in (tt, set_events (events s' ++ [ev]) s')
  else (tt, s).

(** ** Frame reasoning

    [keeps f m]: the computation [m] leaves the projection [f] of the state unchanged.
    The rules are hints, so that a program's frame is found by search. *)
Definition keeps {A B} (f : kstate -> B) (m : prog A) : Prop := forall e s, f (m e s).2 = f s.

Lemma keeps_ret {A B} (f : kstate -> B) (x : A) : keeps f (mret x).
Proof. done. Qed.
Lemma keeps_asks {A B} (f : kstate -> B) (g : env -> A) : keeps f (asks g).
Proof. done. Qed.
Lemma keeps_gets {A B} (f : kstate -> B) (g : kstate -> A) : keeps f (gets g).
Proof. done. Qed.
Lemma keeps_bind {A B C} (f : kstate -> C) (m : prog A) (k : A -> prog B) :
  keeps f m -> (forall x, keeps f (k x)) -> keeps f (m ≫= k).
Proof.
  intros Hm Hk e s. specialize (Hm e s). unfold mbind, prog_bind.
  destruct (m e s) as [x s']; simpl in *. rewrite <- Hm. apply Hk.
Qed.
Lemma keeps_if {A B} (f : kstate -> B) (b : bool) (m1 m2 : prog A) :
  keeps f m1 -> keeps f m2 -> keeps f (if b then m1 else m2).
Proof. by destruct b. Qed.
Lemma keeps_option {A B C} (f : kstate -> C) (o : option A) (m1 : A -> prog B) (m2 : prog B) :
  (forall x, keeps f (m1 x)) -> keeps f m2 ->
  keeps f (match o with Some x => m1 x | None => m2 end).
Proof. destruct o; auto. Qed.

Lemma keeps_emit {B} (f : kstate -> B) (mk : prog event) :
  (forall es s, f (set_events es s) = f s) -> keeps f mk -> keeps f (ringbuf_emit mk).
Proof.
  intros Hf Hmk e s. unfold ringbuf_emit. destruct (reserve_ok e (events s)); [|done].
  specialize (Hmk e s). destruct (mk e s) as [ev s']; simpl in *. by rewrite Hf.
Qed.
Lemma keeps_delete {B} (f : kstate -> B) k :
  (forall g s, f (set_grants g s) = f s) -> keeps f (grant_once_delete k).
Proof.
  intros Hf e s. unfold grant_once_delete, modify. cbn [snd].
  destruct (m_delete grant_ops k (grant_once s)); [apply Hf|done].
Qed.
Lemma keeps_cas {B} (f : kstate -> B) k x y :
  (forall g s, f (set_grants g s) = f s) -> keeps f (grant_count_cas k x y).
Proof.
  intros Hf e s. unfold grant_count_cas. destruct (grant_once s !! k) as [v|]; [|done].
  destruct (gv_count v =? x); [apply Hf|done].
Qed.

#[export] Hint Resolve keeps_ret keeps_asks keeps_gets keeps_bind keeps_if keeps_option
  keeps_emit keeps_delete keeps_cas : frame.
#[export] Hint Extern 0 (keeps _ bpf_get_current_cgroup_id) => apply keeps_asks : frame.
#[export] Hint Extern 0 (keeps _ bpf_get_current_pid_tgid) => apply keeps_asks : frame.
#[export] Hint Extern 0 (keeps _ bpf_get_current_comm) => apply keeps_asks : frame.
#[export] Hint Extern 0 (keeps _ bpf_ktime_get_ns) => apply keeps_asks : frame.
#[export] Hint Extern 0 (keeps _ (enforce_flags_lookup _)) => apply keeps_gets : frame.
#[export] Hint Extern 0 (keeps _ (tcb_cgroups_lookup _)) => apply keeps_gets : frame.
#[export] Hint Extern 0 (keeps _ (egress_policy_lookup _)) => apply keeps_gets : frame.
#[export] Hint Extern 0 (keeps _ (grant_once_lookup _)) => apply keeps_gets : frame.
