(* ===== verification/Classify.v ===== *)
(** * Destination classes: [classify_v4], [classify_dest] of [provenance.bpf.c] *)
From Stdlib Require Import ZArith Lia.
From stdpp Require Import base tactics numbers strings option list gmap.
From S2P Require Import Prelude Endian CType Vmlinux Objects Maps Kernel.
#[local] Open Scope Z_scope.

(** ** The code *)

Definition classify_v4 (a : Z) : Z :=
  let o1 := u8 (Z.shiftr a 24) in
  let o2 := u8 (Z.land (Z.shiftr a 16) 0xff) in
  if a =? 0 then DST_LOOPBACK
  else if o1 =? 127 then DST_LOOPBACK
  else if (o1 =? 169) && (o2 =? 254) then DST_LINKLOCAL
  else if o1 =? 10 then DST_PRIVATE
  else if (o1 =? 172) && (Z.land o2 0xf0 =? 16) then DST_PRIVATE
  else if (o1 =? 192) && (o2 =? 168) then DST_PRIVATE
  else if (o1 =? 100) && (Z.land o2 0xc0 =? 64) then DST_PRIVATE
  else DST_PUBLIC.

(** The object is built for the little-endian target. *)
Definition target_order : byte_order := LittleEndian.
Definition ntohl (x : Z) : Z := bpf_ntohl target_order false x.
Definition htonl_const (x : Z) : Z := bpf_htonl target_order true x.

(** The [__u32 w[4]] a 16-byte read fills. *)
Definition words4 (bs : list Z) : Z * Z * Z * Z :=
  (le_combine (take 4 bs), le_combine (take 4 (drop 4 bs)),
   le_combine (take 4 (drop 8 bs)), le_combine (take 4 (drop 12 bs))).

Definition classify_dest (e : env) (address addrlen : Z) : Z :=
  if (address =? 0) || (addrlen <? sizeof ty___u16) then DST_OTHER
  else
    let fam := probe_read_scalar e 2 0 (field_addr address struct_sockaddr ["sa_family"%string]) in
    if fam =? AF_INET then
      if addrlen <? sizeof struct_sockaddr_in then DST_OTHER
      else
        let raw := probe_read_scalar e 4 0
          (field_addr address struct_sockaddr_in ["sin_addr"; "s_addr"]%string) in
        classify_v4 (ntohl raw)
    else if fam =? AF_INET6 then
      if addrlen <? 24 then DST_OTHER
      else
        let '(w0, w1, w2, w3) := words4 (bpf_probe_read_kernel e (replicate 16 0)
          (field_addr address struct_sockaddr_in6 ["sin6_addr"; "in6_u"; "u6_addr32"]%string)) in
        if (w0 =? 0) && (w1 =? 0) && (w2 =? 0) && (w3 =? 0) then DST_LOOPBACK
        else if (w0 =? 0) && (w1 =? 0) && (w2 =? 0) && (w3 =? htonl_const 1) then DST_LOOPBACK
        else if (w0 =? 0) && (w1 =? 0) && (w2 =? htonl_const 0x0000ffff) then classify_v4 (ntohl w3)
        else
          let b0 := u8 (Z.shiftr (ntohl w0) 24) in
          let b1 := u8 (Z.land (Z.shiftr (ntohl w0) 16) 0xff) in
          if (b0 =? 0xfe) && (Z.land b1 0xc0 =? 0x80) then DST_LINKLOCAL
          else if Z.land b0 0xfe =? 0xfc then DST_PRIVATE
          else DST_PUBLIC
    else DST_OTHER.

(** ** The specification: address prefixes

    A prefix of an address space of [bits] bits, the class of its addresses, and the class
    of the first prefix that contains an address. *)
Record prefix := Prefix { pf_base : Z; pf_len : Z; pf_class : Z }.

Definition in_prefix (bits a : Z) (p : prefix) : bool :=
  a / 2 ^ (bits - pf_len p) =? pf_base p / 2 ^ (bits - pf_len p).

Fixpoint first_class (bits a : Z) (ps : list prefix) (d : Z) : Z :=
  match ps with
  | [] => d
  | p :: ps => if in_prefix bits a p then pf_class p else first_class bits a ps d
  end.

Definition quad (a b c d : Z) : Z := a * 2 ^ 24 + b * 2 ^ 16 + c * 2 ^ 8 + d.

(** 0.0.0.0, 127/8, 169.254/16, 10/8, 172.16/12, 192.168/16, 100.64/10. *)
Definition prefixes_v4 : list prefix :=
  [ Prefix (quad 0 0 0 0) 32 DST_LOOPBACK;
    Prefix (quad 127 0 0 0) 8 DST_LOOPBACK;
    Prefix (quad 169 254 0 0) 16 DST_LINKLOCAL;
    Prefix (quad 10 0 0 0) 8 DST_PRIVATE;
    Prefix (quad 172 16 0 0) 12 DST_PRIVATE;
    Prefix (quad 192 168 0 0) 16 DST_PRIVATE;
    Prefix (quad 100 64 0 0) 10 DST_PRIVATE ].

Definition class_v4 (a : Z) : Z := first_class 32 a prefixes_v4 DST_PUBLIC.

(** ::, ::1, then fe80::/10 and fc00::/7; ::ffff:0:0/96 is classified by the embedded
    IPv4 address. *)
Definition prefixes_v6 : list prefix :=
  [ Prefix 0 128 DST_LOOPBACK;
    Prefix 1 128 DST_LOOPBACK;
    Prefix (0xfe80 * 2 ^ 112) 10 DST_LINKLOCAL;
    Prefix (0xfc00 * 2 ^ 112) 7 DST_PRIVATE ].

Definition v4_mapped : prefix := Prefix (0xffff * 2 ^ 32) 96 DST_PUBLIC.

Definition class_v6 (a : Z) : Z :=
  if in_prefix 128 a v4_mapped then class_v4 (a mod 2 ^ 32)
  else first_class 128 a prefixes_v6 DST_PUBLIC.

(** The class of a socket address given as its bytes. *)
Definition class_of_sockaddr (bs : list Z) : Z :=
  if (length bs <? 2)%nat then DST_OTHER
  else
    let fam := le_combine (take 2 bs) in
    if fam =? AF_INET then
      if (length bs <? 16)%nat then DST_OTHER else class_v4 (be_combine (take 4 (drop 4 bs)))
    else if fam =? AF_INET6 then
      if (length bs <? 24)%nat then DST_OTHER else class_v6 (be_combine (take 16 (drop 8 bs)))
    else DST_OTHER.

(** ** IPv4 *)
Lemma land_f0 b : is_byte b -> (Z.land b 0xf0 =? 16) = (b / 16 =? 1).
Proof.
  intros Hb. apply (byte_forall (fun b => Bool.eqb (Z.land b 0xf0 =? 16) (b / 16 =? 1))) in Hb;
    [by apply Bool.eqb_prop|vm_compute; reflexivity].
Qed.

Lemma land_c0 b v : v = 64 \/ v = 128 -> is_byte b -> (Z.land b 0xc0 =? v) = (b / 64 =? v / 64).
Proof.
  intros Hv Hb.
  apply (byte_forall (fun b => Bool.eqb (Z.land b 0xc0 =? v) (b / 64 =? v / 64))) in Hb;
    [by apply Bool.eqb_prop|destruct Hv as [-> | ->]; vm_compute; reflexivity].
Qed.

Lemma land_fe b : is_byte b -> (Z.land b 0xfe =? 0xfc) = (b / 2 =? 0x7e).
Proof.
  intros Hb. apply (byte_forall (fun b => Bool.eqb (Z.land b 0xfe =? 0xfc) (b / 2 =? 0x7e))) in Hb;
    [by apply Bool.eqb_prop|vm_compute; reflexivity].
Qed.

(** The two leading octets of a 32-bit address, as the code extracts them. *)
Lemma octets a :
  0 <= a < 2 ^ 32 ->
  u8 (Z.shiftr a 24) = a / 2 ^ 24 /\ u8 (Z.land (Z.shiftr a 16) 0xff) = a / 2 ^ 16 mod 256
  /\ is_byte (a / 2 ^ 24) /\ is_byte (a / 2 ^ 16 mod 256).
Proof.
  intros Ha. unfold u8, is_byte. rewrite !Z.shiftr_div_pow2 by lia.
  change 0xff with (Z.ones 8). rewrite Z.land_ones by lia. unfold wrap.
  change (2 ^ 8) with 256. rewrite Z.mod_mod by lia.
  assert (0 <= a / 2 ^ 24 < 256) by (split; [apply Z.div_pos; lia|apply Z.div_lt_upper_bound; lia]).
  rewrite (Z.mod_small (a / 2 ^ 24)) by lia.
  pose proof (Z.mod_pos_bound (a / 2 ^ 16) 256). lia.
Qed.

Lemma in_prefix_16 a k v :
  0 <= k <= 16 ->
  (a / 2 ^ (16 + k) =? v) = (a / 2 ^ 16 / 2 ^ k =? v).
Proof. intros ?. by rewrite Z.div_div, <- Z.pow_add_r by lia. Qed.

(** Evaluate the closed powers of two of the goal. *)
Ltac pow2_consts :=
  repeat match goal with
         | |- context [2 ^ ?k] =>
             let v := eval vm_compute in (2 ^ k) in
             match v with Zpos _ => change (2 ^ k) with v end
         end.

(** Equality of two tests over quotients and remainders by constants. *)
Ltac div_test :=
  apply eq_true_iff_eq; rewrite ?andb_true_iff, !Z.eqb_eq; Z.to_euclidean_division_equations; lia.

(** Two decision ladders agree when their tests do, one by one. *)
Ltac same_test :=
  match goal with
  | |- (if ?b then ?x else _) = (if ?c then ?x else _) =>
      replace b with c by div_test; destruct c; [reflexivity|]
  end.

Lemma classify_v4_spec a : 0 <= a < 2 ^ 32 -> classify_v4 a = class_v4 a.
Proof.
  intros Ha. destruct (octets a Ha) as (E1 & E2 & H1 & H2).
  unfold classify_v4. cbv zeta. rewrite E1, E2, land_f0, (land_c0 _ 64) by auto.
  unfold class_v4, prefixes_v4. cbn [first_class]. unfold in_prefix. cbn [pf_base pf_len pf_class].
  assert (a / 2 ^ 24 = a / 2 ^ 16 / 256) as -> by (rewrite Z.div_div; [done|lia..]).
  change (32 - 32) with 0. change (32 - 8) with (16 + 8). change (32 - 16) with (16 + 0).
  change (32 - 12) with (16 + 4). change (32 - 10) with (16 + 6).
  rewrite !(in_prefix_16 a) by lia.
  assert (0 <= a / 2 ^ 16 < 65536) as Hq
    by (split; [apply Z.div_pos; lia|apply Z.div_lt_upper_bound; lia]).
  unfold quad. revert Hq. generalize (a / 2 ^ 16). intros q Hq. pow2_consts.
  rewrite (Z.div_1_r a). repeat same_test. done.
Qed.

(** ** IPv6 *)
Lemma split4 (bs : list Z) :
  length bs = 16%nat ->
  exists c0 c1 c2 c3, bs = c0 ++ c1 ++ c2 ++ c3 /\ length c0 = 4%nat /\ length c1 = 4%nat
    /\ length c2 = 4%nat /\ length c3 = 4%nat
    /\ words4 bs = (le_combine c0, le_combine c1, le_combine c2, le_combine c3).
Proof.
  intros H. exists (take 4 bs), (take 4 (drop 4 bs)), (take 4 (drop 8 bs)), (take 4 (drop 12 bs)).
  do 17 (destruct bs as [|? bs]; try done).
Qed.

Lemma be_combine4 c0 c1 c2 c3 :
  length c1 = 4%nat -> length c2 = 4%nat -> length c3 = 4%nat ->
  be_combine (c0 ++ c1 ++ c2 ++ c3)
  = be_combine c0 * 2 ^ 96 + be_combine c1 * 2 ^ 64 + be_combine c2 * 2 ^ 32 + be_combine c3.
Proof.
  intros H1 H2 H3. rewrite !be_combine_app, !length_app, H1, H2, H3.
  change (Z.of_nat (4 + (4 + 4))) with 12. change (Z.of_nat (4 + 4)) with 8.
  change (Z.of_nat 4) with 4. change 256 with (2 ^ 8). rewrite <- !Z.pow_mul_r by lia.
  change (8 * 12) with 96. change (8 * 8) with 64. change (8 * 4) with 32. lia.
Qed.

Lemma div_top w r k : 0 <= r < 2 ^ 96 -> 0 <= k -> (w * 2 ^ 96 + r) / 2 ^ (96 + k) = w / 2 ^ k.
Proof.
  intros Hr Hk. rewrite Z.pow_add_r by lia. rewrite <- Z.div_div by lia.
  by rewrite Z.div_add_l, (Z.div_small r), Z.add_0_r by lia.
Qed.

(** The ladder of the code over the four host-order words. *)
Definition ladder_v6 (w0 w1 w2 w3 : Z) : Z :=
  if (w0 =? 0) && (w1 =? 0) && (w2 =? 0) && (w3 =? 0) then DST_LOOPBACK
  else if (w0 =? 0) && (w1 =? 0) && (w2 =? 0) && (w3 =? 1) then DST_LOOPBACK
  else if (w0 =? 0) && (w1 =? 0) && (w2 =? 0xffff) then class_v4 w3
  else if w0 / 2 ^ 22 =? 0x3fa then DST_LINKLOCAL
  else if w0 / 2 ^ 25 =? 0x7e then DST_PRIVATE
  else DST_PUBLIC.

Lemma ladder_v6_spec w0 w1 w2 w3 :
  0 <= w0 < 2 ^ 32 -> 0 <= w1 < 2 ^ 32 -> 0 <= w2 < 2 ^ 32 -> 0 <= w3 < 2 ^ 32 ->
  ladder_v6 w0 w1 w2 w3 = class_v6 (w0 * 2 ^ 96 + w1 * 2 ^ 64 + w2 * 2 ^ 32 + w3).
Proof.
  intros H0 H1 H2 H3. set (r := w1 * 2 ^ 64 + w2 * 2 ^ 32 + w3).
  replace (w0 * 2 ^ 96 + w1 * 2 ^ 64 + w2 * 2 ^ 32 + w3) with (w0 * 2 ^ 96 + r) by (subst r; lia).
  assert (0 <= r < 2 ^ 96) as Hr by (subst r; lia).
  unfold class_v6, v4_mapped, prefixes_v6. cbn [first_class]. unfold in_prefix.
  cbn [pf_base pf_len pf_class].
  change (128 - 10) with (96 + 22). change (128 - 7) with (96 + 25).
  rewrite !div_top by lia. change (2 ^ (128 - 128)) with 1. change (128 - 96) with 32.
  rewrite !Z.div_1_r.
  change (0xffff * 2 ^ 32 / 2 ^ 32) with 0xffff.
  change (0xfe80 * 2 ^ 112 / 2 ^ (96 + 22)) with 0x3fa.
  change (0xfc00 * 2 ^ 112 / 2 ^ (96 + 25)) with 0x7e.
  assert ((w0 * 2 ^ 96 + r) / 2 ^ 32 = w0 * 2 ^ 64 + w1 * 2 ^ 32 + w2) as ->.
  { subst r. symmetry. apply Z.div_unique_pos with w3; lia. }
  assert ((w0 * 2 ^ 96 + r) mod 2 ^ 32 = w3) as ->.
  { subst r. symmetry. apply Z.mod_unique_pos with (w0 * 2 ^ 64 + w1 * 2 ^ 32 + w2); lia. }
  unfold ladder_v6. subst r.
  destruct (Z.eqb_spec w0 0), (Z.eqb_spec w1 0), (Z.eqb_spec w2 0), (Z.eqb_spec w2 0xffff),
    (Z.eqb_spec w3 0), (Z.eqb_spec w3 1),
    (Z.eqb_spec (w0 * 2 ^ 64 + w1 * 2 ^ 32 + w2) 0xffff),
    (Z.eqb_spec (w0 * 2 ^ 96 + (w1 * 2 ^ 64 + w2 * 2 ^ 32 + w3)) 0),
    (Z.eqb_spec (w0 * 2 ^ 96 + (w1 * 2 ^ 64 + w2 * 2 ^ 32 + w3)) 1); simpl; try done; lia.
Qed.

(** ** The sockaddr *)
Lemma field_addr_at t path a (off : nat) :
  offsetof t path = Some (Z.of_nat off) -> field_addr a t path = u64 (a + Z.of_nat off).
Proof. unfold field_addr. by intros ->. Qed.

(** The IPv6 part of [classify_dest] over the bytes of [sin6_addr]. *)
Lemma classify_v6_bytes bs :
  Forall is_byte bs -> length bs = 16%nat ->
  (let '(w0, w1, w2, w3) := words4 bs in
   if (w0 =? 0) && (w1 =? 0) && (w2 =? 0) && (w3 =? 0) then DST_LOOPBACK
   else if (w0 =? 0) && (w1 =? 0) && (w2 =? 0) && (w3 =? htonl_const 1) then DST_LOOPBACK
   else if (w0 =? 0) && (w1 =? 0) && (w2 =? htonl_const 0x0000ffff) then classify_v4 (ntohl w3)
   else
     let b0 := u8 (Z.shiftr (ntohl w0) 24) in
     let b1 := u8 (Z.land (Z.shiftr (ntohl w0) 16) 0xff) in
     if (b0 =? 0xfe) && (Z.land b1 0xc0 =? 0x80) then DST_LINKLOCAL
     else if Z.land b0 0xfe =? 0xfc then DST_PRIVATE
     else DST_PUBLIC) = class_v6 (be_combine bs).
Proof.
  intros Hbs Hlen. destruct (split4 bs Hlen) as (c0 & c1 & c2 & c3 & -> & L0 & L1 & L2 & L3 & ->).
  rewrite !Forall_app in Hbs. destruct Hbs as (B0 & B1 & B2 & B3).
  rewrite be_combine4 by done. unfold htonl_const, ntohl, target_order.
  assert (forall c, Forall is_byte c -> length c = 4%nat ->
            (le_combine c =? 0) = (be_combine c =? 0)) as Hz.
  { intros c Hc Lc. change 0 with (bpf_htonl LittleEndian true 0) at 1.
    apply load_eqb_htonl; [done..|lia]. }
  rewrite !load_eqb_htonl, !Hz by (auto; lia).
  pose proof (bpf_swap32_load LittleEndian false c0 B0 L0) as E0.
  pose proof (bpf_swap32_load LittleEndian false c3 B3 L3) as E3.
  cbn [load] in E0, E3. unfold bpf_ntohl. rewrite E0, E3. clear E0 E3.
  pose proof (be_combine_bound c0 B0) as R0. pose proof (be_combine_bound c1 B1) as R1.
  pose proof (be_combine_bound c2 B2) as R2. pose proof (be_combine_bound c3 B3) as R3.
  rewrite L0 in R0; rewrite L1 in R1; rewrite L2 in R2; rewrite L3 in R3.
  change (256 ^ Z.of_nat 4) with (2 ^ 32) in *.
  rewrite <- ladder_v6_spec by done. unfold ladder_v6.
  destruct (octets _ R0) as (-> & -> & H0 & H1). rewrite (classify_v4_spec _ R3), (land_c0 _ 0x80), land_fe by auto.
  do 3 (match goal with |- (if ?b then ?x else _) = (if ?b then ?x else _) => destruct b; [reflexivity|] end).
  generalize dependent (be_combine c0). intros w R0 _ _. cbv zeta. pow2_consts. repeat same_test. done.
Qed.

Lemma classify_dest_bytes e a bs :
  a <> 0 -> Forall is_byte bs -> holds (kmem e) a bs ->
  classify_dest e a (Z.of_nat (length bs)) = class_of_sockaddr bs.
Proof.
  intros Ha Hbs Hm. unfold classify_dest, class_of_sockaddr.
  destruct (Z.eqb_spec a 0); [done|]. cbn [orb].
  change (sizeof ty___u16) with (Z.of_nat 2). change (sizeof struct_sockaddr_in) with (Z.of_nat 16).
  change 24 with (Z.of_nat 24).
  assert (forall k, (Z.of_nat (length bs) <? Z.of_nat k) = (length bs <? k)%nat) as Hlt.
  { intros k. apply eq_true_iff_eq. rewrite Z.ltb_lt, Nat.ltb_lt. lia. }
  rewrite !Hlt. destruct (Nat.ltb_spec (length bs) 2); [done|].
  rewrite (field_addr_at _ _ _ 0), (field_addr_at _ _ _ 4), (field_addr_at _ _ _ 8)
    by (vm_compute; reflexivity).
  rewrite (probe_scalar_sub e a bs 0 2) by (done || lia). rewrite drop_0. cbv zeta.
  destruct (le_combine (take 2 bs) =? AF_INET).
  - destruct (Nat.ltb_spec (length bs) 16); [done|].
    rewrite (probe_scalar_sub e a bs 4 4) by (done || lia).
    assert (length (take 4 (drop 4 bs)) = 4%nat) as Hl by (rewrite length_take, length_drop; lia).
    assert (Forall is_byte (take 4 (drop 4 bs))) as Hb by auto using Forall_take, Forall_drop.
    pose proof (bpf_swap32_load LittleEndian false _ Hb Hl) as E. cbn [load] in E.
    unfold ntohl, bpf_ntohl, target_order. rewrite E. apply classify_v4_spec.
    pose proof (be_combine_bound _ Hb) as R. by rewrite Hl in R.
  - destruct (le_combine (take 2 bs) =? AF_INET6); [|done].
    destruct (Nat.ltb_spec (length bs) 24); [done|].
    rewrite (probe_read_sub e a bs 8) by (rewrite ?length_replicate; done || lia).
    rewrite length_replicate. apply classify_v6_bytes; [auto using Forall_take, Forall_drop|].
    rewrite length_take, length_drop. lia.
Qed.
