(* ===== verification/Hooks.v ===== *)
(** * The LSM programs of [provenance.bpf.c]

    First the code, function by function; then the contract each program keeps, as an
    abstract gate over what the maps say of the current cgroup; then the refinement of the
    code to the gate, from which the properties of the programs follow. *)
From Stdlib Require Import ZArith Lia.
From stdpp Require Import base tactics numbers strings option list gmap.
From S2P Require Import Prelude Endian CType Vmlinux Tracing Objects Maps Kernel Classify.
#[local] Open Scope Z_scope.

(** ** The code *)

(** [p && *p == 1] for the pointer a map lookup returns. *)
Definition is_one (p : option Z) : bool := match p with Some v => v =? 1 | None => false end.

Definition try_consume_grant (cg hook : Z) : prog Z :=
  let k := GrantKey cg hook 0 in
  v ← grant_once_lookup k;
  match v with
  | None => mret 0
  | Some v =>
      lapsed ← (if gv_expire_ns v =? 0 then mret false
                else now ← bpf_ktime_get_ns; mret (gv_expire_ns v <? now));
      if lapsed : bool then mret 0
      else
        prior ← grant_count_cas k 1 0;
        if prior =? 1 then grant_once_delete k;; mret 1 else mret 0
  end.

Definition log_decision (cg hook decision mode : Z) : prog unit :=
  ringbuf_emit (
    pid_tgid ← bpf_get_current_pid_tgid;
    comm ← bpf_get_current_comm;
    mret (Event cg (u32 (Z.shiftr pid_tgid 32)) comm hook decision mode)).

Definition prov_socket_connect (sock address addrlen ret : Z) : prog Z :=
  if negb (ret =? 0) then mret ret
  else
    cg ← bpf_get_current_cgroup_id;
    cls ← asks (fun e => classify_dest e address addrlen);
    tcb ← tcb_cgroups_lookup cg;
    dmv ← (if negb (is_one tcb) then
             allowed ← egress_policy_lookup cg;
             match allowed with
             | Some mask =>
                 if Z.land mask cls =? 0 then
                   on ← enforce_flags_lookup HOOK_CONNECT;
                   mret (if is_one on then (1, 1, - EPERM) else (1, 0, 0))
                 else mret (0, 0, 0)
             | None => mret (0, 0, 0)
             end
           else mret (0, 0, 0));
    let '(decision, mode, verdict) := dmv in
    log_decision cg HOOK_CONNECT decision mode;;
    mret verdict.

Definition enforce_verdict_g (hook ret grantable : Z) : prog Z :=
  if negb (ret =? 0) then mret ret
  else
    cg ← bpf_get_current_cgroup_id;
    tcb ← tcb_cgroups_lookup cg;
    if is_one tcb then mret 0
    else
      on ← enforce_flags_lookup hook;
      if negb (is_one on) then log_decision cg hook 0 0;; mret 0
      else
        granted ← (if grantable =? 0 then mret 0 else try_consume_grant cg hook);
        if negb (granted =? 0) then log_decision cg hook 0 1;; mret 0
        else log_decision cg hook 1 1;; mret (- EPERM).

Definition enforce_verdict (hook ret : Z) : prog Z := enforce_verdict_g hook ret 0.

Definition enforce_bpf (cmd attr size ret : Z) : prog Z := enforce_verdict HOOK_BPF ret.

Definition enforce_ptrace (child mode ret : Z) : prog Z := enforce_verdict_g HOOK_PTRACE ret 1.

Definition enforce_gain (hook ret gain : Z) : prog Z :=
  if negb (ret =? 0) then mret ret
  else if gain =? 0 then mret 0
  else
    cg ← bpf_get_current_cgroup_id;
    tcb ← tcb_cgroups_lookup cg;
    if is_one tcb then mret 0
    else
      on ← enforce_flags_lookup hook;
      if negb (is_one on) then log_decision cg hook 1 0;; mret 0
      else
        granted ← try_consume_grant cg hook;
        if negb (granted =? 0) then log_decision cg hook 0 1;; mret 0
        else log_decision cg hook 1 1;; mret (- EPERM).

(** [gain] of [enforce_setuid], from what the two reads leave. *)
Definition setuid_gain (e : env) (new old : Z) : Z :=
  let ne := probe_read_scalar e 4 1 (field_addr new struct_cred ["euid"; "val"]%string) in
  let oe := probe_read_scalar e 4 1 (field_addr old struct_cred ["euid"; "val"]%string) in
  if (ne =? 0) && negb (oe =? 0) then 1 else 0.

Definition enforce_setuid (new old flags ret : Z) : prog Z :=
  gain ← asks (fun e => setuid_gain e new old);
  enforce_gain HOOK_SETUID ret gain.

(** [n & ~o] on [__u64]. *)
Definition raised (n o : Z) : Z := Z.land n (u64 (Z.lnot o)).

Definition capset_gain (e : env) (old effective inheritable permitted : Z) : Z :=
  let ne := probe_read_scalar e 8 0 effective in
  let oe := probe_read_scalar e 8 0 (field_addr old struct_cred ["cap_effective"; "val"]%string) in
  let np := probe_read_scalar e 8 0 permitted in
  let op := probe_read_scalar e 8 0 (field_addr old struct_cred ["cap_permitted"; "val"]%string) in
  let ni := probe_read_scalar e 8 0 inheritable in
  let oi := probe_read_scalar e 8 0 (field_addr old struct_cred ["cap_inheritable"; "val"]%string) in
  if negb (raised ne oe =? 0) || negb (raised np op =? 0) || negb (raised ni oi =? 0)
  then 1 else 0.

Definition enforce_capset (new old effective inheritable permitted ret : Z) : prog Z :=
  gain ← asks (fun e => capset_gain e old effective inheritable permitted);
  enforce_gain HOOK_CAPSET ret gain.

(** ** The programs as the kernel enters them: a context of 64-bit words *)
Inductive lsm_prog := PConnect | PBpf | PPtrace | PSetuid | PCapset.

#[export] Instance lsm_prog_eq_dec : EqDecision lsm_prog.
Proof. solve_decision. Defined.

(** The declared parameter types, the last being the verdict of the LSMs before. *)
Definition prog_params (p : lsm_prog) : list string :=
  match p with
  | PConnect => ["struct socket *"; "struct sockaddr *"; "int"; "int"]
  | PBpf => ["int"; "union bpf_attr *"; "unsigned int"; "int"]
  | PPtrace => ["struct task_struct *"; "unsigned int"; "int"]
  | PSetuid => ["struct cred *"; "const struct cred *"; "int"; "int"]
  | PCapset => ["struct cred *"; "const struct cred *"; "const kernel_cap_t *";
                "const kernel_cap_t *"; "const kernel_cap_t *"; "int"]
  end%string.

(** The hook named by the program's section. *)
Definition prog_section (p : lsm_prog) : string :=
  match p with
  | PConnect => "socket_connect" | PBpf => "bpf" | PPtrace => "ptrace_access_check"
  | PSetuid => "task_fix_setuid" | PCapset => "capset"
  end%string.

Definition prog_hook (p : lsm_prog) : Z :=
  match p with
  | PConnect => HOOK_CONNECT | PBpf => HOOK_BPF | PPtrace => HOOK_PTRACE
  | PSetuid => HOOK_SETUID | PCapset => HOOK_CAPSET
  end.

Definition nargs (p : lsm_prog) : nat := length (prog_params p).

Definition prog_body (p : lsm_prog) (a : list Z) : prog Z :=
  let arg i := nth i a 0 in
  match p with
  | PConnect => prov_socket_connect (arg 0%nat) (arg 1%nat) (s32 (arg 2%nat)) (s32 (arg 3%nat))
  | PBpf => enforce_bpf (s32 (arg 0%nat)) (arg 1%nat) (u32 (arg 2%nat)) (s32 (arg 3%nat))
  | PPtrace => enforce_ptrace (arg 0%nat) (u32 (arg 1%nat)) (s32 (arg 2%nat))
  | PSetuid => enforce_setuid (arg 0%nat) (arg 1%nat) (s32 (arg 2%nat)) (s32 (arg 3%nat))
  | PCapset => enforce_capset (arg 0%nat) (arg 1%nat) (arg 2%nat) (arg 3%nat) (arg 4%nat)
                 (s32 (arg 5%nat))
  end.

Definition run_prog (p : lsm_prog) (ctx : list Z) : prog Z := BPF_PROG (nargs p) (prog_body p) ctx.

(** The verdict the programs before this one have reached: the last context word. *)
Definition ret_arg (p : lsm_prog) (ctx : list Z) : Z := s32 (nth (nargs p - 1) ctx 0).

(** ** The contract

    What the maps say of a cgroup, and the outcome of the gate every enforcing program
    passes. *)
Definition is_tcb (s : kstate) (cg : Z) : bool := is_one (tcb_cgroups s !! cg).
Definition armed (s : kstate) (hook : Z) : bool := is_one (array_lookup (enforce_flags s) hook).

(** A grant that would be spent now: one unused, its lifetime not lapsed. *)
Definition live (now : Z) (v : grant_val) : bool :=
  (gv_count v =? 1) && ((gv_expire_ns v =? 0) || (now <=? gv_expire_ns v)).
Definition live_grant (s : kstate) (now cg hook : Z) : bool :=
  match grant_once s !! GrantKey cg hook 0 with Some v => live now v | None => false end.

Inductive outcome := Exempt | Observed | Granted | Denied.

Definition gate (s : kstate) (now cg hook : Z) (grantable : bool) : outcome :=
  if is_tcb s cg then Exempt
  else if negb (armed s hook) then Observed
  else if grantable && live_grant s now cg hook then Granted
  else Denied.

Definition verdict (o : outcome) : Z := match o with Denied => - EPERM | _ => 0 end.

(** A granted operation spends the grant: the entry is gone. *)
Definition spend (o : outcome) (cg hook : Z) (s : kstate) : kstate :=
  match o with
  | Granted => set_grants (delete (GrantKey cg hook 0) (grant_once s)) s
  | _ => s
  end.

(** The record an invocation submits, if any: decision and mode. *)
Definition gate_record (observed : Z) (o : outcome) : option (Z * Z) :=
  match o with
  | Exempt => None
  | Observed => Some (observed, 0)
  | Granted => Some (0, 1)
  | Denied => Some (1, 1)
  end.

Definition the_event (e : env) (hook : Z) (dm : Z * Z) : event :=
  Event (cur_cgroup e) (u32 (Z.shiftr (cur_pid_tgid e) 32)) (cur_comm e) hook dm.1 dm.2.

(** Append a record when the ring buffer has room for it. *)
Definition record (e : env) (hook : Z) (dm : option (Z * Z)) (s : kstate) : kstate :=
  match dm with
  | Some dm => if reserve_ok e (events s) then set_events (events s ++ [the_event e hook dm]) s else s
  | None => s
  end.

Definition gated (observed : Z) (hook : Z) (grantable : bool) : prog Z := fun e s =>
  let o := gate s (cur_ktime e) (cur_cgroup e) hook grantable in
  (verdict o, record e hook (gate_record observed o) (spend o (cur_cgroup e) hook s)).

(** Egress: the gate's contract has a mask instead of a grant. *)
Definition egress_denies (s : kstate) (cg cls : Z) : bool :=
  negb (is_tcb s cg) &&
  match egress_policy s !! cg with Some mask => Z.land mask cls =? 0 | None => false end.

Definition egress (cls : Z) : prog Z := fun e s =>
  let d := egress_denies s (cur_cgroup e) cls in
  let a := armed s HOOK_CONNECT in
  (if d && a then - EPERM else 0,
   record e HOOK_CONNECT (Some (if d then 1 else 0, if d && a then 1 else 0)) s).

(** Is the operation one the program gates, and how. *)
Definition spec (p : lsm_prog) (ctx : list Z) : prog Z := fun e s =>
  let arg i := nth i ctx 0 in
  if negb (ret_arg p ctx =? 0) then (ret_arg p ctx, s)
  else
    match p with
    | PConnect => egress (classify_dest e (arg 1%nat) (s32 (arg 2%nat))) e s
    | PBpf => gated 0 HOOK_BPF false e s
    | PPtrace => gated 0 HOOK_PTRACE true e s
    | PSetuid =>
        if setuid_gain e (arg 0%nat) (arg 1%nat) =? 0 then (0, s) else gated 1 HOOK_SETUID true e s
    | PCapset =>
        if capset_gain e (arg 1%nat) (arg 2%nat) (arg 3%nat) (arg 4%nat) =? 0 then (0, s)
        else gated 1 HOOK_CAPSET true e s
    end.

(** ** Refinement *)
Lemma set_grants_twice g g' s : set_grants g (set_grants g' s) = set_grants g s.
Proof. done. Qed.

Lemma try_consume_grant_spec cg hook e s :
  try_consume_grant cg hook e s =
  if live_grant s (cur_ktime e) cg hook
  then (1, set_grants (delete (GrantKey cg hook 0) (grant_once s)) s) else (0, s).
Proof.
  unfold try_consume_grant, live_grant, live, mbind, prog_bind, grant_once_lookup, gets.
  cbn [m_lookup grant_ops hash_ops]. destruct (grant_once s !! _) as [v|] eqn:Hk; [|done].
  assert ((if gv_expire_ns v =? 0 then mret false
           else now ← bpf_ktime_get_ns; mret (gv_expire_ns v <? now)) e s
          = (negb ((gv_expire_ns v =? 0) || (cur_ktime e <=? gv_expire_ns v)), s)) as E.
  { destruct (gv_expire_ns v =? 0); [done|]. simpl. by rewrite Z.leb_antisym, negb_involutive. }
  unfold mbind, prog_bind in E. rewrite E.
  destruct (_ || _); simpl; [|by rewrite andb_false_r].
  unfold grant_count_cas. rewrite Hk, andb_true_r.
  destruct (Z.eqb_spec (gv_count v) 1) as [->|Hne]; simpl; [|by destruct (Z.eqb_spec (gv_count v) 1)].
  unfold grant_once_delete, modify. cbn [m_delete grant_ops hash_ops]. unfold hash_delete. simpl.
  by rewrite lookup_insert_eq, set_grants_twice, delete_insert_eq.
Qed.

Lemma log_decision_spec hook d m e s :
  log_decision (cur_cgroup e) hook d m e s = (tt, record e hook (Some (d, m)) s).
Proof.
  unfold log_decision, ringbuf_emit, record. destruct (reserve_ok e (events s)); done.
Qed.

(** Run a program symbolically: push the state through binds and lookups. *)
Ltac step_prog :=
  repeat first
    [ progress unfold mbind, prog_bind, mret, prog_ret
    | progress unfold bpf_get_current_cgroup_id, tcb_cgroups_lookup, egress_policy_lookup,
        enforce_flags_lookup, asks, gets
    | progress cbn [m_lookup flags_ops tcb_ops egress_ops array_ops hash_ops]
    | rewrite log_decision_spec
    | rewrite try_consume_grant_spec ].

Lemma enforce_verdict_g_spec hook ret grantable e s :
  enforce_verdict_g hook ret grantable e s =
  if negb (ret =? 0) then (ret, s) else gated 0 hook (negb (grantable =? 0)) e s.
Proof.
  unfold enforce_verdict_g, gated, gate, is_tcb, armed.
  destruct (ret =? 0); [|done]. cbn [negb]. step_prog.
  destruct (is_one (tcb_cgroups s !! _)); [done|].
  destruct (is_one (array_lookup _ hook)); cbn [negb]; step_prog; [|done].
  destruct (grantable =? 0); cbn [negb andb]; simpl; step_prog; [done|].
  destruct (live_grant _ _ _ _); simpl; step_prog; done.
Qed.

Lemma enforce_gain_spec hook ret gain e s :
  enforce_gain hook ret gain e s =
  if negb (ret =? 0) then (ret, s)
  else if gain =? 0 then (0, s) else gated 1 hook true e s.
Proof.
  unfold enforce_gain, gated, gate, is_tcb, armed.
  destruct (ret =? 0), (gain =? 0); try done. cbn [negb]. step_prog.
  destruct (is_one (tcb_cgroups s !! _)); [done|].
  destruct (is_one (array_lookup _ hook)); cbn [negb]; step_prog; [|done].
  destruct (live_grant _ _ _ _); cbn [negb andb]; simpl; step_prog; done.
Qed.

Lemma prov_socket_connect_spec sock address addrlen ret e s :
  prov_socket_connect sock address addrlen ret e s =
  if negb (ret =? 0) then (ret, s) else egress (classify_dest e address addrlen) e s.
Proof.
  unfold prov_socket_connect, egress, egress_denies, is_tcb, armed.
  destruct (ret =? 0); [|done]. cbn [negb]. step_prog.
  destruct (is_one (tcb_cgroups s !! _)); cbn [negb andb]; step_prog; [done|].
  destruct (egress_policy s !! _) as [mask|]; step_prog; [|done].
  destruct (Z.land mask _ =? 0); cbn [andb]; step_prog; [|done].
  destruct (is_one (array_lookup _ _)); step_prog; done.
Qed.

Lemma ctx_cast_nth n ctx i : (i < n)%nat -> nth i (___bpf_ctx_cast n ctx) 0 = nth i ctx 0.
Proof.
  assert (forall n, length (___bpf_ctx_cast n ctx) = n) as Hlen.
  { intros m. induction m as [|m IH]; [done|]. cbn [___bpf_ctx_cast]. rewrite length_app, IH. simpl. lia. }
  induction n as [|n IH]; intros Hi; [lia|]. cbn [___bpf_ctx_cast].
  destruct (decide (i = n)) as [->|?].
  - rewrite app_nth2; rewrite Hlen; [|lia]. by rewrite Nat.sub_diag.
  - rewrite app_nth1 by (rewrite Hlen; lia). apply IH. lia.
Qed.

Lemma run_prog_spec p ctx e s : run_prog p ctx e s = spec p ctx e s.
Proof.
  unfold run_prog, BPF_PROG, spec, ret_arg.
  destruct p; unfold nargs, prog_body; cbn [prog_params length]; rewrite !ctx_cast_nth by lia;
    cbn [Nat.sub].
  - apply prov_socket_connect_spec.
  - apply enforce_verdict_g_spec.
  - apply enforce_verdict_g_spec.
  - unfold enforce_setuid. step_prog. apply enforce_gain_spec.
  - unfold enforce_capset. step_prog. apply enforce_gain_spec.
Qed.
