(* ===== verification/Fixtures.v ===== *)
(** * A concrete appliance: the environment and the maps the examples are evaluated in

    An agent in cgroup 7 among TCB cgroup 1, every hook armed, a manifest for the agent
    that allows loopback and private destinations, one unused ptrace grant, and kernel
    memory holding socket addresses, credentials and capability sets. *)
From Stdlib Require Import ZArith Lia.
From stdpp Require Import base tactics numbers option list gmap.
From S2P Require Import Prelude Objects Maps Kernel.
#[local] Open Scope Z_scope.

Definition bytes_at (a : Z) (bs : list Z) : gmap Z Z :=
  list_to_map (imap (fun i b => (a + Z.of_nat i, b)) bs).

(** 8.8.8.8:53 and ::ffff:8.8.8.8, then credentials of uid 1000 and of root. *)
Definition sa_v4 : list Z := [2; 0] ++ [0; 53] ++ [8; 8; 8; 8] ++ replicate 8 0.
Definition sa_v6 : list Z :=
  [10; 0] ++ [0; 53] ++ replicate 4 0 ++ (replicate 10 0 ++ [255; 255] ++ [8; 8; 8; 8]) ++ replicate 4 0.
Definition cred_user : list Z := replicate 24 0 ++ le_split 4 1000 ++ replicate 156 0.
Definition cred_root : list Z := replicate 184 0.

Definition memory : gmap Z Z :=
  bytes_at 4096 sa_v4 ∪ bytes_at 8192 sa_v6 ∪ bytes_at 12288 cred_user ∪ bytes_at 16384 cred_root
  ∪ bytes_at 20480 (le_split 8 0) ∪ bytes_at 24576 (le_split 8 1).

Definition agent_env : env :=
  Env 7 (Z.shiftl 1234 32) (replicate 16 97) 1000 memory (fun dst => dst) (fun _ => true).

(** The same agent on a kernel whose failing reads clear their destination. *)
Definition clearing_env : env :=
  Env 7 (Z.shiftl 1234 32) (replicate 16 97) 1000 memory (fun dst => replicate (length dst) 0) (fun _ => true).

Definition armed_state : kstate :=
  KState [1; 1; 0; 1; 1; 1; 0; 0] {[1 := 1]} {[7 := 5]}
    {[GrantKey 7 HOOK_PTRACE 0 := GrantVal 1 0]} [].

Definition observing_state : kstate :=
  KState [0; 0; 0; 0; 0; 0; 0; 0] {[1 := 1]} {[7 := 5]}
    {[GrantKey 7 HOOK_PTRACE 0 := GrantVal 1 0]} [].
