(* ===== verification/HookProps.v ===== *)
(** * What the LSM programs guarantee

    Properties of the five programs of [provenance.bpf.c] as the kernel enters them
    ([run_prog]), over every context, every environment and every content of the maps:
    the ratchet over earlier verdicts, who is denied and when, what a grant can and cannot
    do, what is recorded, and the invariant of the maps. *)
From Stdlib Require Import ZArith Lia.
From stdpp Require Import base tactics numbers strings option list gmap.
From S2P Require Import Prelude Endian CType Vmlinux Tracing Objects Maps Kernel Classify Hooks Fixtures.
#[local] Open Scope Z_scope.

(** ** Notions the statements use *)

(** One invocation of a program by the kernel. *)
Record invocation := Inv { i_prog : lsm_prog; i_ctx : list Z; i_env : env }.

Definition invoke (i : invocation) (s : kstate) : Z * kstate := run_prog (i_prog i) (i_ctx i) (i_env i) s.
Definition i_ret (i : invocation) : Z := ret_arg (i_prog i) (i_ctx i).
Definition i_cg (i : invocation) : Z := cur_cgroup (i_env i).
Definition i_key (i : invocation) : grant_key := GrantKey (i_cg i) (prog_hook (i_prog i)) 0.

(** Does the operation fall under the program's gate at all? *)
Definition guarded (i : invocation) (s : kstate) : bool :=
  let arg n := nth n (i_ctx i) 0 in
  match i_prog i with
  | PConnect =>
      match egress_policy s !! i_cg i with
      | Some mask => Z.land mask (classify_dest (i_env i) (arg 1%nat) (s32 (arg 2%nat))) =? 0
      | None => false
      end
  | PBpf | PPtrace => true
  | PSetuid => negb (setuid_gain (i_env i) (arg 0%nat) (arg 1%nat) =? 0)
  | PCapset => negb (capset_gain (i_env i) (arg 1%nat) (arg 2%nat) (arg 3%nat) (arg 4%nat) =? 0)
  end.

(** The programs that consult the one-shot grants. *)
Definition grantable (p : lsm_prog) : bool :=
  match p with PPtrace | PSetuid | PCapset => true | PConnect | PBpf => false end.

(** The invocation succeeded only thanks to a grant. *)
Definition relaxed (i : invocation) (s : kstate) : bool :=
  negb ((invoke i (set_grants ∅ s)).1 =? (invoke i s).1).

Fixpoint run_trace (l : list invocation) (s : kstate) : kstate :=
  match l with [] => s | i :: l => run_trace l (invoke i s).2 end.

Fixpoint relaxed_on (k : grant_key) (l : list invocation) (s : kstate) : nat :=
  match l with
  | [] => 0
  | i :: l =>
      ((if relaxed i s && bool_decide (i_key i = k) then 1 else 0)
       + relaxed_on k l (invoke i s).2)%nat
  end.

Definition unused (k : grant_key) (s : kstate) : nat :=
  match grant_once s !! k with Some _ => 1 | None => 0 end.

(** Well-formedness of the maps: capacities, and values in the range of their C types. *)
Record wf_state (s : kstate) : Prop := {
  wf_flags : length (enforce_flags s) = 8%nat /\ Forall (in_width 32) (enforce_flags s);
  wf_tcb : Z.of_nat (size (tcb_cgroups s)) <= 64
           /\ map_Forall (fun k v => in_width 64 k /\ in_width 32 v) (tcb_cgroups s);
  wf_egress : Z.of_nat (size (egress_policy s)) <= 1024
              /\ map_Forall (fun k v => in_width 64 k /\ in_width 32 v) (egress_policy s);
  wf_grants : Z.of_nat (size (grant_once s)) <= 256
              /\ map_Forall (fun k v => in_width 64 (gk_cgid k) /\ in_width 32 (gk_hook k)
                   /\ gk_pad k = 0 /\ in_width 64 (gv_count v) /\ in_width 64 (gv_expire_ns v))
                   (grant_once s);
  wf_events : Forall (fun ev => in_width 64 (ev_cgroup_id ev) /\ in_width 32 (ev_pid ev)
                /\ length (ev_comm ev) = 16%nat /\ in_width 32 (ev_hook ev)
                /\ (ev_decision ev = 0 \/ ev_decision ev = 1)
                /\ (ev_mode ev = 0 \/ ev_mode ev = 1)) (events s) }.

(** What the kernel promises of the current task. *)
Record wf_env (e : env) : Prop := {
  we_cgroup : in_width 64 (cur_cgroup e);
  we_comm : length (cur_comm e) = 16%nat }.

(** The agent of the fixtures calling bpf, ptrace, connect. *)
Definition bpf_call : invocation := Inv PBpf [0; 0; 0; 0] agent_env.
Definition ptrace_call : invocation := Inv PPtrace [0; 0; 0] agent_env.
Definition connect_call : invocation := Inv PConnect [0; 4096; 16; 0] agent_env.

(** ** Shared lemmas *)
Lemma record_set_grants e hook dm g s :
  set_grants g (record e hook dm s) = record e hook dm (set_grants g s).
Proof. unfold record. destruct dm as [dm|]; [|done]. cbn [events set_grants]. by destruct (reserve_ok _ _). Qed.

Lemma record_grants e hook dm s : grant_once (record e hook dm s) = grant_once s.
Proof. unfold record. destruct dm; [|done]. by destruct (reserve_ok _ _). Qed.

Lemma record_frame {B} (f : kstate -> B) e hook dm s :
  (forall es s, f (set_events es s) = f s) -> f (record e hook dm s) = f s.
Proof. intros Hf. unfold record. destruct dm; [|done]. destruct (reserve_ok _ _); [apply Hf|done]. Qed.

Lemma spend_frame {B} (f : kstate -> B) o cg hook s :
  (forall g s, f (set_grants g s) = f s) -> f (spend o cg hook s) = f s.
Proof. intros Hf. destruct o; [done|done|apply Hf|done]. Qed.

(** The contract in one equation: every invocation that is not already refused and falls
    under the gate has one outcome, and every other one is allowed. *)
Definition outcome_of (i : invocation) (s : kstate) : outcome :=
  gate s (cur_ktime (i_env i)) (i_cg i) (prog_hook (i_prog i)) (grantable (i_prog i)).

(** The decision a program records in observe mode. *)
Definition observed_decision (p : lsm_prog) : Z :=
  match p with PBpf | PPtrace => 0 | PConnect | PSetuid | PCapset => 1 end.

(** What an invocation records: nothing outside the gate, except that every connect is
    recorded. *)
Definition dm_of (i : invocation) (s : kstate) : option (Z * Z) :=
  if guarded i s then
    match i_prog i, outcome_of i s with
    | PConnect, Exempt => Some (0, 0)
    | p, o => gate_record (observed_decision p) o
    end
  else match i_prog i with PConnect => Some (0, 0) | _ => None end.

Lemma invoke_eq i s :
  invoke i s =
  if negb (i_ret i =? 0) then (i_ret i, s)
  else
    let o := if guarded i s then outcome_of i s else Exempt in
    (verdict o, record (i_env i) (prog_hook (i_prog i)) (dm_of i s)
                  (spend o (i_cg i) (prog_hook (i_prog i)) s)).
Proof.
  unfold invoke. rewrite run_prog_spec. unfold spec, i_ret, dm_of, guarded, outcome_of, i_cg.
  destruct (ret_arg _ _ =? 0); [|done]. cbn [negb]. destruct i as [[] ctx e]; cbn [i_prog i_ctx i_env prog_hook].
  - unfold egress, egress_denies, gate. destruct (is_tcb _ _); cbn [negb andb].
    + by destruct (egress_policy s !! _) as [mask|]; [destruct (Z.land mask _ =? 0)|].
    + destruct (egress_policy s !! _) as [mask|]; [|done].
      destruct (Z.land mask _ =? 0); [|done]. by destruct (armed _ _).
  - done.
  - done.
  - by destruct (setuid_gain _ _ _ =? 0).
  - by destruct (capset_gain _ _ _ _ _ =? 0).
Qed.

Lemma gate_no_grants i s :
  outcome_of i (set_grants ∅ s)
  = match outcome_of i s with Granted => Denied | o => o end.
Proof.
  unfold outcome_of, gate, is_tcb, armed, live_grant. cbn [tcb_cgroups enforce_flags grant_once set_grants].
  rewrite lookup_empty, andb_false_r.
  destruct (is_one (tcb_cgroups s !! _)); [done|]. destruct (is_one _); [|done]. cbn [negb].
  by destruct (grantable _ && _).
Qed.

Lemma outcome_granted i s :
  outcome_of i s = Granted <->
  is_tcb s (i_cg i) = false /\ armed s (prog_hook (i_prog i)) = true /\ grantable (i_prog i) = true
  /\ live_grant s (cur_ktime (i_env i)) (i_cg i) (prog_hook (i_prog i)) = true.
Proof.
  unfold outcome_of, gate. destruct (is_tcb _ _), (armed _ _), (grantable _), (live_grant _ _ _ _);
    simpl; intuition discriminate.
Qed.

Lemma outcome_denied i s :
  outcome_of i s = Denied <->
  is_tcb s (i_cg i) = false /\ armed s (prog_hook (i_prog i)) = true
  /\ (grantable (i_prog i) && live_grant s (cur_ktime (i_env i)) (i_cg i) (prog_hook (i_prog i))) = false.
Proof.
  unfold outcome_of, gate. destruct (is_tcb _ _), (armed _ _), (grantable _), (live_grant _ _ _ _);
    simpl; intuition discriminate.
Qed.

Lemma guarded_set_grants i g s : guarded i (set_grants g s) = guarded i s.
Proof. done. Qed.

Lemma verdict_eperm o : verdict o = - EPERM <-> o = Denied.
Proof. by destruct o. Qed.

(** An invocation either leaves the grants alone and would have the same verdict without
    any, or spends the live grant of its own key. *)
Lemma invoke_grants i s :
  (relaxed i s = false /\ grant_once (invoke i s).2 = grant_once s)
  \/ (relaxed i s = true /\ i_ret i = 0 /\ guarded i s = true /\ outcome_of i s = Granted
      /\ grant_once (invoke i s).2 = delete (i_key i) (grant_once s)
      /\ is_Some (grant_once s !! i_key i)).
Proof.
  unfold relaxed. rewrite !invoke_eq. rewrite guarded_set_grants, gate_no_grants.
  destruct (Z.eqb_spec (i_ret i) 0); cbn [negb fst snd]; [|left; by rewrite Z.eqb_refl].
  rewrite record_grants. destruct (guarded i s); [|left; by rewrite Z.eqb_refl].
  destruct (outcome_of i s) eqn:Ho; [left; by rewrite Z.eqb_refl..| |left; by rewrite Z.eqb_refl].
  right. split_and!; [done..|]. apply outcome_granted in Ho as (_ & _ & _ & Hl).
  unfold live_grant in Hl. unfold i_key. destruct (grant_once s !! _); [eauto|done].
Qed.

Lemma one_shot_step k i s :
  ((if relaxed i s && bool_decide (i_key i = k) then 1 else 0) + unused k (invoke i s).2)%nat
  = unused k s.
Proof.
  unfold unused. destruct (invoke_grants i s) as [[-> ->]|(-> & _ & _ & _ & -> & [v Hv])]; [done|].
  cbn [andb]. case_bool_decide as Hk; [subst k; by rewrite lookup_delete_eq, Hv|].
  by rewrite lookup_delete_ne.
Qed.

(** ** Properties *)

(** C1: The five programs of the object, entered with a raw context, implement the
    abstract gate: honour an earlier verdict; otherwise exempt the TCB, observe when the
    hook is not armed, let a live grant be spent where the hook is grantable, deny
    everything else; and record what happened. *)
Theorem lsm_programs_refine_gate p ctx e s : run_prog p ctx e s = spec p ctx e s.
Proof. apply run_prog_spec. Qed.

(** One-way ratchet. A verdict reached by an earlier LSM is returned unchanged and
    nothing happens; otherwise the only verdicts are 0 and -EPERM. A program can add a
    denial and never revert one. *)
Theorem one_way_ratchet i s :
  (i_ret i <> 0 /\ invoke i s = (i_ret i, s))
  \/ (i_ret i = 0 /\ ((invoke i s).1 = 0 \/ (invoke i s).1 = - EPERM)).
Proof.
  rewrite invoke_eq. destruct (Z.eqb_spec (i_ret i) 0) as [->|?]; [right|left; done].
  split; [done|]. cbn [fst negb]. destruct (if guarded i s then _ else _); auto.
Qed.

(** A program denies exactly when the cgroup is not in the TCB, the hook is armed, the
    operation is one the hook guards (a destination outside the manifest, a gain of
    privilege, any bpf or ptrace call) and no live grant covers it. *)
Theorem deny_iff i s :
  i_ret i = 0 ->
  (invoke i s).1 = - EPERM <->
  is_tcb s (i_cg i) = false /\ armed s (prog_hook (i_prog i)) = true /\ guarded i s = true
  /\ (grantable (i_prog i) && live_grant s (cur_ktime (i_env i)) (i_cg i) (prog_hook (i_prog i))) = false.
Proof.
  intros Hr. rewrite invoke_eq, Hr. cbn [Z.eqb negb fst]. rewrite verdict_eperm.
  pose proof (outcome_denied i s). destruct (guarded i s); intuition discriminate.
Qed.

Lemma deny_iff_witness :
  i_ret bpf_call = 0 /\ (invoke bpf_call armed_state).1 = - EPERM.
Proof. split; [reflexivity|]. apply (deny_iff bpf_call armed_state eq_refl). vm_compute. auto. Defined.

(** The TCB is always allowed and a hook that is not armed never denies, and neither
    path spends a grant. *)
Theorem tcb_and_observe_inert i s :
  is_tcb s (i_cg i) = true \/ armed s (prog_hook (i_prog i)) = false ->
  (invoke i s).1 = i_ret i /\ grant_once (invoke i s).2 = grant_once s.
Proof.
  intros H. rewrite invoke_eq. destruct (Z.eqb_spec (i_ret i) 0) as [->|?]; [|done].
  cbn [negb fst snd]. rewrite record_grants. destruct (guarded i s); [|done].
  unfold outcome_of, gate. destruct H as [-> | ->]; [done|]. by destruct (is_tcb _ _).
Qed.

Lemma tcb_and_observe_inert_witness :
  (invoke ptrace_call observing_state).1 = 0
  /\ grant_once (invoke ptrace_call observing_state).2 = grant_once observing_state.
Proof. apply (tcb_and_observe_inert ptrace_call observing_state). right. vm_compute. reflexivity. Defined.

(** E0 is ungrantable, and so is egress: [enforce_bpf] and [prov_socket_connect]
    neither read nor write the grants, whatever they hold. *)
Theorem e0_ungrantable i s g :
  i_prog i = PBpf \/ i_prog i = PConnect ->
  invoke i (set_grants g s) = ((invoke i s).1, set_grants g (invoke i s).2)
  /\ grant_once (invoke i s).2 = grant_once s.
Proof.
  intros Hp. rewrite !invoke_eq.
  assert (grantable (i_prog i) = false) as Hg by (by destruct Hp as [-> | ->]).
  assert (outcome_of i (set_grants g s) = outcome_of i s) as Ho
    by (unfold outcome_of, gate; by rewrite Hg).
  assert (dm_of i (set_grants g s) = dm_of i s) as Hd by (unfold dm_of; by rewrite Ho).
  rewrite guarded_set_grants, Ho, Hd.
  destruct (i_ret i =? 0); [|done]. cbn [negb fst snd]. rewrite record_grants, record_set_grants.
  destruct (guarded i s); [|done]. destruct (outcome_of i s) eqn:E; [done..| |done].
  apply outcome_granted in E as (_ & _ & ? & _). congruence.
Qed.

Lemma e0_ungrantable_witness :
  let g := {[GrantKey 7 HOOK_BPF 0 := GrantVal 1 0]} in
  invoke bpf_call (set_grants g armed_state)
  = ((invoke bpf_call armed_state).1, set_grants g (invoke bpf_call armed_state).2)
  /\ grant_once (invoke bpf_call armed_state).2 = grant_once armed_state.
Proof. intros g. apply (e0_ungrantable bpf_call armed_state g). left. reflexivity. Defined.

(** A grant is keyed by cgroup and hook: the verdict depends on the grants only
    through the invocation's own key, and no other entry changes. *)
Theorem grant_isolation i s g :
  g !! i_key i = grant_once s !! i_key i ->
  (invoke i (set_grants g s)).1 = (invoke i s).1
  /\ forall k, k <> i_key i -> grant_once (invoke i s).2 !! k = grant_once s !! k.
Proof.
  intros Hk. split.
  - rewrite !invoke_eq, guarded_set_grants.
    assert (outcome_of i (set_grants g s) = outcome_of i s) as ->; [|by destruct (i_ret i =? 0)].
    unfold outcome_of, gate, live_grant. cbn [grant_once set_grants]. unfold i_key in Hk. by rewrite Hk.
  - intros k Hne. destruct (invoke_grants i s) as [[_ ->]|(_ & _ & _ & _ & -> & _)]; [done|].
    by apply lookup_delete_ne.
Qed.

Lemma grant_isolation_witness :
  let g := {[GrantKey 7 HOOK_PTRACE 0 := GrantVal 1 0; GrantKey 7 HOOK_SETUID 0 := GrantVal 1 0]} in
  (invoke ptrace_call (set_grants g armed_state)).1 = (invoke ptrace_call armed_state).1
  /\ forall k, k <> i_key ptrace_call ->
       grant_once (invoke ptrace_call armed_state).2 !! k = grant_once armed_state !! k.
Proof. intros g. apply (grant_isolation ptrace_call armed_state g). vm_compute. reflexivity. Defined.

(** C2: One shot. Over any sequence of invocations, in any order, by any tasks, the
    operations that succeed only thanks to the grant of a key, plus the grants of that key
    left at the end, are the grants of that key at the start: one grant is worth exactly
    one operation and is never spent without one. *)
Theorem grants_are_one_shot k l s :
  (relaxed_on k l s + unused k (run_trace l s))%nat = unused k s.
Proof.
  revert s; induction l as [|i l IH]; intros s; [done|]. cbn [relaxed_on run_trace].
  rewrite <- Nat.add_assoc, IH. apply one_shot_step.
Qed.

(** *** What an invocation may write *)
Lemma invoke_frame {B} (f : kstate -> B) i s :
  (forall es s, f (set_events es s) = f s) -> (forall g s, f (set_grants g s) = f s) ->
  f (invoke i s).2 = f s.
Proof.
  intros He Hg. rewrite invoke_eq. destruct (i_ret i =? 0); [|done]. cbn [negb snd].
  by rewrite record_frame, spend_frame.
Qed.

Lemma invoke_events i s :
  i_ret i = 0 ->
  events (invoke i s).2
  = match dm_of i s with
    | Some dm => if reserve_ok (i_env i) (events s)
                 then events s ++ [the_event (i_env i) (prog_hook (i_prog i)) dm] else events s
    | None => events s
    end.
Proof.
  intros Hr. rewrite invoke_eq, Hr. cbn [Z.eqb negb snd]. unfold record.
  assert (forall o, events (spend o (i_cg i) (prog_hook (i_prog i)) s) = events s) as Hs by by intros [].
  destruct (dm_of i s); [|apply Hs]. rewrite Hs. by destruct (reserve_ok _ _).
Qed.

(** The configuration is out of the programs' reach: no invocation changes the enforce
    flags, the TCB list or the egress manifests, and it appends at most one record, which
    carries the current task's cgroup and thread group and the program's own hook id. *)
Theorem programs_cannot_reconfigure i s :
  enforce_flags (invoke i s).2 = enforce_flags s
  /\ tcb_cgroups (invoke i s).2 = tcb_cgroups s
  /\ egress_policy (invoke i s).2 = egress_policy s
  /\ (events (invoke i s).2 = events s
      \/ exists dm, events (invoke i s).2
                    = events s ++ [the_event (i_env i) (prog_hook (i_prog i)) dm]).
Proof.
  split_and!; [by apply invoke_frame..|].
  destruct (Z.eq_dec (i_ret i) 0) as [Hr|Hr].
  - rewrite invoke_events by done. destruct (dm_of i s) as [dm|]; [|auto].
    destruct (reserve_ok _ _); eauto.
  - left. rewrite invoke_eq. by destruct (Z.eqb_spec (i_ret i) 0).
Qed.

(** The record is the verdict: when the ring buffer has room, an operation is denied
    exactly when the invocation submits a record with decision 1 in mode 1. *)
Theorem denial_is_recorded i s :
  i_ret i = 0 -> reserve_ok (i_env i) (events s) = true ->
  (invoke i s).1 = - EPERM <->
  events (invoke i s).2 = events s ++ [the_event (i_env i) (prog_hook (i_prog i)) (1, 1)].
Proof.
  intros Hr Hroom. rewrite invoke_events, Hroom by done.
  rewrite invoke_eq, Hr. cbn [Z.eqb negb fst]. rewrite verdict_eperm.
  assert (dm_of i s = Some (1, 1) <-> (if guarded i s then outcome_of i s else Exempt) = Denied) as <-.
  { unfold dm_of. destruct (guarded i s), (i_prog i), (outcome_of i s); simpl; split; congruence. }
  destruct (dm_of i s) as [[d m]|]; split; [by intros [= -> ->]| | |].
  - intros [= -> ->]%app_inv_head. done.
  - done.
  - rewrite <- (app_nil_r (events s)) at 1. by intros ?%app_inv_head.
Qed.

Lemma denial_is_recorded_witness :
  (invoke bpf_call armed_state).1 = - EPERM <->
  events (invoke bpf_call armed_state).2 = [the_event agent_env HOOK_BPF (1, 1)].
Proof. apply (denial_is_recorded bpf_call armed_state); reflexivity. Defined.

(** Full provenance of egress: every connect that earlier LSMs allow is recorded when
    the buffer has room; decision is 1 exactly when the manifest excludes the destination
    and the cgroup is not TCB, and mode is 1 exactly when, moreover, the hook is armed. *)
Theorem every_connect_recorded i s :
  i_prog i = PConnect -> i_ret i = 0 -> reserve_ok (i_env i) (events s) = true ->
  events (invoke i s).2
  = events s ++ [the_event (i_env i) HOOK_CONNECT
      (let d := guarded i s && negb (is_tcb s (i_cg i)) in
       (if d then 1 else 0, if d && armed s HOOK_CONNECT then 1 else 0))].
Proof.
  intros Hp Hr Hroom. rewrite invoke_events, Hroom by done. unfold dm_of, outcome_of, gate.
  rewrite Hp. cbn [prog_hook grantable andb observed_decision].
  by destruct (guarded i s), (is_tcb _ _), (armed _ _).
Qed.

Lemma every_connect_recorded_witness :
  events (invoke connect_call armed_state).2 = [the_event agent_env HOOK_CONNECT (1, 1)].
Proof.
  rewrite (every_connect_recorded connect_call armed_state eq_refl eq_refl eq_refl).
  vm_compute. reflexivity.
Defined.

(** In observe mode a guarded operation of an agent is allowed and recorded, with
    decision 1 (would deny) by the connect, setuid and capset programs but with decision 0
    by the bpf and ptrace programs, whose record is the one of an allowed operation. *)
Theorem observe_mode_record i s :
  i_ret i = 0 -> reserve_ok (i_env i) (events s) = true ->
  guarded i s = true -> is_tcb s (i_cg i) = false -> armed s (prog_hook (i_prog i)) = false ->
  (invoke i s).1 = 0 /\
  events (invoke i s).2
  = events s ++ [the_event (i_env i) (prog_hook (i_prog i))
      (if bool_decide (i_prog i = PBpf \/ i_prog i = PPtrace) then 0 else 1, 0)].
Proof.
  intros Hr Hroom Hg Ht Ha. rewrite invoke_events, Hroom by done. unfold dm_of.
  assert (outcome_of i s = Observed) as Ho by (unfold outcome_of, gate; by rewrite Ht, Ha).
  rewrite invoke_eq, Hr, Hg, Ho. split; [done|].
  by destruct (i_prog i).
Qed.

Lemma observe_mode_record_witness :
  (invoke ptrace_call observing_state).1 = 0
  /\ events (invoke ptrace_call observing_state).2 = [the_event agent_env HOOK_PTRACE (0, 0)].
Proof.
  apply (observe_mode_record ptrace_call observing_state); vm_compute; reflexivity.
Defined.

(** *** The invariant of the maps *)
Lemma hook_width p : in_width 32 (prog_hook p).
Proof. by destruct p; unfold in_width; vm_compute. Qed.

Lemma dm_of_bits i s dm : dm_of i s = Some dm -> (dm.1 = 0 \/ dm.1 = 1) /\ (dm.2 = 0 \/ dm.2 = 1).
Proof.
  unfold dm_of. destruct (guarded i s), (i_prog i), (outcome_of i s); intros [= <-]; simpl; auto.
Qed.

Lemma wf_invoke i s : wf_env (i_env i) -> wf_state s -> wf_state (invoke i s).2.
Proof.
  intros [Hcg Hcomm] [Hf Ht He [Hs Hg] Hev].
  split; [by rewrite invoke_frame by done..| |].
  - destruct (invoke_grants i s) as [[_ ->]|(_ & _ & _ & _ & -> & [v Hv])]; [done|].
    rewrite map_size_delete, Hv. split; [lia|]. by apply map_Forall_delete.
  - destruct (Z.eq_dec (i_ret i) 0) as [Hr|Hr].
    + rewrite invoke_events by done. destruct (dm_of i s) as [dm|] eqn:Hdm; [|done].
      destruct (reserve_ok _ _); [|done]. apply Forall_app. split; [done|]. constructor; [|constructor].
      apply dm_of_bits in Hdm as [??]. cbn.
      split_and!; auto using hook_width. apply wrap_in_width. lia.
    + rewrite invoke_eq. by destruct (Z.eqb_spec (i_ret i) 0).
Qed.

(** Well-formedness (capacities, value ranges, zero key padding, decision and mode
    bits) is an invariant of every sequence of invocations. *)
Theorem wf_trace l s :
  wf_state s -> Forall (fun i => wf_env (i_env i)) l -> wf_state (run_trace l s).
Proof.
  intros Hs Hl. revert s Hs. induction Hl as [|i l Hi Hl IH]; intros s Hs; [done|].
  cbn [run_trace]. apply IH. by apply wf_invoke.
Qed.

Lemma wf_trace_witness : wf_state (run_trace [ptrace_call; bpf_call; connect_call] armed_state).
Proof.
  apply (wf_trace [ptrace_call; bpf_call; connect_call] armed_state).
  - split; (split || constructor);
      try (apply (bool_decide_unpack _); vm_compute; exact I); repeat constructor; vm_compute; congruence.
  - repeat constructor; vm_compute; congruence.
Defined.
