(* ===== verification/Egress.v ===== *)
(** * Egress by destination: the connect program over the bytes of the address

    The two components meet here: [Classify] turns the bytes of a socket address into a
    class, the connect program tests the class against the cgroup's manifest. *)
From Stdlib Require Import ZArith Lia.
From stdpp Require Import base tactics numbers strings option list gmap.
From S2P Require Import Prelude Endian CType Vmlinux Tracing Objects Maps Kernel Classify Hooks Fixtures HookProps.
#[local] Open Scope Z_scope.

Definition dst_classes : list Z := [DST_LOOPBACK; DST_LINKLOCAL; DST_PRIVATE; DST_PUBLIC; DST_OTHER].

(** A mask allows a class: the class's bit is set. *)
Definition allows (mask cls : Z) : bool := negb (Z.land mask cls =? 0).

(** The state with the manifest of one cgroup set. *)
Definition set_mask (cg m : Z) (s : kstate) : kstate :=
  KState (enforce_flags s) (tcb_cgroups s) (<[cg := m]> (egress_policy s)) (grant_once s) (events s).

(** A connect to the address at [a] whose trustworthy bytes are [bs]: what the hook is
    called with. *)
Definition connect_to (e : env) (sock a : Z) (bs : list Z) : invocation :=
  Inv PConnect [sock; a; Z.of_nat (length bs); 0] e.

(** The kernel's copy of an address: at a non-null place, readable, shorter than 128. *)
Definition sockaddr_at (e : env) (a : Z) (bs : list Z) : Prop :=
  a <> 0 /\ Forall is_byte bs /\ holds (kmem e) a bs /\ (length bs <= 128)%nat.

(** [struct sockaddr_in] and [struct sockaddr_in6] as bytes. *)
Definition sockaddr_in_bytes (port addr zero : list Z) : list Z := [2; 0] ++ port ++ addr ++ zero.
Definition sockaddr_in6_bytes (port flow addr rest : list Z) : list Z :=
  [10; 0] ++ port ++ flow ++ addr ++ rest.
(** ::ffff:a.b.c.d *)
Definition mapped (addr : list Z) : list Z := replicate 10 0 ++ [255; 255] ++ addr.

(** ** Classes *)
Lemma class_in l bits a d :
  d ∈ dst_classes -> Forall (fun p => pf_class p ∈ dst_classes) l -> first_class bits a l d ∈ dst_classes.
Proof. intros Hd. induction 1 as [|p l Hp _ IH]; [done|]. simpl. by destruct (in_prefix _ _ _). Qed.

Ltac in_classes := unfold dst_classes; rewrite !elem_of_cons; tauto.

Lemma classify_v4_class a : classify_v4 a ∈ dst_classes.
Proof. unfold classify_v4. cbv zeta. repeat case_match; in_classes. Qed.

Lemma classify_dest_class e a n : classify_dest e a n ∈ dst_classes.
Proof.
  unfold classify_dest. cbv zeta.
  repeat (case_match; try apply classify_v4_class); in_classes.
Qed.

Lemma class_bit c : c ∈ dst_classes -> exists k, 0 <= k <= 4 /\ c = 2 ^ k.
Proof.
  unfold dst_classes. rewrite !elem_of_cons, elem_of_nil.
  intros [->|[->|[->|[->|[->|[]]]]]];
    [exists 0|exists 1|exists 2|exists 3|exists 4]; split; (lia || reflexivity).
Qed.

Lemma allows_mono m m' c : c ∈ dst_classes -> subset_mask m m' -> allows m c = true -> allows m' c = true.
Proof.
  intros (k & Hk & ->)%class_bit Hs. unfold allows. rewrite !land_pow2, !negb_involutive by lia.
  intros Hb. specialize (Hs k). rewrite Hb in Hs. specialize (Hs ltac:(lia) I). by destruct (Z.testbit m' k).
Qed.

Lemma connect_guarded e sock a bs s :
  sockaddr_at e a bs ->
  guarded (connect_to e sock a bs) s
  = match egress_policy s !! cur_cgroup e with
    | Some mask => negb (allows mask (class_of_sockaddr bs))
    | None => false
    end.
Proof.
  intros (Ha & Hb & Hm & Hl). unfold guarded, connect_to. cbn [i_prog i_ctx i_env nth].
  rewrite s32_small by lia. rewrite classify_dest_bytes by done.
  unfold i_cg, allows. cbn [i_env]. destruct (_ !! _); [|done]. by rewrite negb_involutive.
Qed.

(** C37: The classifier computes the address-plan specification: for a readable socket
    address of any length, [classify_dest] is the class of the first prefix containing the
    IPv4 or IPv6 address the bytes carry (network order), the class of the embedded IPv4
    address for an IPv4-mapped one, and DST_OTHER for a short address or any other family.
    In particular it depends on the [addrlen] bytes only. *)
Theorem classify_dest_refines_prefixes e a bs :
  sockaddr_at e a bs -> classify_dest e a (Z.of_nat (length bs)) = class_of_sockaddr bs.
Proof. intros (Ha & Hb & Hm & _). by apply classify_dest_bytes. Qed.

Lemma sa_v4_at : sockaddr_at agent_env 4096 sa_v4.
Proof.
  split_and!; [done| |split; [done|vm_compute; reflexivity]|vm_compute; lia].
  apply (bool_decide_unpack _). vm_compute. exact I.
Qed.

Lemma classify_dest_refines_prefixes_witness :
  classify_dest agent_env 4096 16 = DST_PUBLIC.
Proof.
  change 16 with (Z.of_nat (length sa_v4)).
  rewrite (classify_dest_refines_prefixes agent_env 4096 sa_v4 sa_v4_at). vm_compute. reflexivity.
Defined.

(** The class is always exactly one of the five bits, whatever memory holds and
    whether or not the reads fault, so the test against a manifest is membership. *)
Theorem class_is_one_bit e a n mask :
  exists k, 0 <= k <= 4 /\ classify_dest e a n = 2 ^ k
            /\ allows mask (classify_dest e a n) = Z.testbit mask k.
Proof.
  destruct (class_bit _ (classify_dest_class e a n)) as (k & Hk & E). exists k. split_and!; [lia..|done|].
  rewrite E. unfold allows. by rewrite land_pow2, negb_involutive by lia.
Qed.

Lemma class_of_in port addr zero :
  length port = 2%nat -> length addr = 4%nat -> length zero = 8%nat ->
  class_of_sockaddr (sockaddr_in_bytes port addr zero) = class_v4 (be_combine addr).
Proof.
  intros Hp Ha Hz. destruct port as [|p0 [|p1 []]]; try done.
  unfold class_of_sockaddr, sockaddr_in_bytes. simpl app.
  rewrite (proj2 (Nat.ltb_ge _ _)) by (simpl; lia). rewrite (firstn_cons 1), (firstn_cons 0), firstn_O.
  change (le_combine [2; 0] =? AF_INET) with true. cbv iota.
  rewrite (proj2 (Nat.ltb_ge _ _)) by (simpl; rewrite length_app; lia).
  cbn [drop]. rewrite drop_0, <- Ha. by rewrite take_app_length.
Qed.

Lemma class_of_in6 port flow addr rest :
  length port = 2%nat -> length flow = 4%nat -> length addr = 16%nat ->
  class_of_sockaddr (sockaddr_in6_bytes port flow addr rest) = class_v6 (be_combine addr).
Proof.
  intros Hp Hf Ha. destruct port as [|p0 [|p1 []]]; try done.
  destruct flow as [|f0 [|f1 [|f2 [|f3 []]]]]; try done.
  unfold class_of_sockaddr, sockaddr_in6_bytes. simpl app.
  rewrite (proj2 (Nat.ltb_ge _ _)) by (simpl; lia). rewrite (firstn_cons 1), (firstn_cons 0), firstn_O.
  change (le_combine [10; 0] =? AF_INET) with false. change (le_combine [10; 0] =? AF_INET6) with true.
  cbv iota. rewrite (proj2 (Nat.ltb_ge _ _)) by (simpl; rewrite length_app; lia).
  cbn [drop]. rewrite drop_0, <- Ha. by rewrite take_app_length.
Qed.

Lemma class_of_mapped addr :
  length addr = 4%nat -> Forall is_byte addr -> class_v6 (be_combine (mapped addr)) = class_v4 (be_combine addr).
Proof.
  intros Ha Hb. unfold mapped. rewrite app_assoc, be_combine_app, Ha.
  pose proof (be_combine_bound addr Hb) as R. rewrite Ha in R.
  change (256 ^ Z.of_nat 4) with (2 ^ 32) in *.
  change (be_combine (replicate 10 0 ++ [255; 255])) with 0xffff.
  unfold class_v6, in_prefix, v4_mapped. cbn [pf_base pf_len]. change (128 - 96) with 32.
  rewrite !Z.div_add_l, (Z.div_small (be_combine addr)) by lia.
  change (0xffff + 0 =? 0xffff * 2 ^ 32 / 2 ^ 32) with true. cbv iota.
  by rewrite Z.add_comm, Z.mod_add, Z.mod_small by lia.
Qed.

(** No bypass through IPv4-mapped IPv6: an AF_INET6 connect to ::ffff:a.b.c.d, with any
    port, flow label and scope, has the class of an AF_INET connect to a.b.c.d. *)
Theorem v4_mapped_no_bypass e a e' a' addr port zero port' flow rest :
  length addr = 4%nat -> length port = 2%nat -> length zero = 8%nat ->
  length port' = 2%nat -> length flow = 4%nat ->
  sockaddr_at e a (sockaddr_in_bytes port addr zero) ->
  sockaddr_at e' a' (sockaddr_in6_bytes port' flow (mapped addr) rest) ->
  classify_dest e' a' (Z.of_nat (length (sockaddr_in6_bytes port' flow (mapped addr) rest)))
  = classify_dest e a (Z.of_nat (length (sockaddr_in_bytes port addr zero))).
Proof.
  intros La Lp Lz Lp' Lf (Ha & Hb & Hm & _) (Ha' & Hb' & Hm' & _).
  rewrite !classify_dest_bytes by done. rewrite class_of_in, class_of_in6 by (unfold mapped; simpl; lia).
  apply class_of_mapped; [done|]. unfold sockaddr_in_bytes in Hb. by rewrite !Forall_app in Hb; destruct Hb as (_ & _ & ? & _).
Qed.

Lemma sa_v6_at : sockaddr_at agent_env 8192 sa_v6.
Proof.
  split_and!; [done| |split; [done|vm_compute; reflexivity]|vm_compute; lia].
  apply (bool_decide_unpack _). vm_compute. exact I.
Qed.

Lemma v4_mapped_no_bypass_witness : classify_dest agent_env 8192 28 = classify_dest agent_env 4096 16.
Proof.
  exact (v4_mapped_no_bypass agent_env 4096 agent_env 8192 [8; 8; 8; 8] [0; 53] (replicate 8 0)
    [0; 53] (replicate 4 0) (replicate 4 0) eq_refl eq_refl eq_refl eq_refl eq_refl sa_v4_at sa_v6_at).
Defined.

(** End-to-end egress decision: with the connect hook armed, a connect by a non-TCB
    cgroup is denied exactly when the cgroup has a manifest and the class of the address
    bytes is not in it; without a manifest it is allowed. *)
Theorem egress_decision e sock a bs s :
  sockaddr_at e a bs -> is_tcb s (cur_cgroup e) = false -> armed s HOOK_CONNECT = true ->
  (invoke (connect_to e sock a bs) s).1
  = match egress_policy s !! cur_cgroup e with
    | Some mask => if allows mask (class_of_sockaddr bs) then 0 else - EPERM
    | None => 0
    end.
Proof.
  intros Hs Ht Ha. rewrite invoke_eq. cbn [negb fst i_ret connect_to ret_arg Z.eqb].
  change (i_ret (connect_to e sock a bs)) with 0. cbn [Z.eqb negb].
  rewrite connect_guarded by done. unfold outcome_of, gate, i_cg. cbn [i_env connect_to i_prog prog_hook].
  rewrite Ht, Ha. destruct (_ !! _) as [mask|]; [|done]. by destruct (allows _ _).
Qed.

Lemma egress_decision_witness : (invoke (connect_to agent_env 0 4096 sa_v4) armed_state).1 = - EPERM.
Proof.
  rewrite (egress_decision agent_env 0 4096 sa_v4 armed_state sa_v4_at) by (vm_compute; reflexivity).
  vm_compute. reflexivity.
Defined.

(** Attenuation: shrinking a cgroup's manifest never allows a connect the larger one
    denied, in any state and for any destination. *)
Theorem narrowing_never_widens e sock address addrlen s m m' :
  subset_mask m m' ->
  (invoke (Inv PConnect [sock; address; addrlen; 0] e) (set_mask (cur_cgroup e) m s)).1 = 0 ->
  (invoke (Inv PConnect [sock; address; addrlen; 0] e) (set_mask (cur_cgroup e) m' s)).1 = 0.
Proof.
  intros Hs. set (i := Inv PConnect _ e). rewrite !invoke_eq. change (i_ret i) with 0.
  cbn [Z.eqb negb fst]. unfold guarded, i, outcome_of, gate, i_cg, is_tcb, armed, set_mask.
  cbn [i_prog i_ctx i_env nth prog_hook egress_policy tcb_cgroups enforce_flags].
  rewrite !lookup_insert_eq.
  pose proof (allows_mono m m' _ (classify_dest_class e address (s32 addrlen)) Hs) as Hm.
  unfold allows in Hm. revert Hm. generalize (classify_dest e address (s32 addrlen)). intros c Hm.
  destruct (is_one (tcb_cgroups s !! _)); [by destruct (Z.land m' c =? 0)|].
  destruct (is_one (array_lookup (enforce_flags s) _)), (Z.land m c =? 0), (Z.land m' c =? 0);
    simpl in *; intuition discriminate.
Qed.

Lemma narrowing_never_widens_witness :
  (invoke (Inv PConnect [0; 4096; 16; 0] agent_env) (set_mask 7 12 armed_state)).1 = 0.
Proof.
  apply (narrowing_never_widens agent_env 0 4096 16 armed_state 8 12).
  - apply ldiff_0_subset. vm_compute. reflexivity.
  - vm_compute. reflexivity.
Defined.
