(* ===== verification/Privilege.v ===== *)
(** * Privilege gains: the setuid and capset programs over credentials in memory *)
From Stdlib Require Import ZArith Lia.
From stdpp Require Import base tactics numbers strings option list gmap.
From S2P Require Import Prelude Endian CType Vmlinux Tracing Objects Maps Kernel Classify Hooks Fixtures HookProps.
#[local] Open Scope Z_scope.

(** A [struct cred] in readable memory, and the fields the programs read of it, at the
    offsets its layout gives them. *)
Definition cred_at (e : env) (c : Z) (bs : list Z) : Prop :=
  holds (kmem e) c bs /\ Z.of_nat (length bs) = sizeof struct_cred /\ Forall is_byte bs.

Definition cred_field (path : list string) (n : nat) (bs : list Z) : Z :=
  le_combine (take n (drop (Z.to_nat (default 0 (offsetof struct_cred path))) bs)).

Definition euid (bs : list Z) : Z := cred_field ["euid"; "val"]%string 4 bs.
Definition cap_effective (bs : list Z) : Z := cred_field ["cap_effective"; "val"]%string 8 bs.
Definition cap_permitted (bs : list Z) : Z := cred_field ["cap_permitted"; "val"]%string 8 bs.
Definition cap_inheritable (bs : list Z) : Z := cred_field ["cap_inheritable"; "val"]%string 8 bs.

(** A [kernel_cap_t] of value [v] in readable memory. *)
Definition cap_at (e : env) (p v : Z) : Prop := holds (kmem e) p (le_split 8 v) /\ in_width 64 v.

(** Nothing exempts the current task from the hook. *)
Definition exposed (e : env) (hook : Z) (s : kstate) : Prop :=
  is_tcb s (cur_cgroup e) = false /\ armed s hook = true
  /\ live_grant s (cur_ktime e) (cur_cgroup e) hook = false.

Definition unreadable (e : env) (a : Z) (n : nat) : Prop := read_bytes (kmem e) a n = None.

(** ** Reading credentials *)
Lemma cred_read e c bs path n x (off : nat) :
  cred_at e c bs -> offsetof struct_cred path = Some (Z.of_nat off) -> (off + n <= 184)%nat ->
  probe_read_scalar e n x (field_addr c struct_cred path) = cred_field path n bs.
Proof.
  intros (Hm & Hl & _) Ho Hn. change (sizeof struct_cred) with 184 in Hl.
  rewrite (field_addr_at _ _ _ off) by done. unfold cred_field. rewrite Ho.
  replace (Z.to_nat (default 0 (Some (Z.of_nat off)))) with off by (simpl; lia).
  apply probe_scalar_sub; [done|lia].
Qed.

Lemma cap_read e p v x : cap_at e p v -> probe_read_scalar e 8 x p = v.
Proof.
  intros [Hm Hv]. pose proof Hm as [Hp _].
  pose proof (probe_scalar_sub e p (le_split 8 v) 0 8 x Hm) as H.
  change (Z.of_nat 0) with 0 in H. rewrite Z.add_0_r, length_le_split in H. unfold u64 in H.
  rewrite wrap_id in H by done. rewrite H, drop_0 by lia. rewrite <- (length_le_split 8 v) at 1.
  rewrite take_ge by done. rewrite le_combine_split. by apply Z.mod_small.
Qed.

Lemma raised_subset n o : in_width 64 n -> raised n o = 0 <-> subset_mask n o.
Proof.
  intros Hn. rewrite <- ldiff_0_subset. unfold raised, u64.
  replace (Z.land n (wrap 64 (Z.lnot o))) with (Z.ldiff n o); [done|].
  bitwise_intro i Hi. destruct (Z.ltb_spec i 64); [done|].
  by rewrite (testbit_above 64) by (done || lia).
Qed.

Lemma setuid_gain_fields e new old bn bo :
  cred_at e new bn -> cred_at e old bo ->
  setuid_gain e new old = if (euid bn =? 0) && negb (euid bo =? 0) then 1 else 0.
Proof.
  intros Hn Ho. unfold setuid_gain. cbv zeta.
  rewrite (cred_read e new bn _ 4 1 24), (cred_read e old bo _ 4 1 24)
    by (done || lia || (vm_compute; reflexivity)). done.
Qed.

Lemma capset_gain_fields e old eff inh perm bo ne np ni :
  cred_at e old bo -> cap_at e eff ne -> cap_at e perm np -> cap_at e inh ni ->
  capset_gain e old eff inh perm = 0 <->
  subset_mask ne (cap_effective bo) /\ subset_mask np (cap_permitted bo)
  /\ subset_mask ni (cap_inheritable bo).
Proof.
  intros Ho He Hp Hi. unfold capset_gain. cbv zeta.
  rewrite (cap_read _ _ _ _ He), (cap_read _ _ _ _ Hp), (cap_read _ _ _ _ Hi).
  rewrite (cred_read e old bo _ 8 0 64), (cred_read e old bo _ 8 0 56), (cred_read e old bo _ 8 0 48)
    by (done || lia || (vm_compute; reflexivity)).
  destruct He as [_ He], Hp as [_ Hp], Hi as [_ Hi].
  unfold cap_effective, cap_permitted, cap_inheritable.
  rewrite <- (raised_subset ne), <- (raised_subset np), <- (raised_subset ni) by done.
  repeat match goal with |- context [raised ?a ?b =? 0] => destruct (Z.eqb_spec (raised a b) 0) end;
    simpl; intuition discriminate.
Qed.

Lemma exposed_verdict i s :
  i_ret i = 0 -> grantable (i_prog i) = true -> exposed (i_env i) (prog_hook (i_prog i)) s ->
  (invoke i s).1 = if guarded i s then - EPERM else 0.
Proof.
  intros Hr Hp (Ht & Ha & Hl). rewrite invoke_eq, Hr. cbn [Z.eqb negb fst].
  unfold outcome_of, gate, i_cg. rewrite Ht, Ha, Hl, Hp. by destruct (guarded i s).
Qed.

Lemma cred_user_at : cred_at agent_env 12288 cred_user.
Proof.
  split_and!; [split; [done|vm_compute; reflexivity]|vm_compute; reflexivity|].
  apply (bool_decide_unpack _). vm_compute. exact I.
Qed.

Lemma cred_root_at : cred_at agent_env 16384 cred_root.
Proof.
  split_and!; [split; [done|vm_compute; reflexivity]|vm_compute; reflexivity|].
  apply (bool_decide_unpack _). vm_compute. exact I.
Qed.

Lemma cap_0_at : cap_at agent_env 20480 0.
Proof. split_and!; [split; [done|vm_compute; reflexivity]|done]. Qed.

Lemma cap_1_at : cap_at agent_env 24576 1.
Proof. split_and!; [split; [done|vm_compute; reflexivity]|done]. Qed.

(** ** Properties *)

(** With the setuid hook armed, an agent without a grant is denied exactly when the
    transition acquires effective uid 0 from a non-zero one; drops, no-ops and root to
    root are allowed. The effective uids are those of the two [struct cred]. *)
Theorem setuid_denied_iff_root_gained e new old flags s bn bo :
  cred_at e new bn -> cred_at e old bo -> exposed e HOOK_SETUID s ->
  (invoke (Inv PSetuid [new; old; flags; 0] e) s).1 = - EPERM <-> euid bn = 0 /\ euid bo <> 0.
Proof.
  intros Hn Ho Hx. rewrite exposed_verdict by done.
  unfold guarded. cbn [i_prog i_ctx i_env nth]. rewrite (setuid_gain_fields e new old bn bo) by done.
  destruct (Z.eqb_spec (euid bn) 0), (Z.eqb_spec (euid bo) 0); simpl; intuition discriminate.
Qed.

Lemma setuid_denied_iff_root_gained_witness :
  (invoke (Inv PSetuid [16384; 12288; 0; 0] agent_env) armed_state).1 = - EPERM.
Proof.
  apply (setuid_denied_iff_root_gained agent_env 16384 12288 0 armed_state _ _ cred_root_at cred_user_at).
  - split_and!; vm_compute; reflexivity.
  - split; vm_compute; congruence.
Defined.

(** With the capset hook armed, an agent without a grant is allowed exactly when the
    requested effective, permitted and inheritable sets are each contained in the set the
    task already holds: a drop or a no-op in all three, a raise in none. *)
Theorem capset_allowed_iff_no_raise e new old eff inh perm s bo ne np ni :
  cred_at e old bo -> cap_at e eff ne -> cap_at e perm np -> cap_at e inh ni ->
  exposed e HOOK_CAPSET s ->
  (invoke (Inv PCapset [new; old; eff; inh; perm; 0] e) s).1 = 0 <->
  subset_mask ne (cap_effective bo) /\ subset_mask np (cap_permitted bo)
  /\ subset_mask ni (cap_inheritable bo).
Proof.
  intros Ho He Hp Hi Hx. rewrite exposed_verdict by done.
  rewrite <- (capset_gain_fields e old eff inh perm bo ne np ni) by done.
  unfold guarded. cbn [i_prog i_ctx i_env nth].
  destruct (Z.eqb_spec (capset_gain e old eff inh perm) 0); simpl; intuition discriminate.
Qed.

Lemma capset_allowed_iff_no_raise_witness :
  (invoke (Inv PCapset [0; 12288; 20480; 20480; 20480; 0] agent_env) armed_state).1 = 0.
Proof.
  apply (capset_allowed_iff_no_raise agent_env 0 12288 20480 20480 20480 armed_state _ 0 0 0
           cred_user_at cap_0_at cap_0_at cap_0_at).
  - split_and!; vm_compute; reflexivity.
  - split_and!; apply ldiff_0_subset; vm_compute; reflexivity.
Defined.

(** A failed read of the new credentials in the setuid program is no gain if the
    failing helper leaves its destination alone (the initial 1 stands), and is a gain, hence
    a denial when armed, if it clears it and the old effective uid is not 0. The outcome
    rests on the helper, not on the initial value. *)
Theorem setuid_failed_read e new old bo :
  cred_at e old bo -> euid bo <> 0 -> unreadable e (field_addr new struct_cred ["euid"; "val"]%string) 4 ->
  (fault_fill e (le_split 4 1) = le_split 4 1 -> setuid_gain e new old = 0)
  /\ (fault_fill e (le_split 4 1) = [0; 0; 0; 0] -> setuid_gain e new old = 1).
Proof.
  intros Ho He Hu. unfold setuid_gain. cbv zeta.
  rewrite (cred_read e old bo _ 4 1 24) by (done || lia || (vm_compute; reflexivity)).
  unfold probe_read_scalar, bpf_probe_read_kernel. rewrite length_le_split. unfold unreadable in Hu.
  rewrite Hu. cbn [from_option]. unfold euid in He.
  split; intros Hf; rewrite Hf; [done|]. by destruct (Z.eqb_spec (cred_field ["euid"; "val"]%string 4 bo) 0).
Qed.

Lemma setuid_failed_read_witness :
  setuid_gain agent_env 0 12288 = 0 /\ setuid_gain clearing_env 0 12288 = 1.
Proof.
  split.
  - apply (setuid_failed_read agent_env 0 12288 _ cred_user_at); vm_compute; congruence.
  - apply (setuid_failed_read clearing_env 0 12288 _ cred_user_at); vm_compute; congruence.
Defined.

(** A failed read of the OLD capability sets counts as holding none: whether the
    helper clears its destination or leaves it, any non-empty request is then a gain. *)
Theorem capset_failed_old_read e old eff inh perm ne :
  cap_at e eff ne -> ne <> 0 ->
  unreadable e (field_addr old struct_cred ["cap_effective"; "val"]%string) 8 ->
  fault_fill e (le_split 8 0) = le_split 8 0 ->
  capset_gain e old eff inh perm = 1.
Proof.
  intros He Hne Hu Hf. unfold capset_gain. cbv zeta. rewrite (cap_read _ _ _ _ He).
  assert (probe_read_scalar e 8 0 (field_addr old struct_cred ["cap_effective"; "val"]%string) = 0) as ->.
  { unfold probe_read_scalar, bpf_probe_read_kernel. rewrite length_le_split. unfold unreadable in Hu.
    rewrite Hu. cbn [from_option]. by rewrite Hf. }
  destruct He as [_ He]. pose proof (raised_subset ne 0 He) as Hr.
  destruct (Z.eqb_spec (raised ne 0) 0) as [E|_]; [|done]. destruct Hne. apply Hr in E.
  apply Z.bits_inj'. intros i Hi. rewrite Z.bits_0. specialize (E i Hi). rewrite Z.bits_0 in E.
  destruct (Z.testbit ne i); [by destruct E|done].
Qed.

Lemma capset_failed_old_read_witness : capset_gain agent_env 0 24576 20480 20480 = 1.
Proof.
  apply (capset_failed_old_read agent_env 0 24576 20480 20480 1 cap_1_at); vm_compute; congruence.
Defined.
