(* ===== verification/Grants.v ===== *)
(** * One-shot grants under concurrency: [try_consume_grant] step by step

    Several threads of an agent may race for a grant while user space issues and clears
    grants. The hash map is modelled as the kernel has it: a table from keys to elements,
    and the elements' values, which a thread reaches through the pointer its lookup
    returned even after the element has left the table. A thread of [try_consume_grant]
    takes four atomic steps: lookup, test of the lifetime, compare-and-swap, delete.

    [reuse] says whether a new grant may be stored in an element that has left the table
    while a thread still holds a pointer to it; it is a parameter, since it is a property
    of the kernel's map and not of this code. *)
From Stdlib Require Import ZArith Lia.
From stdpp Require Import base tactics numbers strings option list gmap relations.
From S2P Require Import Prelude CType Objects Maps Kernel Classify Hooks Fixtures.
#[local] Open Scope Z_scope.

Record mem := Mem { table : gmap grant_key nat; cells : gmap nat grant_val }.

(** Where a thread stands in [try_consume_grant]. *)
Inductive pc :=
| Lookup                  (* before [bpf_map_lookup_elem] *)
| Test (p : nat)          (* [v] points to [p] *)
| Cas (p : nat)           (* not lapsed: about to compare-and-swap *)
| Delete                  (* won: about to delete the key *)
| Done (won : bool).

Definition lapsed (now : Z) (v : grant_val) : bool :=
  negb (gv_expire_ns v =? 0) && (gv_expire_ns v <? now).

(** One atomic step of a thread consuming the grant of [k] at time [now]. *)
Definition tstep (k : grant_key) (now : Z) (c : pc) (m : mem) : option (pc * mem) :=
  match c with
  | Lookup => Some (match table m !! k with Some p => Test p | None => Done false end, m)
  | Test p => v ← cells m !! p; Some (if lapsed now v then Done false else Cas p, m)
  | Cas p =>
      v ← cells m !! p;
      Some (if gv_count v =? 1
            then (Delete, Mem (table m) (<[p := GrantVal 0 (gv_expire_ns v)]> (cells m)))
            else (Done false, m))
  | Delete => Some (Done true, Mem (delete k (table m)) (cells m))
  | Done _ => None
  end.

(** The element a new grant is stored in. *)
Definition can_store (reuse : bool) (m : mem) (p : nat) : Prop :=
  if reuse then map_Forall (fun _ q => q <> p) (table m) else cells m !! p = None.

(** A system of threads; [owner] and [issued] are history: the key an element was last
    issued for and the grants issued. *)
Record config := Config {
  c_mem : mem;
  c_threads : list (grant_key * pc);
  c_owner : gmap nat grant_key;
  c_issued : list grant_key }.

Inductive thread_step : config -> config -> Prop :=
| thread_moves i k c now c' m' cfg :
    c_threads cfg !! i = Some (k, c) ->
    tstep k now c (c_mem cfg) = Some (c', m') ->
    thread_step cfg (Config m' (<[i := (k, c')]> (c_threads cfg)) (c_owner cfg) (c_issued cfg)).

Inductive step (reuse : bool) : config -> config -> Prop :=
| step_thread cfg cfg' : thread_step cfg cfg' -> step reuse cfg cfg'
| step_spawn k cfg :
    step reuse cfg (Config (c_mem cfg) (c_threads cfg ++ [(k, Lookup)]) (c_owner cfg) (c_issued cfg))
| step_grant k p expire cfg :
    can_store reuse (c_mem cfg) p ->
    step reuse cfg (Config (Mem (<[k := p]> (table (c_mem cfg)))
                              (<[p := GrantVal 1 expire]> (cells (c_mem cfg))))
                      (c_threads cfg) (<[p := k]> (c_owner cfg)) (k :: c_issued cfg))
| step_clear k cfg :
    step reuse cfg (Config (Mem (delete k (table (c_mem cfg))) (cells (c_mem cfg)))
                      (c_threads cfg) (c_owner cfg) (c_issued cfg)).

Definition initial : config := Config (Mem ∅ ∅) [] ∅ [].

(** Threads that have won the compare-and-swap. *)
Definition won (c : pc) : bool := match c with Delete | Done true => true | _ => false end.
Definition wins (q : grant_key -> bool) (cfg : config) : nat :=
  count_if (fun t => q t.1 && won t.2) (c_threads cfg).
Definition issued (q : grant_key -> bool) (cfg : config) : nat := count_if q (c_issued cfg).

(** ** The invariant *)
Section invariant.
  Context (reuse : bool) (q : grant_key -> bool).

(** The test an element passes when it holds an unspent grant issued for a key of [q]. *)
Definition holds_grant (o : gmap nat grant_key) (p : nat) (v : grant_val) : bool :=
  (if o !! p is Some k then q k else false) && (gv_count v =? 1).

Definition unspent (cfg : config) : nat := count_map (holds_grant (c_owner cfg)) (cells (c_mem cfg)).

Definition pointer (c : pc) : option nat := match c with Test p | Cas p => Some p | _ => None end.

(** The element [p] was issued for a key that [q] does not tell from [k]. *)
Definition owned (o : gmap nat grant_key) (k : grant_key) (p : nat) : Prop :=
  exists k', o !! p = Some k' /\ q k' = q k.

(** Every pointer of the table and of a thread is owned, and the winners and the unspent
    grants together do not exceed the grants issued. *)
Record inv (cfg : config) : Prop := {
  inv_table : map_Forall (owned (c_owner cfg)) (table (c_mem cfg));
  inv_threads : Forall (fun t => forall p, pointer t.2 = Some p -> owned (c_owner cfg) t.1 p)
                  (c_threads cfg);
  inv_owner : forall p, is_Some (c_owner cfg !! p) <-> is_Some (cells (c_mem cfg) !! p);
  inv_count : (wins q cfg + unspent cfg <= issued q cfg)%nat }.

Lemma inv_initial : inv initial.
Proof.
  split; [done|constructor| |].
  - intros p. simpl. rewrite !lookup_empty. done.
  - change (wins q initial) with 0%nat. change (unspent initial) with 0%nat. lia.
Qed.

(** Either elements are never reused, or [q] does not tell keys apart. *)
Context (Hq : reuse = false \/ forall k, q k = true).

Lemma can_store_fresh m p : can_store reuse m p -> reuse = false -> cells m !! p = None.
Proof. intros H ->. done. Qed.

Lemma owned_store cfg k p k' p' :
  inv cfg -> can_store reuse (c_mem cfg) p ->
  owned (c_owner cfg) k' p' -> owned (<[p := k]> (c_owner cfg)) k' p'.
Proof.
  intros Hi Hs (k0 & Ho & E). unfold owned. destruct (decide (p = p')) as [<-|Hne].
  - exists k. rewrite lookup_insert_eq. split; [done|]. destruct Hq as [Hr|Hall]; [|by rewrite !Hall].
    apply can_store_fresh in Hs; [|done].
    destruct (proj1 (inv_owner _ Hi p)) as [v Hv]; [eauto|congruence].
  - exists k0. by rewrite lookup_insert_ne.
Qed.

Lemma holds_grant_store cfg k p p' v :
  inv cfg -> can_store reuse (c_mem cfg) p -> cells (c_mem cfg) !! p' = Some v ->
  holds_grant (<[p := k]> (c_owner cfg)) p' v = holds_grant (c_owner cfg) p' v.
Proof.
  intros Hi Hs Hv. unfold holds_grant. destruct (decide (p = p')) as [<-|Hne];
    [|by rewrite lookup_insert_ne].
  rewrite lookup_insert_eq. destruct (proj2 (inv_owner _ Hi p)) as [k0 ->]; [eauto|].
  destruct Hq as [Hr|Hall]; [|by rewrite !Hall].
  apply can_store_fresh in Hs; [congruence|done].
Qed.

(** A new grant adds at most one unspent element of a key of [q]. *)
Lemma unspent_grant cfg k p v :
  inv cfg -> can_store reuse (c_mem cfg) p ->
  (count_map (holds_grant (<[p := k]> (c_owner cfg))) (<[p := v]> (cells (c_mem cfg)))
   <= unspent cfg + (if q k then 1 else 0))%nat.
Proof.
  intros Hi Hs. unfold unspent.
  rewrite (count_map_ext _ (holds_grant (<[p := k]> (c_owner cfg))) (cells (c_mem cfg)))
    by (intros; symmetry; by apply holds_grant_store).
  pose proof (count_map_insert (holds_grant (<[p := k]> (c_owner cfg))) p v (cells (c_mem cfg))) as H.
  assert (((if holds_grant (<[p:=k]> (c_owner cfg)) p v then 1 else 0) <= (if q k then 1 else 0))%nat); [|lia].
  unfold holds_grant. rewrite lookup_insert_eq. destruct (q k), (gv_count v =? 1); simpl; lia.
Qed.

(** The winner of a compare-and-swap trades an unspent grant of its own class for a win. *)
Lemma unspent_cas cfg k p v :
  owned (c_owner cfg) k p -> cells (c_mem cfg) !! p = Some v -> gv_count v = 1 ->
  (count_map (holds_grant (c_owner cfg)) (<[p := GrantVal 0 (gv_expire_ns v)]> (cells (c_mem cfg)))
   + (if q k then 1 else 0))%nat = unspent cfg.
Proof.
  intros (k' & Ho & Ek) Hv Hc.
  pose proof (count_map_insert (holds_grant (c_owner cfg)) p (GrantVal 0 (gv_expire_ns v))
                (cells (c_mem cfg))) as H.
  rewrite Hv in H. unfold holds_grant in H at 2 4. rewrite Ho, Ek, Hc in H. simpl in H.
  rewrite andb_true_r, andb_false_r in H. unfold unspent. destruct (q k); lia.
Qed.

Lemma wins_insert cfg i k c c' m' :
  c_threads cfg !! i = Some (k, c) ->
  (wins q (Config m' (<[i := (k, c')]> (c_threads cfg)) (c_owner cfg) (c_issued cfg))
   + (if q k && won c then 1 else 0) = wins q cfg + (if q k && won c' then 1 else 0))%nat.
Proof. intros Hi. exact (count_if_insert (fun t => q t.1 && won t.2) i (k, c) (k, c') _ Hi). Qed.

Lemma inv_thread cfg i k c now c' m' :
  inv cfg -> c_threads cfg !! i = Some (k, c) -> tstep k now c (c_mem cfg) = Some (c', m') ->
  inv (Config m' (<[i := (k, c')]> (c_threads cfg)) (c_owner cfg) (c_issued cfg)).
Proof.
  intros Hi Ht Hs. pose proof Hi as [Htab Hthr Hown Hcnt].
  pose proof (wins_insert cfg i k c c' m' Ht) as Hw.
  pose proof (Forall_lookup_1 _ _ _ _ Hthr Ht) as Hp. cbn [fst snd] in Hp.
  unfold tstep in Hs. destruct c as [|p|p| |b].
  - injection Hs as <- <-. split; cbn [c_mem c_owner c_threads]; [done| |done|].
    + apply Forall_insert; [done|]. cbn. intros p. destruct (table (c_mem cfg) !! k) eqn:E; [|done].
      intros [= ->]. by apply Htab in E.
    + change (unspent _) with (unspent cfg). change (issued q _) with (issued q cfg).
      destruct (table (c_mem cfg) !! k), (q k); simpl in *; lia.
  - destruct (cells (c_mem cfg) !! p) as [v|] eqn:Hv; [|done]. cbn [mbind option_bind] in Hs. injection Hs as <- <-.
    split; cbn [c_mem c_owner c_threads]; [done| |done|].
    + apply Forall_insert; [done|]. cbn. intros p'. destruct (lapsed now v); [done|].
      intros [= ->]. by apply Hp.
    + change (unspent _) with (unspent cfg). change (issued q _) with (issued q cfg).
      destruct (lapsed now v), (q k); simpl in *; lia.
  - destruct (cells (c_mem cfg) !! p) as [v|] eqn:Hv; [|done]. cbn [mbind option_bind] in Hs.
    destruct (Z.eqb_spec (gv_count v) 1) as [Hc|Hc]; cbv iota in Hs; injection Hs as <- <-.
    + split; cbn [c_mem c_owner c_threads table cells]; [done|by apply Forall_insert| |].
      * intros p'. rewrite Hown. destruct (decide (p = p')) as [<-|?];
          [rewrite lookup_insert_eq, Hv; split; eauto|by rewrite lookup_insert_ne].
      * pose proof (unspent_cas cfg k p v (Hp p eq_refl) Hv Hc) as Hu.
        unfold unspent at 1. cbn [c_mem c_owner cells]. change (issued q _) with (issued q cfg).
        destruct (q k); simpl in *; lia.
    + split; cbn [c_mem c_owner c_threads]; [done|by apply Forall_insert|done|].
      change (unspent _) with (unspent cfg). change (issued q _) with (issued q cfg).
      destruct (q k); simpl in *; lia.
  - injection Hs as <- <-. split; cbn [c_mem c_owner c_threads table cells];
      [by apply map_Forall_delete|by apply Forall_insert|done|].
    change (unspent _) with (unspent cfg). change (issued q _) with (issued q cfg).
    destruct (q k); simpl in *; lia.
  - done.
Qed.

Lemma inv_step cfg cfg' : inv cfg -> step reuse cfg cfg' -> inv cfg'.
Proof.
  intros Hi Hs. destruct Hs as [cfg cfg' [i k c now c' m' ? Ht Hs]|k cfg|k p expire cfg Hs|k cfg].
  - by apply inv_thread with c now.
  - destruct Hi as [Htab Hthr Hown Hcnt]. split; cbn [c_mem c_owner c_threads]; [done| |done|].
    + apply Forall_app. split; [done|]. by repeat constructor.
    + change (unspent _) with (unspent cfg). change (issued q _) with (issued q cfg).
      unfold wins in *. cbn [c_threads]. rewrite count_if_app, count_if_cons. cbn [fst snd won].
      rewrite andb_false_r. change (count_if _ []) with 0%nat. lia.
  - split; cbn [c_mem c_owner c_threads table cells].
    + apply map_Forall_insert_2; [exists k; by rewrite lookup_insert_eq|].
      intros k' p' Hk. apply owned_store; [done..|]. by apply (inv_table _ Hi).
    + eapply Forall_impl; [apply (inv_threads _ Hi)|]. intros t H p' Hp. apply owned_store; auto.
    + intros p'. destruct (decide (p = p')) as [<-|?]; [rewrite !lookup_insert_eq; split; eauto|].
      rewrite !lookup_insert_ne by done. apply (inv_owner _ Hi).
    + pose proof (unspent_grant cfg k p (GrantVal 1 expire) Hi Hs) as Hu.
      pose proof (inv_count _ Hi) as Hc. unfold unspent, issued, wins in *.
      cbn [c_mem c_owner c_threads c_issued cells]. rewrite count_if_cons. lia.
  - destruct Hi as [Htab Hthr Hown Hcnt]. split; cbn [c_mem c_owner c_threads table cells];
      [by apply map_Forall_delete|done..].
Qed.

Lemma inv_reachable cfg : rtc (step reuse) initial cfg -> inv cfg.
Proof.
  intros Hr. apply (rtc_ind_r (R := step reuse) inv initial); [apply inv_initial| |done].
  intros ? ? _ Hs Hi. by eapply inv_step.
Qed.
End invariant.

(** ** Threads racing for one grant *)
Section race.
  Context (k : grant_key) (n p : nat).

Definition race : config :=
  Config (Mem {[k := p]} {[p := GrantVal 1 0]}) (replicate n (k, Lookup)) {[p := k]} [k].

Definition is_winner (t : grant_key * pc) : bool := won t.2.
Definition is_loser (t : grant_key * pc) : bool := match t.2 with Done false => true | _ => false end.

(** Before the compare-and-swap nobody has won or lost and the grant is in place; after it
    exactly one thread has won and the element is spent. *)
Record race_inv (cfg : config) : Prop := {
  ri_key : Forall (fun t => t.1 = k /\ forall q, pointer t.2 = Some q -> q = p) (c_threads cfg);
  ri_table : forall q, table (c_mem cfg) !! k = Some q -> q = p;
  ri_cell : exists c, cells (c_mem cfg) !! p = Some (GrantVal c 0) /\
    ((c = 1 /\ count_if is_winner (c_threads cfg) = 0%nat
      /\ count_if is_loser (c_threads cfg) = 0%nat /\ table (c_mem cfg) !! k = Some p)
     \/ (c = 0 /\ count_if is_winner (c_threads cfg) = 1%nat)) }.

Lemma count_if_replicate {A} (f : A -> bool) m x : f x = false -> count_if f (replicate m x) = 0%nat.
Proof. intros Hf. induction m as [|m IH]; [done|]. cbn [replicate]. by rewrite count_if_cons, Hf, IH. Qed.

Lemma race_inv_initial : race_inv race.
Proof.
  split; cbn [race c_mem c_threads table cells].
  - by apply Forall_replicate.
  - intros q. rewrite lookup_singleton_eq. congruence.
  - exists 1. rewrite !lookup_singleton_eq. split; [done|]. left. rewrite !count_if_replicate by done. done.
Qed.

Lemma race_inv_step cfg cfg' : race_inv cfg -> thread_step cfg cfg' -> race_inv cfg'.
Proof.
  intros Hri Hst. destruct Hst as [i k' c now c' m' cfg Hi Hs].
  destruct Hri as [Hk Ht (cnt & Hc & Hcase)].
  destruct (Forall_lookup_1 _ _ _ _ Hk Hi) as [E Hp]. cbn [fst snd] in E, Hp. subst k'.
  pose proof (count_if_insert is_winner i _ (k, c') _ Hi) as Hw.
  pose proof (count_if_insert is_loser i _ (k, c') _ Hi) as Hl.
  assert (forall q, pointer c = Some q -> cells (c_mem cfg) !! q = Some (GrantVal cnt 0)) as Hv
    by (intros q Hq; by rewrite (Hp q Hq)).
  unfold tstep in Hs. destruct c as [|q|q| |b]; cbn [pointer] in *; [..|done].
  - injection Hs as <- <-. destruct (table (c_mem cfg) !! k) as [q|] eqn:E.
    + rewrite (Ht q eq_refl) in *. simpl in Hw, Hl. split; cbn [c_mem c_threads]; [|naive_solver|].
      * apply Forall_insert; [done|]. cbn. naive_solver.
      * exists cnt. split; [done|]. destruct Hcase as [?|?]; [left|right]; intuition lia.
    + simpl in Hw, Hl. split; cbn [c_mem c_threads]; [by apply Forall_insert|congruence|].
      exists cnt. split; [done|]. destruct Hcase as [?|?]; [naive_solver|right]; intuition lia.
  - rewrite (Hv q eq_refl) in Hs. simpl in Hs. injection Hs as <- <-. simpl in Hw, Hl.
    split; cbn [c_mem c_threads]; [|done|].
    + apply Forall_insert; [done|]. cbn. naive_solver.
    + exists cnt. split; [done|]. destruct Hcase as [?|?]; [left|right]; intuition lia.
  - rewrite (Hv q eq_refl) in Hs. simpl in Hs. rewrite (Hp q eq_refl) in *.
    destruct Hcase as [(-> & ? & ? & ?)|(-> & ?)]; simpl in Hs; injection Hs as <- <-; simpl in Hw, Hl;
      (split; cbn [c_mem c_threads table cells]; [by apply Forall_insert|done|]).
    + exists 0. rewrite lookup_insert_eq. split; [done|]. right. split; [done|lia].
    + exists 0. split; [done|]. right. split; [done|lia].
  - injection Hs as <- <-. simpl in Hw, Hl. split; cbn [c_mem c_threads table cells].
    + by apply Forall_insert.
    + intros q. by rewrite lookup_delete_eq.
    + exists cnt. split; [done|]. right. destruct Hcase as [(_ & Hz & _)|(-> & ?)]; [|split; [done|lia]].
      pose proof (count_if_insert is_winner i _ (k, Lookup) _ Hi) as H. simpl in H. lia.
Qed.

(** Steps a thread has left. *)
Definition fuel (c : pc) : nat :=
  match c with Lookup => 4 | Test _ => 3 | Cas _ => 2 | Delete => 1 | Done _ => 0 end.

Lemma tstep_fuel k' now c m c' m' : tstep k' now c m = Some (c', m') -> (fuel c' < fuel c)%nat.
Proof.
  destruct c as [|q|q| |b]; cbn [tstep mbind option_bind]; intros H; simplify_option_eq; simpl;
    repeat case_match; simplify_eq; simpl; lia.
Qed.

Definition work (cfg : config) : nat := sum_list_with (fun t => fuel t.2) (c_threads cfg).

Lemma thread_step_work cfg cfg' : thread_step cfg cfg' -> (work cfg' < work cfg)%nat.
Proof.
  intros [i k' c now c' m' cfg0 Hi Hs]. apply tstep_fuel in Hs. unfold work. cbn [c_threads].
  pose proof (sum_list_with_insert (fun t => fuel t.2) i _ (k', c') _ Hi). simpl in *. lia.
Qed.

Lemma work_bound m cfg cfg' : nsteps thread_step m cfg cfg' -> (m + work cfg' <= work cfg)%nat.
Proof. induction 1 as [|? ? ? ? Hs _ IH]; [lia|]. apply thread_step_work in Hs. lia. Qed.

Lemma race_inv_reachable cfg : rtc thread_step race cfg -> race_inv cfg.
Proof.
  intros Hr. apply (rtc_ind_r (R := thread_step) race_inv race); [apply race_inv_initial| |done].
  intros ? ? _ Hs Hi. by eapply race_inv_step.
Qed.

Lemma race_progress cfg :
  race_inv cfg -> (forall cfg', ~ thread_step cfg cfg') ->
  Forall (fun t => exists b, t.2 = Done b) (c_threads cfg).
Proof.
  intros [Hk _ (cnt & Hc & _)] Hstuck. apply Forall_lookup. intros i [k' c] Hi.
  destruct (Forall_lookup_1 _ _ _ _ Hk Hi) as [E Hp]. cbn [fst snd] in *. subst k'.
  destruct (tstep k 0 c (c_mem cfg)) as [[c' m']|] eqn:E; [by edestruct Hstuck; econstructor|].
  destruct c as [|q|q| |b]; cbn [tstep pointer] in *; [done| | |done|eauto].
  all: by rewrite (Hp q eq_refl), Hc in E.
Qed.

Lemma no_thread_left cfg :
  race_inv cfg -> Forall (fun t => exists b, t.2 = Done b) (c_threads cfg) ->
  count_if is_winner (c_threads cfg) = 0%nat -> count_if is_loser (c_threads cfg) = 0%nat ->
  c_threads cfg = [].
Proof.
  intros _. destruct (c_threads cfg) as [|[k' c] l]; [done|]. intros Hd. rewrite !count_if_cons.
  inversion Hd as [|? ? [b Hb]]; subst. simpl in Hb. subst c. destruct b; simpl; lia.
Qed.
End race.

Lemma thread_step_length cfg cfg' :
  thread_step cfg cfg' -> length (c_threads cfg') = length (c_threads cfg).
Proof. intros []. cbn [c_threads]. apply length_insert. Qed.

Lemma threads_preserved cfg cfg' :
  rtc thread_step cfg cfg' -> length (c_threads cfg') = length (c_threads cfg).
Proof. induction 1 as [|? ? ? Hs _ IH]; [done|]. by rewrite IH, (thread_step_length _ _ Hs). Qed.

(** ** A thread that runs alone *)

(** The contents of the map the table and the elements represent. *)
Definition contents (m : mem) : gmap grant_key grant_val := omap (fun p => cells m !! p) (table m).

(** Each entry has its own element. *)
Definition wf_mem (m : mem) : Prop :=
  map_Forall (fun _ p => is_Some (cells m !! p)) (table m)
  /\ forall k k' p, table m !! k = Some p -> table m !! k' = Some p -> k = k'.

Fixpoint run_thread (n : nat) (k : grant_key) (now : Z) (c : pc) (m : mem) : pc * mem :=
  match n with
  | O => (c, m)
  | S n => match tstep k now c m with
           | Some (c', m') => run_thread n k now c' m'
           | None => (c, m)
           end
  end.

Lemma lapsed_live now v : gv_count v = 1 -> live now v = negb (lapsed now v).
Proof.
  intros Hc. unfold live, lapsed. rewrite Hc, Z.eqb_refl, negb_andb, negb_involutive. cbn [andb].
  by rewrite Z.leb_antisym.
Qed.

Lemma contents_delete k m : contents (Mem (delete k (table m)) (cells m)) = delete k (contents m).
Proof. unfold contents. cbn [table cells]. apply omap_delete. Qed.

Lemma contents_spent k p v m :
  wf_mem m -> table m !! k = Some p ->
  delete k (contents (Mem (table m) (<[p := v]> (cells m)))) = delete k (contents m).
Proof.
  intros [_ Hinj] Hk. apply map_eq. intros k'. destruct (decide (k = k')) as [<-|Hne];
    [by rewrite !lookup_delete_eq|]. rewrite !lookup_delete_ne by done.
  unfold contents. rewrite !lookup_omap. cbn [table cells].
  destruct (table m !! k') as [p'|] eqn:Hk'; [|done]. simpl.
  rewrite lookup_insert_ne; [done|]. intros ->. by apply Hne, (Hinj k k' p').
Qed.

(** ** Schedules, executable *)
Inductive action :=
| AThread (i : nat) (now : Z)
| ASpawn (k : grant_key)
| AGrant (k : grant_key) (p : nat) (expire : Z)
| AClear (k : grant_key).

#[export] Instance can_store_dec reuse m p : Decision (can_store reuse m p).
Proof. destruct reuse; unfold can_store; apply _. Defined.

(** An action that is not possible leaves the configuration as it is. *)
Definition exec (reuse : bool) (cfg : config) (a : action) : config :=
  match a with
  | AThread i now =>
      match c_threads cfg !! i with
      | Some (k, c) =>
          match tstep k now c (c_mem cfg) with
          | Some (c', m') =>
              Config m' (<[i := (k, c')]> (c_threads cfg)) (c_owner cfg) (c_issued cfg)
          | None => cfg
          end
      | None => cfg
      end
  | ASpawn k => Config (c_mem cfg) (c_threads cfg ++ [(k, Lookup)]) (c_owner cfg) (c_issued cfg)
  | AGrant k p expire =>
      if decide (can_store reuse (c_mem cfg) p)
      then Config (Mem (<[k := p]> (table (c_mem cfg))) (<[p := GrantVal 1 expire]> (cells (c_mem cfg))))
             (c_threads cfg) (<[p := k]> (c_owner cfg)) (k :: c_issued cfg)
      else cfg
  | AClear k => Config (Mem (delete k (table (c_mem cfg))) (cells (c_mem cfg)))
                  (c_threads cfg) (c_owner cfg) (c_issued cfg)
  end.

Definition schedule (reuse : bool) (l : list action) : config := foldl (exec reuse) initial l.

Lemma exec_steps reuse cfg a : rtc (step reuse) cfg (exec reuse cfg a).
Proof.
  destruct a as [i now|k|k p x|k]; cbn [exec].
  - destruct (c_threads cfg !! i) as [[k c]|] eqn:Hi; [|done].
    destruct (tstep k now c (c_mem cfg)) as [[c' m']|] eqn:Hs; [|done].
    apply rtc_once, step_thread. by eapply thread_moves.
  - apply rtc_once, step_spawn.
  - destruct (decide _); [|done]. by apply rtc_once, step_grant.
  - apply rtc_once, step_clear.
Qed.

Lemma schedule_reachable reuse l : rtc (step reuse) initial (schedule reuse l).
Proof.
  unfold schedule. generalize initial. induction l as [|a l IH]; intros cfg; [done|].
  cbn [foldl]. etrans; [apply exec_steps|apply IH].
Qed.

(** ** Properties *)

(** C36: Under every interleaving of agent threads, new grants and clears, and whether or
    not the kernel reuses elements, the operations granted never exceed the grants issued:
    the compare-and-swap makes a double spend impossible. *)
Theorem no_double_spend reuse cfg :
  rtc (step reuse) initial cfg ->
  (count_if (fun t => won t.2) (c_threads cfg) <= length (c_issued cfg))%nat.
Proof.
  intros Hr. pose proof (inv_reachable reuse (fun _ => true) (or_intror (fun _ => eq_refl)) cfg Hr) as [_ _ _ Hc].
  unfold wins, issued in Hc. rewrite count_if_true in Hc. simpl in Hc. lia.
Qed.

(** One grant, two threads, interleaved. *)
Definition two_threads : list action :=
  let k := GrantKey 7 HOOK_PTRACE 0 in
  [AGrant k 0 0; ASpawn k; ASpawn k; AThread 0 0; AThread 1 0; AThread 1 0; AThread 0 0;
   AThread 0 0; AThread 1 0; AThread 0 0].

Lemma no_double_spend_witness :
  (count_if (fun t => won t.2) (c_threads (schedule true two_threads)) <= 1)%nat.
Proof. exact (no_double_spend true _ (schedule_reachable true two_threads)). Defined.

(** If elements are not reused while a pointer to them is held, the bound holds per
    key: a grant for one cgroup and hook never satisfies another, under any interleaving. *)
Theorem grants_do_not_cross_keys cfg k :
  rtc (step false) initial cfg ->
  (count_if (fun t => bool_decide (t.1 = k) && won t.2) (c_threads cfg)
   <= count_if (fun k' => bool_decide (k' = k)) (c_issued cfg))%nat.
Proof.
  intros Hr. pose proof (inv_reachable false (fun k' => bool_decide (k' = k)) (or_introl eq_refl) cfg Hr)
    as [_ _ _ Hc]. unfold wins, issued in Hc. lia.
Qed.

Lemma grants_do_not_cross_keys_witness :
  (count_if (fun t => bool_decide (t.1 = GrantKey 7 HOOK_SETUID 0) && won t.2)
     (c_threads (schedule false two_threads)) <= 0)%nat.
Proof. exact (grants_do_not_cross_keys _ (GrantKey 7 HOOK_SETUID 0) (schedule_reachable false two_threads)). Defined.

(** Exactly one winner: any number of threads of any tasks racing for one unexpiring
    grant with nothing else happening all finish, within four steps each, and in every
    execution that can go no further exactly one of them has been granted. *)
Theorem race_has_exactly_one_winner k n p m cfg :
  (1 <= n)%nat -> nsteps thread_step m (race k n p) cfg ->
  (m <= 4 * n)%nat /\
  ((forall cfg', ~ thread_step cfg cfg') ->
   Forall (fun t => exists b, t.2 = Done b) (c_threads cfg)
   /\ count_if is_winner (c_threads cfg) = 1%nat).
Proof.
  intros Hn Hm. split.
  - apply work_bound in Hm. unfold work in Hm at 2. cbn [race c_threads] in Hm.
    assert (forall j, sum_list_with (fun t : grant_key * pc => fuel t.2) (replicate j (k, Lookup)) = 4 * j)%nat as E
      by (intros j; induction j; simpl; lia).
    rewrite E in Hm. lia.
  - intros Hstuck. apply rtc_nsteps_2 in Hm. pose proof (race_inv_reachable k n p cfg Hm) as Hi.
    pose proof (race_progress k p cfg Hi Hstuck) as Hd. split; [done|].
    destruct (ri_cell _ _ _ Hi) as (c & _ & [(_ & Hw & Hl & _)|(_ & ?)]); [|done].
    pose proof (no_thread_left k p cfg Hi Hd Hw Hl) as E. apply threads_preserved in Hm.
    rewrite E in Hm. simpl in Hm. rewrite length_replicate in Hm. lia.
Qed.

(** A thread alone in the race, to its end. *)
Definition raced : config :=
  let k := GrantKey 7 HOOK_PTRACE 0 in
  Config (Mem ∅ {[0%nat := GrantVal 0 0]}) [(k, Done true)] {[0%nat := k]} [k].

Lemma raced_run : nsteps thread_step 4 (race (GrantKey 7 HOOK_PTRACE 0) 1 0) raced.
Proof.
  do 4 (eapply nsteps_l; [eapply (thread_moves 0 (GrantKey 7 HOOK_PTRACE 0) _ 0); reflexivity|]).
  apply nsteps_O.
Qed.

Lemma raced_stuck cfg : ~ thread_step raced cfg.
Proof. intros H. inversion H as [[|i] k c now c' m' cfg0 Hi Hs]; subst; simpl in Hi; [|done]. by simplify_eq. Qed.

Lemma race_has_exactly_one_winner_witness :
  (4 <= 4 * 1)%nat /\ count_if is_winner (c_threads raced) = 1%nat.
Proof.
  destruct (race_has_exactly_one_winner (GrantKey 7 HOOK_PTRACE 0) 1 0 4 raced (le_n 1) raced_run) as [H1 H2].
  split; [exact H1|]. exact (proj2 (H2 raced_stuck)).
Defined.

(** The stepwise thread and the function agree: a thread that runs alone ends within
    four steps with the result of [try_consume_grant] and the map it leaves. *)
Theorem thread_alone_is_try_consume_grant cg hook m e s :
  wf_mem m -> grant_once s = contents m ->
  let '(c, m') := run_thread 4 (GrantKey cg hook 0) (cur_ktime e) Lookup m in
  let '(r, s') := try_consume_grant cg hook e s in
  c = Done (r =? 1) /\ grant_once s' = contents m'.
Proof.
  intros Hwf Hs. rewrite try_consume_grant_spec. unfold live_grant. rewrite Hs.
  set (k := GrantKey cg hook 0). cbn [run_thread tstep].
  assert (contents m !! k = p ← table m !! k; cells m !! p) as -> by (unfold contents; by rewrite lookup_omap).
  destruct (table m !! k) as [p|] eqn:Hk; [|done]. cbn [mbind option_bind tstep].
  destruct (proj1 Hwf k p Hk) as [v Hv]. rewrite Hv. cbn [mbind option_bind].
  destruct (lapsed (cur_ktime e) v) eqn:Hl; cbn [tstep mbind option_bind].
  - assert (live (cur_ktime e) v = false) as ->; [|done]. destruct (Z.eq_dec (gv_count v) 1) as [Hc|Hc].
    + by rewrite lapsed_live, Hl.
    + unfold live. by destruct (Z.eqb_spec (gv_count v) 1).
  - rewrite Hv. cbn [mbind option_bind]. destruct (Z.eqb_spec (gv_count v) 1) as [Hc|Hc].
    + rewrite lapsed_live, Hl by done. cbn [negb tstep mbind option_bind]. split; [done|].
      rewrite contents_delete. cbn [table cells grant_once set_grants].
      symmetry. rewrite <- (contents_spent k p (GrantVal 0 (gv_expire_ns v)) m) by done. done.
    + unfold live. destruct (Z.eqb_spec (gv_count v) 1); done.
Qed.

Definition one_grant : mem := Mem {[GrantKey 7 HOOK_PTRACE 0 := 0%nat]} {[0%nat := GrantVal 1 0]}.

Lemma one_grant_wf : wf_mem one_grant.
Proof.
  split; [apply (bool_decide_unpack _); vm_compute; exact I|].
  unfold one_grant. cbn [table]. intros k k' p [<- _]%lookup_singleton_Some [<- _]%lookup_singleton_Some. done.
Qed.

Lemma thread_alone_is_try_consume_grant_witness :
  let '(c, m') := run_thread 4 (GrantKey 7 HOOK_PTRACE 0) 1000 Lookup one_grant in
  let '(r, s') := try_consume_grant 7 HOOK_PTRACE agent_env armed_state in
  c = Done (r =? 1) /\ grant_once s' = contents m'.
Proof.
  apply (thread_alone_is_try_consume_grant 7 HOOK_PTRACE one_grant agent_env armed_state one_grant_wf).
  vm_compute. reflexivity.
Defined.

(** The key separation does rest on the kernel not reusing elements: if it may, a
    thread that looked up the ptrace grant and was overtaken can spend the setuid grant
    that has been stored in the same element, and two ptrace operations pass on one ptrace
    grant. The total bound still holds. *)
Theorem reuse_can_cross_keys :
  let k1 := GrantKey 7 HOOK_PTRACE 0 in
  let k2 := GrantKey 7 HOOK_SETUID 0 in
  let cfg := schedule true
    [AGrant k1 0 0; ASpawn k1; ASpawn k1; AThread 0 0; AThread 0 0;
     AThread 1 0; AThread 1 0; AThread 1 0; AThread 1 0; AGrant k2 0 0; AThread 0 0; AThread 0 0] in
  rtc (step true) initial cfg /\ issued (fun k => bool_decide (k = k1)) cfg = 1%nat
  /\ wins (fun k => bool_decide (k = k1)) cfg = 2%nat.
Proof. cbv zeta. split; [apply schedule_reachable|]. vm_compute. done. Qed.
