(* ===== verification/Abi.v ===== *)
(** * The object's contracts with the kernel and with user space

    Layouts, helper numbers, hook prototypes, byte order and the macro layer: what the
    headers say and what the object relies on. *)
From Stdlib Require Import ZArith Lia.
From stdpp Require Import base tactics numbers strings option sets list gmap.
From S2P Require Import Prelude Endian CType Vmlinux KernelAbi HelperDefs BpfHelpers Tracing Objects Kernel Classify Hooks.
#[local] Open Scope Z_scope.
#[local] Open Scope list_scope.

(** ** The shared structures in memory *)
Definition encode_event (ev : event) : list Z :=
  le_split 8 (ev_cgroup_id ev) ++ le_split 4 (ev_pid ev) ++ ev_comm ev
  ++ le_split 4 (ev_hook ev) ++ le_split 4 (ev_decision ev) ++ le_split 4 (ev_mode ev).

(** The bytes of the member at [path] of an object of type [t]. *)
Definition member_bytes (t : ctype) (path : list string) (bs : list Z) : list Z :=
  match designator t path with
  | Some (o, w, _) => take (Z.to_nat (w / 8)) (drop (Z.to_nat (o / 8)) bs)
  | None => []
  end.

Record wf_event (ev : event) : Prop := {
  we_cgroup_id : in_width 64 (ev_cgroup_id ev);
  we_pid : in_width 32 (ev_pid ev);
  we_ev_comm : length (ev_comm ev) = 16%nat;
  we_hook : in_width 32 (ev_hook ev);
  we_decision : in_width 32 (ev_decision ev);
  we_mode : in_width 32 (ev_mode ev) }.

Lemma le_roundtrip n w x : w = 8 * Z.of_nat n -> in_width w x -> le_combine (le_split n x) = x.
Proof.
  intros -> Hx. rewrite le_combine_split. apply Z.mod_small.
  unfold in_width in Hx. rewrite Z.pow_mul_r in Hx by lia. done.
Qed.

Lemma take_drop_segment {A} (l l1 l2 l3 : list A) a b :
  l = l1 ++ l2 ++ l3 -> a = length l1 -> b = length l2 -> take b (drop a l) = l2.
Proof. intros -> -> ->. by rewrite drop_app_length, take_app_length. Qed.

(** The bytes of a member are a segment: [pre] is what precedes it and [post] what follows. *)
Ltac segment pre mid post :=
  rewrite (take_drop_segment _ pre mid post)
    by (rewrite <- ?app_assoc, ?app_nil_r, ?length_app; simpl; done || lia).

#[export] Instance proto_eq_dec : EqDecision proto.
Proof. solve_decision. Defined.

(** ** Properties *)

(** Every member the designators reach lies inside its object, and every type of the
    kernel headers the development carries has a power-of-two alignment that divides its
    size. *)
Theorem kernel_layouts_sound n t path o w t' :
  (n, t) ∈ vmlinux_types -> designator t path = Some (o, w, t') ->
  0 <= o /\ o + w <= 8 * sizeof t /\ pow2 (alignof t) /\ (alignof t | sizeof t).
Proof.
  intros Hin Hd.
  assert (wf_ctype t = true) as Hwf.
  { assert (forallb (fun p => wf_ctype p.2) vmlinux_types = true) as H by (vm_compute; reflexivity).
    rewrite forallb_forall in H. apply (H (n, t)). by apply list_elem_of_In. }
  destruct (designator_sound t path _ Hwf Hd) as (? & ? & _).
  destruct (layout_sound t Hwf) as (? & _ & ? & _). done.
Qed.

Lemma kernel_layouts_sound_witness : 0 <= 192 /\ 192 + 32 <= 8 * sizeof struct_cred.
Proof.
  destruct (kernel_layouts_sound "struct_cred" struct_cred ["euid"; "val"]%string 192 32 ty_uid_t)
    as (H1 & H2 & _); [apply (list_elem_of_lookup_2 _ (default 0%nat (fst <$> list_find (fun p => p.1 = "struct_cred"%string) vmlinux_types)));
      vm_compute; reflexivity|vm_compute; reflexivity|]. split; [exact H1|exact H2].
Defined.

(** Members of a structure are laid out in order, aligned and without overlap, bit
    fields included: each begins where the previous one has ended or later, a member that
    is not a bit field begins on its alignment, and none extends past the structure. *)
Theorem struct_members_disjoint fs i j oi oj si :
  wf_ctype (CStruct fs) = true -> (i < j)%nat ->
  offsets 0 (map (slot_of layout) fs) !! i = Some oi ->
  offsets 0 (map (slot_of layout) fs) !! j = Some oj ->
  map (slot_of layout) fs !! i = Some si ->
  0 <= oi /\ oi + width si <= oj /\ oi + width si <= 8 * sizeof (CStruct fs)
  /\ (s_bits si = None -> (8 * s_align si | oi)).
Proof.
  intros Hwf Hij Hi Hj Hs. pose proof (wf_slots fs Hwf) as Hss.
  destruct (offsets_bounds 0 _ _ _ _ Hss Hi Hs) as [H0 H1].
  pose proof (struct_size_fits _ Hss) as Hsz. unfold sizeof. simpl.
  split_and!; [lia| |lia|].
  - exact (offsets_disjoint 0 _ i j oi oj si Hss Hij Hi Hj Hs).
  - destruct (offsets_place 0 _ _ _ _ Hi Hs) as [q ->]. intros Hn. by apply place_aligned.
Qed.

Lemma struct_members_disjoint_witness : 0 <= 64 /\ 64 + 32 <= 96.
Proof.
  destruct (struct_members_disjoint
    [ member "cgroup_id" ty___u64; member "pid" ty___u32; member "comm" (CArray ty___u8 16) ]
    1 2 64 96 (Slot None 4 4 true)) as (H1 & H2 & _); [vm_compute; reflexivity|lia|vm_compute; reflexivity..|].
  split; [exact H1|exact H2].
Defined.

(** The fixed offsets the programs read at are those of the kernel's structures: the
    socket-address family and addresses, the effective uid and the three capability sets
    of a credential. *)
Theorem read_offsets :
  offsetof struct_sockaddr ["sa_family"] = Some 0
  /\ offsetof struct_sockaddr_in ["sin_addr"; "s_addr"] = Some 4
  /\ offsetof struct_sockaddr_in6 ["sin6_addr"; "in6_u"; "u6_addr32"] = Some 8
  /\ offsetof struct_cred ["euid"; "val"] = Some 24
  /\ offsetof struct_cred ["cap_inheritable"; "val"] = Some 48
  /\ offsetof struct_cred ["cap_permitted"; "val"] = Some 56
  /\ offsetof struct_cred ["cap_effective"; "val"] = Some 64
  /\ map sizeof [struct_sockaddr; struct_sockaddr_in; struct_sockaddr_in6; struct_cred] = [16; 16; 28; 184].
Proof. vm_compute. done. Qed.

(** A record written member by member is read back through the structure's layout:
    [struct event] has no padding, and each member's bytes at its offset decode to the
    value the program stored. *)
Theorem event_roundtrip ev :
  wf_event ev ->
  Z.of_nat (length (encode_event ev)) = sizeof struct_event
  /\ le_combine (member_bytes struct_event ["cgroup_id"%string] (encode_event ev)) = ev_cgroup_id ev
  /\ le_combine (member_bytes struct_event ["pid"%string] (encode_event ev)) = ev_pid ev
  /\ member_bytes struct_event ["comm"%string] (encode_event ev) = ev_comm ev
  /\ le_combine (member_bytes struct_event ["hook"%string] (encode_event ev)) = ev_hook ev
  /\ le_combine (member_bytes struct_event ["decision"%string] (encode_event ev)) = ev_decision ev
  /\ le_combine (member_bytes struct_event ["mode"%string] (encode_event ev)) = ev_mode ev.
Proof.
  destruct ev as [cg pid comm hook d m]. intros [Hc Hp Hm Hh Hd Hmo].
  cbn [ev_cgroup_id ev_pid ev_comm ev_hook ev_decision ev_mode] in *.
  unfold encode_event, member_bytes. cbn [ev_cgroup_id ev_pid ev_comm ev_hook ev_decision ev_mode].
  split. { rewrite !length_app, !length_le_split, Hm. reflexivity. }
  do 6 (match goal with |- context [designator struct_event ?p] =>
    let r := eval vm_compute in (designator struct_event p) in change (designator struct_event p) with r end).
  cbn iota beta.
  repeat match goal with |- context [Z.to_nat (?a / 8)] =>
    let v := eval vm_compute in (Z.to_nat (a / 8)) in change (Z.to_nat (a / 8)) with v end.
  set (b1 := le_split 8 cg). set (b2 := le_split 4 pid). set (b4 := le_split 4 hook).
  set (b5 := le_split 4 d). set (b6 := le_split 4 m).
  assert (length b1 = 8%nat /\ length b2 = 4%nat /\ length b4 = 4%nat /\ length b5 = 4%nat /\ length b6 = 4%nat)
    as (L1 & L2 & L4 & L5 & L6) by (subst b1 b2 b4 b5 b6; by rewrite !length_le_split).
  split_and!.
  - segment (@nil Z) b1 (b2 ++ comm ++ b4 ++ b5 ++ b6). by apply (le_roundtrip 8 64).
  - segment b1 b2 (comm ++ b4 ++ b5 ++ b6). by apply (le_roundtrip 4 32).
  - by segment (b1 ++ b2) comm (b4 ++ b5 ++ b6).
  - segment (b1 ++ b2 ++ comm) b4 (b5 ++ b6). by apply (le_roundtrip 4 32).
  - segment (b1 ++ b2 ++ comm ++ b4) b5 b6. by apply (le_roundtrip 4 32).
  - segment (b1 ++ b2 ++ comm ++ b4 ++ b5) b6 (@nil Z). by apply (le_roundtrip 4 32).
Qed.

Lemma event_roundtrip_witness :
  let ev := Event 7 1234 (replicate 16 97) HOOK_BPF 1 1 in
  le_combine (member_bytes struct_event ["cgroup_id"%string] (encode_event ev)) = 7.
Proof. intros ev. apply (event_roundtrip ev). split; vm_compute; (split; congruence) || reflexivity. Defined.

(** The key and the value of a grant have no padding of the compiler's: the hash of the key
    covers the explicit padding, which every writer sets to zero. *)
Example grant_layouts :
  no_padding struct_grant_key = true /\ no_padding struct_grant_val = true
  /\ offsetof struct_grant_key ["hook"%string] = Some 8 /\ offsetof struct_grant_key ["_pad"%string] = Some 12.
Proof. vm_compute. done. Qed.

(** The helper table is the kernel's: numbers run from 1 without gap or repetition,
    each is the value of its [BPF_FUNC_] enumerator, and none takes more than the five
    arguments the calling convention has. *)
Theorem helper_numbers :
  map h_id bpf_helpers = Z.of_nat <$> seq 1 180
  /\ Forall (fun h => (String.append "BPF_FUNC_" (String.substring 4 (String.length (h_name h) - 4) (h_name h)),
                       h_id h) ∈ enum_bpf_func_id) bpf_helpers
  /\ Forall (fun h => (length (h_params h) <= 5)%nat) bpf_helpers.
Proof.
  split; [vm_compute; reflexivity|]. split; apply (bool_decide_unpack _); vm_compute; exact I.
Qed.

(** Every program is attached with the parameters of its hook's prototype in the
    kernel, followed by the verdict so far, and attaches only to hooks that return an
    int, the ones a program may deny from. *)
Theorem programs_match_hook_prototypes p :
  exists args, Proto (prog_section p) "int" args ∈ security_list_options
               /\ prog_params p = args ++ ["int"%string].
Proof.
  destruct p;
    [exists ["struct socket *"; "struct sockaddr *"; "int"]%string
    |exists ["int"; "union bpf_attr *"; "unsigned int"]%string
    |exists ["struct task_struct *"; "unsigned int"]%string
    |exists ["struct cred *"; "const struct cred *"; "int"]%string
    |exists ["struct cred *"; "const struct cred *"; "const kernel_cap_t *";
             "const kernel_cap_t *"; "const kernel_cap_t *"]%string];
    (split; [apply (bool_decide_unpack _); vm_compute; exact I|done]).
Qed.

(** On every target and configuration each register accessor and its CO-RE variant
    read the same register, with one exception: the frame pointer of riscv. *)
Theorem core_accessors_agree c n :
  n ∈ register_names ->
  core_agrees c n = negb (bool_decide (cfg_target c = Some T_riscv /\ n = "FP"%string)).
Proof.
  intros Hn.
  assert (Forall (fun c => Forall (fun n => core_agrees c n
    = negb (bool_decide (cfg_target c = Some T_riscv /\ n = "FP"%string))) register_names) all_cfgs) as H
    by (apply (bool_decide_unpack _); vm_compute; exact I).
  rewrite Forall_forall in H. specialize (H c (all_cfgs_complete c)). rewrite Forall_forall in H. by apply H.
Qed.

Lemma core_accessors_agree_witness : core_agrees (Cfg (Some T_x86) true false false) "FP" = true.
Proof.
  rewrite (core_accessors_agree (Cfg (Some T_x86) true false false) "FP");
    [reflexivity|apply (bool_decide_unpack _); vm_compute; exact I].
Defined.

(** Byte order: the macro expansion for constants and the compiler builtin for other
    operands compute the same swap at every width, and converting a word loaded from
    memory gives the number its bytes spell in network order, in either byte order. *)
Theorem byte_swaps_agree o c x bs :
  length bs = 4%nat -> Forall is_byte bs ->
  ___bpf_swab16 x = __builtin_bswap 2 x
  /\ ___bpf_swab32 x = __builtin_bswap 4 x
  /\ ___bpf_swab64 x = __builtin_bswap 8 x
  /\ bpf_ntohl o c (load o bs) = be_combine bs.
Proof.
  intros Hl Hb. split_and!;
    [apply swab16_builtin|apply swab32_builtin|apply swab64_builtin|by apply bpf_swap32_load].
Qed.

Lemma byte_swaps_agree_witness : bpf_ntohl LittleEndian false (load LittleEndian [10; 0; 0; 1]) = 0x0a000001.
Proof.
  apply (byte_swaps_agree LittleEndian false 0 [10; 0; 0; 1]); [reflexivity|].
  repeat constructor; vm_compute; congruence.
Defined.

(** Byte-order conversion is its own inverse on 32-bit words, for constants and other
    operands alike and in either byte order. *)
Theorem htonl_roundtrip o c c' x : in_width 32 x -> bpf_ntohl o c (bpf_htonl o c' x) = x.
Proof.
  intros Hx. unfold bpf_ntohl, bpf_htonl. rewrite (bpf_swap32_constp o c), (bpf_swap32_constp o c').
  destruct o; [|done]. cbn [bpf_swap32]. rewrite bswap_involutive. by apply Z.mod_small.
Qed.

(** The argument-counting layer: up to twelve arguments are counted, stored in order
    in the parameter array, and printed with the plain helper exactly up to three. *)
Theorem variadic_macros args :
  (length args <= 12)%nat ->
  ___bpf_narg args = Some (TNum (length args))
  /\ print_params args = Some args
  /\ ___bpf_pick_printk args
     = Some (inr (if bool_decide (length args <= 3)%nat then __bpf_printk else __bpf_vprintk)).
Proof. intros H. split_and!; [by apply narg_counts|by apply print_params_spec|by apply pick_printk_spec]. Qed.

Lemma variadic_macros_witness : print_params [1; 2; 3; 4] = Some [1; 2; 3; 4].
Proof. apply (variadic_macros [1; 2; 3; 4]). simpl. lia. Defined.

(** [BPF_PROG] hands the body the first context words in order, one per declared
    parameter. *)
Theorem bpf_prog_unpacks {R} n (body : list Z -> R) ctx :
  (n <= length ctx)%nat -> BPF_PROG n body ctx = body (take n ctx).
Proof. intros H. unfold BPF_PROG. by rewrite ctx_cast_take. Qed.

(** [KERNEL_VERSION] orders versions by their components, the last one saturating. *)
Theorem kernel_version_order a b c a' b' c' :
  0 <= b <= 255 -> 0 <= b' <= 255 -> 0 <= c -> 0 <= c' ->
  KERNEL_VERSION a b c < KERNEL_VERSION a' b' c'
  <-> a < a' \/ (a = a' /\ (b < b' \/ (b = b' /\ Z.min c 255 < Z.min c' 255))).
Proof. apply KERNEL_VERSION_lt. Qed.
