(* ===== verification/Classes.v ===== *)
(** * Names, classes and masks: [main.go], [narrow.go], [broker.go], [grant.go]

    The constants user space shares with the object, the textual form of an egress
    manifest, and the mask operations of the broker. Text is ASCII: the requests reach
    these functions through whitespace-separated protocol lines. *)
From Stdlib Require Import ZArith Lia Ascii String.
From stdpp Require Import base tactics numbers option list.
From S2P Require Import Prelude Objects.
#[local] Open Scope string_scope.
#[local] Open Scope list_scope.
#[local] Open Scope Z_scope.

(** ** Strings of Go's [strings] package *)

(** [strings.Split(s, sep)] for a one-character separator. *)
Fixpoint Split (sep : ascii) (s : string) : list string :=
  match s with
  | EmptyString => [EmptyString]
  | String c s' =>
      if Ascii.eqb c sep then EmptyString :: Split sep s'
      else match Split sep s' with
           | w :: ws => String c w :: ws
           | [] => [String c EmptyString]
           end
  end.

(** [strings.Join(parts, sep)]. *)
Fixpoint Join (parts : list string) (sep : string) : string :=
  match parts with
  | [] => ""
  | [p] => p
  | p :: ps => p ++ sep ++ Join ps sep
  end%string.

(** The ASCII characters [unicode.IsSpace] accepts. *)
Definition IsSpace (c : ascii) : bool :=
  let n := N_of_ascii c in ((9 <=? n) && (n <=? 13) || (n =? 32))%N.

Fixpoint TrimLeft (s : string) : string :=
  match s with
  | String c s' => if IsSpace c then TrimLeft s' else s
  | EmptyString => s
  end.

Fixpoint all_space (s : string) : bool :=
  match s with String c s' => IsSpace c && all_space s' | EmptyString => true end.

Fixpoint TrimRight (s : string) : string :=
  match s with
  | String c s' => if all_space s then EmptyString else String c (TrimRight s')
  | EmptyString => s
  end.

Definition TrimSpace (s : string) : string := TrimRight (TrimLeft s).

(** ** Hooks *)
Definition hookBPF : Z := 0.
Definition hookPtrace : Z := 1.
Definition hookConnect : Z := 3.
Definition hookSetuid : Z := 4.
Definition hookCapset : Z := 5.

Definition hookNames : list (Z * string) :=
  [ (hookBPF, "bpf"); (hookPtrace, "ptrace"); (hookConnect, "socket_connect");
    (hookSetuid, "setuid"); (hookCapset, "capset") ].

Definition hookID (name : string) : option Z :=
  fst <$> (snd <$> list_find (fun p => p.2 = name) hookNames).

Definition grantableHook (name : string) : option Z :=
  match hookID name with
  | Some hid =>
      if negb (hid =? hookPtrace) && negb (hid =? hookSetuid) && negb (hid =? hookCapset)
      then None else Some hid
  | None => None
  end.

(** ** Destination classes *)
Definition dstLoopback : Z := Z.shiftl 1 0.
Definition dstLinklocal : Z := Z.shiftl 1 1.
Definition dstPrivate : Z := Z.shiftl 1 2.
Definition dstPublic : Z := Z.shiftl 1 3.
Definition dstOther : Z := Z.shiftl 1 4.

Definition dstClasses : list (string * Z) :=
  [ ("loopback", dstLoopback); ("linklocal", dstLinklocal); ("private", dstPrivate);
    ("public", dstPublic); ("other", dstOther) ].

(** One token of [parseClasses]: the mask so far, or the error of an unknown class. *)
Definition parse_token (mask : Z) (tok : string) : option Z :=
  let tok := TrimSpace tok in
  if (tok =? "")%string || (tok =? "none")%string then Some mask
  else if (tok =? "any")%string || (tok =? "all")%string then
    Some (fold_left (fun m c => Z.lor m c.2) dstClasses mask)
  else
    match list_find (fun c => c.1 = tok) dstClasses with
    | Some (_, c) => Some (Z.lor mask c.2)
    | None => None
    end.

Fixpoint parse_tokens (mask : Z) (toks : list string) : option Z :=
  match toks with
  | [] => Some mask
  | t :: toks => mask ← parse_token mask t; parse_tokens mask toks
  end.

Definition parseClasses (s : string) : option Z := parse_tokens 0 (Split ","%char s).

Definition classNames (mask : Z) : string :=
  if mask =? 0 then "none"
  else Join (fst <$> List.filter (fun c => negb (Z.land mask c.2 =? 0)) dstClasses) ",".

(** ** Masks, on [uint32] *)

(** [cur &^ req]. *)
Definition narrowMask (cur req : Z) : Z := Z.ldiff cur req.
Definition expandMask (cur req ceiling : Z) : Z := Z.lor cur (Z.land req ceiling).

(** All classes: the default ceiling. *)
Definition all_classes : Z := fold_left (fun m c => Z.lor m c.2) dstClasses 0.

Example parse_examples :
  parseClasses "loopback, private" = Some 5 /\ parseClasses "any" = Some 31
  /\ parseClasses "" = Some 0 /\ parseClasses "loopback,,none" = Some 1
  /\ parseClasses "publik" = None /\ classNames 12 = "private,public".
Proof. vm_compute. done. Qed.

(** ** Lemmas *)
Lemma constants_match :
  map snd dstClasses = [DST_LOOPBACK; DST_LINKLOCAL; DST_PRIVATE; DST_PUBLIC; DST_OTHER]
  /\ map fst hookNames = [HOOK_BPF; HOOK_PTRACE; HOOK_CONNECT; HOOK_SETUID; HOOK_CAPSET].
Proof. done. Qed.

Lemma parse_token_bound mask tok m :
  0 <= mask < 32 -> parse_token mask tok = Some m -> 0 <= m < 32.
Proof.
  intros Hm. assert (forall c, c ∈ dstClasses -> 0 <= Z.lor mask c.2 < 32) as Hc.
  { intros c Hc. assert (0 <= c.2 < 2 ^ 5) as Hb.
    { apply (proj1 (List.Forall_forall (fun c => 0 <= c.2 < 2 ^ 5) dstClasses));
        [repeat constructor; vm_compute; congruence|by apply list_elem_of_In]. }
    split; [apply Z.lor_nonneg; lia|]. change 32 with (2 ^ 5).
    destruct (Z.eq_dec (Z.lor mask c.2) 0) as [->|Hne]; [lia|].
    apply Z.log2_lt_pow2; [pose proof (proj2 (Z.lor_nonneg mask c.2)); lia|].
    rewrite Z.log2_lor by lia. apply Z.max_lub_lt.
    - destruct (Z.eq_dec mask 0) as [->|?]; [done|]. apply Z.log2_lt_pow2; lia.
    - destruct (Z.eq_dec c.2 0) as [->|?]; [done|]. apply Z.log2_lt_pow2; lia. }
  unfold parse_token. cbv zeta. destruct (_ || _); [by intros [= <-]|]. destruct (_ || _).
  - assert (fold_left (fun m c => Z.lor m c.2) dstClasses mask = Z.lor mask 31) as ->.
    { cbn [fold_left dstClasses snd]. unfold dstLoopback, dstLinklocal, dstPrivate, dstPublic, dstOther.
      by rewrite <- !Z.lor_assoc. }
    intros [= <-]. change 31 with (Z.ones 5). rewrite Z.lor_ones_low; [done|lia|].
    destruct (Z.eq_dec mask 0) as [->|?]; [done|]. apply Z.log2_lt_pow2; lia.
  - destruct (list_find _ _) as [[i c]|] eqn:E; [|done]. intros [= <-]. apply Hc.
    apply list_find_Some in E as (E & _). by eapply list_elem_of_lookup_2.
Qed.

Lemma parse_tokens_bound l z m : 0 <= z < 32 -> parse_tokens z l = Some m -> 0 <= m < 32.
Proof.
  revert z; induction l as [|t l IH]; intros z Hz; cbn [parse_tokens]; [by intros [= <-]|].
  destruct (parse_token z t) as [z'|] eqn:E; [|done]. simpl. apply IH. by eapply parse_token_bound.
Qed.

Lemma parseClasses_bound s m : parseClasses s = Some m -> 0 <= m < 32.
Proof. apply parse_tokens_bound. lia. Qed.

(** The low five bits of a mask. *)
Lemma low_bits m :
  Z.land m 31 = Z.b2z (Z.testbit m 0) + 2 * Z.b2z (Z.testbit m 1) + 4 * Z.b2z (Z.testbit m 2)
                + 8 * Z.b2z (Z.testbit m 3) + 16 * Z.b2z (Z.testbit m 4).
Proof.
  change 31 with (Z.ones 5). rewrite Z.land_ones by lia.
  rewrite !Z.testbit_spec' by lia. change (2 ^ 5) with 32. change (2 ^ 4) with 16.
  change (2 ^ 3) with 8. change (2 ^ 2) with 4. change (2 ^ 1) with 2. change (2 ^ 0) with 1.
  Z.to_euclidean_division_equations. lia.
Qed.

Lemma parse_class_names m : parseClasses (classNames m) = Some (Z.land m 31).
Proof.
  unfold classNames. destruct (Z.eqb_spec m 0) as [->|_]; [vm_compute; reflexivity|].
  unfold dstClasses. cbn [List.filter snd].
  change dstLoopback with (2 ^ 0). change dstLinklocal with (2 ^ 1). change dstPrivate with (2 ^ 2).
  change dstPublic with (2 ^ 3). change dstOther with (2 ^ 4).
  rewrite !land_pow2, !negb_involutive, low_bits by lia.
  destruct (Z.testbit m 0), (Z.testbit m 1), (Z.testbit m 2), (Z.testbit m 3), (Z.testbit m 4);
    vm_compute; reflexivity.
Qed.

Lemma grantableHook_spec n h :
  grantableHook n = Some h ->
  (h = HOOK_PTRACE \/ h = HOOK_SETUID \/ h = HOOK_CAPSET) /\ h <> HOOK_BPF /\ h <> HOOK_CONNECT.
Proof.
  unfold grantableHook. destruct (hookID n) as [hid|]; [|done].
  change HOOK_PTRACE with hookPtrace. change HOOK_SETUID with hookSetuid.
  change HOOK_CAPSET with hookCapset. change HOOK_BPF with hookBPF. change HOOK_CONNECT with hookConnect.
  unfold hookPtrace, hookSetuid, hookCapset, hookBPF, hookConnect.
  destruct (Z.eqb_spec hid 1), (Z.eqb_spec hid 4), (Z.eqb_spec hid 5); simpl; intros [= <-];
    split; (lia || tauto).
Qed.

Lemma narrowMask_subset cur req : subset_mask (narrowMask cur req) cur.
Proof. intros i Hi. unfold narrowMask. rewrite Z.ldiff_spec. by destruct (Z.testbit cur i). Qed.

Lemma subset_mask_land a b : subset_mask (Z.land a b) a.
Proof. intros i Hi. rewrite Z.land_spec. by destruct (Z.testbit a i). Qed.

Lemma subset_mask_trans a b c : subset_mask a b -> subset_mask b c -> subset_mask a c.
Proof. intros H1 H2 i Hi H. auto. Qed.
