(* ===== verification/Gc.v ===== *)
(** * Garbage collection of the maps: [gc.go]

    One tick of the collector's loop: the entries of dead agents are deleted from
    [grant_once] and [egress_policy], and [tcb_cgroups] is reconciled with the cgroups that
    belong there. The cgroup file system is an argument: the ids of the live agents, of
    root and collector, and of the broker if its cgroup exists. *)
From Stdlib Require Import ZArith Lia.
From stdpp Require Import base tactics numbers strings option list gmap sets.
From S2P Require Import Prelude Objects Maps Kernel Classify Hooks Fixtures HookProps.
#[local] Open Scope Z_scope.

(** ** The code *)

(** [selectGrantPrunes]: the keys to delete, and [grantSeen] grown by the live ones;
    [grantSeen] is nil for the one-shot command. *)
Fixpoint selectGrantPrunes (keys : list grant_key) (live : gset Z) (grantSeen : option (gset Z))
    : list grant_key * option (gset Z) :=
  match keys with
  | [] => ([], grantSeen)
  | k :: keys =>
      if decide (gk_cgid k ∈ live) then
        selectGrantPrunes keys live ((fun g => {[gk_cgid k]} ∪ g) <$> grantSeen)
      else
        let '(del, seen) := selectGrantPrunes keys live grantSeen in
        (match grantSeen with
         | None => k :: del
         | Some g => if decide (gk_cgid k ∈ g) then k :: del else del
         end, seen)
  end.

Fixpoint selectEgressPrunes (cgids : list Z) (live seen : gset Z) : list Z * gset Z :=
  match cgids with
  | [] => ([], seen)
  | cg :: cgids =>
      if decide (cg ∈ live) then selectEgressPrunes cgids live ({[cg]} ∪ seen)
      else
        let '(del, seen') := selectEgressPrunes cgids live seen in
        (if decide (cg ∈ seen) then cg :: del else del, seen')
  end.

(** Delete each key; a failed delete is logged and ignored. *)
Definition delete_each {K V M} (ops : map_ops K V M) (ks : list K) (m : M) : M :=
  foldl (fun m k => match m_delete ops k m with Ok m' => m' | Err _ => m end) m ks.

Definition set_egress (g : gmap Z Z) (s : kstate) : kstate :=
  KState (enforce_flags s) (tcb_cgroups s) g (grant_once s) (events s).
Definition set_tcb (g : gmap Z Z) (s : kstate) : kstate :=
  KState (enforce_flags s) g (egress_policy s) (grant_once s) (events s).

(** [runGCPass]: collect the keys, select, delete. Returns what it deleted and the grown
    witness sets. *)
Definition runGCPass (live seen : gset Z) (grantSeen : option (gset Z)) (s : kstate)
    : (list grant_key * list Z) * (gset Z * option (gset Z)) * kstate :=
  let '(grantDel, grantSeen') := selectGrantPrunes (map_to_list (grant_once s)).*1 live grantSeen in
  let s1 := set_grants (delete_each grant_ops grantDel (grant_once s)) s in
  let '(egressDel, seen') := selectEgressPrunes (map_to_list (egress_policy s1)).*1 live seen in
  let s2 := set_egress (delete_each egress_ops egressDel (egress_policy s1)) s1 in
  ((grantDel, egressDel), (seen', grantSeen'), s2).

(** [reconcileTCB], with the ids [tcbCgroupIDs()] resolves and the broker's. *)
Definition reconcileTCB (tcbCgroupIDs : list Z) (broker : option Z) (tcb : gmap Z Z)
    : list Z * gmap Z Z :=
  let keep : gset Z := list_to_set tcbCgroupIDs in
  if (size keep <? 2)%nat then ([], tcb)
  else
    let '(keep, tcb) :=
      match broker with
      | Some bid =>
          ({[bid]} ∪ keep,
           match m_lookup tcb_ops tcb bid with
           | None => match m_update tcb_ops BPF_ANY bid 1 tcb with Ok tcb' => tcb' | Err _ => tcb end
           | Some _ => tcb
           end)
      | None => (keep, tcb)
      end in
    let pruned := filter (fun k => k ∉ keep) (map_to_list tcb).*1 in
    (pruned, delete_each tcb_ops pruned tcb).

(** What the file system says during a tick. *)
Record fs := Fs { fs_live : gset Z; fs_tcb : list Z; fs_broker : option Z }.

Record gc_state := GcState { gc_seen : gset Z; gc_grantSeen : gset Z }.

(** The body of [gcLoop]'s tick, under [controlMu]. *)
Definition gcTick (f : fs) (g : gc_state) (s : kstate) : gc_state * kstate :=
  let '(_, (seen', grantSeen'), s1) := runGCPass (fs_live f) (gc_seen g) (Some (gc_grantSeen g)) s in
  let '(_, tcb') := reconcileTCB (fs_tcb f) (fs_broker f) (tcb_cgroups s1) in
  (GcState seen' (default ∅ grantSeen'), set_tcb tcb' s1).

(** [cmdGC]: one pass with a fresh [seen] and no [grantSeen]. *)
Definition cmdGC (f : fs) (s : kstate) : kstate := (runGCPass (fs_live f) ∅ None s).2.

(** ** Lemmas *)
Lemma delete_each_lookup {K V} `{Countable K} cap (ks : list K) (m : gmap K V) k :
  delete_each (hash_ops cap) ks m !! k = if decide (k ∈ ks) then None else m !! k.
Proof.
  unfold delete_each. revert m. induction ks as [|x ks IH]; intros m; cbn [foldl];
    [by rewrite decide_False by apply not_elem_of_nil|].
  rewrite IH. cbn [m_delete hash_ops]. unfold hash_delete.
  destruct (decide (k ∈ ks)), (decide (k ∈ x :: ks)) as [Hin|Hin]; [done|by destruct Hin; right| |].
  - apply elem_of_cons in Hin as [->|?]; [|done]. destruct (m !! x) eqn:E; [by rewrite lookup_delete_eq|done].
  - destruct (m !! x) eqn:E; [|done]. apply lookup_delete_ne. intros ->. apply Hin. left.
Qed.

Lemma selectGrantPrunes_spec keys live g del seen' :
  selectGrantPrunes keys live (Some g) = (del, Some seen') ->
  (forall k, k ∈ del <-> k ∈ keys /\ (gk_cgid k ∉ live) /\ gk_cgid k ∈ g)
  /\ (forall c, c ∈ seen' <-> (c ∈ g) \/ (c ∈ live /\ c ∈ (gk_cgid <$> keys))).
Proof.
  revert g del. induction keys as [|k keys IH]; intros g del; cbn [selectGrantPrunes].
  - intros [= <- <-]. split; [intros k|intros c]; rewrite elem_of_nil; tauto.
  - destruct (decide (gk_cgid k ∈ live)) as [Hl|Hl].
    + cbn [fmap option_fmap option_map]. intros [Hd Hs]%IH.
      split; [intros k'; rewrite Hd|intros c; rewrite Hs, fmap_cons];
        rewrite elem_of_cons, elem_of_union, elem_of_singleton.
      * destruct (decide (gk_cgid k' = gk_cgid k)) as [E|]; [rewrite E; tauto|].
        split; [tauto|]. intros ([->|?] & ? & ?); tauto.
      * destruct (decide (c = gk_cgid k)) as [->|]; tauto.
    + destruct (selectGrantPrunes keys live (Some g)) as [del0 [seen0|]] eqn:E; [|done].
      intros [= <- <-]. apply IH in E as [Hd Hs].
      split; [intros k'|intros c; rewrite Hs, fmap_cons, elem_of_cons].
      * destruct (decide (gk_cgid k ∈ g)); rewrite ?elem_of_cons, Hd.
        -- split; [intros [->|?]|intros ([->|?] & ? & ?)]; tauto.
        -- split; [tauto|intros ([->|?] & ? & ?); tauto].
      * destruct (decide (c = gk_cgid k)) as [->|]; tauto.
Qed.

Lemma selectGrantPrunes_some keys live g :
  exists del seen', selectGrantPrunes keys live (Some g) = (del, Some seen').
Proof.
  revert g; induction keys as [|k keys IH]; intros g; cbn [selectGrantPrunes]; [eauto|].
  destruct (decide _); [apply IH|]. destruct (IH g) as (del & seen' & ->). eauto.
Qed.

Lemma selectEgressPrunes_spec cgids live seen del seen' :
  selectEgressPrunes cgids live seen = (del, seen') ->
  (forall c, c ∈ del <-> c ∈ cgids /\ (c ∉ live) /\ c ∈ seen)
  /\ (forall c, c ∈ seen' <-> (c ∈ seen) \/ (c ∈ live /\ c ∈ cgids)).
Proof.
  revert seen del. induction cgids as [|cg cgids IH]; intros seen del; cbn [selectEgressPrunes].
  - intros [= <- <-]. split; intros c; rewrite elem_of_nil; tauto.
  - destruct (decide (cg ∈ live)) as [Hl|Hl].
    + intros [Hd Hs]%IH.
      split; intros c; [rewrite Hd|rewrite Hs]; rewrite elem_of_cons, elem_of_union, elem_of_singleton;
        destruct (decide (c = cg)) as [->|]; tauto.
    + destruct (selectEgressPrunes cgids live seen) as [del0 seen0] eqn:E. intros [= <- <-].
      apply IH in E as [Hd Hs]. split; intros c; [|rewrite Hs, elem_of_cons; destruct (decide (c = cg)) as [->|]; tauto].
      destruct (decide (cg ∈ seen)); rewrite ?elem_of_cons, Hd; destruct (decide (c = cg)) as [->|]; tauto.
Qed.

Lemma elem_of_map_keys {K V} `{Countable K} (m : gmap K V) k : k ∈ (map_to_list m).*1 <-> is_Some (m !! k).
Proof.
  rewrite list_elem_of_fmap. split.
  - intros [[k' v] [-> Hin]]. apply elem_of_map_to_list in Hin. eauto.
  - intros [v Hv]. exists (k, v). split; [done|]. by apply elem_of_map_to_list.
Qed.

(** A tick in terms of what each map holds for a key, before and after. *)
Lemma gcTick_spec f g s g' s' :
  gcTick f g s = (g', s') ->
  (forall k, grant_once s' !! k
     = if decide ((gk_cgid k ∉ fs_live f) /\ gk_cgid k ∈ gc_grantSeen g) then None else grant_once s !! k)
  /\ (forall c, egress_policy s' !! c
     = if decide ((c ∉ fs_live f) /\ c ∈ gc_seen g) then None else egress_policy s !! c)
  /\ enforce_flags s' = enforce_flags s /\ events s' = events s
  /\ tcb_cgroups s' = (reconcileTCB (fs_tcb f) (fs_broker f) (tcb_cgroups s)).2
  /\ (forall c, c ∈ gc_grantSeen g' <-> (c ∈ gc_grantSeen g)
       \/ (c ∈ fs_live f /\ exists k, gk_cgid k = c /\ is_Some (grant_once s !! k)))
  /\ (forall c, c ∈ gc_seen g' <-> (c ∈ gc_seen g) \/ (c ∈ fs_live f /\ is_Some (egress_policy s !! c))).
Proof.
  unfold gcTick, runGCPass. cbn [egress_policy set_grants].
  destruct (selectGrantPrunes_some (map_to_list (grant_once s)).*1 (fs_live f) (gc_grantSeen g)) as (gd & gs & Eg).
  rewrite Eg. apply selectGrantPrunes_spec in Eg as [Hgd Hgs].
  destruct (selectEgressPrunes (map_to_list (egress_policy s)).*1 (fs_live f) (gc_seen g)) as [ed es] eqn:Ee.
  apply selectEgressPrunes_spec in Ee as [Hed Hes].
  cbn [tcb_cgroups set_egress set_grants]. destruct (reconcileTCB _ _ _) as [pr tcb'] eqn:Et.
  intros [= <- <-]. cbn. split_and!; try done.
  - intros k. unfold grant_ops. rewrite delete_each_lookup. pose proof (Hgd k) as H. rewrite elem_of_map_keys in H.
    destruct (decide (k ∈ gd)), (decide ((gk_cgid k ∉ fs_live f) /\ gk_cgid k ∈ gc_grantSeen g)); try done; [tauto|].
    destruct (grant_once s !! k) eqn:E; [|done]. exfalso. naive_solver.
  - intros c. unfold egress_ops. rewrite delete_each_lookup. pose proof (Hed c) as H. rewrite elem_of_map_keys in H.
    destruct (decide (c ∈ ed)), (decide ((c ∉ fs_live f) /\ c ∈ gc_seen g)); try done; [tauto|].
    destruct (egress_policy s !! c) eqn:E; [|done]. exfalso. naive_solver.
  - intros c. rewrite Hgs, list_elem_of_fmap. setoid_rewrite elem_of_map_keys. naive_solver.
  - intros c. by rewrite Hes, elem_of_map_keys.
Qed.

Lemma size_list_le (l : list Z) : (size (list_to_set l : gset Z) <= length l)%nat.
Proof.
  induction l as [|x l IH]; [done|]. cbn [list_to_set length]. rewrite size_union_alt, size_singleton.
  assert (size ((list_to_set l : gset Z) ∖ {[x]}) <= size (list_to_set l : gset Z))%nat
    by (apply subseteq_size; intros y; rewrite elem_of_difference; tauto). lia.
Qed.

Definition keep_set (ids : list Z) (broker : option Z) : gset Z :=
  match broker with Some b => {[b]} | None => ∅ end ∪ list_to_set ids.

(** Room for one more entry in the TCB map. *)
Definition tcb_room (m : gmap Z Z) : bool := Z.of_nat (size m) <? max_entries tcb_cgroups_map.

Lemma reconcileTCB_spec ids broker tcb k :
  (2 <= size (list_to_set ids : gset Z))%nat ->
  (reconcileTCB ids broker tcb).2 !! k
  = if decide (k ∈ keep_set ids broker) then
      (if decide (broker = Some k /\ tcb !! k = None /\ tcb_room tcb = true) then Some 1 else tcb !! k)
    else None.
Proof.
  intros Hs. unfold reconcileTCB. cbv zeta. rewrite (proj2 (Nat.ltb_ge _ _)) by done.
  set (tcb1 := match broker with
    | Some bid => match m_lookup tcb_ops tcb bid with
           | None => match m_update tcb_ops BPF_ANY bid 1 tcb with Ok tcb' => tcb' | Err _ => tcb end
           | Some _ => tcb end
    | None => tcb end).
  assert ((match broker with
           | Some bid => ({[bid]} ∪ (list_to_set ids : gset Z),
                match m_lookup tcb_ops tcb bid with
                | None => match m_update tcb_ops BPF_ANY bid 1 tcb with Ok tcb' => tcb' | Err _ => tcb end
                | Some _ => tcb end)
           | None => (list_to_set ids, tcb) end) = (keep_set ids broker, tcb1)) as ->.
  { unfold keep_set, tcb1. destruct broker; [done|]. by rewrite (left_id_L ∅ (∪)). }
  cbn [snd]. unfold tcb_ops. rewrite delete_each_lookup.
  assert (tcb1 !! k = if decide (broker = Some k /\ tcb !! k = None /\ tcb_room tcb = true)
                      then Some 1 else tcb !! k) as Htcb1.
  { unfold tcb1, tcb_ops, tcb_room. destruct broker as [bid|]; [|by rewrite decide_False by naive_solver].
    cbn [m_lookup m_update hash_ops]. unfold hash_update.
    destruct (tcb !! bid) eqn:Eb; [by rewrite decide_False by naive_solver|].
    destruct (_ <? _); [|by rewrite decide_False by naive_solver].
    destruct (decide (bid = k)) as [->|Hne]; [by rewrite lookup_insert_eq, decide_True|].
    rewrite lookup_insert_ne by done. by rewrite decide_False by naive_solver. }
  rewrite <- Htcb1. destruct (decide (k ∈ keep_set ids broker)) as [Hk|Hk].
  - rewrite decide_False; [done|]. rewrite list_elem_of_filter. tauto.
  - destruct (tcb1 !! k) eqn:E; [|by destruct (decide (k ∈ filter _ _))].
    rewrite decide_True; [done|]. rewrite list_elem_of_filter, elem_of_map_keys, E. eauto.
Qed.

(** ** Properties *)

(** A tick only deletes, and only entries of cgroups that are dead now and were seen
    alive before: every other grant and manifest is kept as it is, none is created or
    changed, and the enforce flags are untouched. *)
Theorem gc_deletes_only_the_dead f g s :
  let s' := (gcTick f g s).2 in
  (forall k, grant_once s' !! k = grant_once s !! k
     \/ (grant_once s' !! k = None /\ (gk_cgid k ∉ fs_live f) /\ gk_cgid k ∈ gc_grantSeen g))
  /\ (forall c, egress_policy s' !! c = egress_policy s !! c
     \/ (egress_policy s' !! c = None /\ (c ∉ fs_live f) /\ c ∈ gc_seen g))
  /\ enforce_flags s' = enforce_flags s.
Proof.
  cbv zeta. destruct (gcTick f g s) as [g' s'] eqn:E. apply gcTick_spec in E as (Hg & He & Hf & _).
  cbn [snd]. split_and!; [intros k; rewrite Hg|intros c; rewrite He|done]; destruct (decide _); tauto.
Qed.

(** Reclamation: an agent's grants and manifest that one tick sees while the agent is
    alive are gone after any later tick that finds it dead, whatever happened to the maps
    in between. *)
Theorem gc_reclaims_dead_agents f1 g1 s1 f2 s2 c :
  c ∈ fs_live f1 -> c ∉ fs_live f2 ->
  (exists k, gk_cgid k = c /\ is_Some (grant_once s1 !! k)) -> is_Some (egress_policy s1 !! c) ->
  let s2' := (gcTick f2 (gcTick f1 g1 s1).1 s2).2 in
  (forall k, gk_cgid k = c -> grant_once s2' !! k = None) /\ egress_policy s2' !! c = None.
Proof.
  intros Hl1 Hl2 Hk He. cbv zeta. destruct (gcTick f1 g1 s1) as [g1' s1'] eqn:E1.
  apply gcTick_spec in E1 as (_ & _ & _ & _ & _ & Hgs & Hs). cbn [fst].
  destruct (gcTick f2 g1' s2) as [g2' s2'] eqn:E2. apply gcTick_spec in E2 as (Hg2 & He2 & _).
  cbn [snd]. split.
  - intros k <-. rewrite Hg2, decide_True; [done|]. split; [done|]. apply Hgs. eauto.
  - rewrite He2, decide_True; [done|]. split; [done|]. apply Hs. eauto.
Qed.

Lemma gc_reclaims_dead_agents_witness :
  egress_policy (gcTick (Fs ∅ [1; 2] (Some 3))
    (gcTick (Fs {[7]} [1; 2] (Some 3)) (GcState ∅ ∅) armed_state).1 armed_state).2 !! 7 = None.
Proof.
  apply (gc_reclaims_dead_agents (Fs {[7]} [1; 2] (Some 3)) (GcState ∅ ∅) armed_state
           (Fs ∅ [1; 2] (Some 3)) armed_state 7).
  - cbn. by apply elem_of_singleton.
  - cbn. apply not_elem_of_empty.
  - exists (GrantKey 7 HOOK_PTRACE 0). split; [done|]. vm_compute. eauto.
  - vm_compute. eauto.
Defined.

(** Reconciliation of the TCB list: when root and collector are resolved, every entry
    afterwards belongs to root, collector or the live broker, none of theirs is lost, the
    broker is added if the map had room for it, and a second pass adds it in any case. An
    unresolved root or collector changes nothing. *)
Theorem tcb_is_reconciled ids b tcb :
  (2 <= size (list_to_set ids : gset Z))%nat -> (length ids <= 2)%nat ->
  let tcb1 := (reconcileTCB ids (Some b) tcb).2 in
  let tcb2 := (reconcileTCB ids (Some b) tcb1).2 in
  (forall k, is_Some (tcb1 !! k) -> k ∈ b :: ids)
  /\ (forall k v, k ∈ b :: ids -> tcb !! k = Some v -> tcb1 !! k = Some v)
  /\ (tcb_room tcb = true -> is_Some (tcb1 !! b))
  /\ is_Some (tcb2 !! b)
  /\ (forall ids', (size (list_to_set ids' : gset Z) < 2)%nat ->
       reconcileTCB ids' (Some b) tcb = ([], tcb)).
Proof.
  intros Hs Hl tcb1 tcb2.
  assert (forall k, k ∈ keep_set ids (Some b) <-> k ∈ b :: ids) as Hkeep.
  { intros k. unfold keep_set. rewrite elem_of_cons, elem_of_union, elem_of_singleton, elem_of_list_to_set. done. }
  assert (forall k, is_Some (tcb1 !! k) -> k ∈ b :: ids) as H1.
  { intros k. subst tcb1. rewrite reconcileTCB_spec by done. rewrite <- Hkeep.
    destruct (decide (k ∈ keep_set ids (Some b))); [done|]. by intros []. }
  assert (forall m, tcb_room m = true -> is_Some ((reconcileTCB ids (Some b) m).2 !! b)) as Hb.
  { intros m Hm. rewrite reconcileTCB_spec, decide_True by (done || apply Hkeep; left).
    destruct (decide _) as [|Hn]; [eauto|]. destruct (m !! b); [eauto|naive_solver]. }
  split_and!; [done| |by apply Hb| |].
  - intros k v Hk Hv. subst tcb1. rewrite reconcileTCB_spec, decide_True by (done || by apply Hkeep).
    rewrite decide_False by (rewrite Hv; naive_solver). done.
  - apply Hb. unfold tcb_room. apply Z.ltb_lt. change (max_entries tcb_cgroups_map) with 64.
    assert (size tcb1 <= 3)%nat; [|lia]. rewrite <- size_dom.
    transitivity (size (list_to_set (b :: ids) : gset Z)).
    + apply subseteq_size. intros k Hk. apply elem_of_dom in Hk. apply elem_of_list_to_set. auto.
    + pose proof (size_list_le (b :: ids)) as H. simpl in H. simpl. lia.
  - intros ids' Hi. unfold reconcileTCB. cbv zeta. by rewrite (proj2 (Nat.ltb_lt _ _)).
Qed.

Lemma tcb_is_reconciled_witness :
  is_Some ((reconcileTCB [1; 2] (Some 3) (reconcileTCB [1; 2] (Some 3) {[1 := 1; 9 := 1]}).2).2 !! 3).
Proof. apply (tcb_is_reconciled [1; 2] 3 {[1 := 1; 9 := 1]}); [vm_compute; lia|simpl; lia]. Defined.
