(* ===== verification/Control.v ===== *)
(** * The control socket: [control.go]

    The verbs through which everything but the collector writes the maps. A caller is
    identified by the kernel (uid, cgroup id and cgroup path); the request names no cgroup.
    A verb is a function of the caller and the request to a reply and the new maps, with
    the record it appends to the control chain. *)
From Stdlib Require Import ZArith Lia Ascii String.
From stdpp Require Import base tactics numbers option list gmap.
From S2P Require Import Prelude Objects Maps Kernel Hooks Fixtures HookProps Classes Gc.
#[local] Open Scope string_scope.
#[local] Open Scope list_scope.
#[local] Open Scope Z_scope.
#[local] Arguments String.append : simpl nomatch.

(** ** Paths *)
Fixpoint TrimPrefix_opt (p s : string) : option string :=
  match p, s with
  | EmptyString, _ => Some s
  | String a p, String b s => if Ascii.eqb a b then TrimPrefix_opt p s else None
  | _, EmptyString => None
  end.

Fixpoint TrimSuffix_opt (suf s : string) : option string :=
  if (s =? suf)%string then Some EmptyString
  else match s with
       | String c s => String c <$> TrimSuffix_opt suf s
       | EmptyString => None
       end.

Definition HasPrefix (s p : string) : bool := match TrimPrefix_opt p s with Some _ => true | None => false end.

Fixpoint no_char (c : ascii) (s : string) : bool :=
  match s with String d s => negb (Ascii.eqb d c) && no_char c s | EmptyString => true end.

(** The expression [^(/bulkhead\.slice)?/bulkhead-agent\.slice/bulkhead-agent@[^/]+\.service$]. *)
Definition agent_leaf (s : string) : bool :=
  match TrimPrefix_opt "/bulkhead-agent.slice/bulkhead-agent@" s with
  | Some rest =>
      match TrimSuffix_opt ".service" rest with
      | Some inst => negb (inst =? "")%string && no_char "/" inst
      | None => false
      end
  | None => false
  end.

Definition isAgentCgroup (cgPath : string) : bool :=
  match TrimPrefix_opt "/bulkhead.slice" cgPath with
  | Some rest => agent_leaf rest || agent_leaf cgPath
  | None => agent_leaf cgPath
  end.

(** [filepath.Clean] on Unix, for a rooted path: drop empty and [.] elements, and let
    [..] remove the element before it. *)
Fixpoint clean_elems (stack elems : list string) : list string :=
  match elems with
  | [] => rev stack
  | e :: elems =>
      if (e =? "")%string || (e =? ".")%string then clean_elems stack elems
      else if (e =? "..")%string then clean_elems (tl stack) elems
      else clean_elems (e :: stack) elems
  end.

Definition Clean (path : string) : string := ("/" ++ Join (clean_elems [] (Split "/" path)) "/")%string.

Definition TrimPrefix (s p : string) : string := default s (TrimPrefix_opt p s).

Definition brokerCgroupPath : string := "/sys/fs/cgroup/system.slice/bulkhead-broker.service".

(** Cgroup paths are attested by the kernel and rooted. *)
Definition isBrokerCaller (cgPath : string) : bool :=
  (Clean cgPath =? Clean (TrimPrefix brokerCgroupPath "/sys/fs/cgroup"))%string.

(** ** The verbs *)
Record ctl_record := CtlRecord {
  cr_hook : string; cr_comm : string; cr_decision : string; cr_mode : string; cr_cgid : Z }.

(** The maps and the control chain. *)
Record cstate := CState { c_maps : kstate; c_chain : list ctl_record }.

(** What the file system answers: whether a pinned map opens, the id of the cgroup at an
    absolute path, and whether an audit record can be appended. *)
Record uenv := UEnv { pinned : string -> bool; stat : string -> option Z; appends : bool }.

Definition reply : Type := string.

(** A failed append is only logged. *)
Definition recordControl (e : uenv) (hook comm decision mode : string) (cg : Z) (s : cstate) : cstate :=
  if appends e
  then CState (c_maps s) (c_chain s ++ [CtlRecord hook (String.substring 0 16 comm) decision mode cg])
  else s.

Lemma recordControl_maps e hook comm decision mode cg s :
  c_maps (recordControl e hook comm decision mode cg s) = c_maps s.
Proof. unfold recordControl. by destruct (appends e). Qed.

Definition on_maps (k : kstate) (s : cstate) : cstate := CState k (c_chain s).

Definition set_flags (fl : list Z) (s : kstate) : kstate :=
  KState fl (tcb_cgroups s) (egress_policy s) (grant_once s) (events s).

Definition ctlEgressSetSelf (e : uenv) (cgID : Z) (cgPath : string) (f : list string) (s : cstate)
    : reply * cstate :=
  if negb (isAgentCgroup cgPath) then ("ERR not-an-agent", s)
  else
    match f with
    | [_; classes] =>
        match parseClasses classes with
        | None => ("ERR bad-classes", s)
        | Some mask =>
            if negb (pinned e "egress_policy") then ("ERR map", s)
            else
              match m_update egress_ops BPF_ANY cgID mask (egress_policy (c_maps s)) with
              | Err _ => ("ERR update", recordControl e "control:egress-set" "" "err" "update-failed" cgID s)
              | Ok m => (("OK " ++ classNames mask)%string,
                  recordControl e "control:egress-set" "" "ok" (classNames mask) cgID
                    (on_maps (set_egress m (c_maps s)) s))
              end
        end
    | _ => ("ERR protocol", s)
    end.

Definition ctlEgressClearSelf (e : uenv) (cgID : Z) (cgPath : string) (s : cstate) : reply * cstate :=
  if negb (isAgentCgroup cgPath) then ("ERR not-an-agent", s)
  else if negb (pinned e "egress_policy") then ("ERR map", s)
  else
    match m_delete egress_ops cgID (egress_policy (c_maps s)) with
    | Err ENOENT => ("OK cleared", recordControl e "control:egress-clear" "" "ok" "cleared" cgID s)
    | Err _ => ("ERR delete", recordControl e "control:egress-clear" "" "err" "delete-failed" cgID s)
    | Ok m => ("OK cleared", recordControl e "control:egress-clear" "" "ok" "cleared" cgID
                               (on_maps (set_egress m (c_maps s)) s))
    end.

Definition ctlGrantClearSelf (e : uenv) (cgID : Z) (cgPath : string) (s : cstate) : reply * cstate :=
  if negb (isAgentCgroup cgPath) then ("ERR not-an-agent", s)
  else if negb (pinned e "grant_once") then ("ERR map", s)
  else
    let ks := (fun h => GrantKey cgID h 0) <$> [hookPtrace; hookSetuid; hookCapset] in
    let g := delete_each grant_ops ks (grant_once (c_maps s)) in
    ("OK cleared", recordControl e "control:grant-clear" "" "ok" "cleared" cgID
                     (on_maps (set_grants g (c_maps s)) s)).

Definition ctlTcbRegisterBroker (e : uenv) (cgPath : string) (s : cstate) : reply * cstate :=
  if negb (isBrokerCaller cgPath) then ("ERR not-broker", s)
  else
    match stat e brokerCgroupPath with
    | None => ("ERR broker-cgroup", s)
    | Some bid =>
        if negb (pinned e "tcb_cgroups") then ("ERR map", s)
        else
          match m_update tcb_ops BPF_ANY bid 1 (tcb_cgroups (c_maps s)) with
          | Err _ => ("ERR update", recordControl e "control:tcb-register-broker" "broker" "err" "update-failed" bid s)
          | Ok m => ("OK registered", recordControl e "control:tcb-register-broker" "broker" "ok" "registered" bid
                                        (on_maps (set_tcb m (c_maps s)) s))
          end
    end.

Definition ctlWaitBrokerTCB (e : uenv) (s : cstate) : reply * cstate :=
  match stat e brokerCgroupPath with
  | None => ("ERR broker-cgroup", s)
  | Some bid =>
      if negb (pinned e "tcb_cgroups") then ("ERR map", s)
      else match m_lookup tcb_ops (tcb_cgroups (c_maps s)) bid with
           | None => ("ERR not-registered", s)
           | Some _ => ("OK registered", s)
           end
  end.

Definition ctlEnforceSet (e : uenv) (cgPath : string) (f : list string) (s : cstate) : reply * cstate :=
  if isAgentCgroup cgPath then ("ERR not-operator", s)
  else
    match f with
    | [_; hook; v] =>
        if negb (v =? "0")%string && negb (v =? "1")%string then ("ERR protocol", s)
        else
          match hookID hook with
          | None => ("ERR bad-hook", s)
          | Some hid =>
              let val := if (v =? "1")%string then 1 else 0 in
              if negb (pinned e "enforce_flags") then ("ERR map", s)
              else
                match m_update flags_ops BPF_ANY hid val (enforce_flags (c_maps s)) with
                | Err _ => ("ERR update", recordControl e "control:enforce-set" hook "err" "update-failed" 0 s)
                | Ok m => (("OK " ++ hook ++ "=" ++ v)%string,
                    recordControl e "control:enforce-set" hook "ok" (hook ++ "=" ++ v)%string 0
                      (on_maps (set_flags m (c_maps s)) s))
                end
          end
    | _ => ("ERR protocol", s)
    end.

(** The connecting peer, from the kernel. *)
Record peer := Peer { p_uid : Z; p_cgid : Z; p_path : string }.

(** The dispatch of [handleControlConn]; the attestation verbs answer from the TPM and
    leave the maps alone, their reply is an argument. *)
Definition handleControlConn (e : uenv) (attest : list string -> reply) (p : peer) (f : list string)
    (s : cstate) : reply * cstate :=
  if negb (p_uid p =? 0) then ("ERR not-root", s)
  else
    match f with
    | [] => ("ERR protocol", s)
    | verb :: _ =>
        if (verb =? "EGRESS-SET-SELF")%string then ctlEgressSetSelf e (p_cgid p) (p_path p) f s
        else if (verb =? "EGRESS-CLEAR-SELF")%string then ctlEgressClearSelf e (p_cgid p) (p_path p) s
        else if (verb =? "GRANT-CLEAR-SELF")%string then ctlGrantClearSelf e (p_cgid p) (p_path p) s
        else if (verb =? "TCB-REGISTER-BROKER")%string then ctlTcbRegisterBroker e (p_path p) s
        else if (verb =? "WAIT-BROKER-TCB")%string then ctlWaitBrokerTCB e s
        else if (verb =? "ENFORCE-SET")%string then ctlEnforceSet e (p_path p) f s
        else if bool_decide (verb ∈ ["ATTEST-EXTEND"; "ATTEST-QUOTE"; "ATTEST-EK"; "ATTEST-ACTIVATE";
                                     "ATTEST-GATE"; "ATTEST-SELFCHECK"]) then (attest f, s)
        else ("ERR protocol", s)
    end.

(** [shouldRetryControl]. *)
Definition shouldRetryControl (verb resp : string) : bool :=
  if (verb =? "wait-broker-tcb")%string then true else HasPrefix resp "control ".

(** ** Lemmas on paths *)
Lemma append_nil_r s : (s ++ "")%string = s.
Proof. induction s as [|c s IH]; simpl; congruence. Qed.

Lemma append_assoc a b c : (a ++ (b ++ c) = (a ++ b) ++ c)%string.
Proof. induction a as [|x a IH]; simpl; congruence. Qed.

Lemma TrimPrefix_spec p s r : TrimPrefix_opt p s = Some r <-> s = (p ++ r)%string.
Proof.
  revert s; induction p as [|a p IH]; intros s; simpl; [split; congruence|].
  destruct s as [|b s]; [done|]. destruct (Ascii.eqb_spec a b) as [->|Hne].
  - rewrite IH. split; congruence.
  - split; congruence.
Qed.

Lemma append_length a b : String.length (a ++ b)%string = (String.length a + String.length b)%nat.
Proof. induction a; simpl; congruence. Qed.

Lemma TrimSuffix_spec suf s r : TrimSuffix_opt suf s = Some r <-> s = (r ++ suf)%string.
Proof.
  revert r; induction s as [|c s IH]; intros r; cbn [TrimSuffix_opt].
  - destruct (String.eqb_spec "" suf) as [<-|Hne]; [|destruct r; split; simpl; congruence].
    rewrite append_nil_r. split; congruence.
  - destruct (String.eqb_spec (String c s) suf) as [<-|Hne].
    + split; [by intros [= <-]|]. intros E. apply (f_equal String.length) in E as El.
      rewrite append_length in El. destruct r; [done|simpl in El; lia].
    + split.
      * destruct (TrimSuffix_opt suf s) as [r'|]; [|done]. simpl. intros [= <-].
        simpl. by rewrite (proj1 (IH r') eq_refl).
      * destruct r as [|c' r]; simpl; [congruence|]. intros [= <- E].
        by rewrite (proj2 (IH r) E).
Qed.

Definition agent_path (pre inst : string) : string :=
  (pre ++ "/bulkhead-agent.slice/bulkhead-agent@" ++ inst ++ ".service")%string.

Lemma agent_leaf_iff s :
  agent_leaf s = true <-> exists inst, inst <> "" /\ no_char "/" inst = true /\ s = agent_path "" inst.
Proof.
  unfold agent_leaf, agent_path. split.
  - destruct (TrimPrefix_opt _ s) as [rest|] eqn:E1; [|done]. apply TrimPrefix_spec in E1.
    destruct (TrimSuffix_opt _ rest) as [inst|] eqn:E2; [|done]. apply TrimSuffix_spec in E2.
    destruct (String.eqb_spec inst ""); [done|]. intros H. exists inst. subst. done.
  - intros (inst & Hne & Hs & ->).
    rewrite (proj2 (TrimPrefix_spec "/bulkhead-agent.slice/bulkhead-agent@" _ (inst ++ ".service")%string)) by done.
    rewrite (proj2 (TrimSuffix_spec ".service" (inst ++ ".service")%string inst)) by done.
    destruct (String.eqb_spec inst ""); done.
Qed.

Lemma isAgentCgroup_iff s :
  isAgentCgroup s = true <->
  exists pre inst, (pre = "" \/ pre = "/bulkhead.slice") /\ inst <> "" /\ no_char "/" inst = true
                   /\ s = agent_path pre inst.
Proof.
  unfold isAgentCgroup. split.
  - assert (agent_leaf s = true -> exists pre inst, (pre = "" \/ pre = "/bulkhead.slice") /\ inst <> ""
              /\ no_char "/" inst = true /\ s = agent_path pre inst) as Hleaf
      by (intros (inst & ? & ? & ?)%agent_leaf_iff; exists "", inst; auto).
    destruct (TrimPrefix_opt "/bulkhead.slice" s) as [rest|] eqn:E; [|done]. apply TrimPrefix_spec in E.
    intros [(inst & ? & ? & ->)%agent_leaf_iff|?]%orb_true_iff; [|auto]. exists "/bulkhead.slice", inst. auto.
  - intros (pre & inst & [->| ->] & Hne & Hs & ->).
    + assert (agent_leaf (agent_path "" inst) = true) as -> by (apply agent_leaf_iff; eauto).
      destruct (TrimPrefix_opt _ _); [by rewrite orb_true_r|done].
    + rewrite (proj2 (TrimPrefix_spec "/bulkhead.slice" _ (agent_path "" inst))) by done.
      assert (agent_leaf (agent_path "" inst) = true) as -> by (apply agent_leaf_iff; eauto). done.
Qed.

Lemma no_char_app c a b : no_char c (a ++ b)%string = no_char c a && no_char c b.
Proof. induction a as [|d a IH]; simpl; [done|]. by rewrite IH, andb_assoc. Qed.

Lemma Split_last c s : no_char c s = true -> Split c s = [s].
Proof.
  induction s as [|d s IH]; simpl; [done|]. intros [Hd Hs]%andb_prop.
  destruct (Ascii.eqb d c); [done|]. by rewrite IH.
Qed.

Lemma Split_app c a b : no_char c a = true -> Split c (a ++ String c b)%string = a :: Split c b.
Proof.
  induction a as [|d a IH]; simpl; [by rewrite Ascii.eqb_refl|]. intros [Hd Ha]%andb_prop.
  destruct (Ascii.eqb d c); [done|]. by rewrite IH.
Qed.

(** The last element of an agent's path is neither empty, [.] nor [..]. *)
Lemma agent_elem inst :
  (("bulkhead-agent@" ++ inst ++ ".service") =? "")%string = false
  /\ (("bulkhead-agent@" ++ inst ++ ".service") =? ".")%string = false
  /\ (("bulkhead-agent@" ++ inst ++ ".service") =? "..")%string = false.
Proof. done. Qed.

Lemma Clean_agent_path pre inst :
  (pre = "" \/ pre = "/bulkhead.slice") -> no_char "/" inst = true ->
  Clean (agent_path pre inst) = agent_path pre inst.
Proof.
  intros Hpre Hi. unfold Clean, agent_path.
  assert (no_char "/" ("bulkhead-agent@" ++ inst ++ ".service")%string = true) as Hn
    by (rewrite !no_char_app, Hi; done).
  destruct (agent_elem inst) as (E1 & E2 & E3). destruct Hpre as [-> | ->].
  - change (Split "/" ("" ++ "/bulkhead-agent.slice/bulkhead-agent@" ++ inst ++ ".service")%string)
      with (Split "/" ("" ++ String "/" ("bulkhead-agent.slice" ++ String "/" ("bulkhead-agent@" ++ inst ++ ".service")))%string).
    rewrite !Split_app by done. rewrite Split_last by done. cbn [clean_elems]. rewrite E1, E2, E3. done.
  - change (Split "/" ("/bulkhead.slice" ++ "/bulkhead-agent.slice/bulkhead-agent@" ++ inst ++ ".service")%string)
      with (Split "/" ("" ++ String "/" ("bulkhead.slice" ++ String "/" ("bulkhead-agent.slice" ++ String "/" ("bulkhead-agent@" ++ inst ++ ".service"))))%string).
    rewrite !Split_app by done. rewrite Split_last by done. cbn [clean_elems]. rewrite E1, E2, E3. done.
Qed.

Lemma agent_not_broker p : isAgentCgroup p = true -> isBrokerCaller p = false.
Proof.
  intros (pre & inst & Hpre & Hne & Hi & ->)%isAgentCgroup_iff. unfold isBrokerCaller.
  rewrite Clean_agent_path by done. apply String.eqb_neq. by destruct Hpre as [-> | ->].
Qed.

(** ** What each verb may change *)

(** The frame of a verb: the parts of the maps it leaves alone. *)
Lemma egress_set_frame e cg path f s :
  let m := c_maps s in let m' := c_maps (ctlEgressSetSelf e cg path f s).2 in
  m' = m \/ exists g, m' = set_egress g m /\ forall c, c <> cg -> g !! c = egress_policy m !! c.
Proof.
  cbv zeta. unfold ctlEgressSetSelf. repeat case_match; cbn [snd]; rewrite ?recordControl_maps; auto. right. eexists. split; [done|].
  intros c Hc. by eapply (update_other (ops := egress_ops)).
Qed.

Lemma egress_clear_frame e cg path s :
  let m := c_maps s in let m' := c_maps (ctlEgressClearSelf e cg path s).2 in
  m' = m \/ exists g, m' = set_egress g m /\ forall c, c <> cg -> g !! c = egress_policy m !! c.
Proof.
  cbv zeta. unfold ctlEgressClearSelf. repeat case_match; cbn [snd]; rewrite ?recordControl_maps; auto. right. eexists. split; [done|].
  intros c Hc. by eapply (delete_other (ops := egress_ops)).
Qed.

Lemma grant_clear_frame e cg path s :
  let m := c_maps s in let m' := c_maps (ctlGrantClearSelf e cg path s).2 in
  m' = m \/ exists g, m' = set_grants g m /\
    forall k, g !! k = grant_once m !! k \/ (gk_cgid k = cg /\ g !! k = None).
Proof.
  cbv zeta. unfold ctlGrantClearSelf. destruct (negb _); [by left|]. destruct (negb _); [by left|].
  cbn [snd]. rewrite recordControl_maps. right.
  eexists. split; [reflexivity|].
  intros k. unfold grant_ops. rewrite delete_each_lookup.
  destruct (decide _) as [Hin|]; [|auto]. right. split; [|done]. cbn in Hin.
  rewrite !elem_of_cons, elem_of_nil in Hin. naive_solver.
Qed.

Lemma tcb_register_frame e path s :
  let m := c_maps s in let m' := c_maps (ctlTcbRegisterBroker e path s).2 in
  m' = m \/ isBrokerCaller path = true /\
    exists bid, stat e brokerCgroupPath = Some bid /\ m' = set_tcb (<[bid := 1]> (tcb_cgroups m)) m.
Proof.
  cbv zeta. unfold ctlTcbRegisterBroker.
  destruct (isBrokerCaller path) eqn:Hb; [|by left]. cbn [negb].
  destruct (stat e brokerCgroupPath) as [bid|] eqn:Hst; [|by left]. destruct (negb _); [by left|].
  destruct (m_update tcb_ops BPF_ANY bid 1 _) as [m|] eqn:Hu; cbn [snd];
    rewrite recordControl_maps; [|by left]. right. split; [done|]. exists bid. split; [done|].
  by rewrite (hash_update_inv (max_entries tcb_cgroups_map) _ _ _ _ _ Hu).
Qed.

Lemma wait_broker_frame e s : (ctlWaitBrokerTCB e s).2 = s.
Proof. unfold ctlWaitBrokerTCB. by repeat case_match. Qed.

Lemma enforce_set_frame e path f s :
  let m := c_maps s in let m' := c_maps (ctlEnforceSet e path f s).2 in
  m' = m \/ isAgentCgroup path = false /\ exists fl, m' = set_flags fl m.
Proof.
  cbv zeta. unfold ctlEnforceSet. destruct (isAgentCgroup path); [by left|].
  repeat case_match; cbn [snd]; rewrite ?recordControl_maps; cbn; eauto.
Qed.

(** The effect of a request on the maps, by cases. *)
Inductive effect (e : uenv) (p : peer) (m : kstate) : kstate -> Prop :=
| eff_none : effect e p m m
| eff_egress g : (forall c, c <> p_cgid p -> g !! c = egress_policy m !! c) -> effect e p m (set_egress g m)
| eff_grants g :
    (forall k, g !! k = grant_once m !! k \/ (gk_cgid k = p_cgid p /\ g !! k = None)) ->
    effect e p m (set_grants g m)
| eff_tcb bid : isBrokerCaller (p_path p) = true -> stat e brokerCgroupPath = Some bid ->
    effect e p m (set_tcb (<[bid := 1]> (tcb_cgroups m)) m)
| eff_flags fl : isAgentCgroup (p_path p) = false -> effect e p m (set_flags fl m).

Lemma handleControlConn_effect e at_ p f s :
  effect e p (c_maps s) (c_maps (handleControlConn e at_ p f s).2).
Proof.
  unfold handleControlConn. destruct (negb _); [constructor|]. destruct f as [|verb f']; [constructor|].
  destruct (verb =? "EGRESS-SET-SELF")%string.
  { destruct (egress_set_frame e (p_cgid p) (p_path p) (verb :: f') s) as [->|(g & -> & ?)]; by constructor. }
  destruct (verb =? "EGRESS-CLEAR-SELF")%string.
  { destruct (egress_clear_frame e (p_cgid p) (p_path p) s) as [->|(g & -> & ?)]; by constructor. }
  destruct (verb =? "GRANT-CLEAR-SELF")%string.
  { destruct (grant_clear_frame e (p_cgid p) (p_path p) s) as [->|(g & -> & ?)]; by constructor. }
  destruct (verb =? "TCB-REGISTER-BROKER")%string.
  { destruct (tcb_register_frame e (p_path p) s) as [->|(? & bid & ? & ->)]; by constructor. }
  destruct (verb =? "WAIT-BROKER-TCB")%string.
  { rewrite wait_broker_frame. constructor. }
  destruct (verb =? "ENFORCE-SET")%string.
  { destruct (enforce_set_frame e (p_path p) (verb :: f') s) as [->|(? & fl & ->)]; by constructor. }
  case_match; constructor.
Qed.

(** ** Properties *)

(** The agent predicate is the anchored pattern: a path is an agent's exactly when it
    is an instance of the agent unit directly in the agent slice, at the top or under the
    bulkhead slice; no embedded or nested path passes, and none is the broker's. *)
Theorem agent_cgroup_exact s :
  (isAgentCgroup s = true <->
   exists pre inst, (pre = "" \/ pre = "/bulkhead.slice") /\ inst <> "" /\ no_char "/" inst = true
     /\ s = agent_path pre inst)
  /\ ~ (isAgentCgroup s = true /\ isBrokerCaller s = true).
Proof.
  split; [apply isAgentCgroup_iff|]. intros [Ha Hb]. rewrite agent_not_broker in Hb by done. done.
Qed.

(** Confinement at the control socket: whatever an agent sends, as root and with any
    verb, the enforce flags and the TCB list stay as they are, no other cgroup's manifest
    or grant changes, and its own grants can only disappear. *)
Theorem agent_requests_are_confined e at_ p f s :
  isAgentCgroup (p_path p) = true ->
  let m := c_maps s in let m' := c_maps (handleControlConn e at_ p f s).2 in
  enforce_flags m' = enforce_flags m /\ tcb_cgroups m' = tcb_cgroups m
  /\ (forall c, c <> p_cgid p -> egress_policy m' !! c = egress_policy m !! c)
  /\ (forall k, grant_once m' !! k = grant_once m !! k
                \/ (gk_cgid k = p_cgid p /\ grant_once m' !! k = None)).
Proof.
  intros Ha m m'. subst m m'. pose proof (agent_not_broker _ Ha) as Hb.
  destruct (handleControlConn_effect e at_ p f s) as [|g Hg|g Hg|bid Hc _|fl Hf]; [| | |congruence..];
    cbn; auto.
Qed.

Lemma agent_requests_are_confined_witness :
  let p := Peer 0 7 "/bulkhead.slice/bulkhead-agent.slice/bulkhead-agent@worker.service" in
  let e := UEnv (fun _ => true) (fun _ => Some 3) true in
  let s := CState armed_state [] in
  tcb_cgroups (c_maps (handleControlConn e (fun _ => "") p ["EGRESS-SET-SELF"; "any"] s).2)
  = tcb_cgroups armed_state
  /\ egress_policy (c_maps (handleControlConn e (fun _ => "") p ["EGRESS-SET-SELF"; "any"] s).2) !! 7 = Some 31.
Proof.
  intros p e s. split; [|vm_compute; reflexivity].
  apply (agent_requests_are_confined e (fun _ => "") p ["EGRESS-SET-SELF"; "any"] s).
  vm_compute. reflexivity.
Defined.

(** Membership of the TCB changes through the control socket only for root in exactly
    the broker's cgroup, and then only by adding the cgroup the collector itself resolves
    for the broker's fixed path; there is no verb that elevates a cgroup the caller names. *)
Theorem only_the_broker_joins_the_tcb e at_ p f s :
  let m := c_maps s in let m' := c_maps (handleControlConn e at_ p f s).2 in
  tcb_cgroups m' = tcb_cgroups m
  \/ (p_uid p = 0 /\ isBrokerCaller (p_path p) = true /\ isAgentCgroup (p_path p) = false /\
      exists bid, stat e brokerCgroupPath = Some bid /\ tcb_cgroups m' = <[bid := 1]> (tcb_cgroups m)).
Proof.
  intros m m'. subst m m'. destruct (Z.eqb_spec (p_uid p) 0) as [Hu|Hu].
  - destruct (handleControlConn_effect e at_ p f s) as [|g Hg|g Hg|bid Hc Hst|fl Hf]; cbn; auto.
    right. split_and!; [done|done| |eauto].
    destruct (isAgentCgroup (p_path p)) eqn:Ha; [|done]. apply agent_not_broker in Ha. congruence.
  - left. unfold handleControlConn. by destruct (Z.eqb_spec (p_uid p) 0).
Qed.
