(* ===== verification/Broker.v ===== *)
(** * The broker: requests and the approval gate ([broker.go], [grant.go])

    Agents ask the broker to spawn a narrowed child (DELEGATE), to widen their own
    manifest (EXPAND) or for one privileged operation (GRANT-ONCE). This file has the
    handlers up to the gate and the gate itself; what runs behind it is in [Approval.v]. *)
From Stdlib Require Import ZArith Lia Ascii String.
From stdpp Require Import base tactics numbers option list gmap.
From S2P Require Import Prelude Objects Maps Kernel Hooks Fixtures HookProps Classes Gc Control.
#[local] Open Scope string_scope.
#[local] Open Scope list_scope.
#[local] Open Scope Z_scope.
#[local] Arguments String.append : simpl nomatch.

(** ** Requests *)
Inductive actionKind := actDelegate | actExpandEgress | actGrantOnce.

#[export] Instance actionKind_eq_dec : EqDecision actionKind.
Proof. solve_decision. Defined.

Record pending := Pending {
  pd_kind : actionKind;
  pd_cg : Z;               (* parentCgID: the attested requester *)
  pd_path : string;        (* parentPath *)
  pd_suffix : string;
  pd_instance : string;    (* delegate: the child's unit instance *)
  pd_task : string;
  pd_gen : Z;
  pd_reqMask : Z;
  pd_childMask : Z;
  pd_curMask : Z;
  pd_hook : Z }.

(** A handler answers at once or hands a request to the approval gate. *)
Inductive request := Reply (r : reply) | Gate (p : pending).

(** *** Names *)
Definition is_lower_digit (c : ascii) : bool :=
  let n := N_of_ascii c in
  (((97 <=? n) && (n <=? 122)) || ((48 <=? n) && (n <=? 57)) || (n =? 45) || (n =? 95))%N.

Fixpoint all_chars (f : ascii -> bool) (s : string) : bool :=
  match s with String c s => f c && all_chars f s | EmptyString => true end.

Definition in_len (s : string) (lo hi : nat) : bool :=
  ((lo <=? String.length s) && (String.length s <=? hi))%nat.

Definition validSuffix (s : string) : bool := in_len s 1 24 && all_chars is_lower_digit s.
Definition validInstance (s : string) : bool := in_len s 1 64 && all_chars is_lower_digit s.

(** Printable ASCII, at most 4096 bytes; empty is allowed. *)
Definition validTask (s : string) : bool :=
  in_len s 0 4096 && all_chars (fun c => let n := N_of_ascii c in ((32 <=? n) && (n <=? 126))%N) s.

Definition parseDelegateTail (f : list string) : option (string * string * string) :=
  match f with
  | _ :: suffix :: classes :: task => Some (suffix, classes, Join task " ")
  | _ => None
  end.

(** [inst[i+len(marker):]] for the last index [i] of [marker]. *)
Fixpoint after_last (marker s : string) : option string :=
  match s with
  | EmptyString => None
  | String _ s' => match after_last marker s' with Some r => Some r | None => TrimPrefix_opt marker s end
  end.

(** Everything before the first occurrence of [sub]. *)
Fixpoint before_first (sub s : string) : string :=
  match TrimPrefix_opt sub s with
  | Some _ => EmptyString
  | None => match s with String c s' => String c (before_first sub s') | EmptyString => EmptyString end
  end.

Definition is_digit (c : ascii) : bool := let n := N_of_ascii c in ((48 <=? n) && (n <=? 57))%N.

(** The decimal digits at the front of a string, their value, and the rest. *)
Fixpoint digits (acc : Z) (s : string) : Z * string :=
  match s with
  | String c s' => if is_digit c then digits (10 * acc + (Z.of_N (N_of_ascii c) - 48)) s' else (acc, s)
  | EmptyString => (acc, s)
  end.

(** [delegGen]: the generation in an instance name [d<N>-...], else 0; [None] is an error
    (no instance, or a number [strconv.Atoi] cannot represent). *)
Definition delegGen (parentPath : string) : option Z :=
  match after_last "bulkhead-agent@" parentPath with
  | None => None
  | Some rest =>
      let inst := before_first ".service" rest in
      if (inst =? "")%string then None
      else
        match inst with
        | String d (String c _ as num) =>
            if Ascii.eqb d "d" && is_digit c then
              match digits 0 num with
              | (n, String dash _) =>
                  if Ascii.eqb dash "-" then (if n <? 2 ^ 63 then Some n else None) else Some 0
              | _ => Some 0
              end
            else Some 0
        | _ => Some 0
        end
  end.

(** *** Handlers *)

(** The broker's view: file system, deployment ceiling and depth, and what the moment
    supplies: a random instance part, the expiry of a grant, whether the unit starts, and
    the matches of a file-name pattern. *)
Record benv := BEnv {
  be_fs : uenv;
  expandCeiling : Z;
  maxDelegateDepth : Z;
  randHex8 : string;
  grantTTL : Z;            (* seconds *)
  grantExpiry : Z;
  starts : string -> bool;
  Glob : string -> list string }.

Definition Itoa_digit (n : Z) : string := String (ascii_of_N (Z.to_N (48 + n))) EmptyString.

(** [strconv.Itoa]: an [int] has at most twenty digits. *)
Fixpoint Itoa_fuel (fuel : nat) (n : Z) : string :=
  match fuel with
  | O => EmptyString
  | S fuel => if n <? 10 then Itoa_digit n else (Itoa_fuel fuel (n / 10) ++ Itoa_digit (n mod 10))%string
  end.
Definition Itoa (n : Z) : string :=
  if n <? 0 then ("-" ++ Itoa_fuel 20 (- n))%string else Itoa_fuel 20 n.

Definition hookName (h : Z) : string := default "" (snd <$> (snd <$> list_find (fun p => p.1 = h) hookNames)).

Definition lookupEgressMask (e : benv) (cg : Z) (m : kstate) : option Z :=
  if pinned (be_fs e) "egress_policy" then m_lookup egress_ops (egress_policy m) cg else None.

Definition handleDelegateTail (e : benv) (cg : Z) (path : string) (f : list string) (m : kstate) : request :=
  match parseDelegateTail f with
  | None => Reply "ERR protocol"
  | Some (suffix, reqStr, task) =>
      if negb (validSuffix suffix) then Reply "ERR bad-suffix"
      else match parseClasses reqStr with
      | None => Reply "ERR bad-classes"
      | Some reqMask =>
          if negb (validTask task) then Reply "ERR bad-task"
          else match delegGen path with
          | None => Reply "ERR bad-parent"
          | Some gen =>
              let gen1 := s64 (gen + 1) in
              if maxDelegateDepth e <? gen1 then Reply "ERR too-deep"
              else match lookupEgressMask e cg m with
              | None => Reply "ERR no-parent-manifest"
              | Some parentMask =>
                  Gate (Pending actDelegate cg path suffix
                          ("d" ++ Itoa gen1 ++ "-" ++ randHex8 e ++ "-" ++ suffix)%string
                          task gen1 reqMask (Z.land parentMask reqMask) 0 0)
              end
          end
      end
  end.

Definition handleExpandTail (e : benv) (cg : Z) (path : string) (f : list string) (m : kstate) : request :=
  if match delegGen path with Some gen => 0 <? gen | None => false end
  then Reply "ERR no-expand-for-delegated"
  else match f with
  | [_; classes] =>
      match parseClasses classes with
      | None => Reply "ERR bad-classes"
      | Some reqMask =>
          match lookupEgressMask e cg m with
          | None => Reply "ERR no-manifest"
          | Some curMask =>
              if expandMask curMask reqMask (expandCeiling e) =? curMask then
                if negb (Z.ldiff reqMask curMask =? 0) then Reply "ERR above-ceiling"
                else Reply ("OK " ++ classNames curMask ++ " (no-op)")%string
              else Gate (Pending actExpandEgress cg path "" "" "" 0 reqMask 0 curMask 0)
          end
      end
  | _ => Reply "ERR protocol"
  end.

(** [hookArmed]: [None] when the map cannot be opened. *)
Definition hookArmed (e : benv) (hid : Z) (m : kstate) : option bool :=
  if pinned (be_fs e) "enforce_flags" then Some (is_one (m_lookup flags_ops (enforce_flags m) hid)) else None.

Definition handleGrantOnceTail (e : benv) (cg : Z) (path : string) (f : list string) (m : kstate) : request :=
  match f with
  | [_; name] =>
      match grantableHook name with
      | None => Reply "ERR bad-hook"
      | Some hid =>
          if bool_decide (hookArmed e hid m = Some false) then Reply ("OK " ++ name ++ " (not-armed, no-op)")%string
          else Gate (Pending actGrantOnce cg path "" "" "" 0 0 0 0 hid)
      end
  | _ => Reply "ERR protocol"
  end.

(** [handleBrokerConn]: only an agent is served, and under its attested identity. *)
Definition handleBrokerConn (e : benv) (p : peer) (f : list string) (m : kstate) : request :=
  if negb (isAgentCgroup (p_path p)) then Reply "ERR not-an-agent"
  else match f with
  | [] => Reply "ERR protocol"
  | verb :: _ =>
      if (verb =? "DELEGATE")%string then handleDelegateTail e (p_cgid p) (p_path p) f m
      else if (verb =? "EXPAND")%string then handleExpandTail e (p_cgid p) (p_path p) f m
      else if (verb =? "GRANT-ONCE")%string then handleGrantOnceTail e (p_cgid p) (p_path p) f m
      else Reply "ERR protocol"
  end.

(** ** The approval gate *)
Definition maxPending : Z := 64.
Definition maxPendingPar : Z := 4.

Record gate_state := GateState {
  pendNext : Z;
  pend : gmap Z pending;
  pendPerPar : gmap Z Z }.

(** A missing key of a Go map reads as zero. *)
Definition perPar (g : gate_state) (cg : Z) : Z := default 0 (pendPerPar g !! cg).

(** [register]: the id given, or [None] when the flood backstop refuses. *)
Definition register (p : pending) (g : gate_state) : option Z * gate_state :=
  if (maxPending <=? Z.of_nat (size (pend g))) || (maxPendingPar <=? perPar g (pd_cg p)) then (None, g)
  else
    let id := u64 (pendNext g + 1) in
    (Some id, GateState id (<[id := p]> (pend g))
                (<[pd_cg p := perPar g (pd_cg p) + 1]> (pendPerPar g))).

(** A request with its verdict, as [approve] returns it to [finishGated]. *)
Record decided := Decided { dd_req : pending; dd_ok : bool; dd_verdict : string; dd_operator : string }.

(** [resolve]: the request that receives the verdict, if it is still pending. *)
Definition resolve (id : Z) (ok : bool) (verdict operator : string) (g : gate_state)
    : option decided * gate_state :=
  match pend g !! id with
  | None => (None, g)
  | Some p => (Some (Decided p ok verdict operator), GateState (pendNext g) (delete id (pend g))
                         (<[pd_cg p := perPar g (pd_cg p) - 1]> (pendPerPar g)))
  end.

(** ** The gate's invariant *)
Definition from (cg : Z) (_ : Z) (p : pending) : bool := pd_cg p =? cg.

Record gate_inv (g : gate_state) : Prop := {
  gi_size : Z.of_nat (size (pend g)) <= maxPending;
  gi_par : forall cg, Z.of_nat (count_map (from cg) (pend g)) = perPar g cg /\ perPar g cg <= maxPendingPar;
  gi_ids : map_Forall (fun id _ => 0 < id <= pendNext g) (pend g);
  gi_next : 0 <= pendNext g }.

(** Requests arriving and verdicts, by the operator or by the timeout, in any order. *)
Inductive gate_event := Arrive (p : pending) | Decide (id : Z) (ok : bool) (verdict operator : string).

Definition gate_step (g : gate_state) (ev : gate_event) : gate_state :=
  match ev with Arrive p => (register p g).2 | Decide id ok v op => (resolve id ok v op g).2 end.

Definition empty_gate : gate_state := GateState 0 ∅ ∅.

Lemma count_map_delete {K A} `{Countable K} (f : K -> A -> bool) k x (m : gmap K A) :
  m !! k = Some x ->
  (count_map f (delete k m) + (if f k x then 1 else 0) = count_map f m)%nat.
Proof.
  intros Hk. pose proof (count_map_insert f k x (delete k m)) as Hi.
  rewrite lookup_delete_eq, insert_delete_id in Hi by done. lia.
Qed.

Lemma perPar_insert n q par cg v c :
  perPar (GateState n q (<[cg := v]> par)) c = if decide (c = cg) then v else perPar (GateState n q par) c.
Proof.
  unfold perPar. cbn. destruct (decide (c = cg)) as [->|]; [by rewrite lookup_insert_eq|].
  by rewrite lookup_insert_ne.
Qed.

Lemma register_inv p g : gate_inv g -> pendNext g + 1 < 2 ^ 64 -> gate_inv (register p g).2.
Proof.
  intros Hi Hn. unfold register.
  destruct (Z.leb_spec maxPending (Z.of_nat (size (pend g)))); [done|].
  destruct (Z.leb_spec maxPendingPar (perPar g (pd_cg p))); [done|]. cbn [orb snd].
  destruct Hi as [Hs Hp Hids Hnn].
  unfold u64. rewrite wrap_id by (unfold in_width; lia). set (id := pendNext g + 1).
  assert (pend g !! id = None) as Hfresh.
  { destruct (pend g !! id) as [q|] eqn:E; [|done]. apply Hids in E. lia. }
  split; cbn [pend pendNext].
  - rewrite map_size_insert_None by done. lia.
  - intros cg. rewrite perPar_insert. destruct (Hp cg) as [Hc Hm].
    pose proof (count_map_insert (from cg) id p (pend g)) as Hci. rewrite Hfresh in Hci. unfold from in Hci at 3.
    destruct (decide (cg = pd_cg p)) as [->|Hne].
    + rewrite Z.eqb_refl in Hci. split; lia.
    + destruct (Z.eqb_spec (pd_cg p) cg); [congruence|]. unfold perPar in *. cbn. split; lia.
  - apply map_Forall_insert_2; [unfold id; lia|]. intros k q Hk. apply Hids in Hk. unfold id. lia.
  - unfold id. lia.
Qed.

Lemma resolve_inv id ok v op g : gate_inv g -> gate_inv (resolve id ok v op g).2.
Proof.
  intros Hi. unfold resolve. destruct (pend g !! id) as [p|] eqn:E; [|done]. cbn [snd].
  destruct Hi as [Hs Hp Hids Hnn]. split; cbn [pend pendNext].
  - rewrite map_size_delete, E. lia.
  - intros cg. rewrite perPar_insert. destruct (Hp cg) as [Hc Hm].
    pose proof (count_map_delete (from cg) id p (pend g) E) as Hci. unfold from in Hci at 2.
    destruct (decide (cg = pd_cg p)) as [->|Hne].
    + rewrite Z.eqb_refl in Hci. split; lia.
    + destruct (Z.eqb_spec (pd_cg p) cg); [congruence|]. unfold perPar in *. cbn. split; lia.
  - by apply map_Forall_delete.
  - done.
Qed.

Lemma pendNext_step g ev : 0 <= pendNext g -> pendNext g + 1 < 2 ^ 64 -> pendNext g <= pendNext (gate_step g ev) <= pendNext g + 1.
Proof.
  intros H0 Hn. destruct ev as [p|id ok v op]; cbn [gate_step].
  - unfold register. destruct (_ || _); cbn; [lia|]. unfold u64. rewrite wrap_id by (unfold in_width; lia). lia.
  - unfold resolve. destruct (pend g !! id); cbn; lia.
Qed.

Lemma gate_inv_run l g :
  gate_inv g -> pendNext g + Z.of_nat (length l) < 2 ^ 64 -> gate_inv (foldl gate_step g l).
Proof.
  revert g; induction l as [|ev l IH]; intros g Hi Hn; [done|]. cbn [foldl length] in *.
  pose proof (pendNext_step g ev (gi_next _ Hi)) as Hs. apply IH; [|lia].
  destruct ev as [p|id ok v op]; cbn [gate_step]; [apply register_inv; [done|lia]|by apply resolve_inv].
Qed.

Lemma empty_gate_inv : gate_inv empty_gate.
Proof. split; [done| |done|done]. intros cg. done. Qed.

(** How often a request receives a verdict. *)
Fixpoint verdicts (id : Z) (g : gate_state) (l : list gate_event) : nat :=
  match l with
  | [] => 0
  | ev :: l =>
      ((match ev with
        | Decide id' ok v op => if bool_decide (id' = id /\ is_Some (resolve id' ok v op g).1) then 1 else 0
        | Arrive _ => 0
        end) + verdicts id (gate_step g ev) l)%nat
  end.

(** Whether a verdict is still possible: the request is pending or yet to come. *)
Definition may_decide (id : Z) (g : gate_state) : nat :=
  if bool_decide (is_Some (pend g !! id) \/ pendNext g < id) then 1 else 0.

Lemma may_decide_step id g ev :
  gate_inv g -> pendNext g + 1 < 2 ^ 64 ->
  ((match ev with
    | Decide id' ok v op => if bool_decide (id' = id /\ is_Some (resolve id' ok v op g).1) then 1 else 0
    | Arrive _ => 0
    end) + may_decide id (gate_step g ev) <= may_decide id g)%nat.
Proof.
  intros Hi Hn. unfold may_decide. destruct ev as [p|id' ok v op]; cbn [gate_step].
  - unfold register. destruct (_ || _); [done|]. cbn [snd pend pendNext].
    unfold u64. rewrite wrap_id by (unfold in_width; pose proof (gi_next _ Hi); lia).
    case_bool_decide as H1; [|lia]. case_bool_decide as H2; [lia|]. destruct H2.
    destruct H1 as [H1|H1]; [|right; lia].
    destruct (decide (id = pendNext g + 1)) as [->|Hne]; [right; lia|].
    rewrite lookup_insert_ne in H1 by done. by left.
  - unfold resolve. destruct (pend g !! id') as [p|] eqn:E; cbn [fst snd].
    + case_bool_decide as H1.
      * destruct H1 as [-> _]. cbn [pend pendNext]. rewrite lookup_delete_eq.
        rewrite bool_decide_false, bool_decide_true; [lia|by left; rewrite E|].
        apply (gi_ids _ Hi) in E. intros [[? ?]|?]; [done|lia].
      * cbn [pend pendNext]. rewrite lookup_delete_ne; [lia|]. intros ->. destruct H1. eauto.
    + rewrite bool_decide_false by (intros [_ [? ?]]; done). lia.
Qed.

Lemma verdicts_bound id l g :
  gate_inv g -> pendNext g + Z.of_nat (length l) < 2 ^ 64 -> (verdicts id g l <= may_decide id g)%nat.
Proof.
  revert g; induction l as [|ev l IH]; intros g Hi Hn; cbn [verdicts length] in *; [lia|].
  pose proof (may_decide_step id g ev Hi ltac:(lia)). pose proof (pendNext_step g ev (gi_next _ Hi)) as Hs.
  specialize (IH (gate_step g ev)). etrans; [|done]. apply Nat.add_le_mono_l, IH; [|lia].
  destruct ev as [p|id' ok v op]; cbn [gate_step]; [apply register_inv; [done|lia]|by apply resolve_inv].
Qed.

(** ** Names of delegated children *)
Lemma after_last_none s : no_char "@" s = true -> after_last "bulkhead-agent@" s = None.
Proof.
  induction s as [|c s IH]; [done|]. intros H. pose proof H as [Hc Hs]%andb_prop.
  cbn [after_last]. rewrite IH by done.
  destruct (TrimPrefix_opt "bulkhead-agent@" (String c s)) as [r|] eqn:E; [|done].
  apply TrimPrefix_spec in E.
  rewrite E, no_char_app in H. done.
Qed.

Lemma after_last_spec a r :
  no_char "@" r = true -> after_last "bulkhead-agent@" (a ++ "bulkhead-agent@" ++ r)%string = Some r.
Proof.
  intros Hr. induction a as [|c a IH].
  - cbn. by rewrite after_last_none.
  - change ((String c a ++ "bulkhead-agent@" ++ r)%string) with (String c (a ++ "bulkhead-agent@" ++ r)%string).
    cbn [after_last]. by rewrite IH.
Qed.

Lemma before_first_spec s : no_char "." s = true -> before_first ".service" (s ++ ".service")%string = s.
Proof.
  induction s as [|c s IH]; [done|]. intros [Hc Hs]%andb_prop.
  change ((String c s ++ ".service")%string) with (String c (s ++ ".service")%string).
  cbn [before_first TrimPrefix_opt]. destruct (Ascii.eqb_spec "." c) as [<-|Hne]; [done|]. by rewrite IH.
Qed.

Lemma lower_no_char c s :
  is_lower_digit c = false -> all_chars is_lower_digit s = true -> no_char c s = true.
Proof.
  intros Hc. induction s as [|d s IH]; [done|]. cbn [all_chars no_char]. intros [Hd Hs]%andb_prop.
  rewrite IH by done. destruct (Ascii.eqb_spec d c); [congruence|done].
Qed.

Lemma is_digit_char c d : is_digit c = true -> is_digit d = false -> Ascii.eqb c d = false.
Proof. intros Hc Hd. destruct (Ascii.eqb_spec c d); [congruence|done]. Qed.

Lemma Itoa_digit_spec n :
  0 <= n < 10 -> exists c, Itoa_digit n = String c "" /\ is_digit c = true /\ Z.of_N (N_of_ascii c) - 48 = n.
Proof.
  intros Hn. eexists. split; [done|]. unfold is_digit. rewrite N_ascii_embedding by lia.
  split; [|lia]. apply andb_true_intro. split; apply N.leb_le; lia.
Qed.

(** [strconv.Itoa] is read back by the decimal parser, whatever precedes and follows. *)
Lemma digits_Itoa fuel n :
  0 <= n < 10 ^ Z.of_nat fuel ->
  exists k, forall acc rest,
    digits acc (Itoa_fuel fuel n ++ rest)%string = digits (acc * 10 ^ Z.of_nat k + n) rest.
Proof.
  revert n; induction fuel as [|fuel IH]; intros n Hn.
  - exists 0%nat. intros acc rest. cbn [Itoa_fuel String.append]. f_equal. cbn in Hn. lia.
  - cbn [Itoa_fuel]. destruct (Z.ltb_spec n 10) as [Hlt|Hge].
    + exists 1%nat. intros acc rest. destruct (Itoa_digit_spec n) as (c & -> & Hd & Hv); [lia|].
      cbn [String.append digits]. rewrite Hd, Hv. f_equal. lia.
    + destruct (IH (n / 10)) as [k Hk].
      { rewrite Nat2Z.inj_succ, Z.pow_succ_r in Hn by lia. split; [apply Z.div_pos; lia|].
        apply Z.div_lt_upper_bound; lia. }
      exists (S k). intros acc rest. rewrite <- append_assoc, Hk.
      destruct (Itoa_digit_spec (n mod 10)) as (c & -> & Hd & Hv); [apply Z.mod_pos_bound; lia|].
      cbn [String.append digits]. rewrite Hd, Hv, Nat2Z.inj_succ, Z.pow_succ_r by lia. f_equal.
      pose proof (Z.div_mod n 10). lia.
Qed.

Lemma Itoa_first fuel n : 0 <= n -> exists c s, Itoa_fuel (S fuel) n = String c s /\ is_digit c = true.
Proof.
  revert n; induction fuel as [|fuel IH]; intros n Hn; cbn [Itoa_fuel]; destruct (Z.ltb_spec n 10) as [Hlt|Hge].
  - destruct (Itoa_digit_spec n) as (c & -> & Hd & _); [lia|]. eauto.
  - cbn [String.append]. destruct (Itoa_digit_spec (n mod 10)) as (c & -> & Hd & _); [apply Z.mod_pos_bound; lia|]. eauto.
  - destruct (Itoa_digit_spec n) as (c & -> & Hd & _); [lia|]. eauto.
  - destruct (IH (n / 10)) as (c & s & E & Hd); [apply Z.div_pos; lia|]. cbn [Itoa_fuel] in E. rewrite E.
    cbn [String.append]. eauto.
Qed.

Lemma Itoa_no_char fuel n x : 0 <= n -> is_digit x = false -> no_char x (Itoa_fuel fuel n) = true.
Proof.
  intros Hn Hx. revert n Hn; induction fuel as [|fuel IH]; intros n Hn; [done|]. cbn [Itoa_fuel].
  destruct (Z.ltb_spec n 10) as [Hlt|Hge]; [|rewrite no_char_app, IH by (apply Z.div_pos; lia)];
    [destruct (Itoa_digit_spec n) as (c & -> & Hd & _); [lia|]
    |destruct (Itoa_digit_spec (n mod 10)) as (c & -> & Hd & _); [apply Z.mod_pos_bound; lia|]];
    cbn [no_char]; by rewrite (is_digit_char _ _ Hd Hx).
Qed.

Lemma digits_nonneg s acc : 0 <= acc -> 0 <= (digits acc s).1.
Proof.
  revert acc; induction s as [|c s IH]; intros acc Ha; cbn [digits]; [done|].
  destruct (is_digit c) eqn:Hd; [|done]. apply IH. unfold is_digit in Hd.
  apply andb_prop in Hd as [H1 _]. apply N.leb_le in H1. lia.
Qed.

Lemma delegGen_nonneg path gen : delegGen path = Some gen -> 0 <= gen.
Proof.
  unfold delegGen. destruct (after_last _ _) as [rest|]; [|done]. destruct (_ =? "")%string; [done|].
  destruct (before_first _ _) as [|d [|c s]]; [intros [= <-]; done..|].
  destruct (_ && _); [|intros [= <-]; done]. pose proof (digits_nonneg (String c s) 0 ltac:(lia)) as Hn.
  destruct (digits 0 (String c s)) as [n [|dash ?]]; cbn [fst] in Hn; [intros [= <-]; done|].
  repeat case_match; intros [= <-]; done.
Qed.

Lemma Itoa_nonneg n : 0 <= n -> Itoa n = Itoa_fuel 20 n.
Proof. unfold Itoa. by destruct (Z.ltb_spec n 0); [lia|]. Qed.

Lemma delegGen_child pre g hex suffix :
  1 <= g < 2 ^ 63 -> all_chars is_lower_digit hex = true -> all_chars is_lower_digit suffix = true ->
  delegGen (agent_path pre ("d" ++ Itoa g ++ "-" ++ hex ++ "-" ++ suffix)) = Some g.
Proof.
  intros Hg Hh Hs. rewrite Itoa_nonneg by lia.
  set (inst := ("d" ++ Itoa_fuel 20 g ++ "-" ++ hex ++ "-" ++ suffix)%string).
  assert (forall x, is_lower_digit x = false -> is_digit x = false -> no_char x inst = true) as Hn.
  { intros x Hx Hcx. unfold inst. rewrite !no_char_app, Itoa_no_char by (done || lia). cbn [no_char].
    rewrite (lower_no_char x hex), (lower_no_char x suffix) by done.
    destruct (Ascii.eqb_spec "d" x) as [<-|]; [done|]. by destruct (Ascii.eqb_spec "-" x) as [<-|]. }
  unfold delegGen, agent_path. rewrite (append_assoc pre).
  replace ((pre ++ "/bulkhead-agent.slice/bulkhead-agent@") ++ inst ++ ".service")%string
    with ((pre ++ "/bulkhead-agent.slice/") ++ "bulkhead-agent@" ++ (inst ++ ".service"))%string
    by (rewrite <- !append_assoc; done).
  rewrite after_last_spec by (rewrite no_char_app, Hn; done).
  rewrite before_first_spec by (by apply Hn). unfold inst.
  destruct (digits_Itoa 20 g) as [k Hk]; [lia|].
  specialize (Hk 0 ("-" ++ hex ++ "-" ++ suffix)%string).
  destruct (Itoa_first 19 g) as (c & s & Ei & Hd); [lia|]. change (S 19) with 20%nat in Ei. rewrite Ei in *.
  change (("d" ++ String c s ++ "-" ++ hex ++ "-" ++ suffix)%string)
    with (String "d" (String c (s ++ "-" ++ hex ++ "-" ++ suffix)%string)).
  change (String c s ++ "-" ++ hex ++ "-" ++ suffix)%string
    with (String c (s ++ "-" ++ hex ++ "-" ++ suffix)%string) in Hk.
  cbn [String.eqb Ascii.eqb Bool.eqb andb]. rewrite Hd. cbn [andb]. cbv iota. rewrite Hk.
  change ("-" ++ hex ++ "-" ++ suffix)%string with (String "-" (hex ++ "-" ++ suffix)%string).
  cbn [digits]. change (is_digit "-") with false. cbv iota. rewrite Z.mul_0_l, Z.add_0_l.
  cbn [Ascii.eqb Bool.eqb]. rewrite (proj2 (Z.ltb_lt _ _)) by lia. done.
Qed.

(** ** What reaches the gate *)
Lemma handleExpandTail_gate e cg path f m pd :
  handleExpandTail e cg path f m = Gate pd ->
  (exists req cur, pd = Pending actExpandEgress cg path "" "" "" 0 req 0 cur 0)
  /\ ~ (exists gen, delegGen path = Some gen /\ 0 < gen).
Proof.
  unfold handleExpandTail. destruct (delegGen path) as [gen|] eqn:Hg; [destruct (Z.ltb_spec 0 gen); [done|]|];
    (repeat case_match; intros [= <-]; split; [eauto|]); [intros (g & [= <-] & ?); lia|by intros (g & ? & ?)].
Qed.

(** A request at the gate carries the attested identity of its sender. *)
Lemma handleBrokerConn_gate e p f m pd :
  handleBrokerConn e p f m = Gate pd ->
  isAgentCgroup (p_path p) = true /\ pd_cg pd = p_cgid p /\ pd_path pd = p_path p
  /\ match pd_kind pd with
     | actDelegate => exists gen, delegGen (p_path p) = Some gen
         /\ pd_gen pd = s64 (gen + 1) /\ pd_gen pd <= maxDelegateDepth e
         /\ validSuffix (pd_suffix pd) = true /\ 0 <= pd_reqMask pd < 32
         /\ pd_instance pd = ("d" ++ Itoa (pd_gen pd) ++ "-" ++ randHex8 e ++ "-" ++ pd_suffix pd)%string
     | actExpandEgress => ~ (exists gen, delegGen (p_path p) = Some gen /\ 0 < gen)
     | actGrantOnce => pd_hook pd = HOOK_PTRACE \/ pd_hook pd = HOOK_SETUID \/ pd_hook pd = HOOK_CAPSET
     end.
Proof.
  unfold handleBrokerConn. destruct (isAgentCgroup (p_path p)); [|done]. cbn [negb].
  destruct f as [|verb f']; [done|]. destruct (verb =? "DELEGATE")%string; [|destruct (verb =? "EXPAND")%string;
    [|destruct (verb =? "GRANT-ONCE")%string; [|done]]].
  - unfold handleDelegateTail. destruct (parseDelegateTail _) as [[[suffix reqStr] task]|]; [|done].
    destruct (validSuffix suffix) eqn:Hs; [|done]. cbn [negb].
    destruct (parseClasses reqStr) as [req|] eqn:Hp; [|done]. destruct (validTask task); [|done]. cbn [negb].
    destruct (delegGen (p_path p)) as [gen|]; [|done].
    cbv zeta. destruct (Z.ltb_spec (maxDelegateDepth e) (s64 (gen + 1))); [done|].
    destruct (lookupEgressMask _ _ _); [|done]. intros [= <-]. cbn. apply parseClasses_bound in Hp.
    split_and!; [done..|]. exists gen. split_and!; done || lia.
  - by intros ((req & cur & ->) & ?)%handleExpandTail_gate.
  - unfold handleGrantOnceTail. destruct f' as [|name []]; [done| |done].
    destruct (grantableHook name) as [hid|] eqn:Hg; [|done]. case_bool_decide; [done|].
    intros [= <-]. cbn. apply grantableHook_spec in Hg as [? _]. done.
Qed.

(** ** Properties *)

(** C38: The approval gate under any sequence of requests and verdicts (operator or
    timeout, in any order, repeated or late): at most 64 requests are pending and at most
    four per requester, the per-requester count is exact, and every request receives at
    most one verdict. *)
Theorem approval_gate_bounded_and_exactly_once l id :
  Z.of_nat (length l) < 2 ^ 64 ->
  let g := foldl gate_step empty_gate l in
  Z.of_nat (size (pend g)) <= maxPending
  /\ (forall cg, Z.of_nat (count_map (from cg) (pend g)) = perPar g cg /\ perPar g cg <= maxPendingPar)
  /\ (verdicts id empty_gate l <= 1)%nat.
Proof.
  intros Hl g. pose proof (gate_inv_run l empty_gate empty_gate_inv Hl) as [Hs Hp _ _].
  split_and!; [done|done|]. etrans; [by apply verdicts_bound; [apply empty_gate_inv|]|].
  unfold may_decide. case_bool_decide; lia.
Qed.

Definition some_request : pending := Pending actGrantOnce 7 "/x" "" "" "" 0 0 0 0 1.

Lemma approval_gate_bounded_and_exactly_once_witness :
  (verdicts 1 empty_gate [Arrive some_request; Decide 1 true "approve" "op"; Decide 1 false "timeout" "-"] <= 1)%nat.
Proof. apply (approval_gate_bounded_and_exactly_once [Arrive some_request; Decide 1 true "approve" "op"; Decide 1 false "timeout" "-"] 1). simpl. lia. Defined.

(** The generation is an [int]: for a parent whose instance carries the largest one, the
    addition wraps, the depth check passes and the child's name loses its generation. *)
Lemma depth_limit_wraps :
  let e := BEnv (UEnv (fun _ => true) (fun _ => Some 7) true) 31 3 "0a1b2c3d" 300 2000 (fun _ => true) (fun _ => []) in
  let path := agent_path "" "d9223372036854775807-x" in
  match handleBrokerConn e (Peer 1000 7 path) ["DELEGATE"; "kid"; "loopback"] armed_state with
  | Gate pd => pd_gen pd = - 2 ^ 63 /\ delegGen (agent_path "" (pd_instance pd)) = Some 0
  | Reply _ => False
  end.
Proof. vm_compute. auto. Qed.
