(* ===== verification/Approval.v ===== *)
(** * Behind the approval gate: [broker.go], [narrow.go], [grant.go]

    The executors that run once an operator has approved, the signed decision chain they
    are recorded in, the unit a delegated child is started with, and the operator's socket
    with its NARROW. *)
From Stdlib Require Import ZArith Lia Ascii String.
From stdpp Require Import base tactics numbers option list gmap.
From S2P Require Import Prelude Objects Maps Kernel Hooks Fixtures HookProps Classes Gc Control Broker.
#[local] Open Scope string_scope.
#[local] Open Scope list_scope.
#[local] Open Scope Z_scope.
#[local] Arguments String.append : simpl nomatch.

(** ** The decision chain *)

(** What a record says was applied: the executor's own text, or that nothing was. *)
Inductive applied := Applied (detail : string) | NotApplied | ExecuteFailed | Refused (why : string).

(** The fields of [provEvent] as [recordDecision] and [recordNarrow] fill them; the mode
    text is kept in its parts. *)
Record decision := Decision {
  dc_cg : Z; dc_comm : string; dc_hook : string; dc_verdict : string;
  dc_operator : string; dc_asked : string; dc_applied : applied; dc_gen : option (Z * string) }.

Record bstate := BState { b_maps : kstate; b_chain : list decision }.

Definition with_maps (m : kstate) (s : bstate) : bstate := BState m (b_chain s).

(** [brokerAL.append]: whether it succeeded. [cmdBroker] opens the chain before it serves. *)
Definition append (e : uenv) (d : decision) (s : bstate) : bool * bstate :=
  if appends e then (true, BState (b_maps s) (b_chain s ++ [d])) else (false, s).

Definition kindName (k : actionKind) : string :=
  match k with actDelegate => "delegate" | actExpandEgress => "expand-egress" | actGrantOnce => "grant-once" end.

(** The first bytes of a digest of the task, computed by the cryptographic library. *)
Definition taskSHA8 (sha8 : string -> string) (task : string) : string :=
  if (task =? "")%string then "(default)" else sha8 task.

Definition decision_of (sha8 : string -> string) (p : pending) (verdict operator : string) (a : applied) : decision :=
  Decision (pd_cg p)
    (String.substring 0 16 match pd_kind p with actDelegate => pd_instance p | _ => "self" end)
    (kindName (pd_kind p)) verdict operator
    match pd_kind p with
    | actGrantOnce => ("op=" ++ hookName (pd_hook p))%string
    | _ => ("req=" ++ classNames (pd_reqMask p))%string
    end
    a
    match pd_kind p with actDelegate => Some (pd_gen p, taskSHA8 sha8 (pd_task p)) | _ => None end.

Definition recordDecision (e : uenv) (sha8 : string -> string) (p : pending) (verdict operator : string)
    (a : applied) (s : bstate) : bool * bstate := append e (decision_of sha8 p verdict operator a) s.

(** ** The unit of a delegated child *)
Definition nl : string := String (ascii_of_N 10) EmptyString.
Definition dq : string := String (ascii_of_N 34) EmptyString.

Definition is_control (c : ascii) : bool := let n := N_of_ascii c in ((n <? 32) || (n =? 127))%N.

(** [delegatedDropIn]: it is not given the task, only whether there is one. *)
Definition delegatedDropIn (classes instance routerURL : string) (hasTask : bool) : string :=
  ("[Service]" ++ nl
   ++ "ExecStart=" ++ nl
   ++ "ExecStart=/usr/bin/bulkhead-agent %i" ++ nl
   ++ "Environment=BULKHEAD_AGENT_EGRESS=" ++ classes ++ nl
   ++ "Environment=BULKHEAD_AGENT_DEADLINE=120" ++ nl
   ++ "Environment=BULKHEAD_AGENT_MAX_STEPS=6" ++ nl
   ++ "Environment=BULKHEAD_AGENT_ALLOW_DELEGATE=1" ++ nl
   ++ "Environment=BULKHEAD_AGENT_NO_EXPAND=1" ++ nl
   ++ (if hasTask
       then "LoadCredential=agent-task:/run/bulkhead/tasks/" ++ instance ++ ".task" ++ nl
            ++ "Environment=BULKHEAD_AGENT_TASK_CRED=agent-task" ++ nl
       else "Environment=" ++ dq ++ "BULKHEAD_AGENT_TASK=Report your egress manifest over loopback, then finish." ++ dq ++ nl)
   ++ (if negb (routerURL =? "") && all_chars (fun c => negb (is_control c)) routerURL
       then "Environment=" ++ dq ++ "BULKHEAD_ROUTER_URL=" ++ routerURL ++ dq ++ nl
       else ""))%string.

(** ** Executors: run only after approval *)

(** [filepath.Join("/sys/fs/cgroup", path)]. *)
Definition cgroup_file (path : string) : string := Clean ("/sys/fs/cgroup/" ++ path)%string.

Definition reverifyCgroup (e : uenv) (path : string) (want : Z) : bool :=
  bool_decide (stat e (cgroup_file path) = Some want).

(** [launchChild]: the unit that is started, its drop-in and the content of its task file. *)
Record launch := Launch { l_instance : string; l_classes : string; l_conf : string; l_task : option string }.

Definition launchChild (e : benv) (routerURL instance classes task : string) : option launch :=
  let hasTask := negb (task =? "")%string in
  if starts e instance
  then Some (Launch instance classes (delegatedDropIn classes instance routerURL hasTask)
               (if hasTask then Some task else None))
  else None.

Record exec_env := ExecEnv { x_b : benv; x_router : string; x_sha8 : string -> string }.

Definition execute (x : exec_env) (p : pending) (m : kstate) : option (string * kstate * option launch) :=
  let e := x_b x in
  if negb (reverifyCgroup (be_fs e) (pd_path p) (pd_cg p)) then None
  else
    match pd_kind p with
    | actDelegate =>
        match lookupEgressMask e (pd_cg p) m with
        | None => None
        | Some liveParent =>
            let liveChild := Z.land liveParent (pd_reqMask p) in
            match launchChild e (x_router x) (pd_instance p) (classNames liveChild) (pd_task p) with
            | None => None
            | Some l => Some ((pd_instance p ++ " " ++ classNames liveChild)%string, m, Some l)
            end
        end
    | actExpandEgress =>
        if negb (pinned (be_fs e) "egress_policy") then None
        else match m_lookup egress_ops (egress_policy m) (pd_cg p) with
        | None => None
        | Some live =>
            let final := expandMask live (pd_reqMask p) (expandCeiling e) in
            match m_update egress_ops BPF_EXIST (pd_cg p) final (egress_policy m) with
            | Err _ => None
            | Ok g => Some (classNames final, set_egress g m, None)
            end
        end
    | actGrantOnce =>
        if negb (pinned (be_fs e) "grant_once") then None
        else match m_update grant_ops BPF_ANY (GrantKey (pd_cg p) (pd_hook p) 0) (GrantVal 1 (grantExpiry e)) (grant_once m) with
        | Err _ => None
        | Ok g => Some ((hookName (pd_hook p) ++ " count=1 ttl=" ++ Itoa (grantTTL e) ++ "s")%string, set_grants g m, None)
        end
    end.

(** [finishGated], once [approve] has returned. *)
Definition finishGated (x : exec_env) (d : decided) (s : bstate) : reply * bstate * option launch :=
  let fs := be_fs (x_b x) in
  let p := dd_req d in
  if negb (dd_ok d) then
    let '(_, s) := recordDecision fs (x_sha8 x) p (dd_verdict d) (dd_operator d) NotApplied s in
    (("ERR " ++ dd_verdict d)%string, s, None)
  else
    match execute x p (b_maps s) with
    | None =>
        let '(_, s) := recordDecision fs (x_sha8 x) p "error" (dd_operator d) ExecuteFailed s in
        ("ERR exec", s, None)
    | Some (detail, m, l) =>
        let '(ok, s) := recordDecision fs (x_sha8 x) p (dd_verdict d) (dd_operator d) (Applied detail) (with_maps m s) in
        (if ok then ("OK " ++ detail)%string else "ERR audit", s, l)
    end.

(** [approve] for a request the flood backstop refuses. *)
Definition busy (p : pending) : decided := Decided p false "busy" "".

(** ** The operator's socket *)
Inductive narrow_err := errNarrowID | errNarrowBadInst | errNarrowNotAgent | errNarrowGone.

Definition root_cgroup : string := "/sys/fs/cgroup".

(** The single match of the first pattern that has exactly one. *)
Fixpoint first_single (ms : list (list string)) : string :=
  match ms with
  | [m] :: _ => TrimPrefix m root_cgroup
  | _ :: ms => first_single ms
  | [] => EmptyString
  end.

Definition findAgentCgroupPath (glob : string -> list string) (inst : string) : string :=
  let leaf := ("bulkhead-agent@" ++ inst ++ ".service")%string in
  first_single (glob <$>
    [("/sys/fs/cgroup/bulkhead.slice/bulkhead-agent.slice/" ++ leaf)%string;
     ("/sys/fs/cgroup/*/bulkhead-agent.slice/" ++ leaf)%string;
     ("/sys/fs/cgroup/bulkhead-agent.slice/" ++ leaf)%string]).

Definition TrimSuffix (s suf : string) : string := default s (TrimSuffix_opt suf s).

(** The path under the cgroup root a target names. *)
Definition target_rel (glob : string -> list string) (target : string) : result narrow_err string :=
  if HasPrefix target "id:" then Err errNarrowID
  else if HasPrefix target root_cgroup then Ok (TrimPrefix target root_cgroup)
  else if HasPrefix target "/" then Ok target
  else
    let inst := TrimSuffix (TrimPrefix target "bulkhead-agent@") ".service" in
    if negb (validInstance inst) then Err errNarrowBadInst
    else
      let rel := findAgentCgroupPath glob inst in
      if (rel =? "")%string then Err errNarrowGone else Ok rel.

Definition resolveAgentTarget (e : benv) (target : string) : result narrow_err (Z * string) :=
  match target_rel (Glob e) target with
  | Err r => Err r
  | Ok rel =>
      let full := cgroup_file rel in
      let path := TrimPrefix full root_cgroup in
      if negb (isAgentCgroup path) then Err errNarrowNotAgent
      else match stat (be_fs e) full with None => Err errNarrowGone | Some cg => Ok (cg, path) end
  end.

Definition recordNarrow (e : uenv) (cg : Z) (target : string) (reqMask : Z) (verdict operator : string)
    (a : applied) (s : bstate) : bool * bstate :=
  append e (Decision cg (String.substring 0 16 target) "narrow-egress" verdict operator
              ("req=" ++ classNames reqMask)%string a None) s.

Definition narrow_reply (r : narrow_err) : reply :=
  match r with
  | errNarrowID => "ERR id-not-allowed"
  | errNarrowBadInst => "ERR bad-target"
  | errNarrowNotAgent => "ERR not-an-agent"
  | errNarrowGone => "ERR target-gone"
  end.

(** The clamp itself, for a resolved target. *)
Definition narrow_target (e : benv) (operator target : string) (cg : Z) (path : string) (reqMask : Z) (s : bstate)
    : reply * bstate :=
  let fs := be_fs e in
  let rec_ := recordNarrow fs cg target reqMask in
  if negb (reverifyCgroup fs path cg) then ("ERR target-gone", (rec_ "error" operator (Refused "target recycled/gone") s).2)
  else if negb (pinned fs "egress_policy") then ("ERR internal", (rec_ "error" operator (Refused "map open failed") s).2)
  else
    match m_lookup egress_ops (egress_policy (b_maps s)) cg with
    | None => ("ERR no-manifest", (rec_ "error" operator (Refused "no-manifest") s).2)
    | Some live =>
        let final := narrowMask live reqMask in
        if final =? live then
          let '(ok, s) := rec_ "narrow-noop" operator (Applied (classNames live)) s in
          (if ok then ("OK " ++ target ++ " " ++ classNames live ++ " (no-op)")%string else "ERR audit", s)
        else
          match m_update egress_ops BPF_EXIST cg final (egress_policy (b_maps s)) with
          | Err _ => ("ERR target-gone", (rec_ "error" operator (Refused "update failed") s).2)
          | Ok g =>
              let '(ok, s) := rec_ "narrow" operator (Applied (classNames final))
                                (with_maps (set_egress g (b_maps s)) s) in
              (if ok then ("OK " ++ target ++ " " ++ classNames final)%string else "ERR audit", s)
          end
    end.

Definition handleNarrow (e : benv) (operator : string) (f : list string) (s : bstate) : reply * bstate :=
  match f with
  | [_; target; classes] =>
      match parseClasses classes with
      | None => ("ERR bad-classes", s)
      | Some reqMask =>
          match resolveAgentTarget e target with
          | Err r => (narrow_reply r, s)
          | Ok (cg, path) => narrow_target e operator target cg path reqMask s
          end
      end
  | _ => ("ERR protocol", s)
  end.

(** [strconv.ParseUint(s, 10, 64)]. *)
Definition ParseUint (s : string) : option Z :=
  if (s =? "")%string || negb (all_chars is_digit s) then None
  else let n := (digits 0 s).1 in if n <? 2 ^ 64 then Some n else None.

(** [handleApprove], for a peer whose uid and pid the kernel reports: the reply, the gate,
    the broker's state, and the request that has just received its verdict. The listing
    of LIST is read only and its order is unspecified; its text is an argument. *)
Definition handleApprove (e : benv) (listPending : gate_state -> reply) (uid pid : Z) (f : list string)
    (g : gate_state) (s : bstate) : reply * gate_state * bstate * option decided :=
  if negb (uid =? 0) then ("ERR not-operator", g, s, None)
  else
    let operator := ("uid" ++ Itoa uid ++ ":pid" ++ Itoa pid)%string in
    match f with
    | [] => ("ERR protocol", g, s, None)
    | verb :: args =>
        if (verb =? "LIST")%string then (listPending g, g, s, None)
        else if (verb =? "ALLOW")%string || (verb =? "DENY")%string then
          match args with
          | [n] =>
              match ParseUint n with
              | None => ("ERR bad-id", g, s, None)
              | Some id =>
                  let allow := (verb =? "ALLOW")%string in
                  let '(d, g) := resolve id allow (if allow then "approve" else "deny") operator g in
                  (match d with
                   | Some _ => ("OK " ++ (if allow then "allow" else "deny") ++ " " ++ Itoa id)%string
                   | None => "ERR no-such-pending"
                   end, g, s, d)
              end
          | _ => ("ERR protocol", g, s, None)
          end
        else if (verb =? "NARROW")%string then
          let '(r, s) := handleNarrow e operator f s in (r, g, s, None)
        else ("ERR protocol", g, s, None)
    end.

(** ** Lemmas *)
Lemma append_maps e d s : b_maps (append e d s).2 = b_maps s.
Proof. unfold append. by destruct (appends e). Qed.

Lemma append_chain e d s : b_chain (append e d s).2 = b_chain s ++ (if appends e then [d] else []).
Proof. unfold append. destruct (appends e); [done|]. cbn. by rewrite app_nil_r. Qed.

Lemma append_ok e d s : (append e d s).1 = appends e.
Proof. unfold append. by destruct (appends e). Qed.

(** What the executor does, if it does anything. *)
Lemma execute_effect x p m detail m' l :
  execute x p m = Some (detail, m', l) ->
  reverifyCgroup (be_fs (x_b x)) (pd_path p) (pd_cg p) = true /\
  match pd_kind p with
  | actDelegate =>
      m' = m /\ exists live, lookupEgressMask (x_b x) (pd_cg p) m = Some live
        /\ detail = (pd_instance p ++ " " ++ classNames (Z.land live (pd_reqMask p)))%string
        /\ l = launchChild (x_b x) (x_router x) (pd_instance p) (classNames (Z.land live (pd_reqMask p))) (pd_task p)
        /\ is_Some l
  | actExpandEgress =>
      l = None /\ exists live, egress_policy m !! pd_cg p = Some live
        /\ detail = classNames (expandMask live (pd_reqMask p) (expandCeiling (x_b x)))
        /\ m' = set_egress (<[pd_cg p := expandMask live (pd_reqMask p) (expandCeiling (x_b x))]> (egress_policy m)) m
  | actGrantOnce =>
      l = None /\ m' = set_grants (<[GrantKey (pd_cg p) (pd_hook p) 0 := GrantVal 1 (grantExpiry (x_b x))]> (grant_once m)) m
  end.
Proof.
  unfold execute. cbv zeta. destruct (reverifyCgroup _ _ _); [|done]. cbn [negb]. intros E. split; [done|].
  revert E. destruct (pd_kind p).
  - destruct (lookupEgressMask _ (pd_cg p) m) as [live|] eqn:Hl; [|done].
    destruct (launchChild _ _ _ _ _) as [l'|] eqn:Hs; intros [= <- <- <-]. split; [done|].
    exists live. rewrite Hs. eauto.
  - destruct (negb _); [done|]. destruct (m_lookup egress_ops _ _) as [live|] eqn:Hl; [|done].
    destruct (m_update egress_ops _ _ _ _) as [g|] eqn:Hu; intros [= <- <- <-]. split; [done|].
    exists live. split_and!; [done..|]. by rewrite (hash_update_inv (max_entries egress_policy_map) _ _ _ _ _ Hu).
  - destruct (negb _); [done|]. destruct (m_update grant_ops _ _ _ _) as [g|] eqn:Hu; intros [= <- <- <-].
    split; [done|]. by rewrite (hash_update_inv (max_entries grant_once_map) _ _ _ _ _ Hu).
Qed.

(** A request ends in one of two ways: nothing is done, or the executor's work is. *)
Lemma finishGated_cases x d s r s' l :
  finishGated x d s = (r, s', l) ->
  exists v a, b_chain s' = b_chain s ++ (if appends (be_fs (x_b x))
                then [decision_of (x_sha8 x) (dd_req d) v (dd_operator d) a] else [])
  /\ ((b_maps s' = b_maps s /\ l = None /\ (a = NotApplied \/ a = ExecuteFailed)
       /\ (r = ("ERR " ++ dd_verdict d)%string \/ r = "ERR exec"))
      \/ (exists detail, dd_ok d = true /\ execute x (dd_req d) (b_maps s) = Some (detail, b_maps s', l)
            /\ v = dd_verdict d /\ a = Applied detail
            /\ r = if appends (be_fs (x_b x)) then ("OK " ++ detail)%string else "ERR audit")).
Proof.
  unfold finishGated, recordDecision. cbv zeta. destruct (dd_ok d); cbn [negb].
  - destruct (execute x (dd_req d) (b_maps s)) as [[[detail m] l']|] eqn:He;
      destruct (append _ _ _) as [ok s1] eqn:Ha;
      pose proof (f_equal (fun q => b_chain q.2) Ha) as Hc; pose proof (f_equal (fun q => b_maps q.2) Ha) as Hm;
      pose proof (f_equal fst Ha) as Ho; cbn in Hc, Hm, Ho; rewrite append_chain in Hc; rewrite append_maps in Hm;
      rewrite append_ok in Ho; intros [= <- <- <-]; rewrite <- Hc, <- Hm; cbn.
    + eexists _, (Applied detail). split; [done|]. right. exists detail. by rewrite Ho.
    + eexists _, ExecuteFailed. split; [done|]. left. auto.
  - destruct (append _ _ _) as [ok s1] eqn:Ha.
    pose proof (f_equal (fun q => b_chain q.2) Ha) as Hc; pose proof (f_equal (fun q => b_maps q.2) Ha) as Hm.
    cbn in Hc, Hm. rewrite append_chain in Hc. rewrite append_maps in Hm. intros [= <- <- <-].
    rewrite <- Hc, <- Hm. eexists _, NotApplied. split; [done|]. left. auto.
Qed.

(** NARROW changes at most the manifest of the target, and only by clearing classes. *)
Lemma narrow_target_effect e op target cg path req s :
  let s' := (narrow_target e op target cg path req s).2 in
  b_maps s' = b_maps s
  \/ (stat (be_fs e) (cgroup_file path) = Some cg /\ exists live, egress_policy (b_maps s) !! cg = Some live
      /\ b_maps s' = set_egress (<[cg := narrowMask live req]> (egress_policy (b_maps s))) (b_maps s)).
Proof.
  cbv zeta. unfold narrow_target, recordNarrow.
  destruct (reverifyCgroup _ _ _) eqn:Hr; cbn [negb snd]; [|left; apply append_maps].
  apply bool_decide_eq_true in Hr. destruct (negb _); [left; apply append_maps|].
  destruct (m_lookup egress_ops _ _) as [live|] eqn:Hl; [|left; apply append_maps].
  cbv zeta. destruct (_ =? live).
  - left. match goal with |- context [append ?e ?d ?s] => pose proof (append_maps e d s) as Hm; destruct (append e d s) end. done.
  - destruct (m_update egress_ops _ _ _ _) as [g|] eqn:Hu; [|left; apply append_maps]. right. split; [done|].
    exists live. split; [done|].
    rewrite <- (hash_update_inv (max_entries egress_policy_map) _ _ _ _ _ Hu).
    match goal with |- context [append ?e ?d ?s] => pose proof (append_maps e d s) as Hm; destruct (append e d s) end. done.
Qed.

Lemma resolveAgentTarget_agent e target cg path :
  resolveAgentTarget e target = Ok (cg, path) -> isAgentCgroup path = true.
Proof.
  unfold resolveAgentTarget. destruct (target_rel _ _) as [rel|]; [|done]. cbv zeta.
  destruct (isAgentCgroup _) eqn:Ha; [|done]. cbn [negb]. destruct (stat _ _); [|done]. by intros [= <- <-].
Qed.

Lemma handleApprove_effect e li uid pid f g s r g' s' d :
  handleApprove e li uid pid f g s = (r, g', s', d) ->
  (g' = g /\ s' = s /\ d = None)
  \/ (uid = 0 /\ s' = s /\ exists id ok v op, (d, g') = resolve id ok v op g)
  \/ (uid = 0 /\ g' = g /\ d = None /\ exists cg path req, isAgentCgroup path = true
      /\ (b_maps s' = b_maps s
          \/ (stat (be_fs e) (cgroup_file path) = Some cg /\ exists live, egress_policy (b_maps s) !! cg = Some live
             /\ b_maps s' = set_egress (<[cg := narrowMask live req]> (egress_policy (b_maps s))) (b_maps s)))).
Proof.
  unfold handleApprove. destruct (Z.eqb_spec uid 0) as [Hu|]; cbn [negb]; [|intros [= <- <- <- <-]; auto].
  cbv zeta. destruct f as [|verb args]; [intros [= <- <- <- <-]; auto|].
  destruct (verb =? "LIST")%string; [intros [= <- <- <- <-]; auto|].
  destruct (_ || _).
  { destruct args as [|n [|? ?]]; [intros [= <- <- <- <-]; auto| |intros [= <- <- <- <-]; auto].
    destruct (ParseUint n) as [id|]; [|intros [= <- <- <- <-]; auto].
    destruct (resolve id _ _ _ g) as [d1 g1] eqn:E. intros [= <- <- <- <-]. right. left. eauto 10. }
  destruct (verb =? "NARROW")%string; [|intros [= <- <- <- <-]; auto].
  unfold handleNarrow. destruct args as [|target [|classes [|? ?]]]; [intros [= <- <- <- <-]; auto..| |intros [= <- <- <- <-]; auto].
  destruct (parseClasses classes) as [req|]; [|intros [= <- <- <- <-]; auto].
  destruct (resolveAgentTarget e target) as [[cg path]|] eqn:Hr; [|intros [= <- <- <- <-]; auto].
  apply resolveAgentTarget_agent in Hr.
  match goal with |- context [narrow_target ?e ?o ?t ?c ?p ?q ?s] =>
    pose proof (narrow_target_effect e o t c p q s) as Hm; destruct (narrow_target e o t c p q s) as [r1 s1] end.
  intros [= <- <- <- <-]. right. right. split_and!; [done..|]. exists cg, path, req. auto.
Qed.

(** *** The lines of a drop-in *)
Definition newline : ascii := ascii_of_N 10.

Definition task_lines (instance : string) (hasTask : bool) : list string :=
  if hasTask
  then [("LoadCredential=agent-task:/run/bulkhead/tasks/" ++ instance ++ ".task")%string;
        "Environment=BULKHEAD_AGENT_TASK_CRED=agent-task"]
  else [("Environment=" ++ dq ++ "BULKHEAD_AGENT_TASK=Report your egress manifest over loopback, then finish." ++ dq)%string].

Definition router_lines (routerURL : string) : list string :=
  if negb (routerURL =? "")%string && all_chars (fun c => negb (is_control c)) routerURL
  then [("Environment=" ++ dq ++ "BULKHEAD_ROUTER_URL=" ++ routerURL ++ dq)%string] else [].

Definition unit_lines (classes instance routerURL : string) (hasTask : bool) : list string :=
  ["[Service]"; "ExecStart="; "ExecStart=/usr/bin/bulkhead-agent %i";
   ("Environment=BULKHEAD_AGENT_EGRESS=" ++ classes)%string;
   "Environment=BULKHEAD_AGENT_DEADLINE=120"; "Environment=BULKHEAD_AGENT_MAX_STEPS=6";
   "Environment=BULKHEAD_AGENT_ALLOW_DELEGATE=1"; "Environment=BULKHEAD_AGENT_NO_EXPAND=1"]
  ++ task_lines instance hasTask ++ router_lines routerURL.

Fixpoint unlines (ls : list string) : string :=
  match ls with [] => EmptyString | l :: ls => (l ++ nl ++ unlines ls)%string end.

Lemma unlines_app a b : unlines (a ++ b) = (unlines a ++ unlines b)%string.
Proof. induction a as [|l a IH]; cbn [app unlines]; [done|]. by rewrite IH, <- !append_assoc. Qed.

Lemma Split_unlines ls : Forall (fun l => no_char newline l = true) ls -> Split newline (unlines ls) = ls ++ [""].
Proof.
  induction 1 as [|l ls Hl _ IH]; [done|]. cbn [unlines app]. rewrite <- IH.
  change (nl ++ unlines ls)%string with (String newline (unlines ls)). by apply Split_app.
Qed.

Lemma delegatedDropIn_lines classes instance routerURL hasTask :
  delegatedDropIn classes instance routerURL hasTask = unlines (unit_lines classes instance routerURL hasTask).
Proof.
  unfold unit_lines. rewrite !unlines_app. unfold delegatedDropIn, task_lines, router_lines.
  set (b := negb (routerURL =? "")%string && _). clearbody b.
  destruct hasTask, b; cbn [unlines]; rewrite <- ?append_assoc, ?append_nil_r; reflexivity.
Qed.

Lemma all_chars_no_char f c s : f c = false -> all_chars f s = true -> no_char c s = true.
Proof.
  intros Hc. induction s as [|d s IH]; [done|]. cbn [all_chars no_char]. intros [Hd Hs]%andb_prop.
  rewrite IH by done. destruct (Ascii.eqb_spec d c); [congruence|done].
Qed.

Lemma unit_lines_clean classes instance routerURL hasTask :
  no_char newline classes = true -> no_char newline instance = true ->
  Forall (fun l => no_char newline l = true) (unit_lines classes instance routerURL hasTask).
Proof.
  intros Hc Hi. unfold unit_lines. apply Forall_app. split; [|apply Forall_app; split].
  - repeat constructor. by rewrite no_char_app, Hc.
  - unfold task_lines. destruct hasTask; repeat constructor. by rewrite !no_char_app, Hi.
  - unfold router_lines. destruct (_ && _) eqn:E; [|constructor]. apply andb_prop in E as [_ E].
    repeat constructor. rewrite !no_char_app, (all_chars_no_char _ newline routerURL (eq_refl _) E). done.
Qed.

Lemma classNames_clean m : no_char newline (classNames m) = true.
Proof.
  unfold classNames, dstClasses. destruct (m =? 0); [done|]. cbn [List.filter].
  repeat match goal with |- context [if ?b then _ else _] => destruct b end; reflexivity.
Qed.

Lemma instance_clean e p f m pd :
  handleBrokerConn e p f m = Gate pd -> pd_kind pd = actDelegate ->
  all_chars is_lower_digit (randHex8 e) = true -> no_char newline (pd_instance pd) = true.
Proof.
  intros (_ & _ & _ & H)%handleBrokerConn_gate Hk Hh. rewrite Hk in H.
  destruct H as (gen & _ & _ & _ & Hs & _ & ->). unfold validSuffix in Hs. apply andb_prop in Hs as [_ Hs].
  rewrite !no_char_app, (lower_no_char newline (randHex8 e)), (lower_no_char newline (pd_suffix pd)) by done.
  unfold Itoa. destruct (Z.ltb_spec (pd_gen pd) 0).
  - rewrite no_char_app, Itoa_no_char by (done || lia). done.
  - rewrite Itoa_no_char by (done || lia). done.
Qed.

(** ** Properties *)

(** What lies behind the gate: without approval, or if the requester's cgroup is no
    longer the attested one, nothing changes and nothing starts; an approved EXPAND changes
    only the requester's existing manifest, by classes under the deployment ceiling; an
    approved GRANT-ONCE sets only the requester's grant of the requested hook to one use;
    flags and TCB list never change. *)
Theorem approved_actions_are_confined x d s :
  let p := dd_req d in let m := b_maps s in let m' := b_maps (finishGated x d s).1.2 in
  enforce_flags m' = enforce_flags m /\ tcb_cgroups m' = tcb_cgroups m
  /\ (dd_ok d = false \/ reverifyCgroup (be_fs (x_b x)) (pd_path p) (pd_cg p) = false ->
      m' = m /\ (finishGated x d s).2 = None)
  /\ (forall c mask, egress_policy m' !! c = Some mask ->
      egress_policy m !! c = Some mask
      \/ (c = pd_cg p /\ exists live, egress_policy m !! c = Some live
          /\ mask = Z.lor live (Z.land (pd_reqMask p) (expandCeiling (x_b x)))))
  /\ (forall k w, grant_once m' !! k = Some w ->
      grant_once m !! k = Some w
      \/ (k = GrantKey (pd_cg p) (pd_hook p) 0 /\ w = GrantVal 1 (grantExpiry (x_b x)))).
Proof.
  cbv zeta. destruct (finishGated x d s) as [[r s'] l] eqn:E. cbn [fst snd].
  apply finishGated_cases in E as (v & a & _ & [(-> & -> & _)|(detail & Hok & E & _)]); [auto 10|].
  apply execute_effect in E as [Hr E]. assert (dd_ok d = false \/ reverifyCgroup (be_fs (x_b x))
    (pd_path (dd_req d)) (pd_cg (dd_req d)) = false -> False) as Hno by (intros [?|?]; congruence).
  destruct (pd_kind (dd_req d)).
  - destruct E as (-> & _). split_and!; [done..| |auto|auto]. tauto.
  - destruct E as (-> & live & Hl & _ & ->). cbn. split_and!; [done..|tauto| |auto].
    intros c mask [[<- <-]|[_ ?]]%lookup_insert_Some; [right; eauto|auto].
  - destruct E as (-> & ->). cbn. split_and!; [done..|tauto|auto|].
    intros k w [[<- <-]|[_ ?]]%lookup_insert_Some; auto.
Qed.

(** C39: Every gated request is recorded once, with what was done. The chain grows by
    exactly the request's own record (by nothing if the append fails); a reply OK means
    that the record landed and names exactly the work reported; work that changed a map or
    started a unit is recorded as applied; and if the append fails no reply is OK. *)
Theorem gated_requests_are_audited x d s r s' l :
  finishGated x d s = (r, s', l) ->
  exists v a,
    b_chain s' = b_chain s ++ (if appends (be_fs (x_b x))
                   then [decision_of (x_sha8 x) (dd_req d) v (dd_operator d) a] else [])
    /\ (forall detail, r = ("OK " ++ detail)%string ->
          appends (be_fs (x_b x)) = true /\ dd_ok d = true /\ a = Applied detail /\ v = dd_verdict d)
    /\ (b_maps s' <> b_maps s \/ l <> None -> exists detail, a = Applied detail).
Proof.
  intros (v & a & Hc & Hcase)%finishGated_cases. exists v, a. split; [done|].
  destruct Hcase as [(Hm & Hl & Ha & Hr)|(detail & Hok & _ & Hv & Ha & Hr)]; split.
  - intros detail ->. destruct Hr as [?|?]; done.
  - intros [?|?]; congruence.
  - intros detail' ->. destruct (appends _); [|done]. injection Hr as ->. done.
  - eauto.
Qed.

(** Delegation attenuates, end to end. Let an agent's DELEGATE reach the gate and be
    approved later, in any state of the maps. The child's unit then starts with the text of
    a mask; when the child writes that text as its manifest, the manifest is contained in
    the parent's mask at approval time and in what was requested; the child's generation is
    the parent's plus one, within the depth limit; and an EXPAND of the child is refused. *)
Theorem delegation_attenuates e p f m0 pd x d s r s' l pre e' cg' f' mm :
  handleBrokerConn e p f m0 = Gate pd -> pd_kind pd = actDelegate ->
  0 < pd_gen pd < 2 ^ 63 -> all_chars is_lower_digit (randHex8 e) = true ->
  dd_req d = pd -> finishGated x d s = (r, s', Some l) ->
  (exists live mask, egress_policy (b_maps s) !! p_cgid p = Some live
     /\ parseClasses (l_classes l) = Some mask
     /\ subset_mask mask live /\ subset_mask mask (pd_reqMask pd))
  /\ delegGen (agent_path pre (l_instance l)) = Some (pd_gen pd) /\ pd_gen pd <= maxDelegateDepth e
  /\ handleExpandTail e' cg' (agent_path pre (l_instance l)) f' mm = Reply "ERR no-expand-for-delegated".
Proof.
  intros (_ & Hcg & _ & Hg)%handleBrokerConn_gate Hk Hgen Hh Hd E. rewrite Hk in Hg.
  destruct Hg as (gen & Hgp & Hpg & Hmax & Hs & Hreq & Hin).
  apply finishGated_cases in E as (v & a & _ & [(_ & ? & _)|(detail & _ & E & _)]); [done|].
  apply execute_effect in E as [_ E]. rewrite Hd, Hk in E. destruct E as (_ & live & Hl & _ & El & _).
  unfold launchChild in El. destruct (starts _ _); [|done]. injection El as ->. cbn [l_instance l_classes].
  assert (delegGen (agent_path pre (pd_instance pd)) = Some (pd_gen pd)) as Hdg.
  { rewrite Hin. apply delegGen_child; [lia|done|]. unfold validSuffix in Hs. by apply andb_prop in Hs as [_ ?]. }
  split_and!; [|done|lia|].
  - exists live, (Z.land (Z.land live (pd_reqMask pd)) 31). split_and!.
    + unfold lookupEgressMask in Hl. destruct (pinned _ _); [|done]. by rewrite <- Hcg.
    + apply parse_class_names.
    + eapply subset_mask_trans; [apply subset_mask_land|apply subset_mask_land].
    + eapply subset_mask_trans; [apply subset_mask_land|]. rewrite Z.land_comm. apply subset_mask_land.
  - unfold handleExpandTail. rewrite Hdg. by rewrite (proj2 (Z.ltb_lt _ _)) by lia.
Qed.

Definition worker : peer := Peer 1000 7 (agent_path "/bulkhead.slice" "worker").
Definition some_broker : benv :=
  BEnv (UEnv (fun _ => true) (fun _ => Some 7) true) 31 3 "0a1b2c3d" 300 2000 (fun _ => true) (fun _ => []).
Definition some_exec : exec_env := ExecEnv some_broker "http://router" (fun _ => "deadbeef").
Definition delegate_request : list string := ["DELEGATE"; "kid"; "loopback,public"; "summarise"; "it"].
Definition some_delegation : pending :=
  Pending actDelegate 7 (agent_path "/bulkhead.slice" "worker") "kid" "d1-0a1b2c3d-kid" "summarise it" 1 9 1 0 0.
Definition approved : decided := Decided some_delegation true "approve" "uid0:pid42".
Definition some_launch : launch :=
  Launch "d1-0a1b2c3d-kid" "loopback"
    (delegatedDropIn "loopback" "d1-0a1b2c3d-kid" "http://router" true) (Some "summarise it").

(** A concrete approval: the child starts with the part of the request its parent holds. *)
Lemma approved_run :
  let '(r, s', l) := finishGated some_exec approved (BState armed_state []) in
  r = "OK d1-0a1b2c3d-kid loopback" /\ b_maps s' = armed_state /\ length (b_chain s') = 1%nat /\ l = Some some_launch.
Proof. vm_compute. auto. Qed.

Lemma delegation_attenuates_witness :
  handleBrokerConn some_broker worker delegate_request armed_state = Gate some_delegation
  /\ handleExpandTail some_broker 9 (agent_path "/bulkhead.slice" (l_instance some_launch)) ["EXPAND"; "any"] armed_state
     = Reply "ERR no-expand-for-delegated".
Proof.
  split; [vm_compute; reflexivity|].
  apply (delegation_attenuates some_broker worker delegate_request armed_state some_delegation
           some_exec approved (BState armed_state []) "OK d1-0a1b2c3d-kid loopback"
           (finishGated some_exec approved (BState armed_state [])).1.2 some_launch
           "/bulkhead.slice" some_broker 9 ["EXPAND"; "any"] armed_state);
    [vm_compute; reflexivity|reflexivity|cbn; lia|vm_compute; reflexivity|reflexivity|vm_compute; reflexivity].
Defined.

Lemma gated_requests_are_audited_witness :
  exists v a, b_chain (finishGated some_exec approved (BState armed_state [])).1.2
              = [decision_of (fun _ => "deadbeef") some_delegation v "uid0:pid42" a].
Proof.
  destruct (gated_requests_are_audited some_exec approved (BState armed_state []) "OK d1-0a1b2c3d-kid loopback"
              (finishGated some_exec approved (BState armed_state [])).1.2 (Some some_launch)) as (v & a & H & _);
    [vm_compute; reflexivity|exact (ex_intro _ v (ex_intro _ a H))].
Defined.

(** Nothing an agent supplies reaches the syntax of the unit its child runs in. The
    drop-in of an approved delegation has exactly the lines of the template: one start
    command, the manifest, the limits, the flag against EXPAND, one credential or the
    default task, and at most one router line; suffix, task and router URL, whatever bytes
    they hold, add no line. *)
Theorem no_directive_is_injected e p f m0 pd x d s r s' l :
  handleBrokerConn e p f m0 = Gate pd -> pd_kind pd = actDelegate ->
  all_chars is_lower_digit (randHex8 e) = true ->
  dd_req d = pd -> finishGated x d s = (r, s', Some l) ->
  Split newline (l_conf l)
  = unit_lines (l_classes l) (pd_instance pd) (x_router x) (negb (pd_task pd =? "")%string) ++ [""].
Proof.
  intros Hg Hk Hh Hd E. pose proof (instance_clean _ _ _ _ _ Hg Hk Hh) as Hi.
  apply finishGated_cases in E as (v & a & _ & [(_ & ? & _)|(detail & _ & E & _)]); [done|].
  apply execute_effect in E as [_ E]. rewrite Hd, Hk in E. destruct E as (_ & live & _ & _ & El & _).
  unfold launchChild in El. destruct (starts _ _); [|done]. injection El as ->. cbn [l_conf l_classes].
  rewrite delegatedDropIn_lines. apply Split_unlines, unit_lines_clean; [apply classNames_clean|done].
Qed.

Lemma no_directive_is_injected_witness :
  Split newline (l_conf some_launch)
  = unit_lines "loopback" "d1-0a1b2c3d-kid" "http://router" true ++ [""].
Proof.
  apply (no_directive_is_injected some_broker worker delegate_request armed_state some_delegation
           some_exec approved (BState armed_state []) "OK d1-0a1b2c3d-kid loopback"
           (finishGated some_exec approved (BState armed_state [])).1.2 some_launch);
    [vm_compute; reflexivity|reflexivity|vm_compute; reflexivity|reflexivity|vm_compute; reflexivity].
Defined.

(** The operator's socket. Whoever connects and whatever is sent, flags, TCB list and
    grants stay as they are, no manifest appears or disappears, and every manifest only
    loses classes; a peer that is not root changes nothing and decides nothing; a manifest
    that does change is the one of the cgroup found at an agent's path. *)
Theorem operator_socket_only_narrows e li uid pid f g s :
  let '(_, g', s', d) := handleApprove e li uid pid f g s in
  let m := b_maps s in let m' := b_maps s' in
  enforce_flags m' = enforce_flags m /\ tcb_cgroups m' = tcb_cgroups m /\ grant_once m' = grant_once m
  /\ (uid <> 0 -> g' = g /\ s' = s /\ d = None)
  /\ (forall c, egress_policy m' !! c = egress_policy m !! c
       \/ exists live mask path, egress_policy m !! c = Some live /\ egress_policy m' !! c = Some mask
          /\ subset_mask mask live /\ isAgentCgroup path = true /\ stat (be_fs e) (cgroup_file path) = Some c).
Proof.
  destruct (handleApprove e li uid pid f g s) as [[[r g'] s'] d] eqn:E.
  apply handleApprove_effect in E as [(-> & -> & ->)|[(Hu & -> & _)|(Hu & -> & -> & cg & path & req & Ha & E)]];
    cbv zeta; [auto 10|split_and!; [done..|congruence|auto]|].
  destruct E as [->|(Hst & live & Hl & ->)]; cbn; (split_and!; [done..|congruence|]); [auto|].
  intros c. destruct (decide (cg = c)) as [<-|Hne]; [|rewrite lookup_insert_ne by done; auto].
  right. rewrite lookup_insert_eq. exists live, (narrowMask live req), path.
  split_and!; [done..|apply narrowMask_subset|done|done].
Qed.

(** A target that climbs out of the cgroup root passes the agent predicate, because the
    prefix it would have is simply not there to be removed; the lookup of the file outside
    the root, and the re-verification under it, are what stops it. *)
Lemma traversal_passes_the_predicate :
  let e := BEnv (UEnv (fun _ => true) (fun p => if (p =? "/bulkhead-agent.slice/bulkhead-agent@x.service")%string then Some 9 else None) true)
             31 3 "0a1b2c3d" 300 2000 (fun _ => true) (fun _ => []) in
  let target := "/../../../bulkhead-agent.slice/bulkhead-agent@x.service" in
  resolveAgentTarget e target = Ok (9, "/bulkhead-agent.slice/bulkhead-agent@x.service")
  /\ (handleNarrow e "op" ["NARROW"; target; "any"] (BState armed_state [])).1 = "ERR target-gone".
Proof. vm_compute. auto. Qed.
