(* ===== verification/System.v ===== *)
(** * The appliance: programs, control socket, broker, operator and collector together

    One transition system over the maps the components share. An event is one of: a
    program invoked by the kernel, a request on the control socket, an agent's request to
    the broker, a connection to the operator's socket, a timeout, the run of a request
    whose verdict has arrived, a tick of the collector's garbage collection. The theorems
    hold for every sequence of events, in any order, with any file-system answers. *)
From Stdlib Require Import ZArith Lia Ascii String.
From stdpp Require Import base tactics numbers option list gmap.
From S2P Require Import Prelude Objects Maps Kernel Hooks Fixtures HookProps Classes Gc Control Broker Approval.
#[local] Open Scope string_scope.
#[local] Open Scope list_scope.
#[local] Open Scope Z_scope.

Record sys := Sys {
  maps : kstate;
  control_chain : list ctl_record;
  broker_chain : list decision;
  gate_ : gate_state;
  decided_ : list decided;       (* verdict received, executor not yet run *)
  gc_ : gc_state }.

Inductive sys_event :=
| Invoke (i : invocation)
| Request (x : exec_env) (p : peer) (f : list string)
| Operator (e : benv) (li : gate_state -> reply) (uid pid : Z) (f : list string)
| Timeout (id : Z)
| Run (x : exec_env) (n : nat)
| ControlReq (e : uenv) (attest : list string -> reply) (p : peer) (f : list string)
| Tick (f : fs).

Definition with_broker (s : bstate) (y : sys) : sys :=
  Sys (b_maps s) (control_chain y) (b_chain s) (gate_ y) (decided_ y) (gc_ y).
Definition broker_of (y : sys) : bstate := BState (maps y) (broker_chain y).

Definition with_gate (g : gate_state) (ds : list decided) (y : sys) : sys :=
  Sys (maps y) (control_chain y) (broker_chain y) g (decided_ y ++ ds) (gc_ y).

Definition sys_step (y : sys) (ev : sys_event) : sys :=
  match ev with
  | Invoke i => Sys (invoke i (maps y)).2 (control_chain y) (broker_chain y) (gate_ y) (decided_ y) (gc_ y)
  | Request x p f =>
      match handleBrokerConn (x_b x) p f (maps y) with
      | Reply _ => y
      | Gate pd =>
          match register pd (gate_ y) with
          | (Some _, g) => with_gate g [] y
          | (None, _) => with_broker (finishGated x (busy pd) (broker_of y)).1.2 y
          end
      end
  | Operator e li uid pid f =>
      let '(_, g, s, d) := handleApprove e li uid pid f (gate_ y) (broker_of y) in
      with_gate g (option_list d) (with_broker s y)
  | Timeout id =>
      let '(d, g) := resolve id false "timeout" "-" (gate_ y) in with_gate g (option_list d) y
  | Run x n =>
      match decided_ y !! n with
      | None => y
      | Some d =>
          let s := (finishGated x d (broker_of y)).1.2 in
          Sys (b_maps s) (control_chain y) (b_chain s) (gate_ y) (delete n (decided_ y)) (gc_ y)
      end
  | ControlReq e attest p f =>
      let s := (handleControlConn e attest p f (CState (maps y) (control_chain y))).2 in
      Sys (c_maps s) (c_chain s) (broker_chain y) (gate_ y) (decided_ y) (gc_ y)
  | Tick f =>
      let '(g, m) := gcTick f (gc_ y) (maps y) in
      Sys m (control_chain y) (broker_chain y) (gate_ y) (decided_ y) g
  end.

Definition run (y : sys) (l : list sys_event) : sys := foldl sys_step y l.

(** ** Counting *)

(** An approval of GRANT-ONCE for a key. *)
Definition grants_key (k : grant_key) (d : decided) : bool :=
  dd_ok d && bool_decide (pd_kind (dd_req d) = actGrantOnce
    /\ GrantKey (pd_cg (dd_req d)) (pd_hook (dd_req d)) 0 = k).

(** Operations that passed only thanks to the grant of [k]. *)
Definition relaxed_by (k : grant_key) (y : sys) (ev : sys_event) : nat :=
  match ev with
  | Invoke i => if relaxed i (maps y) && bool_decide (i_key i = k) then 1 else 0
  | _ => 0
  end.

(** Approvals of [k] the operator gives in this event. *)
Definition approved_by (k : grant_key) (y : sys) (ev : sys_event) : nat :=
  match ev with
  | Operator e li uid pid f =>
      match (handleApprove e li uid pid f (gate_ y) (broker_of y)).2 with
      | Some d => if grants_key k d then 1 else 0
      | None => 0
      end
  | _ => 0
  end.

Fixpoint total (c : sys -> sys_event -> nat) (y : sys) (l : list sys_event) : nat :=
  match l with [] => 0 | ev :: l => (c y ev + total c (sys_step y ev) l)%nat end.

(** Grants of [k] that may still be spent: in the map, or approved and not yet written. *)
Definition outstanding (k : grant_key) (y : sys) : nat :=
  (unused k (maps y) + count_if (grants_key k) (decided_ y))%nat.

(** ** Lemmas *)
Lemma count_if_delete {A} (f : A -> bool) (n : nat) x l :
  l !! n = Some x -> (count_if f (delete n l) + (if f x then 1 else 0))%nat = count_if f l.
Proof.
  revert n; induction l as [|z l IH]; intros [|n] Hn; [done..| |].
  - injection Hn as ->. change (delete 0%nat (x :: l)) with l. rewrite count_if_cons. lia.
  - change (delete (S n) (z :: l)) with (z :: delete n l). rewrite !count_if_cons. specialize (IH n Hn). lia.
Qed.

Lemma count_if_option {A} (f : A -> bool) o :
  count_if f (option_list o) = match o with Some x => if f x then 1%nat else 0%nat | None => 0%nat end.
Proof. destruct o as [x|]; [|done]. change (option_list (Some x)) with [x]. rewrite count_if_cons. cbn. lia. Qed.

Lemma grants_key_denied k d : dd_ok d = false -> grants_key k d = false.
Proof. unfold grants_key. by intros ->. Qed.

Lemma unused_anti k m m' : (grant_once m' !! k = None \/ grant_once m' !! k = grant_once m !! k) ->
  (unused k m' <= unused k m)%nat.
Proof. unfold unused. intros [-> | ->]; destruct (grant_once m !! k); lia. Qed.

(** Running a decided request creates a grant only if it is an approval of its key. *)
Lemma finishGated_unused k x d s :
  (unused k (b_maps (finishGated x d s).1.2) <= unused k (b_maps s) + (if grants_key k d then 1 else 0))%nat.
Proof.
  destruct (finishGated x d s) as [[r s'] l] eqn:E. cbn [fst snd].
  apply finishGated_cases in E as (v & a & _ & [(-> & _)|(detail & Hok & E & _)]); [lia|].
  apply execute_effect in E as [_ E]. unfold grants_key. rewrite Hok. cbn [andb].
  destruct (pd_kind (dd_req d)).
  - destruct E as [-> _]. lia.
  - destruct E as (_ & live & _ & _ & ->). unfold unused. cbn. lia.
  - destruct E as (_ & ->). unfold unused. cbn [grant_once set_grants].
    case_bool_decide as Hk; [destruct (_ !! k); lia|].
    rewrite lookup_insert_ne; [lia|]. intros E. by destruct Hk.
Qed.

Lemma control_grants e at_ p f s k :
  let g' := grant_once (c_maps (handleControlConn e at_ p f s).2) in
  g' !! k = None \/ g' !! k = grant_once (c_maps s) !! k.
Proof.
  cbv zeta. destruct (handleControlConn_effect e at_ p f s) as [|g Hg|g Hg|bid ? ?|fl ?]; cbn; auto.
  destruct (Hg k) as [?|[_ ?]]; auto.
Qed.

Lemma tick_grants f g m k :
  let g' := grant_once (gcTick f g m).2 in g' !! k = None \/ g' !! k = grant_once m !! k.
Proof.
  cbv zeta. destruct (gcTick f g m) as [g' m'] eqn:E. apply gcTick_spec in E as [Hg _]. cbn [snd].
  rewrite Hg. destruct (decide _); auto.
Qed.

Lemma operator_grants e li uid pid f g s r g' s' d :
  handleApprove e li uid pid f g s = (r, g', s', d) -> grant_once (b_maps s') = grant_once (b_maps s).
Proof.
  intros [(_ & -> & _)|[(_ & -> & _)|(_ & _ & _ & cg & path & req & _ & [->|(_ & live & _ & ->)])]]%handleApprove_effect;
    done.
Qed.

Lemma step_accounting k y ev :
  (relaxed_by k y ev + outstanding k (sys_step y ev) <= outstanding k y + approved_by k y ev)%nat.
Proof.
  destruct ev as [i|x p f|e li uid pid f|id|x n|e at_ p f|f]; unfold outstanding; cbn [relaxed_by approved_by sys_step].
  - cbn [maps decided_]. pose proof (one_shot_step k i (maps y)). lia.
  - destruct (handleBrokerConn _ _ _ _) as [|pd]; [lia|]. destruct (register pd (gate_ y)) as [[id|] g].
    + cbn [with_gate maps decided_]. rewrite app_nil_r. lia.
    + cbn [with_broker maps decided_]. pose proof (finishGated_unused k x (busy pd) (broker_of y)) as Hu.
      rewrite grants_key_denied in Hu by done. cbn [b_maps broker_of] in Hu. lia.
  - destruct (handleApprove _ _ _ _ _ _ _) as [[[r g] s] d] eqn:E. cbn [snd with_gate with_broker maps decided_].
    apply operator_grants in E. unfold unused. rewrite E. cbn [broker_of b_maps]. rewrite count_if_app, count_if_option. lia.
  - unfold resolve. destruct (pend (gate_ y) !! id) as [p|]; cbn [with_gate maps decided_];
      rewrite count_if_app, count_if_option; [|lia]. rewrite grants_key_denied by done. lia.
  - destruct (decided_ y !! n) as [d|] eqn:E; [|lia]. cbn [maps decided_].
    pose proof (count_if_delete (grants_key k) n d _ E). pose proof (finishGated_unused k x d (broker_of y)) as Hu.
    cbn [broker_of b_maps] in Hu. lia.
  - cbn [maps decided_]. pose proof (unused_anti k _ _ (control_grants e at_ p f (CState (maps y) (control_chain y)) k)) as Hu.
    cbn [c_maps] in Hu. lia.
  - pose proof (unused_anti k _ _ (tick_grants f (gc_ y) (maps y) k)) as Hu. destruct (gcTick f (gc_ y) (maps y)) as [g m].
    cbn [snd] in Hu. cbn [maps decided_]. lia.
Qed.

(** ** Without root *)

(** An event no part of which comes from root: any program invocation, any agent request,
    any timeout or run, any tick, and connections to the root-only sockets by other users. *)
Definition unprivileged (ev : sys_event) : Prop :=
  match ev with
  | Operator _ _ uid _ _ => uid <> 0
  | ControlReq _ _ p _ => p_uid p <> 0
  | _ => True
  end.

Definition none_approved (y : sys) : Prop := Forall (fun d => dd_ok d = false) (decided_ y).

(** What one event without root may do to the maps. *)
Record no_gain (ev : sys_event) (m m' : kstate) : Prop := {
  ng_flags : enforce_flags m' = enforce_flags m;
  ng_tcb : forall c v, tcb_cgroups m' !! c = Some v ->
    tcb_cgroups m !! c = Some v \/ exists f, ev = Tick f /\ fs_broker f = Some c;
  ng_grants : forall k w, grant_once m' !! k = Some w -> grant_once m !! k = Some w;
  ng_egress : forall c, egress_policy m' !! c = egress_policy m !! c
    \/ (egress_policy m' !! c = None /\ exists f, ev = Tick f /\ (c ∉ fs_live f)) }.

Lemma no_gain_refl ev m : no_gain ev m m.
Proof. split; auto. Qed.

Lemma denied_no_effect x d s : dd_ok d = false -> b_maps (finishGated x d s).1.2 = b_maps s.
Proof.
  intros Hd. destruct (finishGated x d s) as [[r s'] l] eqn:E. cbn [fst snd].
  apply finishGated_cases in E as (v & a & _ & [(-> & _)|(detail & Hok & _)]); [done|congruence].
Qed.

Lemma invoke_no_gain ev i m : no_gain ev m (invoke i m).2.
Proof.
  split.
  - by apply (invoke_frame enforce_flags).
  - intros c v. rewrite (invoke_frame tcb_cgroups) by done. auto.
  - intros k w. destruct (invoke_grants i m) as [[_ ->]|(_ & _ & _ & _ & -> & _)]; [done|].
    rewrite lookup_delete_Some. tauto.
  - intros c. rewrite (invoke_frame egress_policy) by done. auto.
Qed.

Lemma reconcileTCB_old ids broker tcb c v :
  (reconcileTCB ids broker tcb).2 !! c = Some v -> broker <> Some c -> tcb !! c = Some v.
Proof.
  destruct (decide (2 <= size (list_to_set ids : gset Z))%nat) as [Hs|Hs].
  - rewrite reconcileTCB_spec by done. destruct (decide _); [|done]. by destruct (decide _) as [[? _]|].
  - unfold reconcileTCB. cbv zeta. by rewrite (proj2 (Nat.ltb_lt _ _)) by lia.
Qed.

Lemma tick_no_gain f g m : no_gain (Tick f) m (gcTick f g m).2.
Proof.
  destruct (gcTick f g m) as [g' m'] eqn:E. apply gcTick_spec in E as (Hg & He & Hf & _ & Ht & _). cbn [snd].
  split; [done| | |].
  - intros c v. rewrite Ht. intros Hc. destruct (decide (fs_broker f = Some c)) as [Hb|Hb]; [eauto|].
    left. by apply (reconcileTCB_old (fs_tcb f) (fs_broker f)).
  - intros k w. rewrite Hg. by destruct (decide _).
  - intros c. rewrite He. destruct (decide _) as [[? _]|]; [right; eauto|auto].
Qed.

Lemma step_no_gain y ev :
  unprivileged ev -> none_approved y ->
  none_approved (sys_step y ev) /\ no_gain ev (maps y) (maps (sys_step y ev)).
Proof.
  intros Hu Hn. unfold none_approved. destruct ev as [i|x p f|e li uid pid f|id|x n|e at_ p f|f]; cbn [sys_step unprivileged] in *.
  - split; [done|]. apply invoke_no_gain.
  - destruct (handleBrokerConn _ _ _ _) as [|pd]; [split; [done|apply no_gain_refl]|].
    destruct (register pd (gate_ y)) as [[id|] g]; cbn [with_gate with_broker decided_ maps].
    + rewrite app_nil_r. split; [done|apply no_gain_refl].
    + rewrite denied_no_effect by done. split; [done|apply no_gain_refl].
  - unfold handleApprove. rewrite (proj2 (Z.eqb_neq _ _) Hu). cbn. rewrite app_nil_r. split; [done|apply no_gain_refl].
  - unfold resolve. destruct (pend (gate_ y) !! id) as [p|]; cbn [with_gate decided_ maps];
      (split; [apply Forall_app; split; [done|by repeat constructor]|apply no_gain_refl]).
  - destruct (decided_ y !! n) as [d|] eqn:E; [|split; [done|apply no_gain_refl]]. cbn [maps decided_].
    pose proof (Forall_lookup_1 _ _ _ _ Hn E) as Hd. rewrite denied_no_effect by done.
    split; [by apply Forall_delete|apply no_gain_refl].
  - unfold handleControlConn. rewrite (proj2 (Z.eqb_neq _ _) Hu). cbn. split; [done|apply no_gain_refl].
  - pose proof (tick_no_gain f (gc_ y) (maps y)) as Ht. destruct (gcTick f (gc_ y) (maps y)) as [g m]. done.
Qed.

(** ** Properties *)

(** C3: No privileged operation without an operator. Over every sequence of events, and
    for every cgroup and hook: the operations that passed only thanks to a grant, plus the
    grants still in the map or approved and not yet written, are at most what was
    outstanding at the start plus the approvals an operator gave for that cgroup and hook. *)
Theorem privileged_operations_need_approval k l y :
  (total (relaxed_by k) y l + outstanding k (run y l) <= outstanding k y + total (approved_by k) y l)%nat.
Proof.
  revert y; induction l as [|ev l IH]; intros y; cbn [total run foldl]; [lia|].
  pose proof (step_accounting k y ev). specialize (IH (sys_step y ev)). unfold run in IH. lia.
Qed.

(** C4: Without root nothing is gained. Let any number of agents send anything to every
    socket and do anything under the programs, with requests timing out and the collector
    collecting, but with no event from root and no approval outstanding. Then the enforce
    flags are as they were, every grant and every manifest present is one that was there
    before, a manifest that disappeared belonged to a cgroup that was found dead, and a
    cgroup in the TCB list was there before or is the broker as the collector resolved it. *)
Theorem without_root_nothing_is_gained l y :
  Forall unprivileged l -> none_approved y ->
  let m := maps y in let m' := maps (run y l) in
  enforce_flags m' = enforce_flags m
  /\ (forall c v, tcb_cgroups m' !! c = Some v ->
        tcb_cgroups m !! c = Some v \/ exists f, Tick f ∈ l /\ fs_broker f = Some c)
  /\ (forall k w, grant_once m' !! k = Some w -> grant_once m !! k = Some w)
  /\ (forall c, egress_policy m' !! c = egress_policy m !! c
        \/ (egress_policy m' !! c = None /\ exists f, Tick f ∈ l /\ (c ∉ fs_live f))).
Proof.
  intros Hl. revert y. induction Hl as [|ev l Hev _ IH]; intros y Hn; [by auto 10|].
  cbv zeta. change (run y (ev :: l)) with (run (sys_step y ev) l).
  destruct (step_no_gain y ev Hev Hn) as [Hn' [Hf Ht Hg He]]. destruct (IH _ Hn') as (IHf & IHt & IHg & IHe).
  split_and!.
  - by rewrite IHf.
  - intros c v [Hc|(f & ? & ?)]%IHt; [|right; exists f; split; [by right|done]].
    apply Ht in Hc as [?|(f & -> & ?)]; [auto|]. right. exists f. split; [by left|done].
  - auto.
  - intros c. destruct (IHe c) as [->|(-> & f & ? & ?)]; [|right; split; [done|]; exists f; split; [by right|done]].
    destruct (He c) as [->|(-> & f & -> & ?)]; [auto|]. right. split; [done|]. exists f. split; [by left|done].
Qed.

(** A day at the appliance: the agent asks for a ptrace grant, the operator allows it, the
    broker writes it, and of two ptrace calls the first passes. *)
Definition quiet : sys :=
  Sys (set_grants ∅ armed_state) [] [] empty_gate [] (GcState ∅ ∅).
Definition a_day : list sys_event :=
  [Request some_exec worker ["GRANT-ONCE"; "ptrace"];
   Invoke ptrace_call;
   Operator some_broker (fun _ => "") 0 42 ["ALLOW"; "1"];
   Timeout 1;
   Run some_exec 0;
   Invoke ptrace_call;
   Invoke ptrace_call].

Lemma a_day_run :
  let k := GrantKey 7 HOOK_PTRACE 0 in
  (invoke ptrace_call (maps (run quiet (take 2 a_day)))).1 = - EPERM
  /\ total (relaxed_by k) quiet a_day = 1%nat /\ total (approved_by k) quiet a_day = 1%nat
  /\ outstanding k (run quiet a_day) = 0%nat /\ length (broker_chain (run quiet a_day)) = 1%nat.
Proof. vm_compute. auto 10. Qed.

Definition a_night : list sys_event :=
  [Request some_exec worker ["GRANT-ONCE"; "ptrace"];
   Operator some_broker (fun _ => "") 1000 42 ["ALLOW"; "1"];
   Run some_exec 0; Timeout 1; Run some_exec 0; Invoke ptrace_call;
   Tick (Fs {[7]} [1; 2] (Some 3))].

Lemma without_root_nothing_is_gained_witness :
  enforce_flags (maps (run quiet a_night)) = enforce_flags armed_state.
Proof.
  apply (without_root_nothing_is_gained a_night quiet).
  - repeat constructor. cbn. lia.
  - constructor.
Defined.
