(* ===== verification/Bytes.v ===== *)
(** * Byte strings, hexadecimal text and UTF-8

    What the audit chain uses of Go's standard library on byte strings: big-endian
    integers ([encoding/binary]), [encoding/hex], white space and lines, and the decoding of
    UTF-8 with [strings.ToValidUTF8]. *)
From Stdlib Require Import ZArith Lia Ascii String.
From stdpp Require Import base tactics numbers option list.
From S2P Require Import Prelude.
#[local] Open Scope list_scope.
#[local] Open Scope Z_scope.

(** A Go [string] or [[]byte]. *)
Definition bytes : Type := list ascii.
Definition B (s : string) : bytes := list_ascii_of_string s.
Definition len (b : bytes) : Z := Z.of_nat (length b).

(** ** Bytes as numbers *)
Definition val (c : ascii) : Z := Z.of_N (N_of_ascii c).
Definition byte_of (z : Z) : ascii := ascii_of_N (Z.to_N (z mod 256)).

Lemma val_bound c : 0 <= val c < 256.
Proof. unfold val. pose proof (N_ascii_bounded c). lia. Qed.

Lemma val_byte_of z : val (byte_of z) = z mod 256.
Proof.
  pose proof (Z.mod_pos_bound z 256 eq_refl). unfold val, byte_of. rewrite N_ascii_embedding; lia.
Qed.

Lemma byte_of_val c : byte_of (val c) = c.
Proof.
  unfold byte_of. rewrite Z.mod_small by apply val_bound. unfold val. rewrite N2Z.id. apply ascii_N_embedding.
Qed.

Lemma val_inj a b : val a = val b -> a = b.
Proof. intros H. by rewrite <- (byte_of_val a), H, byte_of_val. Qed.

(** [binary.BigEndian.PutUint64]. *)
Definition put (v : Z) : bytes := byte_of <$> rev (le_split 8 v).

Lemma length_put v : length (put v) = 8%nat.
Proof. unfold put. by rewrite length_fmap, length_rev, length_le_split. Qed.

Lemma byte_of_inj a b : is_byte a -> is_byte b -> byte_of a = byte_of b -> a = b.
Proof. intros Ha Hb E. apply (f_equal val) in E. rewrite !val_byte_of, !Z.mod_small in E; done. Qed.

Lemma map_byte_of_inj l l' :
  Forall is_byte l -> Forall is_byte l' -> byte_of <$> l = byte_of <$> l' -> l = l'.
Proof.
  intros Hl. revert l'. induction Hl as [|a l Ha Hl IH]; intros l' Hl' E; destruct l' as [|b l']; try done.
  inversion_clear Hl'. rewrite !fmap_cons in E. injection E as E1 E2. f_equal; [by apply byte_of_inj|by apply IH].
Qed.

Lemma put_inj a b : put a = put b -> u64 a = u64 b.
Proof.
  intros E. assert (le_split 8 a = le_split 8 b) as E'.
  { rewrite <- (rev_involutive (le_split 8 a)), <- (rev_involutive (le_split 8 b)). f_equal.
    apply map_byte_of_inj; [apply Forall_rev, le_split_bytes..|done]. }
  apply (f_equal le_combine) in E'. by rewrite !le_combine_split in E'.
Qed.

(** A prefix of eight bytes is read back whatever follows. *)
Lemma put_app_inj a b x y : put a ++ x = put b ++ y -> u64 a = u64 b /\ x = y.
Proof. intros [E1 E2]%app_inj_1; [split; [by apply put_inj|done]|by rewrite !length_put]. Qed.

(** ** [encoding/hex] *)
Definition hexdigit (n : Z) : ascii := byte_of (if n <? 10 then 48 + n else 87 + n).

Definition unhex (c : ascii) : option Z :=
  let n := val c in
  if (48 <=? n) && (n <=? 57) then Some (n - 48)
  else if (97 <=? n) && (n <=? 102) then Some (n - 87)
  else if (65 <=? n) && (n <=? 70) then Some (n - 55)
  else None.

Definition EncodeToString (b : bytes) : bytes :=
  b ≫= fun c => [hexdigit (val c / 16); hexdigit (val c mod 16)].

Fixpoint DecodeString (h : bytes) : option bytes :=
  match h with
  | [] => Some []
  | [_] => None
  | a :: b :: h => x ← unhex a; y ← unhex b; r ← DecodeString h; Some (byte_of (16 * x + y) :: r)
  end.

Lemma unhex_hexdigit n : 0 <= n < 16 -> unhex (hexdigit n) = Some n.
Proof.
  intros Hn. unfold unhex, hexdigit. rewrite val_byte_of, Z.mod_small by (destruct (Z.ltb_spec n 10); lia).
  destruct (Z.ltb_spec n 10).
  - rewrite (proj2 (Z.leb_le 48 _)), (proj2 (Z.leb_le _ 57)) by lia. cbn [andb]. f_equal. lia.
  - rewrite (proj2 (Z.leb_gt (87 + n) 57)) by lia. rewrite andb_false_r.
    rewrite (proj2 (Z.leb_le 97 _)), (proj2 (Z.leb_le _ 102)) by lia. cbn [andb]. f_equal. lia.
Qed.

Lemma decode_encode b : DecodeString (EncodeToString b) = Some b.
Proof.
  induction b as [|c b IH]; [done|]. unfold EncodeToString in *. cbn [mbind list_bind app DecodeString].
  pose proof (val_bound c). rewrite !unhex_hexdigit by (split; [apply Z.div_pos || apply Z.mod_pos_bound; lia|];
    apply Z.div_lt_upper_bound || apply Z.mod_pos_bound; lia).
  cbn [mbind option_bind]. rewrite IH. cbn. do 2 f_equal. rewrite <- (byte_of_val c) at 3. f_equal.
  pose proof (Z.div_mod (val c) 16). lia.
Qed.

Definition hexEqual (h raw : bytes) : bool :=
  match DecodeString h with Some b => bool_decide (b = raw) | None => false end.

Lemma hexEqual_encode b : hexEqual (EncodeToString b) b = true.
Proof. unfold hexEqual. rewrite decode_encode. by apply bool_decide_true. Qed.

(** ** UTF-8 *)
Definition between (lo hi : Z) (c : ascii) : bool := (lo <=? val c) && (val c <=? hi).
Definition is_cont (c : ascii) : bool := between 128 191 c.

(** The length of the well-formed encoding at the front of a byte string, or 0: the table
    of [utf8.DecodeRune]. *)
Definition utf8_size (l : bytes) : nat :=
  match l with
  | [] => 0%nat
  | a :: l =>
      if between 0 127 a then 1%nat
      else match l with
      | [] => 0%nat
      | b :: l =>
          if between 194 223 a then (if is_cont b then 2%nat else 0%nat)
          else match l with
          | [] => 0%nat
          | c :: l =>
              if between 224 239 a then
                if is_cont c && (if val a =? 224 then between 160 191 b
                                 else if val a =? 237 then between 128 159 b else is_cont b) then 3%nat else 0%nat
              else match l with
              | [] => 0%nat
              | d :: _ =>
                  if between 240 244 a then
                    if is_cont c && is_cont d && (if val a =? 240 then between 144 191 b
                                     else if val a =? 244 then between 128 143 b else is_cont b) then 4%nat else 0%nat
                  else 0%nat
              end
          end
      end
  end.

(** A string as the sequence of its well-formed encodings and its invalid bytes. *)
Inductive chunk := Good (b : bytes) | Bad (c : ascii).

Fixpoint chunks_fuel (fuel : nat) (l : bytes) : list chunk :=
  match fuel, l with
  | S fuel, c :: l' =>
      match utf8_size l with
      | O => Bad c :: chunks_fuel fuel l'
      | n => Good (take n l) :: chunks_fuel fuel (drop n l)
      end
  | _, _ => []
  end.

Definition chunks (l : bytes) : list chunk := chunks_fuel (length l) l.

Definition is_good (k : chunk) : bool := match k with Good _ => true | Bad _ => false end.
Definition raw (k : chunk) : bytes := match k with Good b => b | Bad c => [c] end.

(** [utf8.Valid]. *)
Definition Valid (l : bytes) : bool := forallb is_good (chunks l).

Definition RuneError : bytes := byte_of <$> [239; 191; 189].

(** [strings.ToValidUTF8(s, "\uFFFD")]: one replacement per run of invalid bytes. *)
Fixpoint replace_runs (invalid : bool) (ks : list chunk) : bytes :=
  match ks with
  | [] => []
  | Good b :: ks => b ++ replace_runs false ks
  | Bad _ :: ks => (if invalid then [] else RuneError) ++ replace_runs true ks
  end.

Definition ToValidUTF8 (l : bytes) : bytes := replace_runs false (chunks l).

(** ** Lemmas on UTF-8 *)
Lemma utf8_size_bound l : (utf8_size l <= length l)%nat /\ (utf8_size l <= 4)%nat.
Proof. unfold utf8_size. repeat case_match; simpl; lia. Qed.

(** The size depends only on the bytes it covers. *)
Lemma utf8_size_take n l rest : utf8_size l = S n -> utf8_size (take (S n) l ++ rest) = S n.
Proof.
  destruct l as [|a l]; [done|]. cbn [utf8_size]. destruct (between 0 127 a) eqn:Ea.
  { intros [= <-]. cbn. by rewrite Ea. }
  destruct l as [|b l]; [done|]. destruct (between 194 223 a) eqn:E2.
  { destruct (is_cont b) eqn:Eb; [|done]. intros [= <-]. cbn. by rewrite Ea, E2, Eb. }
  destruct l as [|c l]; [done|]. destruct (between 224 239 a) eqn:E3.
  { match goal with |- (if ?x then _ else _) = _ -> _ => destruct x eqn:Eb; [|done] end. intros [= <-].
    cbn. by rewrite Ea, E2, E3, Eb. }
  destruct l as [|d l]; [done|]. destruct (between 240 244 a) eqn:E4; [|done].
  match goal with |- (if ?x then _ else _) = _ -> _ => destruct x eqn:Eb; [|done] end. intros [= <-].
  cbn. by rewrite Ea, E2, E3, E4, Eb.
Qed.

Lemma chunks_fuel_enough f l : (length l <= f)%nat -> chunks_fuel f l = chunks l.
Proof.
  unfold chunks. remember (length l) as n eqn:Hn. assert (length l <= n)%nat as Hle by lia. clear Hn.
  intros Hf. revert l f Hle Hf. induction n as [|n IH]; intros l f Hle Hf.
  - destruct l; [by destruct f|simpl in Hle; lia].
  - destruct l as [|c l]; [by destruct f|]. destruct f as [|f]; [lia|]. cbn [chunks_fuel].
    pose proof (utf8_size_bound (c :: l)) as [Hb _]. destruct (utf8_size (c :: l)) as [|k] eqn:Ek.
    + f_equal. apply IH; simpl in *; lia.
    + f_equal. apply IH; [rewrite length_drop; simpl in *; lia|lia].
Qed.

Lemma chunks_cons c l :
  chunks (c :: l) =
  match utf8_size (c :: l) with
  | O => Bad c :: chunks l
  | n => Good (take n (c :: l)) :: chunks (drop n (c :: l))
  end.
Proof.
  unfold chunks at 1. cbn [length chunks_fuel]. destruct (utf8_size (c :: l)) as [|k] eqn:Ek; [done|].
  f_equal. apply chunks_fuel_enough. rewrite length_drop. simpl. lia.
Qed.

(** Induction over the chunks of a string. *)
Lemma chunks_ind (P : bytes -> Prop) :
  P [] -> (forall c l, utf8_size (c :: l) = 0%nat -> P l -> P (c :: l)) ->
  (forall b l n, utf8_size (b ++ l) = S n -> length b = S n -> P l -> P (b ++ l)) ->
  forall l, P l.
Proof.
  intros H0 Hb Hg l. induction l as [l IH] using (induction_ltof1 _ (@length ascii)). destruct l as [|c l]; [done|].
  pose proof (utf8_size_bound (c :: l)) as [Hle _]. destruct (utf8_size (c :: l)) as [|n] eqn:E.
  - apply Hb; [done|]. apply IH. unfold ltof. simpl. lia.
  - rewrite <- (take_drop (S n) (c :: l)). apply (Hg _ _ n).
    + by rewrite take_drop.
    + rewrite length_take. lia.
    + apply IH. unfold ltof. rewrite length_drop. simpl in *. lia.
Qed.

Lemma chunks_good b l n :
  utf8_size (b ++ l) = S n -> length b = S n -> chunks (b ++ l) = Good b :: chunks l.
Proof.
  intros Hs Hl. pose proof (take_app_length' b l (S n) (eq_sym Hl)) as Ht.
  pose proof (drop_app_length' b l (S n) (eq_sym Hl)) as Hd.
  destruct (b ++ l) as [|c bl] eqn:E; [done|]. rewrite chunks_cons, Hs. cbv zeta. by rewrite Ht, Hd.
Qed.

(** A well-formed encoding at the front is a chunk whatever follows. *)
Lemma chunks_app_good b l n : utf8_size b = S n -> length b = S n -> chunks (b ++ l) = Good b :: chunks l.
Proof.
  intros Hs Hl. apply (chunks_good b l n); [|done].
  rewrite <- (utf8_size_take n b l Hs) at 1. by rewrite take_ge by lia.
Qed.

Lemma chunk_size b l n : utf8_size (b ++ l) = S n -> length b = S n -> utf8_size b = S n.
Proof.
  intros Hs Hl. pose proof (utf8_size_take n (b ++ l) [] Hs) as H.
  by rewrite app_nil_r, take_app_length' in H by done.
Qed.

Lemma concat_chunks l : concat (raw <$> chunks l) = l.
Proof.
  induction l as [|c l Hs IH|b l n Hs Hl IH] using chunks_ind; [done| |].
  - rewrite chunks_cons, Hs. cbn. by f_equal.
  - rewrite (chunks_good b l n) by done. cbn. by f_equal.
Qed.

Lemma Valid_app_good b l n : utf8_size b = S n -> length b = S n -> Valid (b ++ l) = Valid l.
Proof. intros Hs Hl. unfold Valid. by rewrite (chunks_app_good b l n). Qed.

Lemma replace_runs_valid l i : Valid (replace_runs i (chunks l)) = true.
Proof.
  revert i. induction l as [|c l Hs IH|b l n Hs Hl IH] using chunks_ind; intros i; [done| |].
  - rewrite chunks_cons, Hs. cbn [replace_runs]. destruct i; [apply IH|].
    rewrite (Valid_app_good RuneError _ 2) by done. apply IH.
  - rewrite (chunks_good b l n) by done. cbn [replace_runs].
    rewrite (Valid_app_good b _ n) by (eauto using chunk_size). apply IH.
Qed.

Lemma ToValidUTF8_valid l : Valid (ToValidUTF8 l) = true.
Proof. apply replace_runs_valid. Qed.

Lemma ToValidUTF8_id l : Valid l = true -> ToValidUTF8 l = l.
Proof.
  unfold ToValidUTF8, Valid.
  induction l as [|c l Hs IH|b l n Hs Hl IH] using chunks_ind; [done| |].
  - by rewrite chunks_cons, Hs.
  - rewrite (chunks_good b l n) by done. cbn. intros H. by rewrite IH.
Qed.

(** ** White space and lines *)

(** [bytes.TrimSpace] removes the encodings of the Unicode white-space runes. *)
Definition space1 (c : ascii) : bool := between 9 13 c || (val c =? 32).
Definition space2 (a b : ascii) : bool := (val a =? 194) && ((val b =? 133) || (val b =? 160)).
Definition space3 (a b c : ascii) : bool :=
  ((val a =? 225) && (val b =? 154) && (val c =? 128))
  || ((val a =? 226) && (val b =? 128) && (between 128 138 c || (val c =? 168) || (val c =? 169) || (val c =? 175)))
  || ((val a =? 226) && (val b =? 129) && (val c =? 159))
  || ((val a =? 227) && (val b =? 128) && (val c =? 128)).

Fixpoint trim_left (l : bytes) : bytes :=
  match l with
  | [] => []
  | a :: l1 =>
      if space1 a then trim_left l1
      else match l1 with
      | [] => l
      | b :: l2 =>
          if space2 a b then trim_left l2
          else match l2 with
          | [] => l
          | c :: l3 => if space3 a b c then trim_left l3 else l
          end
      end
  end.

(** The same from the right, on the reversed string. *)
Fixpoint trim_rev (l : bytes) : bytes :=
  match l with
  | [] => []
  | a :: l1 =>
      if space1 a then trim_rev l1
      else match l1 with
      | [] => l
      | b :: l2 =>
          if space2 b a then trim_rev l2
          else match l2 with
          | [] => l
          | c :: l3 => if space3 c b a then trim_rev l3 else l
          end
      end
  end.

Definition TrimSpaceB (l : bytes) : bytes := rev (trim_rev (rev (trim_left l))).

(** A string that starts and ends with a printable ASCII character is left alone. *)
Lemma trim_left_id a l : between 33 126 a = true -> trim_left (a :: l) = a :: l.
Proof.
  unfold between. intros [H1 H2]%andb_prop. apply Z.leb_le in H1, H2. cbn [trim_left].
  assert (space1 a = false) as ->.
  { unfold space1, between. apply orb_false_intro; [apply andb_false_intro2, Z.leb_gt|apply Z.eqb_neq]; lia. }
  assert (forall b, space2 a b = false) as H2s by (intros; unfold space2; rewrite (proj2 (Z.eqb_neq (val a) 194)) by lia; done).
  assert (forall b c, space3 a b c = false) as H3s.
  { intros; unfold space3. rewrite (proj2 (Z.eqb_neq (val a) 225)), (proj2 (Z.eqb_neq (val a) 226)), (proj2 (Z.eqb_neq (val a) 227)) by lia. done. }
  destruct l as [|b [|c l]]; rewrite ?H2s, ?H3s; done.
Qed.

Lemma trim_rev_id a l : between 33 126 a = true -> trim_rev (a :: l) = a :: l.
Proof.
  unfold between. intros [H1 H2]%andb_prop. apply Z.leb_le in H1, H2. cbn [trim_rev].
  assert (space1 a = false) as ->.
  { unfold space1, between. apply orb_false_intro; [apply andb_false_intro2, Z.leb_gt|apply Z.eqb_neq]; lia. }
  assert (forall b, space2 b a = false) as H2s.
  { intros; unfold space2. rewrite (proj2 (Z.eqb_neq (val a) 133)), (proj2 (Z.eqb_neq (val a) 160)) by lia. by rewrite andb_false_r. }
  assert (forall b c, space3 c b a = false) as H3s.
  { intros; unfold space3, between. rewrite (proj2 (Z.leb_gt 128 (val a))), (proj2 (Z.eqb_neq (val a) 128)),
      (proj2 (Z.eqb_neq (val a) 168)), (proj2 (Z.eqb_neq (val a) 169)), (proj2 (Z.eqb_neq (val a) 175)),
      (proj2 (Z.eqb_neq (val a) 159)) by lia. by rewrite !andb_false_r. }
  destruct l as [|b [|c l]]; rewrite ?H2s, ?H3s; done.
Qed.

Lemma TrimSpaceB_id a l z :
  between 33 126 a = true -> between 33 126 z = true -> TrimSpaceB (a :: l ++ [z]) = a :: l ++ [z].
Proof.
  intros Ha Hz. unfold TrimSpaceB. rewrite trim_left_id by done. rewrite app_comm_cons, rev_app_distr. cbn [rev app].
  rewrite trim_rev_id by done. change (z :: rev l ++ [a]) with ([z] ++ rev (a :: l)). rewrite rev_app_distr, rev_involutive. done.
Qed.

Definition newline : ascii := byte_of 10.

(** [bytes.Split(b, "\n")]. *)
Fixpoint SplitLines (l : bytes) : list bytes :=
  match l with
  | [] => [[]]
  | c :: l =>
      if Ascii.eqb c newline then [] :: SplitLines l
      else match SplitLines l with p :: ps => (c :: p) :: ps | [] => [[c]] end
  end.

(** [bufio.ScanLines]: a final line without newline counts unless it is empty. *)
Fixpoint ScanLines (l : bytes) : list bytes :=
  match l with
  | [] => []
  | c :: l =>
      if Ascii.eqb c newline then [] :: ScanLines l
      else match ScanLines l with p :: ps => (c :: p) :: ps | [] => [[c]] end
  end.

(** One carriage return before the newline is dropped. *)
Definition dropCR (l : bytes) : bytes :=
  match rev l with c :: r => if val c =? 13 then rev r else l | [] => l end.

Definition no_newline (l : bytes) : Prop := newline ∉ l.

Lemma ScanLines_line a l : no_newline a -> ScanLines (a ++ newline :: l) = a :: ScanLines l.
Proof.
  unfold no_newline. induction a as [|c a IH]; intros Hn; [done|].
  apply not_elem_of_cons in Hn as [Hc Ha]. cbn [app ScanLines]. rewrite IH by done.
  by destruct (Ascii.eqb_spec c newline) as [->|].
Qed.

Lemma ScanLines_last a : no_newline a -> a <> [] -> ScanLines a = [a].
Proof.
  unfold no_newline. induction a as [|c a IH]; intros Hn Hne; [done|].
  apply not_elem_of_cons in Hn as [Hc Ha]. cbn [ScanLines].
  destruct (Ascii.eqb_spec c newline) as [->|]; [done|]. destruct a as [|d a]; [done|]. by rewrite IH.
Qed.

Lemma dropCR_id l z : between 33 126 z = true -> dropCR (l ++ [z]) = l ++ [z].
Proof.
  unfold between. intros [H1 _]%andb_prop. apply Z.leb_le in H1. unfold dropCR.
  rewrite rev_app_distr. cbn [rev app]. by rewrite (proj2 (Z.eqb_neq (val z) 13)) by lia.
Qed.
