(* ===== verification/Sha256.v ===== *)
(** * SHA-256

    [crypto/sha256] as FIPS 180-4 defines it, executable, with the standard's test
    vectors. The theorems of the audit chain use only that a digest has 32 bytes; the
    function is here so that the chain and the attestation digests can be evaluated. *)
From Stdlib Require Import ZArith Lia Ascii String.
From stdpp Require Import base tactics numbers option list.
From S2P Require Import Prelude Bytes.
#[local] Open Scope list_scope.
#[local] Open Scope Z_scope.

Definition rotr (n x : Z) : Z := Z.lor (Z.shiftr x n) (u32 (Z.shiftl x (32 - n))).
Definition not32 (x : Z) : Z := Z.lxor x 0xffffffff.

Definition Ch (x y z : Z) : Z := Z.lxor (Z.land x y) (Z.land (not32 x) z).
Definition Maj (x y z : Z) : Z := Z.lxor (Z.lxor (Z.land x y) (Z.land x z)) (Z.land y z).
Definition Sigma0 (x : Z) : Z := Z.lxor (Z.lxor (rotr 2 x) (rotr 13 x)) (rotr 22 x).
Definition Sigma1 (x : Z) : Z := Z.lxor (Z.lxor (rotr 6 x) (rotr 11 x)) (rotr 25 x).
Definition sigma0 (x : Z) : Z := Z.lxor (Z.lxor (rotr 7 x) (rotr 18 x)) (Z.shiftr x 3).
Definition sigma1 (x : Z) : Z := Z.lxor (Z.lxor (rotr 17 x) (rotr 19 x)) (Z.shiftr x 10).

(** The constants of the standard: the first 32 bits of the fractional parts of the cube
    roots of the first 64 primes, and of the square roots of the first 8. *)
Fixpoint first_primes (fuel n : nat) (c : Z) (found : list Z) : list Z :=
  match fuel, n with
  | S fuel, S n' =>
      if existsb (fun p => c mod p =? 0) found then first_primes fuel n (c + 1) found
      else first_primes fuel n' (c + 1) (found ++ [c])
  | _, _ => found
  end.

(** The integer cube root of [x], bit by bit from [bit] down. *)
Fixpoint cbrt (bit : nat) (root x : Z) : Z :=
  match bit with
  | O => root
  | S bit =>
      let r := root + 2 ^ Z.of_nat bit in
      cbrt bit (if r * r * r <=? x then r else root) x
  end.

Definition K : list Z :=
  Eval vm_compute in (fun p => u32 (cbrt 40 0 (p * 2 ^ 96))) <$> first_primes 400 64 2 [].

Record digest := Digest { da : Z; db : Z; dc : Z; dd : Z; de : Z; df : Z; dg : Z; dh : Z }.

Definition H0 : digest :=
  Eval vm_compute in
    match (fun p => u32 (Z.sqrt (p * 2 ^ 64))) <$> first_primes 400 8 2 [] with
    | [a; b; c; d; e; f; g; h] => Digest a b c d e f g h
    | _ => Digest 0 0 0 0 0 0 0 0
    end.

Definition be32 (l : bytes) : Z := fold_left (fun n c => 256 * n + val c) l 0.

Fixpoint words (n : nat) (l : bytes) : list Z :=
  match n with O => [] | S n => be32 (take 4 l) :: words n (drop 4 l) end.

(** The message schedule, newest word first. *)
Fixpoint schedule (n : nat) (w : list Z) : list Z :=
  match n with
  | O => w
  | S n => schedule n (u32 (sigma1 (nth 1 w 0) + nth 6 w 0 + sigma0 (nth 14 w 0) + nth 15 w 0) :: w)
  end.

Definition round (h : digest) (kw : Z * Z) : digest :=
  let t1 := u32 (dh h + Sigma1 (de h) + Ch (de h) (df h) (dg h) + kw.1 + kw.2) in
  let t2 := u32 (Sigma0 (da h) + Maj (da h) (db h) (dc h)) in
  Digest (u32 (t1 + t2)) (da h) (db h) (dc h) (u32 (dd h + t1)) (de h) (df h) (dg h).

Definition compress (h : digest) (block : bytes) : digest :=
  let w := rev (schedule 48 (rev (words 16 block))) in
  let r := fold_left round (zip K w) h in
  Digest (u32 (da h + da r)) (u32 (db h + db r)) (u32 (dc h + dc r)) (u32 (dd h + dd r))
         (u32 (de h + de r)) (u32 (df h + df r)) (u32 (dg h + dg r)) (u32 (dh h + dh r)).

(** One, zeros up to 56 modulo 64, and the length in bits. *)
Definition pad (l : bytes) : bytes :=
  l ++ [byte_of 128] ++ replicate (Z.to_nat ((55 - len l) mod 64)) (byte_of 0) ++ put (8 * len l).

Fixpoint blocks (fuel : nat) (h : digest) (l : bytes) : digest :=
  match fuel, l with
  | S fuel, _ :: _ => blocks fuel (compress h (take 64 l)) (drop 64 l)
  | _, _ => h
  end.

Definition word_bytes (x : Z) : bytes := byte_of <$> rev (le_split 4 x).

Definition digest_bytes (h : digest) : bytes :=
  [da h; db h; dc h; dd h; de h; df h; dg h; dh h] ≫= word_bytes.

(** [sha256.Sum256]. *)
Definition Sum256 (l : bytes) : bytes :=
  let p := pad l in digest_bytes (blocks (length p) H0 p).

Definition Size : Z := 32.

Lemma length_Sum256 l : len (Sum256 l) = Size.
Proof.
  assert (forall x, length (word_bytes x) = 4%nat) as Hw
    by (intros; unfold word_bytes; by rewrite length_fmap, length_rev, length_le_split).
  unfold len, Sum256, digest_bytes. cbn [mbind list_bind]. rewrite !length_app, !Hw. done.
Qed.

(** The test vectors of FIPS 180-4. *)
Lemma sha256_empty :
  EncodeToString (Sum256 []) = B "e3b0c44298fc1c149afbf4c8996fb92427ae41e4649b934ca495991b7852b855".
Proof. vm_compute. reflexivity. Qed.

Lemma sha256_abc :
  EncodeToString (Sum256 (B "abc")) = B "ba7816bf8f01cfea414140de5dae2223b00361a396177a9cb410ff61f20015ad".
Proof. vm_compute. reflexivity. Qed.

Lemma sha256_two_blocks :
  EncodeToString (Sum256 (B "abcdbcdecdefdefgefghfghighijhijkijkljklmklmnlmnomnopnopq"))
  = B "248d6a61d20638b8e5c026930c3e6039a33ce45964ff2167f6ecedd419db06c1".
Proof. vm_compute. reflexivity. Qed.
