(* ===== verification/Json.v ===== *)
(** * The audit record and its line of JSON

    [auditRecord] of [main.go] and what [json.Marshal] writes for it: a compact object, the
    fields in order, strings escaped as [encoding/json] escapes them (HTML characters and
    U+2028, U+2029 included, ill-formed UTF-8 replaced). What the chain relies on when it
    reads a line back is stated as a class; a strict reader of exactly this format is an
    instance. *)
From Stdlib Require Import ZArith Lia Ascii String.
From stdpp Require Import base tactics numbers option list.
From S2P Require Import Prelude Bytes Broker.
#[local] Open Scope list_scope.
#[local] Open Scope Z_scope.

Record auditRecord := AuditRecord {
  Seq : Z; TS : Z; CgroupID : Z; PID : Z;
  Comm : bytes; Hook : bytes; Decision_ : bytes; Mode : bytes;
  PrevHash : bytes; Hash : bytes; Sig : bytes }.

(** The values of the Go types: [uint64], [int64], [uint64], [uint32], strings. *)
Record typed (r : auditRecord) : Prop := {
  ty_seq : in_width 64 (Seq r);
  ty_ts : - 2 ^ 63 <= TS r < 2 ^ 63;
  ty_cg : in_width 64 (CgroupID r);
  ty_pid : in_width 32 (PID r);
  ty_len : Forall (fun s => len s < 2 ^ 63) [Comm r; Hook r; Decision_ r; Mode r] }.

Definition strings_of (r : auditRecord) : list bytes :=
  [Comm r; Hook r; Decision_ r; Mode r; PrevHash r; Hash r; Sig r].

Definition utf8_record (r : auditRecord) : Prop := Forall (fun s => Valid s = true) (strings_of r).

(** ** [json.Marshal] *)
Definition quote : ascii := byte_of 34.
Definition backslash : ascii := byte_of 92.

Definition hex2 (n : Z) : bytes := [hexdigit (n / 16); hexdigit (n mod 16)].

Definition escape_ascii (c : ascii) : bytes :=
  let n := val c in
  if (n =? 34) || (n =? 92) then [backslash; c]
  else if n =? 8 then B "\b"
  else if n =? 12 then B "\f"
  else if n =? 10 then B "\n"
  else if n =? 13 then B "\r"
  else if n =? 9 then B "\t"
  else if (n <? 32) || (n =? 60) || (n =? 62) || (n =? 38) then B "\u00" ++ hex2 n
  else [c].

Definition line_sep : bytes := byte_of <$> [226; 128; 168].
Definition para_sep : bytes := byte_of <$> [226; 128; 169].

Definition escape_chunk (k : chunk) : bytes :=
  match k with
  | Good [c] => escape_ascii c
  | Good b =>
      if bool_decide (b = line_sep) then B "\u2028"
      else if bool_decide (b = para_sep) then B "\u2029" else b
  | Bad _ => B "\ufffd"
  end.

Definition escape (s : bytes) : bytes := chunks s ≫= escape_chunk.

Definition num (n : Z) : bytes := B (Itoa n).
Definition str (s : bytes) : bytes := quote :: escape s ++ [quote].

(** The name of a field with its colon. *)
Definition key (s : string) : bytes := quote :: B s ++ [quote; byte_of 58].
Definition comma : ascii := byte_of 44.

Definition Marshal (r : auditRecord) : bytes :=
  byte_of 123 :: key "seq" ++ num (Seq r)
  ++ comma :: key "ts" ++ num (TS r)
  ++ comma :: key "cgroup_id" ++ num (CgroupID r)
  ++ comma :: key "pid" ++ num (PID r)
  ++ comma :: key "comm" ++ str (Comm r)
  ++ comma :: key "hook" ++ str (Hook r)
  ++ comma :: key "decision" ++ str (Decision_ r)
  ++ comma :: key "mode" ++ str (Mode r)
  ++ comma :: key "prev_hash" ++ str (PrevHash r)
  ++ comma :: key "hash" ++ str (Hash r)
  ++ comma :: key "sig" ++ str (Sig r) ++ [byte_of 125].

(** What the chain relies on of [json.Unmarshal]: it yields values of the field types, it
    reads back what [json.Marshal] wrote, and an object cut short is not an object. *)
Class JsonReader (Unmarshal : bytes -> option auditRecord) : Prop := {
  unmarshal_typed l r : Unmarshal l = Some r -> typed r;
  unmarshal_marshal r : typed r -> utf8_record r -> Unmarshal (Marshal r) = Some r;
  unmarshal_cut r p t :
    typed r -> utf8_record r -> Marshal r = p ++ t -> t <> [] -> Unmarshal p = None }.

(** ** One line *)
Lemma good_chunk b n :
  utf8_size b = S n -> length b = S n ->
  (exists c, b = [c] /\ val c < 128) \/ ((2 <= length b)%nat /\ Forall (fun c => 128 <= val c) b).
Proof.
  assert (forall lo hi c, between lo hi c = true -> lo <= val c <= hi) as Hb
    by (intros lo hi c; unfold between; intros [?%Z.leb_le ?%Z.leb_le]%andb_prop; lia).
  destruct b as [|a b]; [done|]. cbn [utf8_size]. destruct (between 0 127 a) eqn:Ea.
  { intros [= <-] Hl. destruct b; [|done]. apply Hb in Ea. left. exists a. split; [done|lia]. }
  destruct b as [|b1 b]; [done|]. destruct (between 194 223 a) eqn:E2.
  { destruct (is_cont b1) eqn:E; [|done]. intros [= <-] Hl. destruct b; [|done]. right.
    apply Hb in E2, E. split; [simpl; lia|]. repeat constructor; lia. }
  destruct b as [|b2 b]; [done|]. destruct (between 224 239 a) eqn:E3.
  { destruct (is_cont b2) eqn:E; [|done]. cbn [andb].
    match goal with |- (if ?x then _ else _) = _ -> _ => destruct x eqn:Eb; [|done] end.
    intros [= <-] Hl. destruct b; [|done]. right. split; [simpl; lia|]. apply Hb in E3, E.
    assert (128 <= val b1) by (repeat case_match; apply Hb in Eb; lia). repeat constructor; lia. }
  destruct b as [|b3 b]; [done|]. destruct (between 240 244 a) eqn:E4; [|done].
  destruct (is_cont b2) eqn:E; [|done]. destruct (is_cont b3) eqn:E'; [|done]. cbn [andb].
  match goal with |- (if ?x then _ else _) = _ -> _ => destruct x eqn:Eb; [|done] end.
  intros [= <-] Hl. destruct b; [|done]. right. split; [simpl; lia|]. apply Hb in E4, E, E'.
  assert (128 <= val b1) by (repeat case_match; apply Hb in Eb; lia). repeat constructor; lia.
Qed.

Definition clean (l : bytes) : bool := forallb (fun c => negb (Ascii.eqb c newline)) l.

Lemma clean_no_newline l : clean l = true -> no_newline l.
Proof.
  unfold clean, no_newline. intros H Hin. rewrite forallb_forall in H.
  apply list_elem_of_In, H in Hin. by rewrite Ascii.eqb_refl in Hin.
Qed.

Lemma clean_app a b : clean (a ++ b) = clean a && clean b.
Proof. unfold clean. apply forallb_app. Qed.

Lemma clean_high b : Forall (fun c => 128 <= val c) b -> clean b = true.
Proof.
  induction 1 as [|c b Hc _ IH]; [done|]. change (clean (c :: b)) with (negb (Ascii.eqb c newline) && clean b).
  rewrite IH.
  destruct (Ascii.eqb_spec c newline) as [->|]; [|done]. vm_compute in Hc. done.
Qed.

(** A fact about every byte can be checked by evaluation. *)
Definition all_bytes : list ascii := (fun n => ascii_of_nat n) <$> seq 0 256.
Lemma byte_check (P : ascii -> bool) : forallb P all_bytes = true -> forall c, P c = true.
Proof.
  intros H c. rewrite forallb_forall in H. apply H. apply list_elem_of_In, list_elem_of_fmap.
  exists (nat_of_ascii c). split; [by rewrite ascii_nat_embedding|].
  apply elem_of_seq. pose proof (nat_ascii_bounded c). lia.
Qed.

Lemma clean_escape_ascii c : clean (escape_ascii c) = true.
Proof. apply (byte_check (fun c => clean (escape_ascii c))). vm_compute. reflexivity. Qed.

Lemma clean_escape s : clean (escape s) = true.
Proof.
  unfold escape. induction s as [|c s Hs IH|b s n Hs Hl IH] using chunks_ind; [done| |].
  - rewrite chunks_cons, Hs. cbn [mbind list_bind]. rewrite clean_app, IH. done.
  - rewrite (chunks_good b s n) by done. cbn [mbind list_bind]. rewrite clean_app, IH, andb_true_r.
    destruct (good_chunk b n) as [(c & -> & _)|[Hl2 Hh]]; [by eapply chunk_size|done|apply clean_escape_ascii|].
    destruct b as [|b1 [|b2 b]]; [simpl in Hl2; lia..|]. cbn [escape_chunk].
    destruct (bool_decide _); [done|]. destruct (bool_decide _); [done|]. by apply clean_high.
Qed.

Lemma clean_num n : - 2 ^ 64 < n < 2 ^ 64 -> clean (num n) = true.
Proof.
  intros Hn. unfold num, clean. apply forallb_forall. intros c Hc.
  assert (forall s, Control.no_char newline s = true -> ~ In newline (B s)) as Hno.
  { induction s as [|d s IH]; [tauto|]. cbn. intros [Hd Hs]%andb_prop [->|Hin]; [by rewrite Ascii.eqb_refl in Hd|].
    by apply IH. }
  destruct (Ascii.eqb_spec c newline) as [->|]; [|done]. exfalso. revert Hc. apply Hno. unfold Itoa.
  destruct (Z.ltb_spec n 0); [|apply Itoa_no_char; [lia|done]].
  rewrite Control.no_char_app, Itoa_no_char by (lia || done). done.
Qed.

Lemma marshal_shape r :
  typed r -> exists l, Marshal r = byte_of 123 :: l ++ [byte_of 125] /\ clean (Marshal r) = true.
Proof.
  intros [Hs Ht Hc Hp _]. unfold in_width in *. eexists. split.
  - unfold Marshal. f_equal. repeat rewrite ?app_assoc, ?app_comm_cons. reflexivity.
  - unfold Marshal, str.
    repeat (rewrite ?clean_app; cbn [clean forallb]).
    rewrite !clean_num by lia. rewrite !clean_escape. reflexivity.
Qed.

(** ** A strict reader of this format *)
Definition parser (A : Type) : Type := bytes -> option (A * bytes).

#[local] Instance parser_ret : MRet parser := fun A x l => Some (x, l).
#[local] Instance parser_bind : MBind parser :=
  fun A B' f p l => match p l with Some (x, l') => f x l' | None => None end.

Fixpoint lit (s : bytes) : parser unit := fun l =>
  match s, l with
  | [], _ => Some (tt, l)
  | a :: s, b :: l => if Ascii.eqb a b then lit s l else None
  | _, _ => None
  end.

(** Digits, and the character that ends them. *)
Definition digits_then (stop : ascii) : parser Z := fun l =>
  match digits 0 (string_of_list_ascii l) with
  | (n, String c rest) => if Ascii.eqb c stop then Some (n, B rest) else None
  | _ => None
  end.

Definition num_then (stop : ascii) : parser Z := fun l =>
  match l with
  | c :: l' => if val c =? 45 then n ← digits_then stop l'; Some (- n.1, n.2) else digits_then stop l
  | [] => None
  end.

Definition code_point (n : Z) : option bytes :=
  if n <? 128 then Some [byte_of n]
  else if n =? 0x2028 then Some line_sep
  else if n =? 0x2029 then Some para_sep
  else if n =? 0xfffd then Some RuneError else None.

Definition simple_escape (c : ascii) : option ascii :=
  let n := val c in
  if (n =? 34) || (n =? 92) then Some c
  else if n =? 98 then Some (byte_of 8)
  else if n =? 102 then Some (byte_of 12)
  else if n =? 110 then Some (byte_of 10)
  else if n =? 114 then Some (byte_of 13)
  else if n =? 116 then Some (byte_of 9)
  else None.

(** The rest of a string after its opening quote. *)
Fixpoint unescape (l : bytes) : option (bytes * bytes) :=
  match l with
  | [] => None
  | c :: l =>
      if val c =? 34 then Some ([], l)
      else if val c =? 92 then
        match l with
        | [] => None
        | d :: l =>
            if val d =? 117 then
              match l with
              | h1 :: h2 :: h3 :: h4 :: l =>
                  match unhex h1, unhex h2, unhex h3, unhex h4 with
                  | Some a, Some b, Some c, Some d =>
                      match code_point (((a * 16 + b) * 16 + c) * 16 + d), unescape l with
                      | Some cp, Some (s, r) => Some (cp ++ s, r)
                      | _, _ => None
                      end
                  | _, _, _, _ => None
                  end
              | _ => None
              end
            else
              match simple_escape d, unescape l with
              | Some e, Some (s, r) => Some (e :: s, r)
              | _, _ => None
              end
        end
      else if val c <? 32 then None
      else match unescape l with Some (s, r) => Some (c :: s, r) | None => None end
  end.

Definition string_field (name : string) : parser bytes :=
  _ ← lit (key name ++ [quote]); unescape.

Definition num_field (name : string) : parser Z := _ ← lit (key name); num_then comma.

Definition record : parser auditRecord :=
  _ ← lit [byte_of 123];
  seq ← num_field "seq"; ts ← num_field "ts"; cg ← num_field "cgroup_id"; pid ← num_field "pid";
  comm ← string_field "comm"; _ ← lit [comma];
  hook ← string_field "hook"; _ ← lit [comma];
  dec ← string_field "decision"; _ ← lit [comma];
  mode ← string_field "mode"; _ ← lit [comma];
  prev ← string_field "prev_hash"; _ ← lit [comma];
  hash ← string_field "hash"; _ ← lit [comma];
  sig ← string_field "sig"; _ ← lit [byte_of 125];
  mret (AuditRecord seq ts cg pid comm hook dec mode prev hash sig).

Definition typedb (r : auditRecord) : bool :=
  (0 <=? Seq r) && (Seq r <? 2 ^ 64) && (- 2 ^ 63 <=? TS r) && (TS r <? 2 ^ 63)
  && (0 <=? CgroupID r) && (CgroupID r <? 2 ^ 64) && (0 <=? PID r) && (PID r <? 2 ^ 32)
  && forallb (fun s => len s <? 2 ^ 63) [Comm r; Hook r; Decision_ r; Mode r].

Lemma typedb_spec r : typedb r = true <-> typed r.
Proof.
  unfold typedb. rewrite !andb_true_iff, !Z.leb_le, !Z.ltb_lt, forallb_forall. split.
  - intros [[[[[[[[? ?] ?] ?] ?] ?] ?] ?] Hl]. split; [done..|]. apply Forall_forall. intros s Hs.
    apply Z.ltb_lt, Hl. by apply list_elem_of_In.
  - intros [[? ?] [? ?] [? ?] [? ?] Hl]. repeat split; try done. intros s Hs. apply Z.ltb_lt.
    rewrite Forall_forall in Hl. apply Hl. by apply list_elem_of_In.
Qed.

Definition UnmarshalStrict (l : bytes) : option auditRecord :=
  match record l with Some (r, []) => if typedb r then Some r else None | _ => None end.

(** *** Reading back *)
Definition reads {A} (p : parser A) (b : bytes) (x : A) : Prop := forall r, p (b ++ r) = Some (x, r).

Lemma reads_bind {A A'} (p : parser A) (f : A -> parser A') b b' x y :
  reads p b x -> reads (f x) b' y -> reads (p ≫= f) (b ++ b') y.
Proof. intros Hp Hf r. unfold mbind, parser_bind. rewrite <- app_assoc, Hp. apply Hf. Qed.

Lemma reads_lit s : reads (lit s) s tt.
Proof. intros r. induction s as [|a s IH]; [done|]. cbn. by rewrite Ascii.eqb_refl. Qed.

Lemma B_app a b : B (a ++ b)%string = B a ++ B b.
Proof.
  induction a as [|c a IH]; [done|]. change ((String c a ++ b)%string) with (String c (a ++ b)%string).
  unfold B in *. cbn [list_ascii_of_string app]. by f_equal.
Qed.

Lemma string_of_app a b :
  string_of_list_ascii (B a ++ b) = (a ++ string_of_list_ascii b)%string.
Proof.
  induction a as [|c a IH]; [done|].
  change ((String c a ++ string_of_list_ascii b)%string) with (String c (a ++ string_of_list_ascii b)%string).
  by rewrite <- IH.
Qed.

Lemma reads_digits n stop :
  0 <= n < 2 ^ 64 -> is_digit stop = false -> reads (digits_then stop) (B (Itoa_fuel 20 n) ++ [stop]) n.
Proof.
  intros Hn Hs r. unfold digits_then. rewrite <- app_assoc, string_of_app.
  destruct (digits_Itoa 20 n) as [k Hk]; [lia|]. rewrite Hk. cbn [app string_of_list_ascii digits].
  rewrite Hs, Ascii.eqb_refl. rewrite Z.mul_0_l, Z.add_0_l. unfold B. by rewrite list_ascii_of_string_of_list_ascii.
Qed.

Lemma reads_num n stop :
  - 2 ^ 64 < n < 2 ^ 64 -> is_digit stop = false -> reads (num_then stop) (num n ++ [stop]) n.
Proof.
  intros Hn Hs r. unfold num, Itoa. destruct (Z.ltb_spec n 0).
  - change (B ("-" ++ Itoa_fuel 20 (- n))%string) with (byte_of 45 :: B (Itoa_fuel 20 (- n))).
    cbn [app num_then]. change (val (byte_of 45) =? 45) with true. cbv iota.
    rewrite (reads_digits (- n) stop) by (lia || done). cbn. by rewrite Z.opp_involutive.
  - pose proof (reads_digits n stop ltac:(lia) Hs r) as Hr. destruct (Itoa_first 19 n ltac:(lia)) as (c & s & E & Hd).
    change (Itoa_fuel 20 n) with (Itoa_fuel (S 19) n) in *. rewrite E in *. cbn [B list_ascii_of_string app num_then] in *.
    assert ((val c =? 45) = false) as ->; [|done]. unfold is_digit in Hd. apply andb_prop in Hd as [Hd _].
    apply N.leb_le in Hd. apply Z.eqb_neq. unfold val. lia.
Qed.

Lemma unescape_ascii c r :
  val c < 128 ->
  unescape (escape_ascii c ++ r) = match unescape r with Some (s, r') => Some (c :: s, r') | None => None end.
Proof.
  intros Hc.
  assert (forall d, (128 <=? val d) = true \/ forall r,
    unescape (escape_ascii d ++ r) = match unescape r with Some (s, r') => Some (d :: s, r') | None => None end) as H.
  { intros d. destruct (Z.leb_spec 128 (val d)); [by left|]. right. intros r0.
    destruct d as [[] [] [] [] [] [] [] []]; try (vm_compute in H; lia); reflexivity. }
  destruct (H c) as [Hc'|H']; [apply Z.leb_le in Hc'; lia|apply H'].
Qed.

Lemma unescape_high b r :
  Forall (fun c => 128 <= val c) b ->
  unescape (b ++ r) = match unescape r with Some (s, r') => Some (b ++ s, r') | None => None end.
Proof.
  induction 1 as [|c b Hc _ IH]; [cbn; by destruct (unescape r) as [[? ?]|]|]. cbn [app unescape].
  rewrite (proj2 (Z.eqb_neq (val c) 34)), (proj2 (Z.eqb_neq (val c) 92)), (proj2 (Z.ltb_ge (val c) 32)) by lia.
  rewrite IH. by destruct (unescape r) as [[? ?]|].
Qed.

Lemma reads_escape s : Valid s = true -> reads unescape (escape s ++ [quote]) s.
Proof.
  intros Hv r. revert Hv. unfold escape, Valid.
  induction s as [|c s Hs IH|b s n Hs Hl IH] using chunks_ind; [done| |].
  - by rewrite chunks_cons, Hs.
  - rewrite (chunks_good b s n) by done. rewrite bind_cons. cbn [forallb is_good andb]. intros Hv. specialize (IH Hv).
    rewrite <- !app_assoc in *. destruct (good_chunk b n) as [(c & -> & Hc)|[Hl2 Hh]]; [by eapply chunk_size|done| |].
    + cbn [escape_chunk]. rewrite unescape_ascii by done. by rewrite IH.
    + destruct b as [|b1 [|b2 b]]; [simpl in Hl2; lia..|]. cbn [escape_chunk].
      destruct (bool_decide_reflect (b1 :: b2 :: b = line_sep)) as [->|]; [|
        destruct (bool_decide_reflect (b1 :: b2 :: b = para_sep)) as [->|]].
      * transitivity (match unescape ((chunks s ≫= escape_chunk) ++ [quote] ++ r) with
          Some (s, r') => Some (line_sep ++ s, r') | None => None end); [reflexivity|]. by rewrite IH.
      * transitivity (match unescape ((chunks s ≫= escape_chunk) ++ [quote] ++ r) with
          Some (s, r') => Some (para_sep ++ s, r') | None => None end); [reflexivity|]. by rewrite IH.
      * rewrite !bool_decide_false by done. etrans; [exact (unescape_high (b1 :: b2 :: b) ((chunks s ≫= escape_chunk) ++ [quote] ++ r) Hh)|]. by rewrite IH.
Qed.

Lemma reads_string_field name s :
  Valid s = true -> reads (string_field name) (key name ++ str s) s.
Proof.
  intros Hv. unfold string_field, str. change (quote :: escape s ++ [quote]) with ([quote] ++ escape s ++ [quote]).
  rewrite app_assoc. eapply reads_bind; [apply reads_lit|by apply reads_escape].
Qed.

Lemma reads_num_field name n :
  - 2 ^ 64 < n < 2 ^ 64 -> reads (num_field name) (key name ++ num n ++ [comma]) n.
Proof. intros Hn. unfold num_field. eapply reads_bind; [apply reads_lit|by apply reads_num]. Qed.

Lemma reads_record r : typed r -> utf8_record r -> reads record (Marshal r) r.
Proof.
  intros [Hs Ht Hc Hp _] Hu. unfold in_width in *. unfold utf8_record, strings_of in Hu.
  repeat match goal with H : Forall _ (_ :: _) |- _ => apply Forall_cons in H as [? H] end.
  assert (Marshal r = [byte_of 123] ++ (key "seq" ++ num (Seq r) ++ [comma]) ++ (key "ts" ++ num (TS r) ++ [comma])
    ++ (key "cgroup_id" ++ num (CgroupID r) ++ [comma]) ++ (key "pid" ++ num (PID r) ++ [comma])
    ++ (key "comm" ++ str (Comm r)) ++ [comma] ++ (key "hook" ++ str (Hook r)) ++ [comma]
    ++ (key "decision" ++ str (Decision_ r)) ++ [comma] ++ (key "mode" ++ str (Mode r)) ++ [comma]
    ++ (key "prev_hash" ++ str (PrevHash r)) ++ [comma] ++ (key "hash" ++ str (Hash r)) ++ [comma]
    ++ (key "sig" ++ str (Sig r)) ++ [byte_of 125] ++ []) as -> by (unfold Marshal; rewrite <- !app_assoc; reflexivity).
  unfold record. repeat (eapply reads_bind; [first [apply reads_lit|apply reads_num_field; lia|by apply reads_string_field]|]).
  intros rest. by destruct r.
Qed.

(** *** Cut objects *)
Definition stable {A} (p : parser A) : Prop := forall l x r t, p l = Some (x, r) -> p (l ++ t) = Some (x, r ++ t).

Lemma stable_bind {A A'} (p : parser A) (f : A -> parser A') : stable p -> (forall x, stable (f x)) -> stable (p ≫= f).
Proof.
  intros Hp Hf l y r t. unfold mbind, parser_bind. destruct (p l) as [[x l']|] eqn:E; [|done].
  rewrite (Hp _ _ _ t E). apply Hf.
Qed.

Lemma stable_ret {A} (x : A) : stable (mret x).
Proof. intros l y r t. unfold mret, parser_ret. by intros [= <- <-]. Qed.

Lemma stable_lit s : stable (lit s).
Proof.
  induction s as [|a s IH]; intros l [] r t; [by intros [= <-]|]. destruct l as [|b l]; [done|]. cbn.
  destruct (Ascii.eqb a b); [apply IH|done].
Qed.

Lemma digits_stable acc s n c rest t :
  digits acc s = (n, String c rest) -> digits acc (s ++ t)%string = (n, String c rest ++ t)%string.
Proof.
  revert acc. induction s as [|d s IH]; intros acc; [done|].
  change ((String d s ++ t)%string) with (String d (s ++ t)%string). cbn [digits].
  destruct (is_digit d); [apply IH|]. by intros [= <- <- <-].
Qed.

Lemma stable_digits stop : stable (digits_then stop).
Proof.
  intros l n r t. unfold digits_then. destruct (digits 0 (string_of_list_ascii l)) as [m [|c rest]] eqn:E; [done|].
  assert (string_of_list_ascii (l ++ t) = (string_of_list_ascii l ++ string_of_list_ascii t)%string) as ->.
  { rewrite <- string_of_app. unfold B. by rewrite list_ascii_of_string_of_list_ascii. }
  rewrite (digits_stable _ _ _ _ _ _ E). change ((String c rest ++ string_of_list_ascii t)%string)
    with (String c (rest ++ string_of_list_ascii t)%string).
  destruct (Ascii.eqb c stop) eqn:Es; [|done]. intros [= <- <-]. cbv iota. rewrite Es. f_equal. f_equal.
  rewrite B_app. f_equal. apply list_ascii_of_string_of_list_ascii.
Qed.

Lemma stable_num stop : stable (num_then stop).
Proof.
  intros [|c l] n r t; [done|]. cbn [num_then app]. destruct (val c =? 45).
  - destruct (digits_then stop l) as [[m r']|] eqn:E; [|done]. rewrite (stable_digits _ _ _ _ t E). intros [= <- <-]. reflexivity.
  - apply (stable_digits stop (c :: l)).
Qed.

Lemma stable_unescape : stable unescape.
Proof.
  intros l. remember (length l) as n eqn:Hn. assert (length l <= n)%nat as Hle by lia. clear Hn. revert l Hle.
  induction n as [|n IH]; intros l Hle s r t; (destruct l as [|c l]; [done|]); [simpl in Hle; lia|].
  cbn [length] in Hle. cbn [unescape app]. destruct (val c =? 34); [by intros [= <- <-]|].
  destruct (val c =? 92).
  - destruct l as [|d l]; [done|]. cbn [app length] in *. destruct (val d =? 117).
    + destruct l as [|h1 [|h2 [|h3 [|h4 l]]]]; [done..|]. cbn [app length] in *.
      destruct (unhex h1), (unhex h2), (unhex h3), (unhex h4); try done.
      destruct (code_point _); [|done]. destruct (unescape l) as [[s' r']|] eqn:E; [|done].
      rewrite (IH l ltac:(lia) _ _ t E). by intros [= <- <-].
    + destruct (simple_escape d); [|done]. destruct (unescape l) as [[s' r']|] eqn:E; [|done].
      rewrite (IH l ltac:(lia) _ _ t E). by intros [= <- <-].
  - destruct (val c <? 32); [done|]. destruct (unescape l) as [[s' r']|] eqn:E; [|done].
    rewrite (IH l ltac:(lia) _ _ t E). by intros [= <- <-].
Qed.

Lemma stable_record : stable record.
Proof.
  unfold record, num_field, string_field.
  repeat first [apply stable_bind; [|intros ?]|apply stable_lit|apply stable_num|apply stable_unescape|apply stable_ret].
Qed.

#[export] Instance strict_reader : JsonReader UnmarshalStrict.
Proof.
  split.
  - intros l r. unfold UnmarshalStrict. destruct (record l) as [[r' [|]]|]; [|done..].
    destruct (typedb r') eqn:E; [|done]. intros [= <-]. by apply typedb_spec.
  - intros r Ht Hu. unfold UnmarshalStrict. pose proof (reads_record r Ht Hu []) as Hr. rewrite app_nil_r in Hr.
    rewrite Hr. by rewrite (proj2 (typedb_spec r) Ht).
  - intros r p t Ht Hu E Hne. unfold UnmarshalStrict. destruct (record p) as [[r' [|]]|] eqn:Er; [|done..].
    apply (stable_record _ _ _ t) in Er. rewrite <- E in Er. pose proof (reads_record r Ht Hu []) as Hr.
    rewrite app_nil_r in Hr. rewrite Hr in Er. by injection Er as _ <-.
Qed.
