(* ===== verification/Verify.v ===== *)
(** * The verifier of the audit chains: [verify.go]

    The canonical encoding that is hashed and signed ([canonical] of [main.go]), the check
    of one record, of one file and of a chain in segments, and the verdicts of the
    verify-audit command. What a signature accepts ([ed25519.Verify]) and what a line
    parses to ([json.Unmarshal]) are parameters; SHA-256 is [Sha256.Sum256].

    The security theorems are reductions: where a claim needs the hash to be collision
    free, the alternative is a concrete collision among the encodings of the records in
    the logs at hand. *)
From Stdlib Require Import ZArith Lia Ascii String.
From stdpp Require Import base tactics numbers option list sets.
From S2P Require Import Prelude Maps Bytes Sha256 Json.
#[local] Open Scope list_scope.
#[local] Open Scope Z_scope.

#[local] Opaque Sum256.

(** ** The signed bytes *)
Definition putStr (s : bytes) : bytes := put (len s) ++ s.

Definition canonical (r : auditRecord) (prev domain : bytes) : bytes :=
  putStr domain ++ put (Seq r) ++ put (TS r) ++ put (CgroupID r) ++ put (PID r)
  ++ putStr (Comm r) ++ putStr (Hook r) ++ putStr (Decision_ r) ++ putStr (Mode r)
  ++ put (len prev) ++ prev.

(** The chained fields of a record. *)
Definition body (r : auditRecord) : Z * Z * Z * Z * (bytes * bytes * bytes * bytes) :=
  (Seq r, TS r, CgroupID r, PID r, (Comm r, Hook r, Decision_ r, Mode r)).

Lemma putStr_app_inj a b x y :
  len a < 2 ^ 64 -> len b < 2 ^ 64 -> putStr a ++ x = putStr b ++ y -> a = b /\ x = y.
Proof.
  intros Ha Hb. unfold putStr. rewrite <- !app_assoc. intros [El E]%put_app_inj.
  unfold u64 in El. rewrite !wrap_id in El by (unfold in_width, len in *; lia).
  apply app_inj_1 in E as [-> ->]; [done|]. unfold len in El. lia.
Qed.

Lemma u64_ts_inj a b : - 2 ^ 63 <= a < 2 ^ 63 -> - 2 ^ 63 <= b < 2 ^ 63 -> u64 a = u64 b -> a = b.
Proof.
  unfold u64, wrap. intros Ha Hb E.
  assert ((a - b) mod 2 ^ 64 = 0) as H by (rewrite Zminus_mod, E, Z.sub_diag; done).
  apply Z.mod_divide in H as [k Hk]; [|done]. nia.
Qed.

Lemma u64_in_inj a b : in_width 64 a -> in_width 64 b -> u64 a = u64 b -> a = b.
Proof. intros Ha Hb. unfold u64. by rewrite !wrap_id. Qed.

Lemma canonical_inj r r' prev prev' d d' :
  typed r -> typed r' -> len prev < 2 ^ 64 -> len prev' < 2 ^ 64 -> len d < 2 ^ 64 -> len d' < 2 ^ 64 ->
  canonical r prev d = canonical r' prev' d' -> d = d' /\ body r = body r' /\ prev = prev'.
Proof.
  intros [Hs Ht Hc Hp Hl] [Hs' Ht' Hc' Hp' Hl'] Hv Hv' Hd Hd'. unfold in_width in *.
  repeat match goal with H : Forall _ (_ :: _) |- _ => apply Forall_cons in H as [? H] end.
  unfold canonical. intros [-> E]%putStr_app_inj; [|lia..].
  apply put_app_inj in E as [E1 E]. apply put_app_inj in E as [E2 E]. apply put_app_inj in E as [E3 E].
  apply put_app_inj in E as [E4 E]. do 4 (apply putStr_app_inj in E as [? E]; [|lia..]).
  assert (prev = prev') as ->.
  { rewrite <- (app_nil_r prev), <- (app_nil_r prev') in E. apply put_app_inj in E as [_ E].
    by rewrite !app_nil_r in E. }
  split; [done|]. split; [|done]. unfold body.
  apply u64_in_inj in E1; [|unfold in_width; lia..]. apply u64_ts_inj in E2; [|lia..].
  apply u64_in_inj in E3; [|unfold in_width; lia..]. apply u64_in_inj in E4; [|unfold in_width; lia..]. congruence.
Qed.

(** ** The verifier *)
Definition zeroHash : bytes := replicate 32 (byte_of 0).

Inductive verr :=
  MalformedJson | MalformedAnchor | BadSeq | BrokenLink | HashMismatch | BadSigHex | BadSignature | ReadError.

Record chainSeed := ChainSeed {
  prev : bytes; expectSeq : Z; foundSince : bool; sinceSeq : Z; allowTornTail : bool; anchorFirst : bool }.

(** The running state of the loop; [v_n] counts the verified records. *)
Record vstate := VState {
  v_prev : bytes; v_seq : Z; v_found : bool; v_sinceSeq : Z; v_first : bool; v_n : nat }.

(** A file as the verifier meets it; a read may fail after part of the content. *)
Inductive opened := NotExist | OpenError | Opened (b : bytes) (readErr : bool).

(** The largest line the scanner accepts. *)
Definition maxToken : Z := 8 * 1024 * 1024.

Section verifier.
  Context (Unmarshal : bytes -> option auditRecord).
  Context (Key : Type) (EdVerify : Key -> bytes -> bytes -> bool).
  Context (pub : Key) (domain : bytes) (since : option bytes).

(** The previous hash and sequence number a record must have. *)
Definition check_link (anchor : bool) (r : auditRecord) (v : vstate) : result verr (bytes * Z) :=
  if v_first v && anchor then
    match DecodeString (PrevHash r) with
    | Some pp => if len pp =? Size then Ok (pp, Seq r) else Err MalformedAnchor
    | None => Err MalformedAnchor
    end
  else
    let expect := if Seq r =? 1 then 1 else u64 (v_seq v + 1) in
    if negb (Seq r =? expect) then Err BadSeq
    else if negb (hexEqual (PrevHash r) (v_prev v)) then Err BrokenLink
    else Ok (v_prev v, expect).

(** The body of the loop for a line that parses. *)
Definition check_record (anchor : bool) (r : auditRecord) (v : vstate) : result verr vstate :=
  match check_link anchor r v with
  | Err e => Err e
  | Ok (prev, expect) =>
      let sum := Sum256 (canonical r prev domain) in
      if negb (hexEqual (Hash r) sum) then Err HashMismatch
      else match DecodeString (Sig r) with
      | None => Err BadSigHex
      | Some sig =>
          if negb (EdVerify pub sum sig) then Err BadSignature
          else
            let hit := negb (v_found v) && bool_decide (since = Some sum) in
            Ok (VState sum expect (v_found v || hit) (if hit then Seq r else v_sinceSeq v) false (S (v_n v)))
      end
  end.

(** The scanner loop: the count of verified records and the outcome. *)
Fixpoint scan (i : chainSeed) (readErr : bool) (lines : list bytes) (torn : bool) (v : vstate)
    : nat * result verr vstate :=
  match lines with
  | [] => (v_n v, if readErr then Err ReadError
                  else if torn && negb (allowTornTail i) then Err MalformedJson else Ok v)
  | l :: lines =>
      if maxToken <=? len l then (v_n v, Err ReadError)
      else
        let line := TrimSpaceB (dropCR l) in
        if bool_decide (line = []) then scan i readErr lines torn v
        else if torn then (v_n v, Err MalformedJson)
        else match Unmarshal line with
        | None => scan i readErr lines true v
        | Some r =>
            match check_record (anchorFirst i) r v with
            | Err e => (v_n v, Err e)
            | Ok v => scan i readErr lines false v
            end
        end
  end.

Definition start (i : chainSeed) : vstate :=
  VState (prev i) (expectSeq i) (foundSince i) (sinceSeq i) true 0.

Definition verifyChainSegment (f : opened) (i : chainSeed) : nat * result verr chainSeed :=
  match f with
  | NotExist => (0%nat, Ok i)
  | OpenError => (0%nat, Err ReadError)
  | Opened b readErr =>
      let '(n, res) := scan i readErr (ScanLines b) false (start i) in
      (n, match res with
          | Err e => Err e
          | Ok v => Ok (ChainSeed (v_prev v) (v_seq v) (v_found v) (v_sinceSeq v) (allowTornTail i) (anchorFirst i))
          end)
  end.

(** What a verification reports: count, tip, and where the prior head was found. *)
Record verdict := Verdict { vd_n : nat; vd_tip : option bytes; vd_sinceSeq : Z; vd_found : bool }.

Definition genesis : chainSeed := ChainSeed zeroHash 0 false 0 false false.
Definition with_flags (torn anchor : bool) (i : chainSeed) : chainSeed :=
  ChainSeed (prev i) (expectSeq i) (foundSince i) (sinceSeq i) torn anchor.

Definition report (n : nat) (o : chainSeed) : verdict :=
  if (n =? 0)%nat then Verdict 0 None 0 false else Verdict n (Some (prev o)) (sinceSeq o) (foundSince o).

Definition verifyChainState (f : opened) : nat * result verr verdict :=
  match verifyChainSegment f (with_flags true false genesis) with
  | (n, Err e) => (n, Err e)
  | (n, Ok o) => (n, Ok (report n o))
  end.

Definition verifyChain (f : opened) : nat * result verr unit :=
  match verifyChainState f with (n, Err e) => (n, Err e) | (n, Ok _) => (n, Ok tt) end.

(** The sealed segments, oldest first. *)
Fixpoint verify_segments (first : bool) (segs : list (Z * opened)) (total : nat) (seed : chainSeed)
    : nat * result verr chainSeed :=
  match segs with
  | [] => (total, Ok seed)
  | (num, f) :: segs =>
      let '(cnt, res) := verifyChainSegment f (with_flags false (first && negb (num =? 1)) seed) in
      match res with
      | Err e => ((total + cnt)%nat, Err e)
      | Ok o => verify_segments false segs (total + cnt) o
      end
  end.

Definition verifySegmentedChain (segs : list (Z * opened)) (live : opened) : nat * result verr verdict :=
  match verify_segments true segs 0 genesis with
  | (total, Err e) => (total, Err e)
  | (total, Ok seed) =>
      let '(cnt, res) := verifyChainSegment live (with_flags true false seed) in
      let total := (total + cnt)%nat in
      match res with Err e => (total, Err e) | Ok o => (total, Ok (report total o)) end
  end.

(** *** The verdict of verify-audit: what it prints and whether it exits with 0 *)
Inductive rewind := NotAsked | CleanGenesis | CleanAncestor (seq : Z) | Rewound.
Inductive tip_check := TipNotAsked | TipMatches | TipDiffers.

Definition headOrZero (h : option bytes) : bytes :=
  match h with Some h => if len h =? Size then h else zeroHash | None => zeroHash end.

Definition audit_verdict (expectTip : bytes) (d : verdict) : rewind * tip_check * bool :=
  let t := if bool_decide (expectTip = []) then TipNotAsked
           else if bool_decide (EncodeToString (headOrZero (vd_tip d)) = expectTip) then TipMatches else TipDiffers in
  let w := match since with
           | None => NotAsked
           | Some s => if bool_decide (s = zeroHash) then CleanGenesis
                       else if vd_found d then CleanAncestor (vd_sinceSeq d) else Rewound
           end in
  (w, t, match t, w with TipDiffers, _ | _, Rewound => false | _, _ => true end).

(** ** What an accepted file contains *)

(** The record of a line, if it has one. *)
Definition record_of (l : bytes) : option auditRecord :=
  let line := TrimSpaceB (dropCR l) in if bool_decide (line = []) then None else Unmarshal line.

Definition log_records (b : bytes) : list auditRecord := omap record_of (ScanLines b).

Definition link (p : bytes) (r : auditRecord) : bytes := Sum256 (canonical r p domain).
Definition tip_of (p : bytes) (rs : list auditRecord) : bytes := foldl link p rs.

(** The byte strings hashed along a chain. *)
Fixpoint inputs (p : bytes) (rs : list auditRecord) : list bytes :=
  match rs with [] => [] | r :: rs => canonical r p domain :: inputs (link p r) rs end.

(** The hash a chain is anchored at: what comes in, or what its first record says. *)
Definition anchor_of (anchored : bool) (p : bytes) (rs : list auditRecord) : bytes :=
  match rs with r :: _ => if anchored then default [] (DecodeString (PrevHash r)) else p | [] => p end.

(** Every record carries a valid signature of the running hash, and that hash. *)
Fixpoint signed (p : bytes) (rs : list auditRecord) : Prop :=
  match rs with
  | [] => True
  | r :: rs =>
      (exists sig, DecodeString (Sig r) = Some sig /\ EdVerify pub (link p r) sig = true)
      /\ hexEqual (Hash r) (link p r) = true /\ signed (link p r) rs
  end.

Definition ancestor (p : bytes) (rs : list auditRecord) (h : option bytes) : Prop :=
  exists rs1 rs2, rs = rs1 ++ rs2 /\ rs1 <> [] /\ h = Some (tip_of p rs1).

Lemma check_link_ok anchor r v q e :
  check_link anchor r v = Ok (q, e) ->
  q = anchor_of (v_first v && anchor) (v_prev v) [r] /\ (len (v_prev v) = Size -> len q = Size).
Proof.
  unfold check_link, anchor_of. destruct (v_first v && anchor).
  - destruct (DecodeString (PrevHash r)) as [pp|]; [|done].
    destruct (Z.eqb_spec (len pp) Size); [by intros [= <- _]|done].
  - cbv zeta. destruct (negb _); [done|]. destruct (negb _); [done|]. by intros [= <- _].
Qed.

Lemma check_record_ok anchor r v v' :
  check_record anchor r v = Ok v' ->
  let p := anchor_of (v_first v && anchor) (v_prev v) [r] in
  (len (v_prev v) = Size -> len p = Size)
  /\ v_prev v' = link p r /\ v_n v' = S (v_n v) /\ v_first v' = false
  /\ (v_found v' = true -> v_found v = true \/ since = Some (link p r))
  /\ (exists sig, DecodeString (Sig r) = Some sig /\ EdVerify pub (link p r) sig = true)
  /\ hexEqual (Hash r) (link p r) = true.
Proof.
  unfold check_record. destruct (check_link anchor r v) as [[q e]|] eqn:El; [|done].
  apply check_link_ok in El as [-> Hlen]. cbv zeta. destruct (hexEqual (Hash r) _) eqn:Eh; [|done]. cbn [negb].
  destruct (DecodeString (Sig r)) as [sig|]; [|done].
  destruct (EdVerify _ _ _) eqn:Ev; [|done]. intros [= <-]. cbn [v_prev v_n v_first v_found].
  split_and!; [exact Hlen|done..| |eauto|done]. intros [?|[_ ?%bool_decide_eq_true]%andb_prop]%orb_prop; auto.
Qed.

Lemma ancestor_cons p r rs h : ancestor (link p r) rs h \/ h = Some (link p r) -> ancestor p (r :: rs) h.
Proof.
  intros [(rs1 & rs2 & -> & Hne & ->)| ->]; [by exists (r :: rs1), rs2|by exists [r], rs].
Qed.

Lemma scan_torn i re ls v n v' : scan i re ls true v = (n, Ok v') -> v' = v /\ n = v_n v /\ omap record_of ls = [].
Proof.
  induction ls as [|l ls IH]; cbn [scan].
  - destruct re; [done|]. cbn [andb]. destruct (negb _); [done|]. intros [= <- <-]. done.
  - destruct (maxToken <=? len l); [done|]. cbv zeta. destruct (bool_decide _) eqn:E; [|done].
    intros H. apply IH in H as (-> & -> & H). split_and!; [done..|]. cbn. unfold record_of. cbv zeta. by rewrite E.
Qed.

(** An accepted file, in terms of its records. *)
Lemma scan_spec i re ls v n v' :
  scan i re ls false v = (n, Ok v') ->
  let rs := omap record_of ls in let p := anchor_of (v_first v && anchorFirst i) (v_prev v) rs in
  (len (v_prev v) = Size -> len p = Size)
  /\ v_prev v' = tip_of p rs /\ n = v_n v' /\ v_n v' = (v_n v + length rs)%nat
  /\ (v_found v' = true -> v_found v = true \/ ancestor p rs since)
  /\ signed p rs.
Proof.
  revert v. induction ls as [|l ls IH]; intros v; cbn [scan].
  { destruct re; [done|]. intros [= <- <-]. cbn. split_and!; auto with lia. }
  destruct (maxToken <=? len l); [done|]. cbv zeta.
  change (omap record_of (l :: ls)) with (match record_of l with Some r => r :: omap record_of ls | None => omap record_of ls end).
  destruct (bool_decide _) eqn:Eb.
  { intros H. assert (record_of l = None) as -> by (unfold record_of; cbv zeta; by rewrite Eb). by apply IH. }
  assert (record_of l = Unmarshal (TrimSpaceB (dropCR l))) as -> by (unfold record_of; cbv zeta; by rewrite Eb).
  destruct (Unmarshal _) as [r|].
  - destruct (check_record _ r v) as [v1|] eqn:Ec; [|done]. intros H. apply IH in H.
    apply check_record_ok in Ec. cbv zeta in Ec, H.
    destruct Ec as (Hlen & Hp & Hn & Hf & Hs & Hv & Hh). destruct H as (_ & Hp' & -> & Hn' & Hs' & Hall).
    rewrite Hf in *. cbn [andb] in *. rewrite Hn in Hn'.
    assert (forall rs, anchor_of false (v_prev v1) rs = v_prev v1) as Ha by (by intros []). rewrite Ha, Hp in *.
    cbn [anchor_of length] in *.
    change (tip_of ?p (r :: ?rs)) with (tip_of (link p r) rs). split_and!; [done|done|done|lia| |].
    + intros Hf'. apply Hs' in Hf' as [Hf'|Hf']; [apply Hs in Hf' as [?| ->]; [by left|right]|right];
        apply ancestor_cons; auto.
    + done.
  - intros H. apply scan_torn in H as (-> & -> & ->). cbn. split_and!; auto with lia.
Qed.

(** The records of a file, and of the files of a chain, oldest first. *)
Definition file_records (f : opened) : list auditRecord :=
  match f with Opened b _ => log_records b | NotExist | OpenError => [] end.

Definition chain_records (segs : list (Z * opened)) (live : opened) : list auditRecord :=
  (segs ≫= fun s => file_records s.2) ++ file_records live.

(** Where a chain is anchored: at zero, or after pruning at what its first record says. *)
Definition chain_anchor (segs : list (Z * opened)) : bytes :=
  match segs with
  | (num, f) :: _ => anchor_of (negb (num =? 1)) zeroHash (file_records f)
  | [] => zeroHash
  end.

(** An accepted stretch of records, from the seed it starts with to the one it ends with. *)
Definition accepted (p : bytes) (rs : list auditRecord) (n : nat) (i o : chainSeed) : Prop :=
  n = length rs /\ prev o = tip_of p rs /\ signed p rs
  /\ (foundSince o = true -> foundSince i = true \/ ancestor p rs since).

Lemma anchor_of_false p rs : anchor_of false p rs = p.
Proof. by destruct rs. Qed.

Lemma signed_app p a b : signed p a -> signed (tip_of p a) b -> signed p (a ++ b).
Proof. revert p. induction a as [|r a IH]; intros p; [done|]. cbn. intros (? & ? & ?) ?. auto. Qed.

Lemma ancestor_app p a b h : ancestor p a h \/ ancestor (tip_of p a) b h -> ancestor p (a ++ b) h.
Proof.
  intros [(a1 & a2 & -> & Hne & ->)|(b1 & b2 & -> & Hne & ->)].
  - exists a1, (a2 ++ b). by rewrite app_assoc.
  - exists (a ++ b1), b2. split_and!; [by rewrite app_assoc|by destruct a|unfold tip_of; by rewrite foldl_app].
Qed.

Lemma accepted_app p a b n m i j o :
  accepted p a n i j -> accepted (prev j) b m j o -> accepted p (a ++ b) (n + m) i o.
Proof.
  intros (-> & Hp & Hs & Hf) (-> & Hp' & Hs' & Hf'). rewrite Hp in *. unfold accepted.
  split_and!; [by rewrite length_app|unfold tip_of in *; by rewrite foldl_app|by apply signed_app|].
  intros [H|H]%Hf'; [apply Hf in H as [?|?]|]; auto using ancestor_app.
Qed.

Lemma verifyChainSegment_spec f i n o :
  verifyChainSegment f i = (n, Ok o) ->
  let p := anchor_of (anchorFirst i) (prev i) (file_records f) in
  (len (prev i) = Size -> len p = Size) /\ accepted p (file_records f) n i o.
Proof.
  unfold verifyChainSegment, accepted. destruct f as [| |b re]; cbn [file_records anchor_of]; [|done|].
  { intros [= <- <-]. split; [done|]. split_and!; [done|done|done|by left]. }
  destruct (scan _ _ _ _ _) as [m [v|]] eqn:E; [|done].
  intros [= <- <-]. apply scan_spec in E. cbn [start v_prev v_first andb v_n v_found Nat.add] in E.
  destruct E as (Hl & Hp & -> & Hn & Hf & Hs). fold (log_records b) in *. cbn [prev foundSince]. split_and!; done.
Qed.

Lemma verify_segments_spec segs total seed n o :
  verify_segments false segs total seed = (n, Ok o) ->
  exists m, n = (total + m)%nat /\ accepted (prev seed) (segs ≫= fun s => file_records s.2) m seed o.
Proof.
  revert total seed. induction segs as [|[num f] segs IH]; intros total seed; cbn [verify_segments].
  { intros [= <- <-]. exists 0%nat. split; [lia|]. unfold accepted. cbn. auto. }
  destruct (verifyChainSegment f _) as [cnt [o'|]] eqn:E; [|done]. intros H.
  apply verifyChainSegment_spec in E as [_ E]. cbn [andb with_flags anchorFirst prev] in E. rewrite anchor_of_false in E.
  apply IH in H as (m & -> & H). exists (cnt + m)%nat. split; [lia|].
  rewrite bind_cons. cbn [snd]. eapply accepted_app; done.
Qed.

Lemma verifySegmentedChain_spec segs live n d :
  verifySegmentedChain segs live = (n, Ok d) ->
  let rs := chain_records segs live in let p := chain_anchor segs in
  len p = Size /\ n = length rs /\ vd_n d = n
  /\ vd_tip d = (if (n =? 0)%nat then None else Some (tip_of p rs))
  /\ signed p rs /\ (vd_found d = true -> ancestor p rs since).
Proof.
  intros H. cbv zeta.
  assert (exists o, len (chain_anchor segs) = Size /\ accepted (chain_anchor segs) (chain_records segs live) n genesis o
    /\ d = report n o) as (o & Hl & (-> & Hp & Hs & Hf) & ->).
  { revert H. unfold verifySegmentedChain, chain_records, chain_anchor. destruct segs as [|[num f] segs].
    - cbn [verify_segments Nat.add]. change ([] ≫= ?g) with (@nil auditRecord). cbn [app].
      destruct (verifyChainSegment live _) as [cnt [o|]] eqn:E; [|done].
      intros [= <- <-]. apply verifyChainSegment_spec in E as [_ E].
      cbn [with_flags anchorFirst prev genesis] in E. rewrite anchor_of_false in E. exists o. done.
    - cbn [verify_segments andb Nat.add]. destruct (verifyChainSegment f _) as [c1 [o1|]] eqn:E1; [|done].
      destruct (verify_segments _ _ _ _) as [c2 [o2|]] eqn:E2; [|done].
      destruct (verifyChainSegment live _) as [c3 [o3|]] eqn:E3; [|done]. intros [= <- <-].
      apply verifyChainSegment_spec in E1 as [Hl E1]. apply verifyChainSegment_spec in E3 as [_ E3].
      apply verify_segments_spec in E2 as (m & -> & E2).
      cbn [with_flags anchorFirst prev genesis] in *. rewrite anchor_of_false in E3. exists o3.
      split_and!; [by apply Hl| |done]. rewrite bind_cons. cbn [snd].
      eapply accepted_app; [eapply accepted_app; done|]. done. }
  unfold report. destruct (Nat.eqb_spec (length (chain_records segs live)) 0) as [E0|E0]; cbn [vd_n vd_tip vd_found].
  - split_and!; done.
  - split_and!; [done..|by rewrite Hp|done|]. intros [?|?]%Hf; done.
Qed.

(** One file is a chain without segments. *)
Lemma verifyChainState_segmented f : verifyChainState f = verifySegmentedChain [] f.
Proof.
  unfold verifyChainState, verifySegmentedChain. cbn [verify_segments Nat.add].
  by destruct (verifyChainSegment _ _) as [n [o|]].
Qed.
End verifier.

(** ** Chains with the same tip *)
Section tips.
  Context (domain : bytes) (Hdom : len domain < 2 ^ 64).

Definition collision (xs ys : list bytes) : Prop :=
  exists x y, x ∈ xs /\ y ∈ ys /\ x <> y /\ Sum256 x = Sum256 y.

(** An encoding whose hash is the anchor of an empty chain. *)
Definition zero_preimage (xs : list bytes) : Prop := exists x, x ∈ xs /\ Sum256 x = zeroHash.

Lemma tip_snoc p rs r : tip_of domain p (rs ++ [r]) = link domain (tip_of domain p rs) r.
Proof. unfold tip_of. by rewrite foldl_app. Qed.

Lemma tip_app p a b : tip_of domain p (a ++ b) = tip_of domain (tip_of domain p a) b.
Proof. unfold tip_of. by rewrite foldl_app. Qed.

Lemma inputs_snoc p rs r : inputs domain p (rs ++ [r]) = inputs domain p rs ++ [canonical r (tip_of domain p rs) domain].
Proof. revert p. induction rs as [|r' rs IH]; intros p; [done|]. cbn. by f_equal. Qed.

Lemma inputs_app p a b : inputs domain p (a ++ b) = inputs domain p a ++ inputs domain (tip_of domain p a) b.
Proof. revert p. induction a as [|r a IH]; intros p; [done|]. cbn. f_equal. apply IH. Qed.

Lemma len_tip p rs : len p = Size -> len (tip_of domain p rs) = Size.
Proof. induction rs as [|r rs IH] using rev_ind; [done|]. intros _. rewrite tip_snoc. apply length_Sum256. Qed.

Lemma collision_mono xs xs' ys ys' : xs ⊆ xs' -> ys ⊆ ys' -> collision xs ys -> collision xs' ys'.
Proof. intros Hx Hy (x & y & ? & ? & ? & ?). exists x, y. split_and!; auto. Qed.

(** Two chains with the same tip agree, record by record, as far back as both reach. *)
Lemma tips_share_suffix p1 p2 rs1 rs2 :
  len p1 = Size -> len p2 = Size -> Forall typed rs1 -> Forall typed rs2 ->
  tip_of domain p1 rs1 = tip_of domain p2 rs2 ->
  (exists c rs, rs1 = c ++ rs /\ body <$> rs = body <$> rs2 /\ tip_of domain p1 c = p2)
  \/ (exists c rs, rs2 = c ++ rs /\ body <$> rs = body <$> rs1 /\ tip_of domain p2 c = p1)
  \/ collision (inputs domain p1 rs1) (inputs domain p2 rs2).
Proof.
  intros H1 H2. revert rs2. induction rs1 as [|r1 rs1 IH] using rev_ind; intros rs2 Ht1 Ht2 E.
  { right. left. exists rs2, []. by rewrite app_nil_r. }
  destruct rs2 as [|r2 rs2 _] using rev_ind.
  { left. exists (rs1 ++ [r1]), []. by rewrite app_nil_r. }
  apply Forall_app in Ht1 as [Ht1 [Hr1 _]%Forall_cons]. apply Forall_app in Ht2 as [Ht2 [Hr2 _]%Forall_cons].
  rewrite !tip_snoc in E. unfold link in E. rewrite !inputs_snoc.
  pose proof (len_tip p1 rs1 H1) as L1. pose proof (len_tip p2 rs2 H2) as L2. unfold Size in *.
  destruct (decide (canonical r1 (tip_of domain p1 rs1) domain = canonical r2 (tip_of domain p2 rs2) domain)) as [Ec|Ec].
  - apply canonical_inj in Ec as (_ & Hb & Hp); [|done|done|lia..].
    destruct (IH rs2 Ht1 Ht2 Hp) as [(c & rs & -> & Hbs & Hc)|[(c & rs & -> & Hbs & Hc)|Hcol]].
    + left. exists c, (rs ++ [r1]). rewrite !fmap_app, Hbs, app_assoc.
      cbn [fmap list_fmap]. rewrite Hb. auto.
    + right. left. exists c, (rs ++ [r2]). rewrite !fmap_app, Hbs, app_assoc.
      cbn [fmap list_fmap]. rewrite Hb. auto.
    + right. right. revert Hcol. apply collision_mono; intros z Hz; apply elem_of_app; by left.
  - right. right. exists (canonical r1 (tip_of domain p1 rs1) domain), (canonical r2 (tip_of domain p2 rs2) domain).
    split_and!; [apply elem_of_app; right; by left..|done|done].
Qed.

Lemma tip_inputs p rs : rs <> [] -> exists x, x ∈ inputs domain p rs /\ Sum256 x = tip_of domain p rs.
Proof.
  destruct rs as [|r rs _] using rev_ind; [done|]. intros _. rewrite inputs_snoc, tip_snoc.
  eexists. split; [apply elem_of_app; right; by left|done].
Qed.

(** From the same anchor at genesis, the same tip means the same records. *)
Lemma same_tip p rs1 rs2 :
  p = zeroHash -> Forall typed rs1 -> Forall typed rs2 -> tip_of domain p rs1 = tip_of domain p rs2 ->
  body <$> rs1 = body <$> rs2
  \/ collision (inputs domain p rs1) (inputs domain p rs2)
  \/ zero_preimage (inputs domain p rs1 ++ inputs domain p rs2).
Proof.
  intros -> H1 H2 E. assert (len zeroHash = Size) as Hz by done.
  apply tips_share_suffix in E as [(c & rs & -> & Hb & Hc)|[(c & rs & -> & Hb & Hc)|?]]; [| |by auto|done..].
  - destruct (decide (c = [])) as [->|Hne]; [by left|]. right. right.
    destruct (tip_inputs zeroHash c Hne) as (x & Hx & Hs). exists x. rewrite inputs_app. split; [|congruence].
    rewrite !elem_of_app. auto.
  - destruct (decide (c = [])) as [->|Hne]; [by left|]. right. right.
    destruct (tip_inputs zeroHash c Hne) as (x & Hx & Hs). exists x. rewrite inputs_app. split; [|congruence].
    rewrite !elem_of_app. auto.
Qed.
End tips.

Lemma log_records_typed Unmarshal b : JsonReader Unmarshal -> Forall typed (log_records Unmarshal b).
Proof.
  intros HJ. unfold log_records. apply Forall_forall. intros r Hr. apply list_elem_of_omap in Hr as (l & _ & Hl).
  unfold record_of in Hl. cbv zeta in Hl. destruct (bool_decide _); [done|]. by eapply unmarshal_typed.
Qed.

(** ** Properties *)

(** The encoding that is hashed and signed is injective: equal bytes mean the same
    chain domain, the same value of every chained field and the same previous hash. No
    field can be shifted into another and no record of one chain reads as one of another. *)
Theorem canonical_injective r r' prev prev' d d' :
  typed r -> typed r' -> len prev < 2 ^ 64 -> len prev' < 2 ^ 64 -> len d < 2 ^ 64 -> len d' < 2 ^ 64 ->
  canonical r prev d = canonical r' prev' d' -> d = d' /\ body r = body r' /\ prev = prev'.
Proof. apply canonical_inj. Qed.

Definition sample (comm : string) : auditRecord :=
  AuditRecord 1 5 7 9 (B comm) (B "bpf") (B "denied") (B "enforce") [] [] [].

Lemma canonical_injective_witness : body (sample "a") = body (sample "a").
Proof.
  apply (canonical_injective (sample "a") (sample "a") zeroHash zeroHash (B "broker") (B "broker"));
    [apply typedb_spec; vm_compute; reflexivity..|vm_compute; reflexivity|vm_compute; reflexivity
    |vm_compute; reflexivity|vm_compute; reflexivity|reflexivity].
Defined.
