(* ===== verification/AuditLog.v ===== *)
(** * The writer of the audit chains: [main.go]

    [openAuditLog], [append] with its rollback, segment rotation and pruning, and the repair
    of a torn tail, over a directory of named files. Every file operation may fail; power
    may be lost while a record is written or between the rename and the reopening of a
    rotation. The signing key is the sealed one; its scheme is a parameter. *)
From Stdlib Require Import ZArith Lia Ascii String.
From stdpp Require Import base tactics numbers option strings list gmap sorting.
From S2P Require Import Prelude Maps Bytes Sha256 Json Control Broker Verify.
#[local] Open Scope string_scope.
#[local] Open Scope list_scope.
#[local] Open Scope Z_scope.
#[local] Opaque Sum256.

(** ** Names *)

(** ["%06d"]. *)
Definition pad6 (n : Z) : string :=
  let d := Itoa n in (String.concat "" (replicate (6 - String.length d) "0") ++ d)%string.

Definition segmentName (base : string) (n : Z) : string := (base ++ "." ++ pad6 n)%string.

(** [strconv.ParseUint(s, 10, 64)] of a string of digits. *)
Definition all_digits (s : string) : bool := negb (s =? "")%string && all_chars is_digit s.
Definition parse_digits (s : string) : option Z :=
  if all_digits s then let n := (digits 0 s).1 in if n <? 2 ^ 64 then Some n else None else None.

(** The segment number a file name stands for. *)
Definition seg_number (base name : string) : option Z :=
  match TrimPrefix_opt (base ++ ".")%string name with Some suf => parse_digits suf | None => None end.

Abbreviation dir := (gmap string bytes).

Definition listSegments (base : string) (fs : dir) : list Z :=
  merge_sort Z.le (omap (seg_number base) (map_to_list fs).*1).

Definition nextSegNum (base : string) (fs : dir) : Z :=
  match last (listSegments base fs) with Some n => u64 (n + 1) | None => 1 end.

(** [strconv.ParseInt(s, 10, 64)] and [strconv.Atoi]. *)
Definition parse_int (s : string) : option Z :=
  let '(sign, ds) := match s with
                     | String c s' => if Ascii.eqb c "-" then (-1, s') else if Ascii.eqb c "+" then (1, s') else (1, s)
                     | EmptyString => (1, s)
                     end in
  if all_digits ds then
    let n := sign * (digits 0 ds).1 in
    if (- 2 ^ 63 <=? n) && (n <? 2 ^ 63) then Some n else None
  else None.

(** The rotation threshold and the window, from BULKHEAD_AUDIT_SEGMENT_BYTES and
    BULKHEAD_AUDIT_SEGMENTS_KEEP (empty when unset). *)
Definition auditSegmentConfig (segmentBytes segmentsKeep : string) : Z * nat :=
  (match parse_int segmentBytes with Some n => if 0 <? n then n else 0 | None => 0 end,
   match parse_int segmentsKeep with Some n => if 1 <=? n then Z.to_nat n else 1%nat | None => 1%nat end).

(** At least one sealed segment is kept, whatever the environment says. *)
Lemma auditSegmentConfig_keep v w : (1 <= (auditSegmentConfig v w).2)%nat /\ 0 <= (auditSegmentConfig v w).1.
Proof.
  unfold auditSegmentConfig. cbn [fst snd]. split.
  - destruct (parse_int w) as [n|]; [destruct (Z.leb_spec 1 n); lia|lia].
  - destruct (parse_int v) as [n|]; [destruct (Z.ltb_spec 0 n); lia|lia].
Qed.

(** [loadSigningKey]: the sealed seed, or a fresh one unless the sealed one is required. *)
Definition loadSigningKey {K} (NewKeyFromSeed : bytes -> K) (auditSeed : option bytes) (requireSealed : bool)
    (GenerateKey : option K) : option K :=
  match auditSeed with
  | Some seed => if (32 <=? length seed)%nat then Some (NewKeyFromSeed (take 32 seed))
                 else if requireSealed then None else GenerateKey
  | None => if requireSealed then None else GenerateKey
  end.

(** ** Reading back *)

(** [bytes.LastIndexByte(b, '\n') + 1]. *)
Fixpoint after_newline (b : bytes) : nat :=
  match b with
  | [] => 0
  | c :: b => match after_newline b with
              | O => if Ascii.eqb c newline then 1 else 0
              | n => S n
              end
  end%nat.

Definition repairTornTail (b : bytes) : bytes :=
  match rev b with
  | [] => b
  | c :: _ => if Ascii.eqb c newline then b else take (after_newline b) b
  end.

Section reader.
  Context (Unmarshal : bytes -> option auditRecord).

(** The lines from the last one backwards: the first that is not blank decides. *)
Fixpoint last_hash (rlines : list bytes) : option bytes :=
  match rlines with
  | [] => None
  | l :: rlines =>
      let ln := TrimSpaceB l in
      if bool_decide (ln = []) then last_hash rlines
      else match Unmarshal ln with
      | None => None
      | Some r => match DecodeString (Hash r) with
                  | Some h => if len h =? Size then Some h else None
                  | None => None
                  end
      end
  end.

Definition lastChainHash (f : option bytes) : option bytes :=
  match f with Some b => last_hash (rev (SplitLines (TrimSpaceB b))) | None => None end.

Fixpoint first_some {A} (l : list (option A)) : option A :=
  match l with [] => None | Some x :: _ => Some x | None :: l => first_some l end.

Definition lastChainTip (base : string) (fs : dir) : option bytes :=
  first_some (lastChainHash (fs !! base)
    :: ((fun n => lastChainHash (fs !! segmentName base n)) <$> rev (listSegments base fs))).
End reader.

(** ** The log *)
Record provEvent := ProvEvent {
  e_cgid : Z; e_pid : Z; e_comm : bytes; e_hook : bytes; e_decision : bytes; e_mode : bytes }.

(** The open log: the file its handle refers to, the tip it has committed to, and the
    number of the next segment. *)
Record auditLog := AuditLog { a_file : string; prevHash : bytes; a_seq : Z; segNext : Z }.

(** How the file operations of one [rotate] and of one [append] turn out. A failing write
    leaves the first bytes of the line. *)
Record rot_io := RotIO {
  r_sync : bool; r_rename : bool; r_reopen : bool; r_unrename : bool; r_remove : Z -> bool }.
Record io := IO {
  io_now : Z; io_stat : bool; io_rot : rot_io; io_stat2 : bool;
  io_write : option nat; io_sync : bool; io_trunc : bool }.

Section writer.
  Context (Unmarshal : bytes -> option auditRecord).
  Context (base : string) (domain : bytes) (rotateBytes : Z) (segKeep : nat).
  Context (sign : bytes -> bytes).

(** The bytes of a file; a name that is not there has none. *)
Definition contents (name : string) (fs : dir) : bytes := match fs !! name with Some b => b | None => [] end.

Definition write (name : string) (b : bytes) (fs : dir) : dir := <[name := contents name fs ++ b]> fs.
Definition truncate (name : string) (off : nat) (fs : dir) : dir :=
  <[name := take off (contents name fs)]> fs.

(** [os.Rename]: fails without a source. *)
Definition rename (from to : string) (fs : dir) : option dir :=
  match fs !! from with Some b => Some (<[to := b]> (delete from fs)) | None => None end.

Definition create (name : string) (fs : dir) : dir := <[name := contents name fs]> fs.

Definition prune_order (fs : dir) : list Z :=
  let segs := listSegments base fs in
  if (length segs <=? segKeep)%nat then [] else take (length segs - segKeep) segs.

Definition remove_one (x : rot_io) (fs : dir) (n : Z) : dir :=
  if r_remove x n then delete (segmentName base n) fs else fs.

Definition pruneSegments (x : rot_io) (fs : dir) : dir := foldl (remove_one x) fs (prune_order fs).

(** [rotate]: whether it succeeded. The handle follows the file it was opened on. *)
Definition rotate (x : rot_io) (a : auditLog) (fs : dir) : bool * auditLog * dir :=
  if negb (r_sync x) then (false, a, fs)
  else
    let sealed := segmentName base (segNext a) in
    match (if r_rename x then rename base sealed fs else None) with
    | None => (false, a, fs)
    | Some fs1 =>
        let moved := if (a_file a =? base)%string then sealed else a_file a in
        if negb (r_reopen x) then
          match (if r_unrename x then rename sealed base fs1 else None) with
          | Some fs2 => (false, a, fs2)
          | None => (false, AuditLog moved (prevHash a) (a_seq a) (segNext a), fs1)
          end
        else
          (true, AuditLog base (prevHash a) (a_seq a) (u64 (segNext a + 1)), pruneSegments x (create base fs1))
    end.

(** The record [append] builds. *)
Definition make_record (now : Z) (ev : provEvent) (a : auditLog) : auditRecord :=
  let r := AuditRecord (u64 (a_seq a + 1)) now (e_cgid ev) (e_pid ev)
             (ToValidUTF8 (e_comm ev)) (ToValidUTF8 (e_hook ev)) (ToValidUTF8 (e_decision ev)) (ToValidUTF8 (e_mode ev))
             (EncodeToString (prevHash a)) [] [] in
  let sum := Sum256 (canonical r (prevHash a) domain) in
  AuditRecord (Seq r) (TS r) (CgroupID r) (PID r) (Comm r) (Hook r) (Decision_ r) (Mode r) (PrevHash r)
    (EncodeToString sum) (EncodeToString (sign sum)).

Definition line_of (r : auditRecord) : bytes := Marshal r ++ [newline].

Definition file_size (name : string) (fs : dir) : nat := length (contents name fs).

(** The rotation step of [append], with the rollback offset it leaves; [None] when the
    second [Stat] fails. *)
Definition maybe_rotate (x : io) (a : auditLog) (fs : dir) : option nat * auditLog * dir :=
  let off := file_size (a_file a) fs in
  if (0 <? rotateBytes) && (rotateBytes <=? Z.of_nat off) then
    let '(ok, a1, fs1) := rotate (io_rot x) a fs in
    if ok then ((if io_stat2 x then Some (file_size (a_file a1) fs1) else None), a1, fs1) else (Some off, a1, fs1)
  else (Some off, a, fs).

Definition append (x : io) (ev : provEvent) (a : auditLog) (fs : dir) : bool * auditLog * dir :=
  let r := make_record (io_now x) ev a in
  let line := line_of r in
  if negb (io_stat x) then (false, a, fs)
  else
    let '(off, a, fs) := maybe_rotate x a fs in
    match off with
    | None => (false, a, fs)
    | Some off =>
        let rollback fs := if io_trunc x then truncate (a_file a) off fs else fs in
        match io_write x with
        | Some k => (false, a, rollback (write (a_file a) (take k line) fs))
        | None =>
            let fs := write (a_file a) line fs in
            if negb (io_sync x) then (false, a, rollback fs)
            else (true, AuditLog (a_file a) (Sum256 (canonical r (prevHash a) domain)) (Seq r) (segNext a), fs)
        end
    end.

(** [openAuditLog] on a directory it may write: repair, find the tip, create the file. *)
Definition openAuditLog (repair_ok : bool) (fs : dir) : auditLog * dir :=
  let fs := match fs !! base with
            | Some b => if repair_ok then <[base := repairTornTail b]> fs else fs
            | None => fs
            end in
  (AuditLog base (default zeroHash (lastChainTip Unmarshal base fs)) 0 (nextSegNum base fs), create base fs).

(** ** Histories of one chain *)
Inductive log_event :=
| Boot (repair_ok : bool)
| Append (x : io) (ev : provEvent)
| PowerLoss (x : io) (ev : provEvent) (mid_rotate : bool) (k : nat).

(** The log is closed before the first boot and after a loss of power. *)
Definition log_state : Type := option auditLog * dir.

(** What is on disk if power is lost in the middle of an append: after the rename of a
    rotation, or with the first [k] bytes of the line written. *)
Definition lose_power (x : io) (ev : provEvent) (mid_rotate : bool) (k : nat) (a : auditLog) (fs : dir) : dir :=
  let line := line_of (make_record (io_now x) ev a) in
  if mid_rotate && ((0 <? rotateBytes) && (rotateBytes <=? Z.of_nat (file_size (a_file a) fs))) then
    default fs (rename base (segmentName base (segNext a)) fs)
  else
    let '(_, a, fs) := maybe_rotate x a fs in write (a_file a) (take k line) fs.

Definition log_step (s : log_state) (ev : log_event) : log_state :=
  match ev, s with
  | Boot r, (_, fs) => let '(a, fs) := openAuditLog r fs in (Some a, fs)
  | Append x e, (Some a, fs) => let '(_, a, fs) := append x e a fs in (Some a, fs)
  | PowerLoss x e mid k, (Some a, fs) => (None, lose_power x e mid k a fs)
  | _, _ => s
  end.
End writer.

(** The verifier on a directory. *)
Definition open_file (fs : dir) (name : string) : opened :=
  match fs !! name with Some b => Opened b false | None => NotExist end.

Definition segment_files (base : string) (fs : dir) : list (Z * opened) :=
  (fun n => (n, open_file fs (segmentName base n))) <$> listSegments base fs.
