(* ===== verification/VerifyCmd.v ===== *)
(** * The verify-audit command: [verify.go]

    [cmdVerifyAudit]: the arguments, the key and the domain it verifies with, the verdicts
    and the exit status. The process environment, the files it reads and the derivation of
    a public key from the sealed seed are the record [cmd_env]. *)
From Stdlib Require Import ZArith Lia Ascii String.
From stdpp Require Import base tactics numbers option list.
From S2P Require Import Prelude Maps Bytes Sha256 Json Verify.
#[local] Open Scope list_scope.
#[local] Open Scope Z_scope.
#[local] Opaque Sum256.

(** ** Strings *)

(** The rest of [s] after the prefix [p], if it has it. *)
Fixpoint CutPrefix (p s : bytes) : option bytes :=
  match p, s with
  | [], _ => Some s
  | a :: p, b :: s => if Ascii.eqb a b then CutPrefix p s else None
  | _ :: _, [] => None
  end.

Fixpoint Contains (s sub : bytes) : bool :=
  match CutPrefix sub s with
  | Some _ => true
  | None => match s with [] => false | _ :: s => Contains s sub end
  end.

(** [strings.ToLower] on ASCII letters. No other rune lowers to a hexadecimal digit or to
    white space, so the comparison with a hash is the one of the full function. *)
Definition lower (c : ascii) : ascii := if between 65 90 c then byte_of (val c + 32) else c.
Definition ToLower (s : bytes) : bytes := lower <$> s.

(** [filepath.Base]. *)
Definition slash : ascii := byte_of 47.
Fixpoint drop_slashes (r : bytes) : bytes :=
  match r with c :: r' => if Ascii.eqb c slash then drop_slashes r' else r | [] => [] end.
Fixpoint until_slash (r : bytes) : bytes :=
  match r with c :: r => if Ascii.eqb c slash then [] else c :: until_slash r | [] => [] end.
Definition Base (path : bytes) : bytes :=
  match path with
  | [] => B "."
  | _ => match rev (until_slash (drop_slashes (rev path))) with [] => B "/" | b => b end
  end.

(** ** Arguments *)
Inductive arg_error := EmptySince | EmptyTip | UnknownFlag | ExtraArgument.

Definition sinceFlag : bytes := B "--since=".
Definition tipFlag : bytes := B "--expect-tip=".

Fixpoint parse_flags (args : list bytes) (sinceArg expectTip : bytes) (rest : list bytes)
    : result arg_error (bytes * bytes * list bytes) :=
  match args with
  | [] => if (1 <? length rest)%nat then Err ExtraArgument else Ok (sinceArg, expectTip, rest)
  | a :: args =>
      match CutPrefix sinceFlag a with
      | Some v => if bool_decide (TrimSpaceB v = []) then Err EmptySince else parse_flags args v expectTip rest
      | None =>
          match CutPrefix tipFlag a with
          | Some v =>
              let t := ToLower (TrimSpaceB v) in
              if bool_decide (t = []) then Err EmptyTip else parse_flags args sinceArg t rest
          | None =>
              match CutPrefix (B "-") a with
              | Some _ => Err UnknownFlag
              | None => parse_flags args sinceArg expectTip (rest ++ [a])
              end
          end
      end
  end.

Definition parseVerifyArgs (args : list bytes) : result arg_error (bytes * bytes * list bytes) :=
  parse_flags args [] [] [].

(** ** The environment of the process *)
Record cmd_env := CmdEnv {
  auditDomain : bytes;                    (** BULKHEAD_AUDIT_DOMAIN, empty when unset *)
  sealedSeed : option bytes;              (** the credential audit-seed, when it can be read *)
  NewKeyFromSeed : bytes -> bytes;        (** the public key of a seed *)
  pubFile : option bytes;                 (** audit-pub.txt beside the chain *)
  ReadFile : bytes -> option bytes;
  chainFiles : bytes -> list (Z * opened) * opened }.   (** segments and live file of a chain *)

Definition PublicKeySize : Z := 32.
Definition SeedSize : nat := 32.

Section command.
  Context (Unmarshal : bytes -> option auditRecord).
  Context (EdVerify : bytes -> bytes -> bytes -> bool).
  Context (e : cmd_env).

Definition chainDomain (chain : bytes) : bytes :=
  if negb (bool_decide (auditDomain e = [])) then auditDomain e
  else if Contains chain (B "audit-router") then B "router"
  else if Contains chain (B "audit-broker") then B "broker"
  else if Contains chain (B "audit-egress") then B "egress-proxy"
  else if Contains (Base chain) (B "control") then B "control"
  else B "collector".

Inductive key_source := FromFile (name : bytes) | FromArg | FromSeed | FromPubFile.
Inductive key_error := UnreadableKeyFile | BadKeyHex | BadKeySize | NoKey.

Definition decodePubHex (s : bytes) (src : key_source) : result key_error (bytes * key_source) :=
  match DecodeString (TrimSpaceB s) with
  | None => Err BadKeyHex
  | Some b => if negb (len b =? PublicKeySize) then Err BadKeySize else Ok (b, src)
  end.

Definition sealedAuditPub : option bytes :=
  match sealedSeed e with
  | Some seed => if (length seed <? SeedSize)%nat then None else Some (NewKeyFromSeed e (take SeedSize seed))
  | None => None
  end.

Definition default_pub : result key_error (bytes * key_source) :=
  match sealedAuditPub with
  | Some pub => Ok (pub, FromSeed)
  | None => match pubFile e with Some data => decodePubHex data FromPubFile | None => Err NoKey end
  end.

Definition resolveAuditPub (rest : list bytes) : result key_error (bytes * key_source) :=
  match rest with
  | a :: _ =>
      if bool_decide (a = []) then default_pub
      else match CutPrefix (B "@") a with
      | Some name => match ReadFile e name with
                     | Some data => decodePubHex data (FromFile name)
                     | None => Err UnreadableKeyFile
                     end
      | None => decodePubHex a FromArg
      end
  | [] => default_pub
  end.

(** The head a --since value stands for. *)
Definition since_head (v : bytes) : option bytes :=
  match (match CutPrefix (B "@") v with Some name => ReadFile e name | None => Some v end) with
  | Some s => match DecodeString (TrimSpaceB s) with
              | Some h => if len h =? Size then Some h else None
              | None => None
              end
  | None => None
  end.

(** How the command ends; the last case carries what it printed. *)
Inductive outcome :=
| Usage | BadArgs (x : arg_error) | KeyUnavailable (x : key_error) | BadSince
| Invalid (n : nat) (x : verr) | Verified (d : verdict) (w : rewind) (t : tip_check) (ok : bool).

Definition exit_status (o : outcome) : Z :=
  match o with
  | Usage => 2
  | BadArgs _ | KeyUnavailable _ | BadSince | Invalid _ _ => 1
  | Verified _ _ _ ok => if ok then 0 else 1
  end.

Definition cmdVerifyAudit (args : list bytes) : outcome :=
  match args with
  | [] => Usage
  | chain :: args =>
      match parseVerifyArgs args with
      | Err x => BadArgs x
      | Ok (sinceArg, expectTip, rest) =>
          match resolveAuditPub rest with
          | Err x => KeyUnavailable x
          | Ok (pub, src) =>
              match (if bool_decide (sinceArg = []) then Some None else Some <$> since_head sinceArg) with
              | None => BadSince
              | Some since =>
                  let '(segs, live) := chainFiles e chain in
                  match verifySegmentedChain Unmarshal bytes EdVerify pub (chainDomain chain) since segs live with
                  | (n, Err x) => Invalid n x
                  | (_, Ok d) => let '(w, t, ok) := audit_verdict since expectTip d in Verified d w t ok
                  end
              end
          end
      end
  end.

(** ** The flags that count *)

(** The value of the last flag with the given prefix. *)
Fixpoint last_flag (flag : bytes) (args : list bytes) : option bytes :=
  match args with
  | [] => None
  | a :: args => match last_flag flag args with Some v => Some v | None => CutPrefix flag a end
  end.

Lemma CutPrefix_Some p a v : CutPrefix p a = Some v <-> a = p ++ v.
Proof.
  revert a. induction p as [|c p IH]; intros a; cbn [CutPrefix app].
  { split; congruence. }
  destruct a as [|d a]; [done|]. destruct (Ascii.eqb_spec c d) as [->|]; [rewrite IH|]; split; congruence.
Qed.

Lemma sinceFlag_not_tip a v : CutPrefix sinceFlag a = Some v -> CutPrefix tipFlag a = None.
Proof. by intros ->%CutPrefix_Some. Qed.

Definition is_flag (a : bytes) : bool := match CutPrefix (B "-") a with Some _ => true | None => false end.
Definition known (a : bytes) : Prop :=
  match CutPrefix sinceFlag a, CutPrefix tipFlag a with
  | Some v, _ => TrimSpaceB v <> []
  | _, Some v => ToLower (TrimSpaceB v) <> []
  | None, None => is_flag a = false
  end.

(** The arguments that are no flags. *)
Definition positional (args : list bytes) : list bytes := List.filter (fun a => negb (is_flag a)) args.

Lemma flag_is_flag f a v : is_flag f = true -> CutPrefix f a = Some v -> is_flag a = true.
Proof.
  unfold is_flag. destruct (CutPrefix (B "-") f) as [g|] eqn:E; [|done]. apply CutPrefix_Some in E as ->. intros _ ->%CutPrefix_Some.
  rewrite <- app_assoc. by rewrite (proj2 (CutPrefix_Some (B "-") _ (g ++ v))).
Qed.

Lemma positional_flag f a v args : is_flag f = true -> CutPrefix f a = Some v -> positional (a :: args) = positional args.
Proof. intros Hf Ha. unfold positional. cbn [List.filter]. by rewrite (flag_is_flag f a v). Qed.

Lemma parse_flags_spec args s t rest s' t' rest' :
  parse_flags args s t rest = Ok (s', t', rest') ->
  Forall known args
  /\ s' = default s (last_flag sinceFlag args)
  /\ t' = default t ((fun v => ToLower (TrimSpaceB v)) <$> last_flag tipFlag args)
  /\ (forall v, last_flag sinceFlag args = Some v -> v <> [])
  /\ (forall v, last_flag tipFlag args = Some v -> ToLower (TrimSpaceB v) <> [])
  /\ rest' = rest ++ positional args /\ (length rest' <= 1)%nat.
Proof.
  revert s t rest. induction args as [|a args IH]; intros s t rest; cbn [parse_flags last_flag].
  { destruct (Nat.ltb_spec 1 (length rest)); [done|]. intros [= <- <- <-]. cbn [positional List.filter]. rewrite app_nil_r. split_and!; done. }
  destruct (CutPrefix sinceFlag a) as [v|] eqn:Es.
  - destruct (bool_decide _) eqn:Eb; [done|]. apply bool_decide_eq_false in Eb.
    intros (Hk & Hs & Ht & Hs0 & Ht0 & Hp & Hr)%IH. rewrite (sinceFlag_not_tip _ _ Es), (positional_flag sinceFlag a v) by done.
    assert (v <> []) as Hv by (intros ->; by apply Eb). subst.
    destruct (last_flag sinceFlag args) as [v'|], (last_flag tipFlag args) as [w|]; split_and!;
      try done; try (constructor; [unfold known; by rewrite Es|done]); intros ? [= <-]; auto.
  - destruct (CutPrefix tipFlag a) as [v|] eqn:Et; cbv zeta.
    + destruct (bool_decide _) eqn:Eb; [done|]. apply bool_decide_eq_false in Eb.
      intros (Hk & Hs & Ht & Hs0 & Ht0 & Hp & Hr)%IH. rewrite (positional_flag tipFlag a v) by done. subst.
      destruct (last_flag sinceFlag args) as [v'|], (last_flag tipFlag args) as [w|]; split_and!;
        try done; try (constructor; [unfold known; by rewrite Es, Et|done]); intros ? [= <-]; auto.
    + destruct (CutPrefix (B "-") a) eqn:Ed; [done|]. intros (Hk & Hs & Ht & Hs0 & Ht0 & Hp & Hr)%IH.
      assert (positional (a :: args) = a :: positional args) as ->.
      { unfold positional. cbn [List.filter]. unfold is_flag at 1. by rewrite Ed. }
      rewrite <- app_assoc in Hp. cbn [app] in Hp. subst.
      destruct (last_flag sinceFlag args) as [v'|], (last_flag tipFlag args) as [w|]; split_and!;
        try done; constructor; try done; unfold known, is_flag; by rewrite Es, Et, Ed.
Qed.

(** *** The key *)

(** A value that is given directly, or as the name of a file after an at sign. *)
Definition given_text (v text : bytes) : Prop :=
  match CutPrefix (B "@") v with Some name => ReadFile e name = Some text | None => text = v end.

Definition hex_of (n : Z) (text b : bytes) : Prop := DecodeString (TrimSpaceB text) = Some b /\ len b = n.

(** Where the key comes from: the only argument that is no flag; without one the sealed seed,
    and only without a seed the file beside the chain. *)
Inductive key_from (args : list bytes) (pub : bytes) : Prop :=
| key_given a text : positional args = [a] -> a <> [] -> given_text a text -> hex_of 32 text pub -> key_from args pub
| key_sealed seed : positional args = [] \/ positional args = [[]] -> sealedSeed e = Some seed -> (32 <= length seed)%nat ->
    pub = NewKeyFromSeed e (take 32 seed) -> key_from args pub
| key_beside data : positional args = [] \/ positional args = [[]] ->
    (forall seed, sealedSeed e = Some seed -> (length seed < 32)%nat) -> pubFile e = Some data -> hex_of 32 data pub -> key_from args pub.

Lemma decodePubHex_ok s src pub src' : decodePubHex s src = Ok (pub, src') -> hex_of 32 s pub.
Proof.
  unfold decodePubHex, hex_of, PublicKeySize. destruct (DecodeString (TrimSpaceB s)) as [b|]; [|done].
  destruct (Z.eqb_spec (len b) 32); [|done]. by intros [= <- <-].
Qed.

Lemma default_pub_from args pub src :
  positional args = [] \/ positional args = [[]] -> default_pub = Ok (pub, src) -> key_from args pub.
Proof.
  intros Hp. unfold default_pub, sealedAuditPub. destruct (sealedSeed e) as [seed|] eqn:Es.
  - unfold SeedSize. destruct (Nat.ltb_spec (length seed) 32).
    + destruct (pubFile e) as [data|] eqn:Ef; [|done]. intros ?%decodePubHex_ok. eapply key_beside; try done. intros s'. rewrite Es. by intros [= <-].
    + intros [= <- _]. by eapply key_sealed.
  - destruct (pubFile e) as [data|] eqn:Ef; [|done]. intros ?%decodePubHex_ok. eapply key_beside; try done. intros s'. by rewrite Es.
Qed.

Lemma resolveAuditPub_from args pub src :
  (length (positional args) <= 1)%nat -> resolveAuditPub (positional args) = Ok (pub, src) -> key_from args pub.
Proof.
  destruct (positional args) as [|a [|b l]] eqn:Ep; cbn [length]; intros Hl; [| |lia]; cbn [resolveAuditPub].
  - apply default_pub_from. auto.
  - case_bool_decide as Ha; [subst; apply default_pub_from; auto|]. destruct (CutPrefix (B "@") a) as [name|] eqn:Ec.
    + destruct (ReadFile e name) as [data|] eqn:Er; [|done]. intros ?%decodePubHex_ok. eapply key_given; try done.
      unfold given_text. by rewrite Ec.
    + intros ?%decodePubHex_ok. eapply key_given; try done. unfold given_text. by rewrite Ec.
Qed.

Lemma since_head_ok v h : since_head v = Some h -> exists text, given_text v text /\ hex_of 32 text h.
Proof.
  unfold since_head, given_text, hex_of. destruct (match CutPrefix (B "@") v with Some _ => _ | None => _ end) as [text|] eqn:E; [|done].
  destruct (DecodeString (TrimSpaceB text)) as [b|] eqn:Ed; [|done]. destruct (Z.eqb_spec (len b) Size); [|done]. intros [= <-].
  exists text. split; [|done]. destruct (CutPrefix (B "@") v); [done|]. by injection E.
Qed.

(** C30: Verify-audit fails closed. If it exits with 0, every flag is known and has a value and
    at most one argument is no flag; the whole chain verified with the key that argument names,
    or without one with the sealed seed's key, or without a seed with the one beside the chain;
    and no requested check was skipped: the last --since value was read to a head of 32 bytes,
    with which the chain was checked, and it is genesis or an ancestor of the tip; the last
    --expect-tip value is the tip. So an unknown or empty flag, an extra argument, an
    unreadable key or head, or a broken chain ends in a non-zero status. *)
Theorem verify_command_fails_closed chain args :
  exit_status (cmdVerifyAudit (chain :: args)) = 0 ->
  Forall known args /\ (length (positional args) <= 1)%nat
  /\ exists pub since n d,
    key_from args pub
    /\ verifySegmentedChain Unmarshal bytes EdVerify pub (chainDomain chain) since (chainFiles e chain).1 (chainFiles e chain).2 = (n, Ok d)
    /\ (last_flag sinceFlag args = None -> since = None)
    /\ (forall v, last_flag sinceFlag args = Some v ->
          exists h text, given_text v text /\ hex_of 32 text h /\ since = Some h /\ (h = zeroHash \/ vd_found d = true))
    /\ (forall v, last_flag tipFlag args = Some v ->
          EncodeToString (headOrZero (vd_tip d)) = ToLower (TrimSpaceB v)).
Proof.
  unfold cmdVerifyAudit, parseVerifyArgs. destruct (parse_flags args [] [] []) as [[[s t] rest]|] eqn:Ep; [|done].
  apply parse_flags_spec in Ep as (Hk & -> & -> & Hs & Ht & -> & Hr). cbn [app] in *.
  destruct (resolveAuditPub (positional args)) as [[pub src]|] eqn:Er; [|done]. apply resolveAuditPub_from in Er; [|done].
  destruct (if bool_decide _ then _ else _) as [since|] eqn:Es; [|done].
  assert (match last_flag sinceFlag args with Some v => exists h, since_head v = Some h /\ since = Some h | None => since = None end) as Hsince.
  { destruct (last_flag sinceFlag args) as [v|]; cbn [from_option id] in Es; [|by injection Es].
    rewrite bool_decide_false in Es by (by apply Hs). destruct (since_head v) as [h|]; [|done]. injection Es as <-. eauto. }
  clear Es. destruct (chainFiles e chain) as [segs live]. cbn [fst snd].
  destruct (verifySegmentedChain _ _ _ _ _ _ _ _) as [n [d|]] eqn:Ev; [|done].
  destruct (audit_verdict _ _ d) as [[w tc] ok] eqn:Ed. cbn [exit_status]. destruct ok; [|done]. intros _.
  split_and!; [done..|]. exists pub, since, n, d. split_and!; [done..| | |].
  - intros Hn. by rewrite Hn in Hsince.
  - intros v Hv. rewrite Hv in Hsince. destruct Hsince as (h & (text & Hg & Hh)%since_head_ok & ->).
    exists h, text. split_and!; try done. revert Ed.
    unfold audit_verdict. destruct (bool_decide (h = zeroHash)) eqn:Ez; [intros _; left; by apply bool_decide_eq_true in Ez|].
    destruct (vd_found d); [intros _; by right|]. repeat case_match; discriminate.
  - intros v Hv. specialize (Ht v Hv). rewrite Hv in Ed. cbn [from_option id fmap option_fmap option_map] in Ed. revert Ed.
    unfold audit_verdict. rewrite bool_decide_false by done.
    destruct (bool_decide (EncodeToString _ = _)) eqn:Eb; [intros _; by apply bool_decide_eq_true in Eb|]. discriminate.
Qed.
End command.

(** A chain with no record: the check against genesis passes, a head that is not in it fails. *)
Definition empty_env : cmd_env :=
  CmdEnv [] (Some (replicate 32 (byte_of 1))) (fun s => s) None (fun _ => None) (fun _ => ([], NotExist)).
Definition since_arg (h : bytes) : bytes := sinceFlag ++ EncodeToString h.
Definition no_verify : bytes -> bytes -> bytes -> bool := fun _ _ _ => false.

Example rewound_is_refused :
  exit_status (cmdVerifyAudit UnmarshalStrict no_verify empty_env [B "provenance.jsonl"; since_arg (replicate 32 (byte_of 1))]) = 1.
Proof. vm_compute. reflexivity. Qed.

Example misspelt_flag_is_refused :
  cmdVerifyAudit UnmarshalStrict no_verify empty_env [B "provenance.jsonl"; B "--sinc=00"] = BadArgs UnknownFlag.
Proof. vm_compute. reflexivity. Qed.

Lemma verify_command_fails_closed_witness :
  key_from empty_env [since_arg zeroHash] (replicate 32 (byte_of 1))
  /\ exists h text, given_text empty_env (EncodeToString zeroHash) text /\ hex_of 32 text h.
Proof.
  destruct (verify_command_fails_closed UnmarshalStrict no_verify empty_env
    (B "provenance.jsonl") [since_arg zeroHash] ltac:(vm_compute; reflexivity)) as (_ & _ & pub & since & n & d & Hk & _ & _ & H & _).
  split.
  - destruct Hk as [a text Hp|seed _ Hseed _ Hpub|data _ Hno]; [discriminate Hp| |].
    + injection Hseed as <-. subst pub. eapply key_sealed; [left; reflexivity|reflexivity|vm_compute; lia|reflexivity].
    + specialize (Hno _ eq_refl). vm_compute in Hno. lia.
  - destruct (H (EncodeToString zeroHash) ltac:(vm_compute; reflexivity)) as (h & text & Hg & Hh & _). exists h, text. split; assumption.
Defined.
