(* ===== verification/AuditFiles.v ===== *)
(** * Files of a chain: names, listings and lines

    Lemmas on the directory of a chain: the number of a segment is read back from its name,
    a directory whose segments are known is listed in ascending order, and a file of
    records is split into the lines that were written, with or without a torn tail. *)
From Stdlib Require Import ZArith Lia Ascii String.
From stdpp Require Import base tactics numbers option strings list gmap sorting.
From S2P Require Import Prelude Maps Bytes Sha256 Json Control Broker Verify AuditLog.
#[local] Open Scope string_scope.
#[local] Open Scope list_scope.
#[local] Open Scope Z_scope.
#[local] Opaque Sum256.

(** ** Segment names *)
Lemma all_chars_app f a b : all_chars f (a ++ b)%string = all_chars f a && all_chars f b.
Proof.
  induction a as [|c a IH]; [done|]. change (String c a ++ b)%string with (String c (a ++ b)%string).
  cbn [all_chars]. by rewrite IH, andb_assoc.
Qed.

Lemma Itoa_digits fuel n : 0 <= n -> all_chars is_digit (Itoa_fuel fuel n) = true.
Proof.
  revert n. induction fuel as [|fuel IH]; intros n Hn; [done|]. cbn [Itoa_fuel]. destruct (Z.ltb_spec n 10).
  - destruct (Itoa_digit_spec n) as (c & -> & Hd & _); [lia|]. cbn. by rewrite Hd.
  - rewrite all_chars_app, IH by (apply Z.div_pos; lia).
    destruct (Itoa_digit_spec (n mod 10)) as (c & -> & Hd & _); [apply Z.mod_pos_bound; lia|]. cbn. by rewrite Hd.
Qed.

Lemma digits_all s acc : all_chars is_digit s = true -> (digits acc s).2 = "".
Proof.
  revert acc. induction s as [|c s IH]; intros acc; [done|]. cbn [all_chars digits].
  intros [-> H]%andb_prop. by apply IH.
Qed.

Definition zeros (k : nat) : string := String.concat "" (replicate k "0").

Lemma zeros_S k : zeros (S k) = String "0" (zeros k).
Proof. by destruct k. Qed.

Lemma zeros_digits k : all_chars is_digit (zeros k) = true.
Proof. induction k as [|k IH]; [done|]. by rewrite zeros_S. Qed.

Lemma digits_zeros k s : digits 0 (zeros k ++ s)%string = digits 0 s.
Proof. induction k as [|k IH]; [done|]. rewrite zeros_S. exact IH. Qed.

Lemma parse_pad6 n : 0 <= n < 2 ^ 64 -> parse_digits (pad6 n) = Some n.
Proof.
  intros Hn. unfold parse_digits, all_digits, pad6. rewrite !Itoa_nonneg by lia.
  set (k := (6 - String.length _)%nat). fold (zeros k).
  rewrite all_chars_app, zeros_digits, Itoa_digits by lia.
  destruct (Itoa_first 19 n) as (c & s & E & _); [lia|].
  assert (zeros k ++ Itoa_fuel 20 n <> "")%string as Hne by (rewrite E; destruct k; [done|by rewrite zeros_S]).
  apply String.eqb_neq in Hne. rewrite Hne. cbn [negb andb]. rewrite digits_zeros.
  destruct (digits_Itoa 20 n) as [j Hj]; [cbn; lia|]. specialize (Hj 0 ""). rewrite append_nil_r in Hj.
  rewrite Hj. cbn [digits fst]. rewrite Z.mul_0_l, Z.add_0_l. by rewrite (proj2 (Z.ltb_lt n _)) by lia.
Qed.

Lemma seg_number_name base n : 0 <= n < 2 ^ 64 -> seg_number base (segmentName base n) = Some n.
Proof.
  intros Hn. unfold seg_number, segmentName.
  rewrite (proj2 (TrimPrefix_spec (base ++ ".") _ (pad6 n))); [by apply parse_pad6|by rewrite <- append_assoc].
Qed.

Lemma seg_number_base base : seg_number base base = None.
Proof.
  unfold seg_number. destruct (TrimPrefix_opt _ _) as [s|] eqn:E; [|done]. apply TrimPrefix_spec in E.
  apply (f_equal String.length) in E. rewrite !append_length in E. cbn in E. lia.
Qed.

Lemma segmentName_base base n : segmentName base n <> base.
Proof.
  intros E. apply (f_equal String.length) in E. unfold segmentName in E. rewrite !append_length in E. cbn in E. lia.
Qed.

Lemma segmentName_inj base m n :
  0 <= m < 2 ^ 64 -> 0 <= n < 2 ^ 64 -> segmentName base m = segmentName base n -> m = n.
Proof. intros Hm Hn E. apply (f_equal (seg_number base)) in E. rewrite !seg_number_name in E by lia. congruence. Qed.

(** ** Listings *)
Lemma omap_NoDup {A B} (f : A -> option B) l :
  NoDup l -> (forall x y z, x ∈ l -> y ∈ l -> f x = Some z -> f y = Some z -> x = y) -> NoDup (omap f l).
Proof.
  induction 1 as [|x l Hx Hl IH]; intros Hinj; [constructor|]. cbn.
  assert (NoDup (omap f l)) as IH' by (apply IH; intros; eapply Hinj; [by right|by right|done|done]).
  destruct (f x) as [z|] eqn:E; [|done]. constructor; [|done].
  intros (y & Hy & Ey)%list_elem_of_omap. apply Hx. rewrite (Hinj x y z); [done|by left|by right|done|done].
Qed.

(** A directory in which exactly the given numbers have a segment, under their own name. *)
Definition holds_segments (base : string) (ns : list Z) (fs : dir) : Prop :=
  (forall n, n ∈ ns -> is_Some (fs !! segmentName base n))
  /\ (forall name n, is_Some (fs !! name) -> seg_number base name = Some n -> n ∈ ns /\ name = segmentName base n).

Lemma listSegments_sorted base ns fs :
  StronglySorted Z.lt ns -> Forall (fun n => 0 <= n < 2 ^ 64) ns -> holds_segments base ns fs ->
  listSegments base fs = ns.
Proof.
  intros Hs Hr [H1 H2]. unfold listSegments. rewrite Forall_forall in Hr.
  apply (StronglySorted_unique Z.le).
  - apply Sorted_StronglySorted; [intros ?; lia|]. apply Sorted_merge_sort. intros ?; lia.
  - clear -Hs. induction Hs as [|n ns Hs IH Hn]; constructor; [done|].
    eapply Forall_impl; [exact Hn|]. intros m Hm. cbn in Hm. lia.
  - rewrite merge_sort_Permutation. apply NoDup_Permutation.
    + apply omap_NoDup; [apply NoDup_fst_map_to_list|]. intros x y z Hx Hy Ex Ey.
      apply list_elem_of_fmap in Hx as ([x' bx] & -> & Hx%elem_of_map_to_list).
      apply list_elem_of_fmap in Hy as ([y' by'] & -> & Hy%elem_of_map_to_list). cbn [fst] in *.
      destruct (H2 x' z) as [_ ->]; [eauto|done|]. destruct (H2 y' z) as [_ ->]; [eauto|done|]. done.
    + clear -Hs. induction Hs as [|n ns Hs IH Hn]; constructor; [|done].
      intros Hin. rewrite Forall_forall in Hn. specialize (Hn n Hin). lia.
    + intros n. rewrite list_elem_of_omap. split.
      * intros (name & Hname & En). apply list_elem_of_fmap in Hname as ([x b] & -> & Hx%elem_of_map_to_list).
        by eapply H2.
      * intros Hn. destruct (H1 n Hn) as [b Hb]. exists (segmentName base n). split.
        -- apply list_elem_of_fmap. exists (segmentName base n, b). split; [done|by apply elem_of_map_to_list].
        -- apply seg_number_name. by apply Hr.
Qed.

(** ** Lines *)

(** The content of a file of records. *)
Definition flat (rs : list auditRecord) : bytes := rs ≫= line_of.

(** A live file: its records and a possible torn tail. *)
Definition content (rs : list auditRecord) (frag : bytes) : bytes := flat rs ++ frag.

Lemma content_nil rs : content rs [] = flat rs.
Proof. apply app_nil_r. Qed.

Lemma flat_cons r rs : flat (r :: rs) = line_of r ++ flat rs.
Proof. unfold flat. by rewrite bind_cons. Qed.

Lemma flat_app a b : flat (a ++ b) = flat a ++ flat b.
Proof. unfold flat. by rewrite bind_app. Qed.

Lemma flat_single r : flat [r] = line_of r.
Proof. unfold flat. rewrite bind_cons. by rewrite app_nil_r. Qed.

Lemma marshal_no_newline r : typed r -> no_newline (Marshal r).
Proof. intros H. apply clean_no_newline. by destruct (marshal_shape r H) as (_ & _ & ?). Qed.

Lemma ScanLines_flat rs f : Forall typed rs -> ScanLines (flat rs ++ f) = (Marshal <$> rs) ++ ScanLines f.
Proof.
  induction 1 as [|r rs Hr Hrs IH]; [done|]. rewrite flat_cons. unfold line_of.
  rewrite <- !app_assoc. cbn [app]. rewrite ScanLines_line by (by apply marshal_no_newline).
  rewrite fmap_cons. cbn [app]. by rewrite IH.
Qed.

Lemma SplitLines_line a l : no_newline a -> SplitLines (a ++ newline :: l) = a :: SplitLines l.
Proof.
  unfold no_newline. induction a as [|c a IH]; intros Hn; [done|].
  apply not_elem_of_cons in Hn as [Hc Ha]. cbn [app SplitLines]. rewrite IH by done.
  by destruct (Ascii.eqb_spec c newline) as [->|].
Qed.

Lemma SplitLines_last a : no_newline a -> SplitLines a = [a].
Proof.
  unfold no_newline. induction a as [|c a IH]; intros Hn; [done|].
  apply not_elem_of_cons in Hn as [Hc Ha]. cbn [SplitLines]. rewrite IH by done.
  by destruct (Ascii.eqb_spec c newline) as [->|].
Qed.

Lemma SplitLines_flat rs f : Forall typed rs -> SplitLines (flat rs ++ f) = (Marshal <$> rs) ++ SplitLines f.
Proof.
  induction 1 as [|r rs Hr Hrs IH]; [done|]. rewrite flat_cons. unfold line_of.
  rewrite <- !app_assoc. cbn [app]. rewrite SplitLines_line by (by apply marshal_no_newline).
  rewrite fmap_cons. cbn [app]. by rewrite IH.
Qed.

Lemma trim_marshal r : typed r -> TrimSpaceB (Marshal r) = Marshal r.
Proof. intros H. destruct (marshal_shape r H) as (l & -> & _). by apply TrimSpaceB_id. Qed.

Lemma trim_line r : typed r -> TrimSpaceB (dropCR (Marshal r)) = Marshal r.
Proof.
  intros H. destruct (marshal_shape r H) as (l & -> & _).
  rewrite app_comm_cons, dropCR_id by done. by apply TrimSpaceB_id.
Qed.

Lemma trim_newline a l z :
  between 33 126 a = true -> between 33 126 z = true ->
  TrimSpaceB ((a :: l ++ [z]) ++ [newline]) = a :: l ++ [z].
Proof.
  intros Ha Hz. pose proof (TrimSpaceB_id a l z Ha Hz) as E. unfold TrimSpaceB in *.
  rewrite trim_left_id in E by done. rewrite <- app_comm_cons, trim_left_id by done.
  rewrite app_comm_cons, rev_app_distr. exact E.
Qed.

Lemma enclosed {A} (a y b z : A) l x m : exists k, (a :: l ++ [y]) ++ x ++ (b :: m ++ [z]) = a :: k ++ [z].
Proof. exists ((l ++ [y]) ++ x ++ b :: m). cbn [app]. f_equal. by rewrite <- !app_assoc. Qed.

(** The lines of a file without a torn tail, as [lastChainHash] splits them. *)
Lemma trim_flat rs r : Forall typed (rs ++ [r]) -> TrimSpaceB (flat (rs ++ [r])) = flat rs ++ Marshal r.
Proof.
  intros [Hrs [Hr _]%Forall_cons]%Forall_app.
  assert (exists l, flat rs ++ Marshal r = byte_of 123 :: l ++ [byte_of 125]) as [l El].
  { destruct (marshal_shape r Hr) as (l & -> & _). destruct Hrs as [|r0 rs Hr0 Hrs]; [by eexists|].
    destruct (marshal_shape r0 Hr0) as (l0 & E0 & _). rewrite flat_cons. unfold line_of. rewrite E0, <- !app_assoc.
    rewrite (app_assoc [newline]). apply enclosed. }
  rewrite flat_app, flat_single. unfold line_of. rewrite app_assoc, El. by apply trim_newline.
Qed.

Lemma trim_rev_suffix l : exists t, l = t ++ trim_rev l.
Proof.
  induction l as [l IH] using (induction_ltof1 _ (@length ascii)). unfold ltof in IH.
  assert (forall p l', l = p ++ l' -> p <> [] -> exists t, l = t ++ trim_rev l') as Hstep.
  { intros p l' -> Hp. destruct (IH l') as [t Ht]; [rewrite length_app; destruct p; [done|cbn; lia]|].
    exists (p ++ t). by rewrite <- app_assoc, <- Ht. }
  destruct l as [|a l1]; [by exists []|]. cbn [trim_rev]. destruct (space1 a); [by apply (Hstep [a] l1)|].
  destruct l1 as [|b l2]; [by exists []|]. destruct (space2 b a); [by apply (Hstep [a; b] l2)|].
  destruct l2 as [|c l3]; [by exists []|]. destruct (space3 c b a); [by apply (Hstep [a; b; c] l3)|]. by exists [].
Qed.

(** Trimming the front of an object leaves the front of an object. *)
Lemma trim_prefix a l : between 33 126 a = true -> exists l' t, TrimSpaceB (a :: l) = a :: l' /\ l = l' ++ t.
Proof.
  intros Ha. unfold TrimSpaceB. rewrite trim_left_id by done. destruct (trim_rev_suffix (rev (a :: l))) as [t Ht].
  apply (f_equal (@rev _)) in Ht. rewrite rev_involutive, rev_app_distr in Ht.
  destruct (rev (trim_rev (rev (a :: l)))) as [|b l'] eqn:E.
  - exfalso. apply (f_equal (@rev _)) in E. rewrite rev_involutive in E. cbn [rev] in E.
    assert (forall x, trim_rev (x ++ [a]) <> []) as Hne; [|by apply (Hne (rev l))].
    clear -Ha. intros x. induction x as [x IH] using (induction_ltof1 _ (@length ascii)). unfold ltof in IH.
    destruct x as [|b x]; [cbn [app]; by rewrite trim_rev_id|]. cbn [app trim_rev].
    destruct (space1 b); [apply IH; cbn; lia|]. destruct x as [|c x]; cbn [app].
    { assert (space2 a b = false) as ->; [|done]. unfold between in Ha. apply andb_prop in Ha as [_ Ha%Z.leb_le].
      unfold space2. by rewrite (proj2 (Z.eqb_neq (val a) 194)) by lia. }
    destruct (space2 c b); [apply IH; cbn; lia|]. destruct x as [|d x]; cbn [app].
    { assert (space3 a c b = false) as ->; [|done]. unfold between in Ha. apply andb_prop in Ha as [_ Ha%Z.leb_le].
      unfold space3. by rewrite !(proj2 (Z.eqb_neq (val a) _)) by lia. }
    destruct (space3 d c b); [apply IH; cbn; lia|done].
  - cbn [app] in Ht. injection Ht as -> ->. eauto.
Qed.

Lemma dropCR_prefix l : exists t, l = dropCR l ++ t.
Proof.
  unfold dropCR. destruct (rev l) as [|c r] eqn:E; [exists []; by rewrite app_nil_r|].
  destruct (val c =? 13); [|exists []; by rewrite app_nil_r].
  exists [c]. apply (f_equal (@rev _)) in E. rewrite rev_involutive in E. exact E.
Qed.

(** What the verifier makes of a torn record: a proper prefix of it, not empty. *)
Lemma torn_line r f t :
  typed r -> f <> [] -> t <> [] -> Marshal r = f ++ t ->
  exists t', t' <> [] /\ Marshal r = TrimSpaceB (dropCR f) ++ t' /\ TrimSpaceB (dropCR f) <> [].
Proof.
  intros Hr Hf Ht E. destruct (marshal_shape r Hr) as (l & El & _). rewrite El in E.
  destruct f as [|a f]; [done|]. injection E as <- E.
  destruct (dropCR_prefix (byte_of 123 :: f)) as [u Hu].
  destruct (dropCR (byte_of 123 :: f)) as [|b f'] eqn:Ed.
  { exfalso. unfold dropCR in Ed. destruct (rev (byte_of 123 :: f)) as [|c q] eqn:Er; [done|].
    destruct (Z.eqb_spec (val c) 13) as [Ec|]; [|done].
    apply (f_equal (@rev _)) in Ed. rewrite rev_involutive in Ed. subst q. apply (f_equal (@rev _)) in Er.
    rewrite rev_involutive in Er. injection Er as <- _. done. }
  injection Hu as <- ->. destruct (trim_prefix (byte_of 123) f' eq_refl) as (l' & w & -> & ->).
  exists (w ++ u ++ t). split_and!; [by destruct w, u| |done].
  rewrite El, E. cbn [app]. f_equal. by rewrite <- !app_assoc.
Qed.

(** [repairTornTail] keeps the lines and drops what follows the last one. *)
Lemma after_newline_none f : no_newline f -> after_newline f = 0%nat.
Proof.
  unfold no_newline. induction f as [|c f IH]; intros Hn; [done|]. apply not_elem_of_cons in Hn as [Hc Hf].
  cbn [after_newline]. rewrite IH by done. by destruct (Ascii.eqb_spec c newline) as [->|].
Qed.

Lemma after_newline_app a f : no_newline f -> after_newline (a ++ newline :: f) = S (length a).
Proof.
  intros Hf. induction a as [|c a IH]; cbn [app after_newline length]; [|by rewrite IH].
  by rewrite after_newline_none.
Qed.

Lemma flat_snoc_shape rs : rs <> [] -> exists l, flat rs = l ++ [newline].
Proof.
  destruct rs as [|r rs _] using rev_ind; [done|]. intros _. rewrite flat_app, flat_single. unfold line_of.
  exists (flat rs ++ Marshal r). by rewrite app_assoc.
Qed.

Lemma repair_flat rs f : no_newline f -> repairTornTail (flat rs ++ f) = flat rs.
Proof.
  intros Hf. unfold repairTornTail. rewrite rev_app_distr.
  destruct (rev f) as [|c q] eqn:E.
  - apply (f_equal (@rev _)) in E. rewrite rev_involutive in E. subst f. rewrite app_nil_r. cbn [app].
    destruct (decide (rs = [])) as [->|Hne]; [done|]. destruct (flat_snoc_shape rs Hne) as [l ->].
    rewrite rev_app_distr. done.
  - cbn [app]. assert (c <> newline) as Hc.
    { intros ->. apply Hf. apply list_elem_of_In, in_rev. rewrite E. by left. }
    destruct (Ascii.eqb_spec c newline); [done|].
    destruct (decide (rs = [])) as [->|Hne].
    + cbn [flat mbind list_bind app]. by rewrite after_newline_none.
    + destruct (flat_snoc_shape rs Hne) as [l ->]. rewrite <- app_assoc. cbn [app]. rewrite after_newline_app by done.
      rewrite cons_middle, app_assoc. apply take_app_length'. rewrite length_app. cbn. lia.
Qed.

(** ** Sizes *)
Lemma len_app a b : len (a ++ b) = len a + len b.
Proof. unfold len. rewrite length_app. lia. Qed.

Lemma len_cons c l : len (c :: l) = 1 + len l.
Proof. unfold len. cbn [length]. lia. Qed.

Lemma len_encode b : len (EncodeToString b) = 2 * len b.
Proof. induction b as [|c b IH]; [done|]. unfold EncodeToString in *. rewrite bind_cons, len_app, IH, len_cons. cbn [len length]. unfold len. cbn [length]. lia. Qed.

Lemma len_escape_ascii c : len (escape_ascii c) <= 6.
Proof. unfold escape_ascii. cbv zeta. repeat (destruct (_ || _) || destruct (_ =? _)); done. Qed.

Lemma len_escape_good b n : utf8_size b = S n -> length b = S n -> len (escape_chunk (Good b)) <= 6 * len b.
Proof.
  intros Hs Hl. unfold escape_chunk. destruct b as [|c [|d b]]; [done|pose proof (len_escape_ascii c); unfold len in *; cbn; lia|].
  destruct (bool_decide _); [|destruct (bool_decide _)]; rewrite !len_cons; try (change (len (B _)) with 6); unfold len; lia.
Qed.

Lemma len_escape s : len (escape s) <= 6 * len s.
Proof.
  unfold escape. induction s as [|c l Hs IH|b l n Hs Hl IH] using chunks_ind; [done| |].
  - rewrite chunks_cons, Hs, bind_cons, len_app, len_cons. change (len (escape_chunk (Bad c))) with 6. lia.
  - rewrite (chunks_good b l n) by done. rewrite bind_cons, !len_app.
    pose proof (len_escape_good b n (chunk_size b l n Hs Hl) Hl). lia.
Qed.

Lemma len_replace l i : len (replace_runs i (chunks l)) <= 3 * len l.
Proof.
  revert i. induction l as [|c l Hs IH|b l n Hs Hl IH] using chunks_ind; intros i; [done| |].
  - rewrite chunks_cons, Hs. cbn [replace_runs]. rewrite len_app, len_cons. specialize (IH true).
    destruct i; [change (len []) with 0|change (len RuneError) with 3]; lia.
  - rewrite (chunks_good b l n) by done. cbn [replace_runs]. rewrite !len_app. specialize (IH false). unfold len in *. lia.
Qed.

Lemma Itoa_fuel_length fuel n : (String.length (Itoa_fuel fuel n) <= fuel)%nat.
Proof.
  revert n. induction fuel as [|fuel IH]; intros n; [done|]. cbn [Itoa_fuel].
  destruct (n <? 10); [cbn; lia|]. rewrite append_length. specialize (IH (n / 10)). cbn [Itoa_digit String.length]. lia.
Qed.

Lemma length_B s : length (B s) = String.length s.
Proof. induction s as [|c s IH]; [done|]. cbn. by f_equal. Qed.

Lemma len_num n : len (num n) <= 21.
Proof.
  unfold num, len, Itoa. rewrite length_B. destruct (n <? 0).
  - rewrite append_length. pose proof (Itoa_fuel_length 20 (- n)). cbn [String.length]. lia.
  - pose proof (Itoa_fuel_length 20 n). lia.
Qed.

Lemma len_marshal r :
  len (Marshal r) <= 400 + 6 * (len (Comm r) + len (Hook r) + len (Decision_ r) + len (Mode r)
    + len (PrevHash r) + len (Hash r) + len (Sig r)).
Proof.
  unfold Marshal, str.
  repeat (rewrite len_app || rewrite len_cons).
  pose proof (len_num (Seq r)). pose proof (len_num (TS r)). pose proof (len_num (CgroupID r)). pose proof (len_num (PID r)).
  pose proof (len_escape (Comm r)). pose proof (len_escape (Hook r)). pose proof (len_escape (Decision_ r)).
  pose proof (len_escape (Mode r)). pose proof (len_escape (PrevHash r)). pose proof (len_escape (Hash r)).
  pose proof (len_escape (Sig r)).
  repeat match goal with |- context [len (key ?s)] => let v := eval vm_compute in (len (key s)) in change (len (key s)) with v end.
  change (len []) with 0. lia.
Qed.

Lemma hexdigit_ascii n : 0 <= n < 16 -> between 0 127 (hexdigit n) = true.
Proof.
  intros H. unfold between, hexdigit. rewrite val_byte_of. destruct (Z.ltb_spec n 10);
    rewrite Z.mod_small by lia; apply andb_true_intro; split; apply Z.leb_le; lia.
Qed.

Lemma encode_valid b : Valid (EncodeToString b) = true.
Proof.
  induction b as [|c b IH]; [done|]. unfold EncodeToString in *. rewrite bind_cons.
  pose proof (val_bound c). pose proof (Z.mod_pos_bound (val c) 16 eq_refl).
  assert (0 <= val c / 16 < 16) by (split; [apply Z.div_pos|apply Z.div_lt_upper_bound]; lia).
  change ([?x; ?y] ++ ?l) with ([x] ++ [y] ++ l).
  rewrite !(Valid_app_good [_] _ 0); [done|..]; try done; cbn [utf8_size]; by rewrite hexdigit_ascii.
Qed.
