(* ===== verification/AuditProps.v ===== *)
(** * The writer keeps its own chain verifiable

    Everything [append], [rotate], [pruneSegments] and [openAuditLog] leave in the
    directory, whatever faults they meet, is a chain the verifier accepts, and the tip the
    writer continues from is the tip the verifier computes. *)
From Stdlib Require Import ZArith Lia Ascii String.
From stdpp Require Import base tactics numbers option strings list gmap sorting.
From S2P Require Import Prelude Maps Bytes Sha256 Json Control Broker Verify AuditLog AuditFiles.
#[local] Open Scope string_scope.
#[local] Open Scope list_scope.
#[local] Open Scope Z_scope.
#[local] Opaque Sum256 canonical.

(** ** Chained records *)

(** A record whose line the verifier can read. *)
Definition readable (r : auditRecord) : Prop := typed r /\ utf8_record r /\ len (Marshal r) < maxToken.

Section chained.
  Context (domain : bytes) (sign : bytes -> bytes).
  Abbreviation link := (link domain).
  Abbreviation tip_of := (tip_of domain).

(** The records the writer produces after the tip [p] and the sequence number [s]. *)
Fixpoint chained (p : bytes) (s : Z) (rs : list auditRecord) : Prop :=
  match rs with
  | [] => True
  | r :: rs =>
      readable r /\ (Seq r = 1 \/ Seq r = u64 (s + 1)) /\ PrevHash r = EncodeToString p
      /\ Hash r = EncodeToString (link p r) /\ Sig r = EncodeToString (sign (link p r))
      /\ chained (link p r) (Seq r) rs
  end.

Definition last_seq (s : Z) (rs : list auditRecord) : Z := foldl (fun _ r => Seq r) s rs.

Lemma chained_app p s a b : chained p s (a ++ b) <-> chained p s a /\ chained (tip_of p a) (last_seq s a) b.
Proof.
  revert p s. induction a as [|r a IH]; intros p s; [cbn; tauto|]. cbn [app chained]. rewrite IH.
  change (tip_of p (r :: a)) with (tip_of (link p r) a). change (last_seq s (r :: a)) with (last_seq (Seq r) a). tauto.
Qed.

Lemma chained_readable p s rs : chained p s rs -> Forall readable rs.
Proof.
  revert p s. induction rs as [|r rs IH]; intros p s; [constructor|]. intros (Hr & _ & _ & _ & _ & H). constructor; [done|].
  by eapply IH.
Qed.

Lemma readable_typed rs : Forall readable rs -> Forall typed rs.
Proof. intros H. eapply Forall_impl; [exact H|]. by intros r [? _]. Qed.

Lemma chained_typed p s rs : chained p s rs -> Forall typed rs.
Proof. intros H. eapply readable_typed, chained_readable, H. Qed.
End chained.

#[export] Hint Resolve chained_typed chained_readable : core.

(** ** Acceptance *)
Section accept.
  Context (Unmarshal : bytes -> option auditRecord) {HJ : JsonReader Unmarshal}.
  Context (Key : Type) (EdVerify : Key -> bytes -> bytes -> bool) (pub : Key).
  Context (domain : bytes) (sign : bytes -> bytes) (since : option bytes).
  Context (Hsign : forall m, EdVerify pub m (sign m) = true).
  Abbreviation chained := (chained domain sign).
  Abbreviation link := (link domain).
  Abbreviation tip_of := (tip_of domain).
  Abbreviation check_record := (check_record Key EdVerify pub domain since).
  Abbreviation scan := (scan Unmarshal Key EdVerify pub domain since).
  Abbreviation verifyChainSegment := (verifyChainSegment Unmarshal Key EdVerify pub domain since).

Lemma check_record_chained anchor r v p s :
  chained p s [r] ->
  (v_first v && anchor = true /\ len p = Size) \/ (v_first v && anchor = false /\ v_prev v = p /\ v_seq v = s) ->
  exists v', check_record anchor r v = Ok v'
    /\ v_prev v' = link p r /\ v_seq v' = Seq r /\ v_first v' = false.
Proof.
  intros (_ & Hseq & Hprev & Hh & Hsg & _) Hstart. unfold check_record.
  assert (check_link anchor r v = Ok (p, Seq r)) as ->.
  { unfold check_link. rewrite Hprev. destruct Hstart as [[-> Hl]|(-> & -> & ->)].
    - rewrite decode_encode, Hl. reflexivity.
    - cbv zeta. rewrite hexEqual_encode. destruct (Z.eqb_spec (Seq r) 1) as [E1|E1].
      + rewrite E1. reflexivity.
      + destruct Hseq as [?|Hseq]; [done|]. rewrite Hseq, Z.eqb_refl. reflexivity. }
  cbv zeta. fold (link p r). rewrite Hh, hexEqual_encode, Hsg, decode_encode, Hsign. cbn [negb].
  eexists. split; [reflexivity|]. done.
Qed.

(** The loop over the lines of chained records. *)
Lemma scan_chained i re rs tail v p s :
  chained p s rs -> v_first v && anchorFirst i = false -> v_prev v = p -> v_seq v = s ->
  exists v', scan i re ((Marshal <$> rs) ++ tail) false v = scan i re tail false v'
    /\ v_prev v' = tip_of p rs /\ v_seq v' = last_seq s rs /\ v_first v' && anchorFirst i = false.
Proof.
  revert v p s. induction rs as [|r rs IH]; intros v p s Hc Hf Hp Hs.
  { exists v. done. }
  rewrite fmap_cons. cbn [app Verify.scan].
  destruct Hc as ((Ht & Hu & Hm) & Hseq & Hprev & Hh & Hsg & Hc). rewrite (proj2 (Z.leb_gt maxToken _)) by done.
  cbv zeta. rewrite trim_line by done. destruct (marshal_shape r Ht) as (l & El & _).
  rewrite bool_decide_false by (by rewrite El). rewrite unmarshal_marshal by done.
  destruct (check_record_chained (anchorFirst i) r v p s) as (v' & -> & Hp' & Hs' & Hf').
  { cbn. split_and!; done. } { right. done. }
  apply (IH v' (link p r) (Seq r)); [done|by rewrite Hf'|done..].
Qed.

Lemma scan_anchored i re r rs tail v p s :
  chained p s (r :: rs) -> v_first v && anchorFirst i = true -> len p = Size ->
  exists v', scan i re ((Marshal <$> r :: rs) ++ tail) false v = scan i re tail false v'
    /\ v_prev v' = tip_of p (r :: rs) /\ v_seq v' = last_seq s (r :: rs) /\ v_first v' && anchorFirst i = false.
Proof.
  intros Hc Hf Hp. rewrite fmap_cons. cbn [app Verify.scan].
  destruct Hc as ((Ht & Hu & Hm) & Hseq & Hprev & Hh & Hsg & Hc). rewrite (proj2 (Z.leb_gt maxToken _)) by done.
  cbv zeta. rewrite trim_line by done. destruct (marshal_shape r Ht) as (l & El & _).
  rewrite bool_decide_false by (by rewrite El). rewrite unmarshal_marshal by done.
  destruct (check_record_chained (anchorFirst i) r v p s) as (v' & -> & Hp' & Hs' & Hf').
  { cbn. split_and!; done. } { left. done. }
  apply (scan_chained i re rs tail v' (link p r) (Seq r)); [done|by rewrite Hf'|done..].
Qed.

(** A tail that an interrupted append may leave after the tip [p]: the front of a record. *)
Definition fragment (p : bytes) (s : Z) (f : bytes) : Prop :=
  f = [] \/ exists r t, chained p s [r] /\ Marshal r = f ++ t.

Lemma fragment_no_newline p s f : fragment p s f -> no_newline f.
Proof.
  intros [->|(r & t & ((Ht & _) & _) & E)]; [apply not_elem_of_nil|].
  apply marshal_no_newline in Ht. rewrite E in Ht. intros Hn. apply Ht, elem_of_app. by left.
Qed.

Lemma scan_fragment i f v p s :
  allowTornTail i = true -> fragment p s f -> v_first v && anchorFirst i = false -> v_prev v = p -> v_seq v = s ->
  exists n v', scan i false (ScanLines f) false v = (n, Ok v').
Proof.
  intros Htorn Hf Hfirst Hp Hs. pose proof (fragment_no_newline _ _ _ Hf) as Hn.
  destruct (decide (f = [])) as [->|Hne]; [by exists (v_n v), v|].
  destruct Hf as [?|(r & t & Hc & E)]; [done|]. destruct t as [|c t].
  - rewrite app_nil_r in E. rewrite ScanLines_last by done. rewrite <- E.
    destruct (scan_chained i false [r] [] v p s) as (v' & Hsc & _); [done..|].
    change ((Marshal <$> [r]) ++ []) with [Marshal r] in Hsc. rewrite Hsc. cbn [Verify.scan andb]. by eexists _, _.
  - rewrite ScanLines_last by done. destruct Hc as ((Ht & Hu & Hm) & _).
    destruct (torn_line r f (c :: t)) as (t' & Ht' & E' & Hne'); [done..|].
    cbn [Verify.scan]. assert (len f < maxToken) as Hl.
    { rewrite E, len_app in Hm. unfold len in *. lia. }
    rewrite (proj2 (Z.leb_gt maxToken _)) by done. cbv zeta. rewrite bool_decide_false by done.
    rewrite (unmarshal_cut r _ t') by done. rewrite Htorn. cbn [andb negb]. by eexists _, _.
Qed.

(** One file, by where it starts. *)
Lemma segment_accepted i rs p s :
  chained p s rs -> (anchorFirst i = true /\ rs <> [] /\ len p = Size) \/ (anchorFirst i = false /\ prev i = p /\ expectSeq i = s) ->
  exists n o, verifyChainSegment (Opened (flat rs) false) i = (n, Ok o) /\ prev o = tip_of p rs /\ expectSeq o = last_seq s rs.
Proof.
  intros Hc Hstart. unfold Verify.verifyChainSegment. rewrite <- (app_nil_r (flat rs)), ScanLines_flat by eauto.
  change (ScanLines []) with (@nil bytes).
  assert (exists v', scan i false ((Marshal <$> rs) ++ []) false (start i) = scan i false [] false v'
    /\ v_prev v' = tip_of p rs /\ v_seq v' = last_seq s rs) as (v' & -> & Hp & Hs).
  { destruct Hstart as [(Ha & Hne & Hl)|(Ha & Hp & Hs)].
    - destruct rs as [|r rs]; [done|].
      destruct (scan_anchored i false r rs [] (start i) p s) as (v' & E & ? & ? & _); [done..|]. eauto.
    - destruct (scan_chained i false rs [] (start i) p s) as (v' & E & ? & ? & _); [done..|]. eauto. }
  cbn [Verify.scan andb]. eexists _, _. split; [reflexivity|]. done.
Qed.

Lemma live_accepted i rs f p s :
  chained p s rs -> fragment (tip_of p rs) (last_seq s rs) f -> allowTornTail i = true ->
  anchorFirst i = false -> prev i = p -> expectSeq i = s ->
  exists n o, verifyChainSegment (Opened (flat rs ++ f) false) i = (n, Ok o).
Proof.
  intros Hc Hf Ht Ha Hp Hs. unfold Verify.verifyChainSegment. rewrite ScanLines_flat by eauto.
  destruct (scan_chained i false rs (ScanLines f) (start i) p s) as (v' & -> & Hp' & Hs' & Hf');
    [done|by rewrite Ha, andb_false_r|done|done|].
  destruct (scan_fragment i f v' (tip_of p rs) (last_seq s rs)) as (n & v2 & ->); [done..|]. by eexists _, _.
Qed.
End accept.

(** ** The directory of a chain *)

(** A sealed segment with its records, as the verifier meets it. *)
Definition sealed_file (s : Z * list auditRecord) : Z * opened := (s.1, Opened (flat s.2) false).

(** The numbered segments, the live file with a possible torn tail, and no other file that
    would be listed. Files of other chains may be there. *)
Record view (base : string) (segs : list (Z * list auditRecord)) (live : list auditRecord) (frag : bytes) (fs : dir)
    : Prop := {
  vw_live : fs !! base = Some (content live frag) \/ (live = [] /\ frag = [] /\ fs !! base = None);
  vw_segs : forall n rs, (n, rs) ∈ segs -> fs !! segmentName base n = Some (flat rs);
  vw_listed : forall name n, is_Some (fs !! name) -> seg_number base name = Some n ->
                n ∈ segs.*1 /\ name = segmentName base n;
  vw_sorted : StronglySorted Z.lt segs.*1;
  vw_range : Forall (fun n => 1 <= n < 2 ^ 64) segs.*1;
  vw_full : Forall (fun s => s.2 <> []) segs }.

Lemma view_lists base segs live frag fs : view base segs live frag fs -> listSegments base fs = segs.*1.
Proof.
  intros [_ Hs Hl Hso Hr _]. apply listSegments_sorted; [done| |].
  - eapply Forall_impl; [exact Hr|]. intros n Hn. cbn in Hn. lia.
  - split; [|done]. intros n ([m rs] & -> & H)%list_elem_of_fmap. cbn [fst]. rewrite (Hs m rs) by done. by eexists.
Qed.

Lemma view_files base segs live frag fs :
  view base segs live frag fs -> segment_files base fs = sealed_file <$> segs.
Proof.
  intros H. unfold segment_files. rewrite (view_lists _ _ _ _ _ H), <- list_fmap_compose.
  apply list_fmap_ext. intros i [n rs] Hi. apply list_elem_of_lookup_2 in Hi. cbn.
  unfold sealed_file, open_file. by rewrite (vw_segs _ _ _ _ _ H n rs) by done.
Qed.

(** All records of the view, oldest first. *)
Definition retained (segs : list (Z * list auditRecord)) (live : list auditRecord) : list auditRecord :=
  concat segs.*2 ++ live.

(** Records were dropped from the front only if the first segment is gone. *)
Definition prune_mark (pruned : list auditRecord) (segs : list (Z * list auditRecord)) : Prop :=
  pruned = [] \/ exists n rs segs', segs = (n, rs) :: segs' /\ 1 < n.

Section directory.
  Context (Unmarshal : bytes -> option auditRecord) {HJ : JsonReader Unmarshal}.
  Context (Key : Type) (EdVerify : Key -> bytes -> bytes -> bool) (pub : Key).
  Context (base : string) (domain : bytes) (sign : bytes -> bytes) (since : option bytes).
  Context (Hsign : forall m, EdVerify pub m (sign m) = true).
  Abbreviation chained := (chained domain sign).
  Abbreviation tip_of := (tip_of domain).
  Abbreviation verify_segments := (verify_segments Unmarshal Key EdVerify pub domain since).
  Abbreviation verifySegmentedChain := (verifySegmentedChain Unmarshal Key EdVerify pub domain since).

Lemma segments_accepted segs total seed p s :
  chained p s (concat segs.*2) -> prev seed = p -> expectSeq seed = s ->
  exists n o, verify_segments false (sealed_file <$> segs) total seed = (n, Ok o)
    /\ prev o = tip_of p (concat segs.*2) /\ expectSeq o = last_seq s (concat segs.*2).
Proof.
  revert total seed p s. induction segs as [|[num rs] segs IH]; intros total seed p s Hc Hp Hs.
  { by exists total, seed. }
  rewrite !fmap_cons in *. cbn [concat snd sealed_file fst Verify.verify_segments andb] in *.
  apply chained_app in Hc as [Hc1 Hc2].
  destruct (segment_accepted Unmarshal Key EdVerify pub domain sign since Hsign (with_flags false false seed) rs p s)
    as (n & o & -> & Hp' & Hs'); [done|by right|].
  destruct (IH (total + n)%nat o (tip_of p rs) (last_seq s rs)) as (n' & o' & -> & Hp2 & Hs2); [done..|].
  exists n', o'. split; [done|]. unfold Verify.tip_of, last_seq in *. by rewrite !foldl_app, Hp2, Hs2.
Qed.

(** The whole chain, whether its head was pruned or not. *)
Lemma view_accepted fs segs live frag pruned :
  view base segs live frag fs -> prune_mark pruned segs ->
  chained zeroHash 0 (pruned ++ retained segs live) ->
  fragment domain sign (tip_of zeroHash (pruned ++ retained segs live)) (last_seq 0 (pruned ++ retained segs live)) frag ->
  exists n d, verifySegmentedChain (segment_files base fs) (open_file fs base) = (n, Ok d).
Proof.
  intros Hv Hpm [Hpr Hc]%chained_app Hf. rewrite (view_files _ _ _ _ _ Hv).
  set (p := tip_of zeroHash pruned) in *. set (s := last_seq 0 pruned) in *.
  assert (len p = Size) as Hlen by (by apply len_tip). unfold retained in *. apply chained_app in Hc as [Hcs Hcl].
  assert (exists n o, verify_segments true (sealed_file <$> segs) 0 genesis = (n, Ok o)
    /\ prev o = tip_of p (concat segs.*2) /\ expectSeq o = last_seq s (concat segs.*2)) as (n & o & Es & Hp & Hs).
  { destruct segs as [|[num rs] segs].
    - destruct Hpm as [->|(? & ? & ? & [=] & _)]. by exists 0%nat, genesis.
    - rewrite !fmap_cons in *. cbn [concat snd sealed_file fst Verify.verify_segments andb Nat.add] in *.
      apply chained_app in Hcs as [Hc1 Hc2]. pose proof (vw_full _ _ _ _ _ Hv) as [Hne _]%Forall_cons.
      destruct (segment_accepted Unmarshal Key EdVerify pub domain sign since Hsign
        (with_flags false (negb (num =? 1)) genesis) rs p s) as (n & o & -> & Hp & Hs); [done| |].
      { destruct (Z.eqb_spec num 1) as [->|]; [right|by left].
        destruct Hpm as [->|(? & ? & ? & [= <- <- <-] & ?)]; [done|lia]. }
      destruct (segments_accepted segs n o (tip_of p rs) (last_seq s rs)) as (n' & o' & -> & Hp2 & Hs2); [done..|].
      exists n', o'. split; [done|]. unfold Verify.tip_of, last_seq in *. by rewrite !foldl_app, Hp2, Hs2. }
  unfold Verify.verifySegmentedChain. rewrite Es.
  assert (exists n' o', Verify.verifyChainSegment Unmarshal Key EdVerify pub domain since (open_file fs base)
    (with_flags true false o) = (n', Ok o')) as (n' & o' & ->); [|by eexists _, _].
  unfold open_file. destruct (vw_live _ _ _ _ _ Hv) as [->|(_ & _ & ->)]; [|by eexists _, _].
  eapply live_accepted; [done|done|exact Hcl| |done|done|by rewrite <- Hp|by rewrite <- Hs].
  revert Hf. unfold Verify.tip_of, last_seq, p, s. by rewrite !foldl_app.
Qed.

Lemma log_records_flat rs : Forall readable rs -> log_records Unmarshal (flat rs) = rs.
Proof.
  intros H. unfold log_records. rewrite <- (app_nil_r (flat rs)), ScanLines_flat by (by apply readable_typed).
  change (ScanLines []) with (@nil bytes). rewrite app_nil_r.
  induction H as [|r rs (Ht & Hu & Hm) Hrs IH]; [done|]. rewrite fmap_cons.
  change (omap (record_of Unmarshal) (Marshal r :: ?l)) with
    (match record_of Unmarshal (Marshal r) with Some r => r :: omap (record_of Unmarshal) l | None => omap (record_of Unmarshal) l end).
  assert (record_of Unmarshal (Marshal r) = Some r) as ->; [|by rewrite IH].
  unfold record_of. cbv zeta. rewrite trim_line by done. destruct (marshal_shape r Ht) as (l & El & _).
  rewrite bool_decide_false by (by rewrite El). by apply unmarshal_marshal.
Qed.

(** Without a torn tail, the records the verifier reads are the records written. *)
Lemma view_records fs segs live :
  view base segs live [] fs -> Forall readable (retained segs live) ->
  chain_records Unmarshal (segment_files base fs) (open_file fs base) = retained segs live.
Proof.
  intros Hv [Hr1 Hr2]%Forall_app. unfold chain_records. rewrite (view_files _ _ _ _ _ Hv). unfold retained. f_equal.
  - clear -Hr1 HJ. induction segs as [|[n rs] segs IH]; [done|]. rewrite !fmap_cons in *. cbn [concat snd] in Hr1 |- *.
    apply Forall_app in Hr1 as [H1 H2]. rewrite bind_cons. cbn [sealed_file snd file_records].
    rewrite log_records_flat by done. f_equal. by apply IH.
  - unfold open_file. destruct (vw_live _ _ _ _ _ Hv) as [->|(-> & _ & ->)]; [|done]. rewrite content_nil.
    by apply log_records_flat.
Qed.

(** The anchor the verifier takes is the tip of what was pruned. *)
Lemma view_anchor fs segs live frag pruned :
  view base segs live frag fs -> prune_mark pruned segs -> chained zeroHash 0 (pruned ++ retained segs live) ->
  chain_anchor Unmarshal (segment_files base fs) = tip_of zeroHash pruned.
Proof.
  intros Hv Hpm [_ Hc]%chained_app. rewrite (view_files _ _ _ _ _ Hv).
  destruct segs as [|[num rs] segs].
  { by destruct Hpm as [->|(? & ? & ? & [=] & _)]. }
  pose proof (vw_full _ _ _ _ _ Hv) as [Hne _]%Forall_cons. cbn [snd] in Hne.
  unfold retained in Hc. rewrite !fmap_cons in *. cbn [concat snd] in Hc. rewrite <- app_assoc in Hc.
  apply chained_app in Hc as [Hc _]. cbn [chain_anchor sealed_file fst snd file_records].
  rewrite log_records_flat by eauto. destruct rs as [|r rs]; [done|]. cbn [anchor_of].
  destruct Hc as (_ & _ & -> & _). rewrite decode_encode.
  destruct (Z.eqb_spec num 1) as [->|]; [|done]. cbn [negb].
  destruct Hpm as [->|(? & ? & ? & [= <- <- <-] & ?)]; [done|lia].
Qed.
End directory.
