(* ===== verification/AuditWriter.v ===== *)
(** * The invariant of the writer

    The directory holds a chain in sealed segments and a live file; what an open log
    remembers is its tip. Every operation keeps this, faults and losses of power included. *)
From Stdlib Require Import ZArith Lia Ascii String.
From stdpp Require Import base tactics numbers option strings list gmap sorting.
From S2P Require Import Prelude Maps Bytes Sha256 Json Control Broker Verify AuditLog AuditFiles AuditProps.
#[local] Open Scope string_scope.
#[local] Open Scope list_scope.
#[local] Open Scope Z_scope.
#[local] Opaque Sum256 canonical.

(** ** The file operations on a view *)
Section operations.
  Context (base : string).
  Abbreviation view := (view base).
  Abbreviation segmentName := (segmentName base).

Lemma view_base_present segs live frag fs :
  view segs live frag fs -> is_Some (fs !! base) -> fs !! base = Some (content live frag).
Proof. intros Hv [b Hb]. destruct (vw_live _ _ _ _ _ Hv) as [?|(_ & _ & ?)]; [done|congruence]. Qed.

Lemma view_range segs live frag fs n : view segs live frag fs -> n ∈ segs.*1 -> 1 <= n < 2 ^ 64.
Proof. intros Hv Hn. pose proof (vw_range _ _ _ _ _ Hv) as Hr. rewrite Forall_forall in Hr. by apply Hr. Qed.

(** A write to the live file leaves the segments as they are. *)
Lemma view_set segs live frag live' frag' fs :
  view segs live frag fs -> view segs live' frag' (<[base := content live' frag']> fs).
Proof.
  intros Hv. pose proof Hv as [_ Hs Hl Hso Hr Hf]. split; [left; by rewrite lookup_insert_eq| | |done..].
  - intros n rs Hn. rewrite lookup_insert_ne by (symmetry; apply segmentName_base). by apply Hs.
  - intros name n Hname En. apply Hl; [|done]. destruct (decide (name = base)) as [->|Hne].
    + by rewrite seg_number_base in En.
    + by rewrite lookup_insert_ne in Hname.
Qed.

Lemma view_create segs live fs :
  view segs live [] fs -> view segs live [] (create base fs) /\ is_Some (create base fs !! base).
Proof.
  intros Hv. unfold create, contents. split; [|rewrite lookup_insert_eq; by eexists].
  destruct (vw_live _ _ _ _ _ Hv) as [->|(-> & _ & ->)]; [by eapply view_set|].
  apply (view_set segs [] [] [] [] fs Hv).
Qed.

Lemma view_seal segs live fs n :
  view segs live [] fs -> live <> [] -> 1 <= n < 2 ^ 64 -> Forall (fun m => m < n) segs.*1 ->
  view (segs ++ [(n, live)]) [] [] (<[segmentName n := flat live]> (delete base fs)).
Proof.
  intros Hv Hne Hn Hlt. pose proof Hv as [_ Hs Hl Hso Hr Hf].
  assert (forall m, m ∈ segs.*1 -> segmentName n <> segmentName m) as Hfresh.
  { intros m Hm E. pose proof (view_range _ _ _ _ _ Hv Hm). apply segmentName_inj in E; [|lia..].
    rewrite Forall_forall in Hlt. specialize (Hlt m Hm). cbn in Hlt. lia. }
  split.
  - right. split_and!; [done..|]. rewrite lookup_insert_ne by apply segmentName_base. apply lookup_delete_eq.
  - intros m rs [Hm|[= -> ->]%list_elem_of_singleton]%elem_of_app; [|by rewrite lookup_insert_eq].
    rewrite lookup_insert_ne by (apply Hfresh, list_elem_of_fmap; by exists (m, rs)).
    rewrite lookup_delete_ne by (symmetry; apply segmentName_base). by apply Hs.
  - intros name m Hname Em. rewrite fmap_app, elem_of_app. destruct (decide (name = segmentName n)) as [->|Hname'].
    + rewrite seg_number_name in Em by lia. injection Em as <-. split; [right; by left|done].
    + rewrite lookup_insert_ne in Hname by done. destruct (decide (name = base)) as [->|].
      { by rewrite seg_number_base in Em. }
      rewrite lookup_delete_ne in Hname by done. destruct (Hl name m) as [? ->]; [done..|]. auto.
  - rewrite fmap_app. cbn [fmap list_fmap fst]. clear -Hso Hlt. induction segs as [|[m rs] segs IH]; [repeat constructor|].
    rewrite !fmap_cons in *. cbn [fst] in *. apply Forall_cons in Hlt as [Hm Hlt].
    apply StronglySorted_inv in Hso as [Hso Hm']. cbn [app]. constructor; [by apply IH|].
    apply Forall_app. split; [done|]. by repeat constructor.
  - rewrite fmap_app. apply Forall_app. split; [done|]. repeat constructor; cbn; lia.
  - apply Forall_app. split; [done|]. by repeat constructor.
Qed.

Lemma view_drop n rs segs live frag fs :
  view ((n, rs) :: segs) live frag fs -> view segs live frag (delete (segmentName n) fs).
Proof.
  intros Hv. pose proof Hv as [Hb Hs Hl Hso Hr Hf]. rewrite fmap_cons in *. cbn [fst] in *.
  apply StronglySorted_inv in Hso as [Hso Hlt].
  assert (forall m, m ∈ segs.*1 -> segmentName n <> segmentName m) as Hfresh.
  { intros m Hm E. rewrite Forall_forall in Hr, Hlt. specialize (Hlt m Hm). apply segmentName_inj in E; [lia|..].
    - pose proof (Hr n). specialize (H ltac:(by left)). cbn in H. lia.
    - pose proof (Hr m). specialize (H ltac:(by right)). cbn in H. lia. }
  apply Forall_cons in Hf as [_ Hf]. split; [| | |done| |done].
  - rewrite lookup_delete_ne by apply segmentName_base. done.
  - intros m ms Hm. rewrite lookup_delete_ne by (apply Hfresh, list_elem_of_fmap; by exists (m, ms)). apply Hs. by right.
  - intros name m Hname Em. destruct (decide (name = segmentName n)) as [->|Hne].
    { rewrite lookup_delete_eq in Hname. by destruct Hname. }
    rewrite lookup_delete_ne in Hname by done.
    destruct (Hl name m) as [[Hm|Hm]%elem_of_cons ->]; [done|done|by subst|done].
  - by apply Forall_cons in Hr as [_ ?].
Qed.

(** A write that is rolled back to where it started leaves the directory unchanged. *)
Lemma truncate_write (fs : dir) (b l : bytes) : fs !! base = Some b -> truncate base (length b) (write base l fs) = fs.
Proof.
  intros Hb. unfold truncate, write, contents. rewrite Hb, lookup_insert_eq.
  rewrite take_app_length, insert_insert_eq. by apply insert_id.
Qed.

Lemma rename_back (fs : dir) n (b : bytes) :
  fs !! base = Some b -> fs !! segmentName n = None ->
  rename (segmentName n) base (<[segmentName n := b]> (delete base fs)) = Some fs.
Proof.
  intros Hb Hn. unfold rename. rewrite lookup_insert_eq. f_equal.
  rewrite delete_insert_id by (by rewrite lookup_delete_ne by (symmetry; apply segmentName_base)).
  by apply insert_delete_id.
Qed.

(** Pruning from the oldest: what is removed is the front of the chain. *)
Definition removes_oldest_first (x : rot_io) : Prop :=
  forall m n, m < n -> r_remove x n = true -> r_remove x m = true.

Lemma remove_none x ns fs : Forall (fun n => r_remove x n = false) ns -> foldl (remove_one base x) fs ns = fs.
Proof. induction 1 as [|n ns Hn Hns IH]; [done|]. cbn [foldl]. unfold remove_one at 2. by rewrite Hn. Qed.

Lemma remove_front x j segs live fs :
  removes_oldest_first x -> view segs live [] fs ->
  exists j', (j' <= j)%nat /\ view (drop j' segs) live [] (foldl (remove_one base x) fs (take j segs.*1)).
Proof.
  intros Hx. revert segs fs. induction j as [|j IH]; intros segs fs Hv; [by exists 0%nat|].
  destruct segs as [|[n rs] segs]; [by exists 0%nat; split; [lia|]|]. rewrite fmap_cons. cbn [take foldl fst].
  destruct (r_remove x n) eqn:Hn.
  - unfold remove_one at 2. rewrite Hn. destruct (IH segs (delete (segmentName n) fs)) as (j' & Hj & Hv'); [by eapply view_drop|].
    exists (S j'). split; [lia|]. done.
  - exists 0%nat. split; [lia|]. unfold remove_one at 2. rewrite Hn. rewrite remove_none; [done|].
    pose proof (vw_sorted _ _ _ _ _ Hv) as Hso. rewrite fmap_cons in Hso. apply StronglySorted_inv in Hso as [_ Hlt].
    apply Forall_forall. intros m Hm. rewrite Forall_forall in Hlt.
    assert (m ∈ segs.*1) as Hm' by (apply (subseteq_take j segs.*1), Hm). specialize (Hlt m Hm'). cbn in Hlt.
    destruct (r_remove x m) eqn:Em; [|done]. rewrite (Hx n m) in Hn by done. done.
Qed.

(** Pruning removes whole segments from the front and keeps at least one. *)
Lemma prune_view segKeep x segs live fs :
  (1 <= segKeep)%nat -> removes_oldest_first x -> view segs live [] fs ->
  exists j, view (drop j segs) live [] (pruneSegments base segKeep x fs) /\ (j = 0 \/ j < length segs)%nat.
Proof.
  intros Hk Hx Hv. unfold pruneSegments, prune_order. rewrite (view_lists _ _ _ _ _ Hv), length_fmap.
  destruct (Nat.leb_spec (length segs) segKeep) as [Hle|Hgt]; [exists 0%nat; auto|].
  destruct (remove_front x (length segs - segKeep) segs live fs Hx Hv) as (j & Hj & Hv').
  exists j. split; [done|lia].
Qed.
End operations.

(** ** Where the writer finds its tip *)
Section tips.
  Context (Unmarshal : bytes -> option auditRecord) {HJ : JsonReader Unmarshal}.
  Context (base : string) (domain : bytes) (sign : bytes -> bytes).
  Abbreviation chained := (chained domain sign).
  Abbreviation tip_of := (tip_of domain).

Lemma lastChainHash_flat p s rs r :
  chained p s (rs ++ [r]) -> lastChainHash Unmarshal (Some (flat (rs ++ [r]))) = Some (tip_of p (rs ++ [r])).
Proof.
  intros Hc. pose proof (chained_typed _ _ _ _ _ Hc) as Ht. unfold lastChainHash. rewrite trim_flat by done.
  apply Forall_app in Ht as [Htrs [Ht _]%Forall_cons].
  rewrite SplitLines_flat, SplitLines_last by (done || by apply marshal_no_newline).
  rewrite rev_app_distr. cbn [rev app last_hash]. cbv zeta. rewrite trim_marshal by done.
  destruct (marshal_shape r Ht) as (l & El & _). rewrite bool_decide_false by (by rewrite El).
  apply chained_app in Hc as [_ ((_ & Hu & _) & _ & _ & Hh & _)]. rewrite unmarshal_marshal by done.
  rewrite Hh, decode_encode, tip_snoc. unfold link. by rewrite length_Sum256, Z.eqb_refl.
Qed.

Lemma lastChainTip_view fs segs live pruned :
  view base segs live [] fs -> prune_mark pruned segs -> chained zeroHash 0 (pruned ++ retained segs live) ->
  default zeroHash (lastChainTip Unmarshal base fs) = tip_of zeroHash (pruned ++ retained segs live).
Proof.
  intros Hv Hpm Hc. unfold lastChainTip. rewrite (view_lists _ _ _ _ _ Hv). unfold retained in *.
  destruct live as [|r live _] using rev_ind.
  - assert (lastChainHash Unmarshal (fs !! base) = None) as ->.
    { destruct (vw_live _ _ _ _ _ Hv) as [->|(_ & _ & ->)]; done. }
    cbn [first_some]. rewrite app_nil_r in *. destruct segs as [|[n rs] segs _] using rev_ind.
    { by destruct Hpm as [->|(? & ? & ? & [=] & _)]. }
    rewrite fmap_app, rev_app_distr. cbn [fmap list_fmap rev app fst]. rewrite (vw_segs _ _ _ _ _ Hv n rs) by (apply elem_of_app; right; by left).
    pose proof (vw_full _ _ _ _ _ Hv) as [_ [Hne _]%Forall_cons]%Forall_app. cbn [snd] in Hne.
    rewrite fmap_app, concat_app in *. cbn [fmap list_fmap concat snd app] in *. rewrite app_nil_r in *.
    destruct rs as [|r rs _] using rev_ind; [done|]. rewrite app_assoc in Hc |- *.
    apply chained_app in Hc as [_ Hc]. rewrite (lastChainHash_flat _ _ _ _ Hc). cbn [first_some from_option id].
    by rewrite (tip_app _ _ _ (rs ++ [r])).
  - rewrite !app_assoc in Hc |- *. rewrite <- (app_assoc (pruned ++ _) live [r]) in Hc |- *.
    apply chained_app in Hc as [_ Hc].
    destruct (vw_live _ _ _ _ _ Hv) as [->|(E & _)]; [|by destruct live].
    rewrite content_nil, (lastChainHash_flat _ _ _ _ Hc). cbn [first_some from_option id].
    by rewrite (tip_app _ _ _ (live ++ [r])).
Qed.
End tips.

(** ** Records *)

(** What the event reader can pass to [append]: values of the field types, and strings short
    enough for a line the verifier can scan. *)
Definition event_ok (ev : provEvent) : Prop :=
  in_width 64 (e_cgid ev) /\ in_width 32 (e_pid ev)
  /\ len (e_comm ev) + len (e_hook ev) + len (e_decision ev) + len (e_mode ev) <= 2 ^ 18.

Lemma make_record_chained domain sign now ev a p s :
  (forall m, len (sign m) = 64) -> event_ok ev -> - 2 ^ 63 <= now < 2 ^ 63 ->
  len p = Size -> prevHash a = p -> a_seq a = s \/ a_seq a = 0 ->
  chained domain sign p s [make_record domain sign now ev a].
Proof.
  intros Hsl (Hc & Hp & Hlen) Hn Hlp <- Hs.
  set (r := make_record domain sign now ev a).
  assert (forall b, len (ToValidUTF8 b) <= 3 * len b) as Hu by (intros; apply len_replace).
  pose proof (Hu (e_comm ev)). pose proof (Hu (e_hook ev)). pose proof (Hu (e_decision ev)). pose proof (Hu (e_mode ev)).
  assert (forall b, 0 <= len b) as Hpos by (unfold len; lia).
  pose proof (Hpos (e_comm ev)). pose proof (Hpos (e_hook ev)). pose proof (Hpos (e_decision ev)). pose proof (Hpos (e_mode ev)).
  assert (typed r) as Ht.
  { split; [apply wrap_in_width; lia|done..|]. cbn. repeat constructor; lia. }
  assert (utf8_record r) as Hur.
  { unfold utf8_record, strings_of, r. cbn [make_record Comm Hook Decision_ Mode PrevHash Hash Sig].
    repeat constructor; first [apply ToValidUTF8_valid|apply encode_valid]. }
  assert (len (Marshal r) < maxToken) as Hm.
  { eapply Z.le_lt_trans; [apply len_marshal|]. unfold r. cbn [make_record Comm Hook Decision_ Mode PrevHash Hash Sig].
    rewrite !len_encode, Hsl, length_Sum256, Hlp. unfold Size, maxToken. lia. }
  cbn [chained]. split; [done|]. split; [|done].
  destruct Hs as [<-|Hs]; [by right|left]. unfold r, make_record. cbn [Seq]. by rewrite Hs.
Qed.

(** ** The invariant *)

(** The faults the writer is built for: a failed write or sync is rolled back, a failed
    reopening is undone, old segments are removed from the oldest, the tail is repaired. *)
Definition tame_io (x : io) : Prop :=
  r_unrename (io_rot x) = true /\ removes_oldest_first (io_rot x) /\ io_trunc x = true
  /\ - 2 ^ 63 <= io_now x < 2 ^ 63.

Definition tame (ev : log_event) : Prop :=
  match ev with
  | Boot repair_ok => repair_ok = true
  | Append x e | PowerLoss x e _ _ => tame_io x /\ event_ok e
  end.

(** ** Segments that are gone *)
Section gone.
  Context (was : Z * list auditRecord -> Prop).

(** The segments that are gone, oldest first: each is one that [was] in the directory, their
    numbers continue in those of the segments that are left, and one is left if any is gone. *)
Definition gone_before (gone segs : list (Z * list auditRecord)) : Prop :=
  Forall was gone /\ Forall (fun n => 1 <= n) gone.*1 /\ StronglySorted Z.lt (gone.*1 ++ segs.*1)
  /\ (gone <> [] -> segs <> []).

Lemma gone_mark gone segs : gone_before gone segs -> prune_mark (concat gone.*2) segs.
Proof.
  intros (_ & H1 & Hs & Hne). destruct gone as [|[n rs] gone]; [by left|right].
  destruct segs as [|[m ms] segs]; [by destruct Hne|]. exists m, ms, segs. split; [done|].
  rewrite fmap_cons in H1. apply Forall_cons in H1 as [H1 _]. cbn [fst] in H1.
  pose proof (StronglySorted_app_1_elem_of Z.lt ((n, rs) :: gone).*1 ((m, ms) :: segs).*1 n m Hs
    ltac:(by left) ltac:(by left)). lia.
Qed.

Lemma gone_seal gone segs k live :
  gone_before gone segs -> Forall (fun m => m < k) segs.*1 -> 1 <= k -> gone_before gone (segs ++ [(k, live)]).
Proof.
  intros (Hw & H1 & Hs & Hne) Hlt Hk. split_and!; [done|done| |by destruct segs].
  rewrite fmap_app, app_assoc. apply StronglySorted_app. split_and!; [|done|by repeat constructor].
  intros a b Ha ->%list_elem_of_singleton. cbn [fst]. apply elem_of_app in Ha as [Ha|Ha]; [|by rewrite Forall_forall in Hlt; apply Hlt].
  destruct segs as [|[m ms] segs]; [destruct gone; [by apply elem_of_nil in Ha|by destruct Hne]|].
  pose proof (StronglySorted_app_1_elem_of Z.lt gone.*1 ((m, ms) :: segs).*1 a m Hs Ha ltac:(by left)).
  apply Forall_cons in Hlt as [Hm _]. cbn in Hm. lia.
Qed.

Lemma gone_prune gone segs j :
  gone_before gone segs -> Forall was (take j segs) -> Forall (fun n => 1 <= n) segs.*1 -> (j = 0 \/ j < length segs)%nat ->
  gone_before (gone ++ take j segs) (drop j segs).
Proof.
  intros (Hw & H1 & Hs & Hne) Hw' H1' Hj. split_and!.
  - by apply Forall_app.
  - rewrite fmap_app. apply Forall_app. split; [done|]. rewrite fmap_take. by apply Forall_take.
  - by rewrite fmap_app, <- app_assoc, <- fmap_app, take_drop.
  - intros Hg E. destruct Hj as [->|Hj]; [rewrite take_0, app_nil_r in Hg; rewrite drop_0 in E; by apply Hne|].
    apply (f_equal length) in E. rewrite length_drop in E. cbn in E. lia.
Qed.
End gone.

Section invariant.
  Context (Unmarshal : bytes -> option auditRecord) {HJ : JsonReader Unmarshal}.
  Context (base : string) (domain : bytes) (rotateBytes : Z) (segKeep : nat) (sign : bytes -> bytes).
  Context (Hkeep : (1 <= segKeep)%nat) (Hsl : forall m, len (sign m) = 64).
  Abbreviation chained := (chained domain sign).
  Abbreviation tip_of := (tip_of domain).
  Abbreviation maybe_rotate := (maybe_rotate base rotateBytes segKeep).
  Abbreviation append := (append base domain rotateBytes segKeep sign).
  Context (was : Z * list auditRecord -> Prop).

(** [was] holds of every segment file of a directory. *)
Definition covered (fs : dir) : Prop :=
  forall n rs, 1 <= n < 2 ^ 64 -> fs !! segmentName base n = Some (flat rs) -> was (n, rs).

(** The directory with the history [h] of everything ever kept, of which whole segments at
    the front may be gone; [k] bounds the segment numbers. *)
Definition holds (k : Z) (h : list auditRecord) (frag : bytes) (fs : dir) : Prop :=
  exists gone segs live,
    view base segs live frag fs /\ gone_before was gone segs /\ h = concat gone.*2 ++ retained segs live
    /\ chained zeroHash 0 h /\ Forall (fun n => n <= k) segs.*1.

(** An open log: no torn tail, its tip is the last hash, and the next segment is new. *)
Definition open_on (k : Z) (h : list auditRecord) (a : auditLog) (fs : dir) : Prop :=
  holds (segNext a - 1) h [] fs /\ is_Some (fs !! base) /\ a_file a = base
  /\ prevHash a = tip_of zeroHash h /\ (a_seq a = last_seq 0 h \/ a_seq a = 0) /\ 1 <= segNext a <= k + 1.

Definition log_inv (k : Z) (h : list auditRecord) (s : log_state) : Prop :=
  match s with
  | (Some a, fs) => open_on k h a fs
  | (None, fs) => exists frag, holds k h frag fs /\ fragment domain sign (tip_of zeroHash h) (last_seq 0 h) frag
  end.

Lemma holds_mono k k' h frag fs : k <= k' -> holds k h frag fs -> holds k' h frag fs.
Proof.
  intros Hk (gone & segs & live & Hv & Hpm & Hh & Hc & Hr). exists gone, segs, live. split_and!; [done..|].
  eapply Forall_impl; [exact Hr|]. intros n Hn. cbn in *. lia.
Qed.

Lemma holds_create k h fs : holds k h [] fs -> holds k h [] (create base fs) /\ is_Some (create base fs !! base).
Proof.
  intros (gone & segs & live & Hv & Hpm & Hh & Hc & Hr). destruct (view_create base segs live fs Hv) as [Hv' Hb].
  split; [|done]. by exists gone, segs, live.
Qed.

Lemma holds_seal k h fs (b : bytes) :
  holds (k - 1) h [] fs -> fs !! base = Some b -> b <> [] -> 1 <= k < 2 ^ 64 ->
  holds k h [] (<[segmentName base k := b]> (delete base fs)) /\ fs !! segmentName base k = None.
Proof.
  intros (gone & segs & live & Hv & Hpm & Hh & Hc & Hr) Hb Hne Hk.
  pose proof (view_base_present base _ _ _ _ Hv (ex_intro _ _ Hb)) as Hb'. rewrite content_nil, Hb in Hb'. injection Hb' as ->.
  assert (Forall (fun m => m < k) segs.*1) as Hlt.
  { eapply Forall_impl; [exact Hr|]. intros n Hn. cbn in *. lia. }
  split.
  - exists gone, (segs ++ [(k, live)]), []. split_and!.
    + apply view_seal; [done| |done..]. intros ->. by apply Hne.
    + apply gone_seal; [done..|lia].
    + rewrite Hh. unfold retained. rewrite fmap_app, concat_app. cbn [fmap list_fmap concat snd]. by rewrite !app_nil_r.
    + done.
    + rewrite fmap_app. apply Forall_app. split; [|repeat constructor; cbn; lia].
      eapply Forall_impl; [exact Hr|]. intros n Hn. cbn in *. lia.
  - destruct (fs !! segmentName base k) as [c|] eqn:E; [|done]. exfalso.
    destruct (vw_listed _ _ _ _ _ Hv (segmentName base k) k) as [Hin _]; [by eexists|apply seg_number_name; lia|].
    rewrite Forall_forall in Hlt. specialize (Hlt k Hin). cbn in Hlt. lia.
Qed.

(** Pruning takes whole segments, all older than the newest; the younger ones and the live
    file stay. *)
Lemma holds_prune k h x fs :
  removes_oldest_first x -> (forall n rs, 1 <= n < k -> fs !! segmentName base n = Some (flat rs) -> was (n, rs)) ->
  holds k h [] fs -> holds k h [] (pruneSegments base segKeep x fs).
Proof.
  intros Hx Hcov (gone & segs & live & Hv & Hpm & Hh & Hc & Hr).
  destruct (prune_view base segKeep x segs live fs) as (j & Hv' & Hj); [done..|].
  assert (Forall was (take j segs)) as Hw.
  { destruct Hj as [->|Hj]; [constructor|]. apply Forall_forall. intros [n rs] Hn.
    assert ((n, rs) ∈ segs) as Hin by (by apply (subseteq_take j)).
    pose proof (view_range base _ _ _ _ n Hv ltac:(apply list_elem_of_fmap; by exists (n, rs))).
    apply Hcov; [|by apply (vw_segs _ _ _ _ _ Hv)]. split; [lia|].
    destruct (drop j segs) as [|[m ms] tl] eqn:Ed; [apply (f_equal length) in Ed; rewrite length_drop in Ed; cbn in Ed; lia|].
    pose proof (vw_sorted _ _ _ _ _ Hv) as Hso. rewrite <- (take_drop j segs), Ed, fmap_app in Hso, Hr.
    apply Forall_app in Hr as [_ [Hm _]%Forall_cons]. cbn in Hm.
    pose proof (StronglySorted_app_1_elem_of Z.lt _ _ n m Hso ltac:(apply list_elem_of_fmap; by exists (n, rs)) ltac:(by left)). lia. }
  exists (gone ++ take j segs), (drop j segs), live. split_and!; [done| | |done|].
  - apply gone_prune; [done..| |done]. eapply Forall_impl; [exact (vw_range _ _ _ _ _ Hv)|]. intros n Hn. cbn in Hn. lia.
  - rewrite Hh. unfold retained. rewrite fmap_app, concat_app, <- app_assoc. f_equal.
    rewrite app_assoc, <- concat_app, <- fmap_app, take_drop. done.
  - rewrite Forall_forall in *. intros n Hn. apply Hr. rewrite <- (take_drop j segs), fmap_app. apply elem_of_app. by right.
Qed.

Lemma prune_base x fs : pruneSegments base segKeep x fs !! base = fs !! base.
Proof.
  unfold pruneSegments. generalize (prune_order base segKeep fs). intros ns. revert fs.
  induction ns as [|n ns IH]; intros fs; [done|]. cbn [foldl]. rewrite IH. unfold remove_one. destruct (r_remove x n); [|done].
  rewrite lookup_delete_ne; [done|apply segmentName_base].
Qed.

(** A rotation, whether it succeeds or not, leaves a log open on the same chain; the offset
    it leaves is the end of the live file. *)
Lemma maybe_rotate_open k h x a fs off a' fs' :
  tame_io x -> covered fs -> open_on k h a fs -> k + 2 < 2 ^ 64 -> maybe_rotate x a fs = (off, a', fs') ->
  open_on (k + 1) h a' fs' /\ (off = None \/ off = Some (file_size base fs')) /\ prevHash a' = prevHash a /\ a_seq a' = a_seq a.
Proof.
  intros (Hun & Hold & _ & _) Hcov (Hh & [b Hb] & Hf & Hp & Hs & Hk) Hbig. unfold AuditLog.maybe_rotate. rewrite Hf.
  assert (open_on (k + 1) h a fs) as Hsame by (split_and!; [done|by eexists|done|done|done|lia|lia]).
  assert (file_size base fs = length b) as Hsz by (unfold file_size, contents; by rewrite Hb).
  destruct (_ && _) eqn:E.
  2:{ intros [= <- <- <-]. split_and!; [done|by right|done|done]. }
  apply andb_prop in E as [E1%Z.ltb_lt E2%Z.leb_le].
  destruct (holds_seal (segNext a) h fs b) as [Hseal Hnone]; [done|done| |lia|].
  { intros ->. rewrite Hsz in E2. cbn in E2. lia. }
  unfold rotate. destruct (r_sync (io_rot x)); cbn [negb]; [|intros [= <- <- <-]; split_and!; auto].
  unfold rename at 1. rewrite Hb.
  destruct (r_rename (io_rot x)); [|intros [= <- <- <-]; split_and!; auto].
  destruct (r_reopen (io_rot x)); cbn [negb].
  - apply holds_create in Hseal as [Hcr Hpres]. apply (holds_prune _ _ (io_rot x)) in Hcr;
      [|done|].
    2:{ intros n rs Hn En. apply Hcov; [lia|]. revert En. unfold create.
        rewrite lookup_insert_ne by (symmetry; apply segmentName_base).
        rewrite lookup_insert_ne by (intros E; apply segmentName_inj in E; lia).
        by rewrite lookup_delete_ne by (symmetry; apply segmentName_base). }
    rewrite <- (prune_base (io_rot x)) in Hpres.
    intros [= <- <- <-]. cbn [a_file]. split_and!; [|destruct (io_stat2 x); auto|done|done].
    assert (u64 (segNext a + 1) = segNext a + 1) as Hu by (apply wrap_id; unfold in_width; lia).
    unfold open_on. cbn [segNext a_file prevHash a_seq]. rewrite Hu. split_and!; try done; [|lia..].
    by replace (segNext a + 1 - 1) with (segNext a) by lia.
  - rewrite Hun, rename_back by done. intros [= <- <- <-]. split_and!; auto.
Qed.

Lemma holds_write k h fs r :
  holds k h [] fs -> is_Some (fs !! base) -> chained zeroHash 0 (h ++ [r]) ->
  holds k (h ++ [r]) [] (write base (line_of r) fs).
Proof.
  intros (gone & segs & live & Hv & Hpm & Hh & Hc & Hr) Hb Hc'.
  exists gone, segs, (live ++ [r]). split_and!; [|done| |done|done].
  - unfold write, contents. rewrite (view_base_present base _ _ _ _ Hv Hb), content_nil.
    rewrite <- flat_single, <- flat_app, <- content_nil. by eapply view_set.
  - rewrite Hh. unfold retained. by rewrite !app_assoc.
Qed.

Lemma holds_fragment k h fs f :
  holds k h [] fs -> is_Some (fs !! base) -> holds k h f (write base f fs).
Proof.
  intros (gone & segs & live & Hv & Hpm & Hh & Hc & Hr) Hb. exists gone, segs, live. split_and!; try done.
  unfold write, contents. rewrite (view_base_present base _ _ _ _ Hv Hb), content_nil. by eapply view_set.
Qed.

Lemma next_record k h x ev a fs :
  open_on k h a fs -> tame_io x -> event_ok ev -> chained zeroHash 0 (h ++ [make_record domain sign (io_now x) ev a]).
Proof.
  intros (Hh & _ & _ & Hp & Hs & _) (_ & _ & _ & Hn) Hev. destruct Hh as (? & ? & ? & _ & _ & _ & Hc & _).
  apply chained_app. split; [done|]. apply make_record_chained; try done. by apply len_tip.
Qed.

(** [append]: acknowledged, the history has grown by the record; otherwise nothing changed. *)
Lemma append_open k h x ev a fs ok a' fs' :
  tame_io x -> event_ok ev -> covered fs -> open_on k h a fs -> k + 2 < 2 ^ 64 -> append x ev a fs = (ok, a', fs') ->
  open_on (k + 1) (if ok then h ++ [make_record domain sign (io_now x) ev a] else h) a' fs'.
Proof.
  intros Hx Hev Hcov Hop Hbig. pose proof (next_record k h x ev a fs Hop Hx Hev) as Hnext.
  assert (open_on (k + 1) h a fs) as Hsame by (destruct Hop as (? & ? & ? & ? & ? & ?); split_and!; (done || lia)).
  unfold AuditLog.append. cbv zeta. destruct (io_stat x); cbn [negb]; [|intros [= <- <- <-]; done].
  destruct (maybe_rotate x a fs) as [[off a1] fs1] eqn:Er.
  destruct (maybe_rotate_open k h x a fs off a1 fs1) as (Hop1 & Hoff & Hp1 & Hs1); [done..|].
  destruct Hoff as [->| ->]; [intros [= <- <- <-]; done|].
  pose proof Hop1 as (Hh & [b Hb] & Hf & Hp & Hs & Hk). rewrite Hf.
  assert (file_size base fs1 = length b) as -> by (unfold file_size, contents; by rewrite Hb).
  pose proof Hx as (_ & _ & -> & _).
  destruct (io_write x) as [j|]; [rewrite truncate_write by done; intros [= <- <- <-]; done|].
  destruct (io_sync x); cbn [negb]; [|rewrite truncate_write by done; intros [= <- <- <-]; done].
  intros [= <- <- <-]. unfold open_on. cbn [a_file segNext prevHash a_seq]. split_and!; [| |done| | |lia|lia].
  - apply holds_write; [done|by eexists|done].
  - unfold write. rewrite lookup_insert_eq. by eexists.
  - rewrite tip_snoc, <- Hp. rewrite Hp1. reflexivity.
  - left. unfold last_seq. by rewrite foldl_app.
Qed.

Lemma boot_open k h frag fs a fs' :
  holds k h frag fs -> fragment domain sign (tip_of zeroHash h) (last_seq 0 h) frag -> 0 <= k -> k + 2 < 2 ^ 64 ->
  openAuditLog Unmarshal base true fs = (a, fs') -> open_on (k + 1) h a fs'.
Proof.
  intros (gone & segs & live & Hv & Hpm & Hh & Hc & Hr) Hf Hk0 Hbig. unfold openAuditLog.
  set (fs1 := match fs !! base with Some b => <[base := repairTornTail b]> fs | None => fs end).
  assert (view base segs live [] fs1) as Hv1.
  { unfold fs1. destruct (vw_live _ _ _ _ _ Hv) as [->|(-> & -> & ->)]; [|done].
    unfold content at 1. rewrite repair_flat by (by eapply fragment_no_newline). rewrite <- content_nil. by eapply view_set. }
  assert (nextSegNum base fs1 = match last segs.*1 with Some n => n + 1 | None => 1 end
    /\ Forall (fun n => n <= nextSegNum base fs1 - 1) segs.*1 /\ 1 <= nextSegNum base fs1 <= k + 1) as (Hnext & Hlt & Hle).
  { unfold nextSegNum. rewrite (view_lists _ _ _ _ _ Hv1). pose proof (vw_sorted _ _ _ _ _ Hv) as Hso.
    pose proof (vw_range _ _ _ _ _ Hv) as Hrg. destruct (segs.*1) as [|n ns _] using rev_ind.
    { cbn. split_and!; [done|constructor|lia|lia]. }
    rewrite last_snoc. apply Forall_app in Hr as [Hr [Hn _]%Forall_cons]. apply Forall_app in Hrg as [_ [Hn' _]%Forall_cons].
    unfold u64. rewrite wrap_id by (unfold in_width; lia). split_and!; [done| |lia|lia].
    apply Forall_app. split; [|repeat constructor; lia]. clear -Hso. apply Forall_forall. intros m Hm.
    pose proof (StronglySorted_app_1_elem_of Z.lt ns [n] m n Hso Hm ltac:(by left)). lia. }
  intros E. assert (holds (nextSegNum base fs1 - 1) h [] fs1) as Hh1 by (by exists gone, segs, live).
  apply holds_create in Hh1 as [Hh1 Hb1]. injection E as <- <-. fold fs1.
  unfold open_on. cbn [a_file segNext prevHash a_seq]. split_and!; [done|done|done| |by right|lia|lia].
  rewrite Hh. apply (lastChainTip_view Unmarshal base domain sign fs1 segs live); [done|by eapply gone_mark|]. by rewrite <- Hh.
Qed.

Lemma lose_power_closed k h x ev mid j a fs :
  tame_io x -> event_ok ev -> covered fs -> open_on k h a fs -> k + 2 < 2 ^ 64 ->
  exists h', log_inv (k + 1) h' (None, lose_power base domain rotateBytes segKeep sign x ev mid j a fs)
    /\ (h' = h \/ h' = h ++ [make_record domain sign (io_now x) ev a]).
Proof.
  intros Hx Hev Hcov Hop Hbig. pose proof (next_record k h x ev a fs Hop Hx Hev) as Hnext. unfold lose_power. cbv zeta.
  set (r := make_record domain sign (io_now x) ev a) in *. destruct (mid && _) eqn:E.
  - apply andb_prop in E as [_ [E1%Z.ltb_lt E2%Z.leb_le]%andb_prop].
    destruct Hop as (Hh & [b Hb] & Hf & Hp & Hs & Hk). rewrite Hf in E2.
    destruct (holds_seal (segNext a) h fs b) as [Hseal _]; [done|done| |lia|].
    { intros ->. unfold file_size, contents in E2. rewrite Hb in E2. cbn in E2. lia. }
    unfold rename. rewrite Hb. cbn [from_option id]. exists h. split; [|by left]. exists []. split; [|by left].
    eapply holds_mono; [|done]. lia.
  - destruct (maybe_rotate x a fs) as [[off a1] fs1] eqn:Er.
    destruct (maybe_rotate_open k h x a fs off a1 fs1) as (Hop1 & _ & _ & _); [done..|].
    destruct Hop1 as (Hh & Hb & Hf & _ & _ & Hk). rewrite Hf.
    assert (holds (k + 1) h [] fs1) as Hh1 by (eapply holds_mono; [|done]; lia).
    unfold line_of. destruct (Nat.leb_spec j (length (Marshal r))) as [Hj|Hj].
    + rewrite take_app_le by done. exists h. split; [|by left]. exists (take j (Marshal r)). split; [by apply holds_fragment|].
      right. exists r, (drop j (Marshal r)). apply chained_app in Hnext as [_ Hnext]. by rewrite take_drop.
    + rewrite take_ge by (rewrite length_app; cbn [length]; lia). exists (h ++ [r]). split; [|by right]. exists [].
      split; [by apply holds_write|by left].
Qed.

(** The record an event gives the writer to put on the chain, if any. *)
Definition offered (s : log_state) (ev : log_event) : list auditRecord :=
  match ev, s with
  | Append x e, (Some a, fs) | PowerLoss x e _ _, (Some a, fs) => [make_record domain sign (io_now x) e a]
  | _, _ => []
  end.

(** The record an event acknowledges, if any. *)
Definition acked (s : log_state) (ev : log_event) : list auditRecord :=
  match ev, s with
  | Append x e, (Some a, fs) => if (append x e a fs).1.1 then [make_record domain sign (io_now x) e a] else []
  | _, _ => []
  end.

Lemma log_step_inv k h s ev :
  tame ev -> covered s.2 -> log_inv k h s -> 0 <= k -> k + 3 < 2 ^ 64 ->
  exists m, log_inv (k + 1) (h ++ m) (log_step Unmarshal base domain rotateBytes segKeep sign s ev)
    /\ acked s ev `prefix_of` m /\ m `sublist_of` offered s ev.
Proof.
  assert (forall l : list auditRecord, [] `sublist_of` l) as Hnil by apply sublist_nil_l.
  intros Hev Hcov Hinv Hk0 Hbig. destruct s as [[a|] fs], ev as [ro|x e|x e mid j]; cbn [log_step acked offered tame snd] in *.
  - subst ro. destruct (openAuditLog _ _ _ _) as [a' fs'] eqn:E. exists []. rewrite app_nil_r. split; [|done].
    destruct Hinv as (Hh & _ & _ & _ & _ & Hk). eapply boot_open; [eapply holds_mono; [|exact Hh]; lia|by left|done|lia|exact E].
  - destruct Hev as [Hx He]. destruct (append x e a fs) as [[ok a'] fs'] eqn:E. cbn [fst].
    pose proof (append_open k h x e a fs ok a' fs' Hx He Hcov Hinv ltac:(lia) E) as Hop.
    destruct ok; [exists [make_record domain sign (io_now x) e a]|exists []; rewrite app_nil_r]; by split_and!.
  - destruct Hev as [Hx He]. destruct (lose_power_closed k h x e mid j a fs Hx He Hcov Hinv ltac:(lia)) as (h' & Hi & [->| ->]);
      [exists []; rewrite app_nil_r|exists [make_record domain sign (io_now x) e a]]; split_and!; try done. by eexists.
  - subst ro. destruct (openAuditLog _ _ _ _) as [a' fs'] eqn:E. exists []. rewrite app_nil_r. split; [|done].
    destruct Hinv as (frag & Hh & Hf). eapply boot_open; [exact Hh|exact Hf|done|lia|exact E].
  - exists []. rewrite app_nil_r. split; [|done]. destruct Hinv as (frag & Hh & Hf). exists frag. split; [|done].
    eapply holds_mono; [|exact Hh]. lia.
  - exists []. rewrite app_nil_r. split; [|done]. destruct Hinv as (frag & Hh & Hf). exists frag. split; [|done].
    eapply holds_mono; [|exact Hh]. lia.
Qed.

(** A run of the log, and the records it acknowledged, in order. *)
Fixpoint run (s : log_state) (evs : list log_event) : log_state :=
  match evs with
  | [] => s
  | ev :: evs => run (log_step Unmarshal base domain rotateBytes segKeep sign s ev) evs
  end.

Fixpoint acks (s : log_state) (evs : list log_event) : list auditRecord :=
  match evs with
  | [] => []
  | ev :: evs => acked s ev ++ acks (log_step Unmarshal base domain rotateBytes segKeep sign s ev) evs
  end.

(** What the log was given, in order. *)
Definition given (evs : list log_event) : list provEvent :=
  omap (fun e => match e with Append _ ev | PowerLoss _ ev _ _ => Some ev | Boot _ => None end) evs.

(** [r] records [ev]; a list of records records, in order, some of what was given. *)
Definition record_of (r : auditRecord) (ev : provEvent) : Prop := exists now a, r = make_record domain sign now ev a.
Definition records_some (h : list auditRecord) (l : list provEvent) : Prop :=
  exists gs, gs `sublist_of` l /\ Forall2 record_of h gs.

Lemma records_some_app h1 h2 l1 l2 : records_some h1 l1 -> records_some h2 l2 -> records_some (h1 ++ h2) (l1 ++ l2).
Proof. intros (g1 & ? & ?) (g2 & ? & ?). exists (g1 ++ g2). split; [by apply sublist_app|by apply Forall2_app]. Qed.

Lemma records_some_nil l : records_some [] l.
Proof. exists []. split; [apply sublist_nil_l|constructor]. Qed.

Lemma offered_given s e m : m `sublist_of` offered s e -> records_some m (given [e]).
Proof.
  assert (forall now a ev, m `sublist_of` [make_record domain sign now ev a] -> records_some m [ev]) as Hone.
  { intros now a ev [->%sublist_nil_r|(m' & -> & ->%sublist_nil_r)]%sublist_cons_r; [apply records_some_nil|].
    exists [ev]. split; [done|]. repeat constructor. by exists now, a. }
  destruct s as [[a|] fs], e as [ro|x ev|x ev mid j]; cbn [offered]; try (intros ->%sublist_nil_r; apply records_some_nil);
    apply Hone.
Qed.

(** [was] holds of every segment file the directory had between two events. *)
Definition covered_run (s : log_state) (evs : list log_event) : Prop :=
  forall evs1 evs2, evs = evs1 ++ evs2 -> covered (run s evs1).2.

Lemma run_inv k h s evs :
  Forall tame evs -> covered_run s evs -> log_inv k h s -> 0 <= k -> k + Z.of_nat (length evs) + 3 < 2 ^ 64 ->
  exists k' h', log_inv k' h' (run s evs) /\ h `prefix_of` h'
    /\ exists h2, h' = h ++ h2 /\ acks s evs `sublist_of` h2 /\ records_some h2 (given evs).
Proof.
  intros Ht. revert k h s. induction Ht as [|ev evs Hev Ht IH]; intros k h s Hcov Hinv Hk Hbig.
  { exists k, h. split_and!; [done|done|]. exists []. rewrite app_nil_r. split_and!; [done|done|apply records_some_nil]. }
  cbn [length] in Hbig. destruct (log_step_inv k h s ev Hev (Hcov [] _ eq_refl) Hinv Hk ltac:(lia)) as (m & Hinv1 & Hack & Hm).
  destruct (IH (k + 1) (h ++ m) (log_step Unmarshal base domain rotateBytes segKeep sign s ev))
    as (k' & h' & Hinv' & Hpre & h2 & -> & Hsub & Hmade);
    [intros evs1 evs2 ->; by apply (Hcov (ev :: evs1) evs2)|done|lia|lia|].
  exists k', ((h ++ m) ++ h2). cbn [run acks]. split_and!; [done|rewrite <- !app_assoc; by eexists|].
  exists (m ++ h2). split_and!; [by rewrite <- !app_assoc| |].
  - apply sublist_app; [|done]. destruct Hack as [m' ->]. by apply sublist_inserts_r.
  - change (given (ev :: evs)) with (given ([ev] ++ evs)). unfold given. rewrite omap_app.
    apply records_some_app; [by eapply offered_given|done].
Qed.

(** A directory without a file of this chain. *)
Definition fresh (fs : dir) : Prop := fs !! base = None /\ listSegments base fs = [].

Lemma fresh_inv fs : fresh fs -> log_inv 0 [] (None, fs).
Proof.
  intros [Hb Hl]. exists []. split; [|by left]. exists [], [], []. split_and!; [| |done|done|constructor].
  2:{ split_and!; [constructor..|done]. }
  split; [right; done|intros ? ? ?%elem_of_nil; done| |constructor..].
  intros name n [b Hn] En. exfalso. assert (n ∈ listSegments base fs) as Hin; [|rewrite Hl in Hin; by apply elem_of_nil in Hin].
  unfold listSegments. rewrite merge_sort_Permutation. apply list_elem_of_omap. exists name. split; [|done].
  apply list_elem_of_fmap. exists (name, b). split; [done|]. by apply elem_of_map_to_list.
Qed.

Lemma run_from_fresh fs evs :
  fresh fs -> Forall tame evs -> covered_run (None, fs) evs -> Z.of_nat (length evs) + 3 < 2 ^ 64 ->
  exists k h, log_inv k h (run (None, fs) evs) /\ acks (None, fs) evs `sublist_of` h /\ records_some h (given evs).
Proof.
  intros Hf Ht Hcov Hb. destruct (run_inv 0 [] (None, fs) evs Ht Hcov (fresh_inv fs Hf)) as (k & h & Hi & _ & h2 & -> & Hs & Hm); [lia|lia|].
  exists k, h2. done.
Qed.
End invariant.
