(* ===== verification/ChainProps.v ===== *)
(** * What the audit chains guarantee

    The security theorems of the verifier over the chains it is run on, sealed segments and
    live file, and the correctness of the writer against it. Where a claim needs SHA-256 to
    be collision free, the alternative is a collision among the records of the chains at
    hand. *)
From Stdlib Require Import ZArith Lia Ascii String.
From stdpp Require Import base tactics numbers option strings list gmap sorting.
From S2P Require Import Prelude Maps Bytes Sha256 Json Verify AuditLog AuditFiles AuditProps AuditWriter.
#[local] Open Scope string_scope.
#[local] Open Scope list_scope.
#[local] Open Scope Z_scope.
#[local] Opaque Sum256 canonical.

(** ** The verifier *)
Section verifier.
  Context (Unmarshal : bytes -> option auditRecord) {HJ : JsonReader Unmarshal}.
  Context (Key : Type) (EdVerify : Key -> bytes -> bytes -> bool) (pub : Key) (domain : bytes).

(** The bodies of the records of a chain, oldest first. *)
Definition bodies (segs : list (Z * opened)) (live : opened) := body <$> chain_records Unmarshal segs live.

(** The encodings a chain hashes. *)
Definition hashed (d : bytes) (segs : list (Z * opened)) (live : opened) : list bytes :=
  inputs d (chain_anchor Unmarshal segs) (chain_records Unmarshal segs live).

Lemma file_records_typed f : Forall typed (file_records Unmarshal f).
Proof. destruct f; [constructor..|]. by apply log_records_typed. Qed.

Lemma chain_records_typed segs live : Forall typed (chain_records Unmarshal segs live).
Proof.
  apply Forall_app. split; [|apply file_records_typed]. induction segs as [|[n f] segs IH]; [constructor|].
  rewrite bind_cons. apply Forall_app. split; [apply file_records_typed|done].
Qed.

(** Tamper evidence. If two chains verify with the same head, the retained records of
    one are exactly the newest records of the other: nothing was edited, inserted, dropped
    or reordered in what both retain; and if neither was pruned they hold the same records.
    Otherwise the two chains exhibit a collision of SHA-256 or a preimage of zero. *)
Theorem same_head_same_log since1 since2 segs1 live1 segs2 live2 n1 n2 d1 d2 :
  len domain < 2 ^ 64 ->
  verifySegmentedChain Unmarshal Key EdVerify pub domain since1 segs1 live1 = (n1, Ok d1) ->
  verifySegmentedChain Unmarshal Key EdVerify pub domain since2 segs2 live2 = (n2, Ok d2) ->
  vd_tip d1 = vd_tip d2 ->
  (bodies segs1 live1 `suffix_of` bodies segs2 live2 \/ bodies segs2 live2 `suffix_of` bodies segs1 live1
   \/ collision (hashed domain segs1 live1) (hashed domain segs2 live2))
  /\ (chain_anchor Unmarshal segs1 = zeroHash -> chain_anchor Unmarshal segs2 = zeroHash ->
      bodies segs1 live1 = bodies segs2 live2
      \/ collision (hashed domain segs1 live1) (hashed domain segs2 live2)
      \/ zero_preimage (hashed domain segs1 live1 ++ hashed domain segs2 live2)).
Proof.
  intros Hdom (L1 & -> & _ & T1 & _)%verifySegmentedChain_spec (L2 & -> & _ & T2 & _)%verifySegmentedChain_spec E.
  rewrite T1, T2 in E. pose proof (chain_records_typed segs1 live1) as H1. pose proof (chain_records_typed segs2 live2) as H2.
  unfold bodies, hashed. destruct (Nat.eqb_spec (length (chain_records Unmarshal segs1 live1)) 0) as [E1|].
  { destruct (Nat.eqb_spec (length (chain_records Unmarshal segs2 live2)) 0) as [E2|]; [|done].
    apply nil_length_inv in E1, E2. rewrite E1, E2. split; [left; apply suffix_nil|by left]. }
  destruct (Nat.eqb_spec (length (chain_records Unmarshal segs2 live2)) 0) as [E2|]; [done|].
  apply (inj Some) in E. split.
  2:{ intros A1 A2. rewrite A1, A2 in *. by apply (same_tip domain Hdom zeroHash) in E. }
  apply (tips_share_suffix domain Hdom) in E as [(c & rs & -> & Hb & _)|[(c & rs & -> & Hb & _)|Hc]];
    [..|by auto|done|done|done|done]; rewrite fmap_app, Hb; [right; left|left]; by eexists.
Qed.

(** C13: No rewind. If a chain verified with some head, and a later chain verifies with that
    head given as --since and reports it found, then the later chain is a non-empty stretch
    whose running hash is that head, followed by what was added since; and record by record
    that stretch is what the earlier chain held: of the records before the head, which both
    end with, one chain retains all that the other does. Otherwise SHA-256 is broken on these
    chains. *)
Theorem no_rewind since1 tip segs1 live1 segs2 live2 n1 n2 d1 d2 :
  len domain < 2 ^ 64 ->
  verifySegmentedChain Unmarshal Key EdVerify pub domain since1 segs1 live1 = (n1, Ok d1) ->
  vd_tip d1 = Some tip ->
  verifySegmentedChain Unmarshal Key EdVerify pub domain (Some tip) segs2 live2 = (n2, Ok d2) ->
  vd_found d2 = true ->
  (exists old later, chain_records Unmarshal segs2 live2 = old ++ later
     /\ old <> [] /\ bodies segs1 live1 <> []
     /\ tip_of domain (chain_anchor Unmarshal segs2) old = tip
     /\ (bodies segs1 live1 `suffix_of` (body <$> old) \/ (body <$> old) `suffix_of` bodies segs1 live1))
  \/ collision (hashed domain segs1 live1) (hashed domain segs2 live2).
Proof.
  intros Hdom (L1 & -> & _ & T1 & _)%verifySegmentedChain_spec E (L2 & -> & _ & _ & _ & Hf)%verifySegmentedChain_spec Hfound.
  destruct (Hf Hfound) as (rs1 & rs2 & E2 & Hne & [= Ht]). rewrite T1 in E.
  destruct (Nat.eqb_spec (length (chain_records Unmarshal segs1 live1)) 0) as [|Hne1]; [done|].
  pose proof (chain_records_typed segs1 live1) as H1. pose proof (chain_records_typed segs2 live2) as H2.
  assert (bodies segs1 live1 <> []) as Hb1 by (unfold bodies; intros E1%fmap_nil_inv; by rewrite E1 in Hne1).
  unfold bodies, hashed in *. rewrite E2 in *. apply Forall_app in H2 as [H2 _].
  apply (inj Some) in E. rewrite Ht in E. rewrite inputs_app. revert Hb1 Hne Ht E2.
  apply (tips_share_suffix domain Hdom) in E as [(c & rs & -> & Hb & _)|[(c & rs & -> & Hb & _)|Hc]]; [| | |done|done|done|done].
  - intros. left. exists rs1, rs2. split_and!; [done|done|done|by rewrite Ht|]. right. rewrite fmap_app, Hb. by eexists.
  - intros. left. exists (c ++ rs), rs2. split_and!; [done|done|done|by rewrite Ht|]. left. rewrite fmap_app, Hb. by eexists.
  - intros _ _ _ _. right. revert Hc. apply collision_mono; [done|]. intros z Hz. apply elem_of_app. by left.
Qed.

(** Nothing unsigned is accepted. Every record of a chain that verifies, in every
    segment and the live file up to its end, carries the running hash of everything before
    it and a valid signature of that hash under the verifier's key; and the count reported
    is the number of records. *)
Theorem accepted_records_are_signed since segs live n d :
  verifySegmentedChain Unmarshal Key EdVerify pub domain since segs live = (n, Ok d) ->
  n = length (chain_records Unmarshal segs live)
  /\ signed Key EdVerify pub domain (chain_anchor Unmarshal segs) (chain_records Unmarshal segs live).
Proof. intros (_ & -> & _ & _ & Hs & _)%verifySegmentedChain_spec. done. Qed.

(** Chains cannot be transplanted. A chain with at least one record that verifies under
    one domain is refused under any other, whatever key it is checked with, or it exhibits a
    collision of SHA-256. *)
Theorem domains_do_not_mix domain' pub' since since' segs live n d :
  len domain < 2 ^ 64 -> len domain' < 2 ^ 64 -> domain <> domain' -> (0 < n)%nat ->
  verifySegmentedChain Unmarshal Key EdVerify pub domain since segs live = (n, Ok d) ->
  (exists m e, verifySegmentedChain Unmarshal Key EdVerify pub' domain' since' segs live = (m, Err e))
  \/ collision (hashed domain segs live) (hashed domain' segs live).
Proof.
  intros Hd Hd' Hne Hn (L & Hl & _ & _ & Hs & _)%verifySegmentedChain_spec.
  destruct (verifySegmentedChain _ _ _ pub' domain' _ _ _) as [m [d'|x]] eqn:E; [right|left; by eauto].
  apply verifySegmentedChain_spec in E as (_ & _ & _ & _ & Hs' & _). unfold hashed.
  pose proof (chain_records_typed segs live) as Ht.
  destruct (chain_records Unmarshal segs live) as [|r rs]; [cbn in Hl; lia|].
  apply Forall_cons in Ht as [Ht _]. destruct Hs as (_ & Hh & _), Hs' as (_ & Hh' & _).
  unfold hexEqual in Hh, Hh'. destruct (DecodeString (Hash r)) as [h|]; [|done].
  apply bool_decide_eq_true in Hh, Hh'. cbn [inputs]. set (p := chain_anchor Unmarshal segs) in *.
  exists (canonical r p domain), (canonical r p domain').
  split_and!; [by left|by left| |unfold link in *; congruence].
  intros E. unfold Size in L. apply canonical_inj in E as [? _]; [done|done|done|lia|lia|done|done].
Qed.
End verifier.

(** ** The writer *)
Section writer.
  Context (Unmarshal : bytes -> option auditRecord) {HJ : JsonReader Unmarshal}.
  Context (Key : Type) (EdVerify : Key -> bytes -> bytes -> bool) (pub : Key).
  Context (base : string) (domain : bytes) (rotateBytes : Z) (segKeep : nat) (sign : bytes -> bytes).
  Abbreviation run := (run Unmarshal base domain rotateBytes segKeep sign).
  Abbreviation acks := (acks Unmarshal base domain rotateBytes segKeep sign).
  Abbreviation verify since fs :=
    (verifySegmentedChain Unmarshal Key EdVerify pub domain since (segment_files base fs) (open_file fs base)).
  Abbreviation records fs := (chain_records Unmarshal (segment_files base fs) (open_file fs base)).

(** The verifier on the directory of an open log. *)
Lemma open_verifies since was k h a fs :
  (forall m, EdVerify pub m (sign m) = true) -> open_on base domain sign was k h a fs ->
  exists n d, verify since fs = (n, Ok d) /\ prevHash a = headOrZero (vd_tip d)
    /\ exists gone, h = concat gone.*2 ++ records fs /\ Forall was gone /\ Forall (fun n => 1 <= n) gone.*1
       /\ StronglySorted Z.lt (gone.*1 ++ listSegments base fs) /\ (gone <> [] -> listSegments base fs <> []).
Proof.
  intros Hsign ((gone & segs & live & Hv & Hg & Hh & Hc & _) & _ & _ & Hp & _ & _). rewrite Hh in Hc.
  pose proof (gone_mark was gone segs Hg) as Hpm.
  destruct (view_accepted Unmarshal Key EdVerify pub base domain sign since Hsign fs segs live [] (concat gone.*2)) as (n & d & E);
    [done|done|done|by left|]. exists n, d. split; [done|].
  assert (Forall readable (retained segs live)) as Hr.
  { apply chained_app in Hc as [_ Hc]. eauto. }
  pose proof (view_records Unmarshal base fs segs live Hv Hr) as Er.
  apply verifySegmentedChain_spec in E as (Hl & -> & _ & Ht & _). rewrite Er in *.
  rewrite (view_anchor Unmarshal base domain sign fs segs live [] (concat gone.*2)) in Hl, Ht by done. split.
  - rewrite Hp, Hh, Ht, tip_app. destruct (Nat.eqb_spec (length (retained segs live)) 0) as [E0|E0].
    + apply nil_length_inv in E0. rewrite E0. unfold retained in E0. destruct segs as [|[m rs] segs].
      { by destruct Hpm as [->|(? & ? & ? & [=] & _)]. }
      pose proof (vw_full _ _ _ _ _ Hv) as [Hne _]%Forall_cons. rewrite fmap_cons in E0. cbn in E0, Hne. by destruct rs.
    + unfold headOrZero. by rewrite len_tip, Z.eqb_refl.
  - exists gone. destruct Hg as (Hw & H1 & Hs & Hne). rewrite (view_lists _ _ _ _ _ Hv). split_and!; [done..|].
    intros H E0%fmap_nil_inv. by apply Hne.
Qed.

(** C12: The writer never breaks its own chain, as long as what it does to recover succeeds.
    From a directory without this chain, after any sequence of boots, appends and losses of
    power (also between the rename and the reopening of a rotation, and in the middle of a
    record), in which each stat, write, sync, rename of a rotation or reopening may fail, the
    verifier accepts the directory, so the boot gate does not refuse it, and the tip an open
    log will continue from is the head the verifier computes. What must not fail ([tame]) is
    the truncation after a failed write or sync, the rename that undoes a rotation whose
    reopening failed, and the repair of the tail at boot; and a removal may fail only if those
    of the younger segments fail too. [failed_removal_breaks_chain] and
    [stuck_rotation_breaks_chain] below show what happens otherwise. *)
Theorem writer_always_verifies since fs evs :
  (1 <= segKeep)%nat -> (forall m, len (sign m) = 64) -> (forall m, EdVerify pub m (sign m) = true) ->
  fresh base fs -> Forall tame evs -> Z.of_nat (length evs) + 3 < 2 ^ 64 ->
  let s := run (None, fs) evs in
  exists n d, verify since s.2 = (n, Ok d) /\ forall a, s.1 = Some a -> prevHash a = headOrZero (vd_tip d).
Proof.
  intros Hk Hsl Hsign Hf Ht Hb. cbv zeta.
  destruct (run_from_fresh Unmarshal base domain rotateBytes segKeep sign Hk Hsl (fun _ => True) fs evs Hf Ht) as (k & h & Hinv & _);
    [done|done|].
  destruct (run (None, fs) evs) as [[a|] fs']; cbn [fst snd].
  - destruct (open_verifies since _ k h a fs' Hsign Hinv) as (n & d & E & Hp & _). exists n, d. split; [done|]. by intros ? [= <-].
  - destruct Hinv as (frag & (gone & segs & live & Hv & Hg & -> & Hc & _) & Hfr).
    destruct (view_accepted Unmarshal Key EdVerify pub base domain sign since Hsign fs' segs live frag (concat gone.*2)) as (n & d & E);
      [done|by eapply gone_mark|done..|].
    exists n, d. done.
Qed.

(** The segment [s] was in the directory, with exactly these records, between two events of
    the run. *)
Definition was_segment (fs : dir) (evs : list log_event) (s : Z * list auditRecord) : Prop :=
  exists evs1 evs2, evs = evs1 ++ evs2 /\ (run (None, fs) evs1).2 !! segmentName base s.1 = Some (flat s.2).

(** C16: An acknowledged record is not lost. After any such sequence (with the same conditions
    on faults) that ends with the log open, there is a list of segments that are gone, each of
    which was a file of the directory earlier in the run with exactly these records, such that
    the records acknowledged are, in order, among theirs followed by the retained ones. These
    form one hash chain from zero to the tip of the log; the numbers of the segments gone
    precede those of the segments listed; and if any is gone, a younger one is retained. So
    pruning removes whole segments from the oldest on, and nothing else is ever lost. *)
Theorem acknowledged_records_persist fs evs a fs' :
  (1 <= segKeep)%nat -> (forall m, len (sign m) = 64) -> (forall m, EdVerify pub m (sign m) = true) ->
  fresh base fs -> Forall tame evs -> Z.of_nat (length evs) + 3 < 2 ^ 64 ->
  run (None, fs) evs = (Some a, fs') ->
  exists gone,
    acks (None, fs) evs `sublist_of` (concat gone.*2 ++ records fs')
    /\ chained domain sign zeroHash 0 (concat gone.*2 ++ records fs')
    /\ prevHash a = tip_of domain zeroHash (concat gone.*2 ++ records fs')
    /\ Forall (was_segment fs evs) gone
    /\ StronglySorted Z.lt (gone.*1 ++ listSegments base fs')
    /\ (gone <> [] -> exists m ms, listSegments base fs' = m :: ms /\ 1 < m).
Proof.
  intros Hk Hsl Hsign Hf Ht Hb E.
  destruct (run_from_fresh Unmarshal base domain rotateBytes segKeep sign Hk Hsl (was_segment fs evs) fs evs Hf Ht)
    as (k & h & Hinv & Hs & _); [intros evs1 evs2 Ee n rs _ En; by exists evs1, evs2|done|].
  rewrite E in Hinv. destruct (open_verifies None _ k h a fs' Hsign Hinv) as (n & d & _ & _ & gone & Hh & Hw & H1 & Hso & Hne).
  exists gone. rewrite <- Hh. destruct Hinv as ((? & ? & ? & _ & _ & _ & Hc & _) & _ & _ & Hp & _ & _).
  split_and!; [done..|]. intros Hg. destruct (listSegments base fs') as [|m ms]; [by destruct Hne|].
  destruct gone as [|[i rs] gone]; [done|]. exists m, ms. split; [done|].
  pose proof (StronglySorted_app_1_elem_of Z.lt ((i, rs) :: gone).*1 (m :: ms) i m Hso ltac:(by left) ltac:(by left)).
  rewrite fmap_cons in H1. apply Forall_cons in H1 as [H1 _]. cbn [fst] in H1. lia.
Qed.
End writer.

(** ** A chain of the writer, evaluated

    A toy signature that verifies exactly its own output; a rotation before every record. *)
Definition toy_sign (m : bytes) : bytes := take 64 (m ++ replicate 64 (byte_of 7)).
Definition toy_verify (_ : unit) (m sig : bytes) : bool := bool_decide (sig = toy_sign m).

Lemma toy_length m : len (toy_sign m) = 64.
Proof. unfold len, toy_sign. rewrite length_take, length_app, length_replicate. lia. Qed.

Lemma toy_verifies m : toy_verify tt m (toy_sign m) = true.
Proof. by apply bool_decide_true. Qed.

Definition good_rot : rot_io := RotIO true true true true (fun _ => true).
Definition good_io : io := IO 1000 true good_rot true None true true.
Definition torn_io : io := IO 1000 true good_rot true (Some 30%nat) true true.
Definition an_event (comm : string) : provEvent := ProvEvent 42 7 (B comm) (B "bpf") (B "denied") (B "enforce").

Definition a_log : string := "provenance.jsonl".
Definition log_run (rotate : Z) (keep : nat) := run UnmarshalStrict a_log (B "collector") rotate keep toy_sign.

(** Two records and a failed write, a torn third record, a boot and a fourth. *)
Definition early : list log_event :=
  [Boot true; Append good_io (an_event "a"); Append torn_io (an_event "x"); Append good_io (an_event "b")].
Definition later : list log_event :=
  early ++ [PowerLoss good_io (an_event "c") false 50; Boot true; Append good_io (an_event "d")].

Lemma a_log_fresh : fresh a_log ∅.
Proof. split; reflexivity. Qed.

Lemma good_io_tame : tame_io good_io.
Proof. repeat split; try done; lia. Qed.

Lemma torn_io_tame : tame_io torn_io.
Proof. repeat split; try done; lia. Qed.

Lemma an_event_ok comm : (String.length comm <= 100)%nat -> event_ok (an_event comm).
Proof. intros H. split_and!; [done..|]. cbn [e_comm e_hook e_decision e_mode an_event]. unfold len. rewrite !length_B. cbn [String.length]. lia. Qed.

Lemma later_tame : Forall tame later.
Proof.
  unfold later, early. repeat constructor; try (apply good_io_tame || apply torn_io_tame); apply an_event_ok; cbn; lia.
Qed.

Definition check (since : option bytes) (fs : dir) :=
  verifySegmentedChain UnmarshalStrict unit toy_verify tt (B "collector") since (segment_files a_log fs) (open_file fs a_log).
Definition verdict_of (since : option bytes) (fs : dir) : nat * verdict :=
  match check since fs with (n, Ok d) => (n, d) | (n, Err _) => (n, Verdict 0 None 0 false) end.

(** The same history with a window of one segment and of five. *)
Definition early_1 : dir := Eval vm_compute in (log_run 300 1 (None, ∅) early).2.
Definition later_1 : dir := Eval vm_compute in (log_run 300 1 (None, ∅) later).2.
Definition later_5 : dir := Eval vm_compute in (log_run 300 5 (None, ∅) later).2.
Definition at_early : nat * verdict := Eval vm_compute in verdict_of None early_1.
Definition at_later_1 : nat * verdict := Eval vm_compute in verdict_of None later_1.
Definition at_later_5 : nat * verdict := Eval vm_compute in verdict_of None later_5.
Definition early_head : bytes := Eval vm_compute in default [] (vd_tip at_early.2).
Definition since_early : nat * verdict := Eval vm_compute in verdict_of (Some early_head) later_1.
Definition bodies_in (fs : dir) := bodies UnmarshalStrict (segment_files a_log fs) (open_file fs a_log).
Definition hashed_in (d : bytes) (fs : dir) := hashed UnmarshalStrict d (segment_files a_log fs) (open_file fs a_log).

Example windows_differ :
  listSegments a_log later_1 = [2] /\ listSegments a_log later_5 = [1; 2]
  /\ at_later_1.1 = 2%nat /\ at_later_5.1 = 3%nat.
Proof. vm_compute. auto. Qed.

Lemma same_head_same_log_witness :
  vd_tip at_later_1.2 = vd_tip at_later_5.2
  /\ (bodies_in later_1 `suffix_of` bodies_in later_5 \/ bodies_in later_5 `suffix_of` bodies_in later_1
      \/ collision (hashed_in (B "collector") later_1) (hashed_in (B "collector") later_5)).
Proof.
  split; [vm_compute; reflexivity|].
  refine (proj1 (same_head_same_log UnmarshalStrict unit toy_verify tt (B "collector") None None
    (segment_files a_log later_1) (open_file later_1 a_log)
    (segment_files a_log later_5) (open_file later_5 a_log)
    at_later_1.1 at_later_5.1
    at_later_1.2 at_later_5.2 _ _ _ _)); vm_compute; reflexivity.
Defined.

Lemma no_rewind_witness :
  vd_found since_early.2 = true
  /\ ((exists old later, chain_records UnmarshalStrict (segment_files a_log later_1) (open_file later_1 a_log) = old ++ later
        /\ old <> [] /\ bodies_in early_1 <> []
        /\ tip_of (B "collector") (chain_anchor UnmarshalStrict (segment_files a_log later_1)) old = early_head
        /\ (bodies_in early_1 `suffix_of` (body <$> old) \/ (body <$> old) `suffix_of` bodies_in early_1))
      \/ collision (hashed_in (B "collector") early_1) (hashed_in (B "collector") later_1)).
Proof.
  split; [vm_compute; reflexivity|].
  refine (no_rewind UnmarshalStrict unit toy_verify tt (B "collector") None early_head
    (segment_files a_log early_1) (open_file early_1 a_log)
    (segment_files a_log later_1) (open_file later_1 a_log)
    at_early.1 since_early.1
    at_early.2 since_early.2 _ _ _ _ _); vm_compute; reflexivity.
Defined.

Lemma accepted_records_are_signed_witness :
  at_later_1.1 = 2%nat
  /\ signed unit toy_verify tt (B "collector") (chain_anchor UnmarshalStrict (segment_files a_log later_1))
       (chain_records UnmarshalStrict (segment_files a_log later_1) (open_file later_1 a_log)).
Proof.
  split; [vm_compute; reflexivity|].
  refine (proj2 (accepted_records_are_signed UnmarshalStrict unit toy_verify tt (B "collector") None
    (segment_files a_log later_1) (open_file later_1 a_log)
    at_later_1.1 at_later_1.2 _)). vm_compute. reflexivity.
Defined.

Lemma domains_do_not_mix_witness :
  (exists m e, verifySegmentedChain UnmarshalStrict unit toy_verify tt (B "broker") None
     (segment_files a_log later_1) (open_file later_1 a_log) = (m, Err e))
  \/ collision (hashed_in (B "collector") later_1) (hashed_in (B "broker") later_1).
Proof.
  refine (domains_do_not_mix UnmarshalStrict unit toy_verify tt (B "collector") (B "broker") tt None None
    (segment_files a_log later_1) (open_file later_1 a_log)
    at_later_1.1 at_later_1.2 _ _ _ _ _);
    [vm_compute; reflexivity|vm_compute; reflexivity|discriminate|vm_compute; lia|vm_compute; reflexivity].
Defined.

Lemma writer_always_verifies_witness :
  exists n d, verifySegmentedChain UnmarshalStrict unit toy_verify tt (B "collector") None
    (segment_files a_log (run UnmarshalStrict a_log (B "collector") 300 1 toy_sign (None, ∅) later).2)
    (open_file (run UnmarshalStrict a_log (B "collector") 300 1 toy_sign (None, ∅) later).2 a_log) = (n, Ok d).
Proof.
  pose proof (writer_always_verifies UnmarshalStrict unit toy_verify tt a_log (B "collector") 300 1 toy_sign None ∅ later
    ltac:(lia) toy_length toy_verifies a_log_fresh later_tame ltac:(vm_compute; reflexivity)) as H. cbv zeta in H.
  destruct H as (n & d & H & _). exists n, d. exact H.
Defined.

Lemma acknowledged_records_persist_witness :
  exists a fs gone, run UnmarshalStrict a_log (B "collector") 300 1 toy_sign (None, ∅) later = (Some a, fs)
    /\ acks UnmarshalStrict a_log (B "collector") 300 1 toy_sign (None, ∅) later
      `sublist_of` (concat gone.*2 ++ chain_records UnmarshalStrict (segment_files a_log fs) (open_file fs a_log))
    /\ Forall (was_segment UnmarshalStrict a_log (B "collector") 300 1 toy_sign ∅ later) gone.
Proof.
  pose proof (acknowledged_records_persist UnmarshalStrict unit toy_verify tt a_log (B "collector") 300 1 toy_sign ∅ later) as H.
  assert (match run UnmarshalStrict a_log (B "collector") 300 1 toy_sign (None, ∅) later with (Some _, _) => true | _ => false end = true)
    as Hopen by (vm_compute; reflexivity).
  revert Hopen H. generalize (acks UnmarshalStrict a_log (B "collector") 300 1 toy_sign (None, ∅) later).
  generalize (run UnmarshalStrict a_log (B "collector") 300 1 toy_sign (None, ∅) later). intros [[a|] fs] l Hopen H; [|discriminate Hopen].
  destruct (H a fs ltac:(lia) toy_length toy_verifies a_log_fresh later_tame ltac:(vm_compute; reflexivity) eq_refl)
    as (gone & Hs & _ & _ & Hw & _).
  exists a, fs, gone. split; [reflexivity|split; [exact Hs|exact Hw]].
Defined.

(** ** Faults outside the design

    A removal that fails while a younger one succeeds leaves a gap in the retained window:
    segments 1 and 3 without 2, where the comment of [pruneSegments] expects at worst an
    excess of the footprint. The next verification fails at the gap. *)
Definition gap_rot : rot_io := RotIO true true true true (fun n => negb (n =? 1)).
Definition gap_io : io := IO 1000 true gap_rot true None true true.
Definition gap_events : list log_event :=
  Boot true :: ((fun c => Append gap_io (an_event c)) <$> ["a"; "b"; "c"; "d"]).

Lemma failed_removal_breaks_chain :
  let fs := (log_run 300 1 (None, ∅) gap_events).2 in
  listSegments a_log fs = [1; 3] /\ check None fs = (1%nat, Err BadSeq).
Proof. vm_compute. auto. Qed.

(** If neither the reopening nor its undoing succeeds, the log continues in the sealed file;
    a record torn there is not repaired at the next boot and not tolerated. *)
Definition stuck_rot : rot_io := RotIO true true false false (fun _ => true).
Definition stuck_events : list log_event :=
  [Boot true; Append good_io (an_event "a"); Append (IO 1000 true stuck_rot true None true true) (an_event "b");
   PowerLoss good_io (an_event "c") false 50; Boot true].

Lemma stuck_rotation_breaks_chain :
  let fs := (log_run 300 1 (None, ∅) stuck_events).2 in
  listSegments a_log fs = [1] /\ (check None fs).2 = Err MalformedJson.
Proof. vm_compute. auto. Qed.

(** A torn tail hides the tip: after well-formed records and a torn one, the last hash is not
    found, in this file or, if the directory has no segment, anywhere. *)
Definition torn_events : list log_event :=
  [Boot true; Append good_io (an_event "a"); PowerLoss good_io (an_event "b") false 50].

Lemma torn_tail_hides_tip :
  let fs := (log_run 0 1 (None, ∅) torn_events).2 in
  (verdict_of None fs).1 = 1%nat /\ lastChainTip UnmarshalStrict a_log fs = None.
Proof. vm_compute. auto. Qed.

(** A head read between a write and a failing sync is the hash of a record that is then
    rolled back: an honest log later reports it as rewound. *)
Definition nosync_io : io := IO 1000 true good_rot true None false true.

Definition during_append (comm : string) (s : log_state) : dir :=
  match s with
  | (Some a, fs) => write (a_file a) (line_of (make_record (B "collector") toy_sign 1000 (an_event comm) a)) fs
  | (None, fs) => fs
  end.

Lemma head_of_unsynced_record_is_rewound :
  let s := log_run 0 1 (None, ∅) [Boot true; Append good_io (an_event "a")] in
  let seen := lastChainTip UnmarshalStrict a_log (during_append "b" s) in
  let fs := (log_run 0 1 s [Append nosync_io (an_event "b"); Append good_io (an_event "c")]).2 in
  (verdict_of seen fs).1 = 2%nat /\ (audit_verdict seen [] (verdict_of seen fs).2).1.1 = Rewound.
Proof. vm_compute. auto. Qed.
