(* ===== verification/LogClients.v ===== *)
(** * Services over one signed log

    The proxy and the router append to a log of [AuditLog] while requests interleave, operations
    fail and power is lost. What such a service keeps: its log is the outcome of its history of
    log events, and every event it was told was recorded is on the chain. *)
From Stdlib Require Import ZArith Lia Ascii String.
From stdpp Require Import base tactics numbers option strings list gmap.
From S2P Require Import Prelude Endian Maps Bytes Sha256 Json Control Broker Verify AuditLog AuditFiles AuditProps AuditWriter ChainProps.
#[local] Open Scope string_scope.
#[local] Open Scope list_scope.
#[local] Open Scope Z_scope.

Section client.
  Context (Unmarshal : bytes -> option auditRecord) {HJ : JsonReader Unmarshal}.
  Context (base : string) (domain : bytes) (rotateBytes : Z) (segKeep : nat) (sign : bytes -> bytes).
  Abbreviation run := (run Unmarshal base domain rotateBytes segKeep sign).
  Abbreviation acks := (acks Unmarshal base domain rotateBytes segKeep sign).
  Abbreviation acked := (acked base domain rotateBytes segKeep sign).
  Abbreviation log_step := (log_step Unmarshal base domain rotateBytes segKeep sign).
  Abbreviation records fs := (chain_records Unmarshal (segment_files base fs) (open_file fs base)).

Lemma run_snoc s evs e : run s (evs ++ [e]) = log_step (run s evs) e.
Proof. revert s. induction evs as [|e' evs IH]; intros s; [done|]. cbn [app AuditWriter.run]. by rewrite IH. Qed.

Lemma acks_snoc s evs e : acks s (evs ++ [e]) = acks s evs ++ acked (run s evs) e.
Proof.
  revert s. induction evs as [|e' evs IH]; intros s; cbn [app AuditWriter.acks AuditWriter.run]; [by rewrite app_nil_r|].
  by rewrite IH, app_assoc.
Qed.

(** The log [lg] has the history [hist], of at most [n] events within the design, and holds
    every event of [told]. *)
Record keeps_history (fs : dir) (n : nat) (lg : log_state) (hist : list log_event) (told : provEvent -> Prop) : Prop := {
  kh_run : lg = run (None, fs) hist;
  kh_tame : Forall tame hist;
  kh_len : (length hist <= n)%nat;
  kh_acks : forall ev, told ev -> exists now a, make_record domain sign now ev a ∈ acks (None, fs) hist }.

Lemma history_init fs : keeps_history fs 0 (None, fs) [] (fun _ => False).
Proof. split; [done|constructor|done|done]. Qed.

Lemma history_weaken fs n n' lg hist (told told' : provEvent -> Prop) :
  (n <= n')%nat -> (forall ev, told' ev -> told ev) -> keeps_history fs n lg hist told -> keeps_history fs n' lg hist told'.
Proof. intros Hn Ht [Hr Hta Hl Ha]. split; [done..|lia|auto]. Qed.

Lemma history_event fs n lg hist told e :
  tame e -> keeps_history fs n lg hist told -> keeps_history fs (S n) (log_step lg e) (hist ++ [e]) told.
Proof.
  intros Hte [Hr Ht Hl Ha]. split.
  - by rewrite run_snoc, Hr.
  - apply Forall_app. split; [done|]. by repeat constructor.
  - rewrite length_app. cbn. lia.
  - intros ev Hi. destruct (Ha ev Hi) as (now & a & Hin). exists now, a. rewrite acks_snoc. apply elem_of_app. by left.
Qed.

Lemma history_append fs n lg hist (told : provEvent -> Prop) x ev a fs0 :
  tame_io x -> event_ok ev -> lg = (Some a, fs0) -> keeps_history fs n lg hist told ->
  keeps_history fs (S n) (log_step lg (Append x ev)) (hist ++ [Append x ev])
    (fun ev' => told ev' \/ (ev' = ev /\ (append base domain rotateBytes segKeep sign x ev a fs0).1.1 = true)).
Proof.
  intros Hx Hev Hlog Hk. pose proof (history_event fs n lg hist told (Append x ev) (conj Hx Hev) Hk) as [Hr Ht Hl Ha].
  split; [done..|]. intros ev' [Hi|[-> Hok]]; [by apply Ha|].
  exists (io_now x), a. rewrite acks_snoc, <- (kh_run _ _ _ _ _ Hk), Hlog. cbn [AuditWriter.acked]. rewrite Hok.
  apply elem_of_app. right. by left.
Qed.

(** The chain of a history, pruned part and retained part: one signed chain from zero that
    holds what the service was told is recorded, and otherwise only what the service gave it,
    each at most once and in order. *)
Lemma chain_of_history fs n lg hist told a fs' :
  (1 <= segKeep)%nat -> (forall m, len (sign m) = 64) -> fresh base fs -> Z.of_nat n + 3 < 2 ^ 64 ->
  keeps_history fs n lg hist told -> lg = (Some a, fs') ->
  exists pruned, chained domain sign zeroHash 0 (pruned ++ records fs')
    /\ (forall ev, told ev -> exists now a0, make_record domain sign now ev a0 ∈ pruned ++ records fs')
    /\ records_some domain sign (pruned ++ records fs') (given hist).
Proof.
  intros Hk Hsl Hf Hb [Hr Ht Hle Hacks] Hlog. rewrite Hlog in Hr.
  destruct (run_from_fresh Unmarshal base domain rotateBytes segKeep sign Hk Hsl (fun _ => True) fs hist Hf Ht)
    as (k & h & Hinv & Hsub & Hmade); [done|lia|].
  rewrite <- Hr in Hinv.
  destruct (open_verifies Unmarshal unit (fun _ _ _ => true) tt base domain sign None _ k h a fs' (fun _ => eq_refl) Hinv)
    as (m & d & _ & _ & gone & Hh & _).
  exists (concat gone.*2). rewrite <- Hh. split_and!.
  - destruct Hinv as ((? & ? & ? & _ & _ & _ & Hc & _) & _). exact Hc.
  - intros ev Htold. destruct (Hacks ev Htold) as (now & a0 & Hin). exists now, a0. by eapply elem_of_sublist.
  - exact Hmade.
Qed.

(** What the service was told is recorded is among what was pruned and what is retained, and
    these are one signed chain from zero. *)
Lemma told_is_on_chain fs n lg hist told a fs' ev :
  (1 <= segKeep)%nat -> (forall m, len (sign m) = 64) -> fresh base fs -> Z.of_nat n + 3 < 2 ^ 64 ->
  keeps_history fs n lg hist told -> lg = (Some a, fs') -> told ev ->
  exists pruned r, r ∈ pruned ++ records fs' /\ chained domain sign zeroHash 0 (pruned ++ records fs')
    /\ exists now a0, r = make_record domain sign now ev a0.
Proof.
  intros Hk Hsl Hf Hb Hkh Hlog Htold.
  destruct (chain_of_history fs n lg hist told a fs' Hk Hsl Hf Hb Hkh Hlog) as (pruned & Hc & Ht & _).
  destruct (Ht ev Htold) as (now & a0 & Hin). eauto 10.
Qed.
End client.
