(* ===== verification/Events.v ===== *)
(** * The collector's daemon: start-up and the reader of the ring buffer

    [runCollector] of [main.go]: the maps as a start leaves them, the decoding of a record the
    programs submitted, its way onto the signed chain, and the daemon as a transition system in
    which the programs, the other components of [System], the reader, restarts and losses of
    power interleave. *)
From Stdlib Require Import ZArith Lia Ascii String.
From stdpp Require Import base tactics numbers option strings list gmap.
From S2P Require Import Prelude Endian Objects Maps Kernel Hooks HookProps Abi Classes Gc Control Broker Approval System Bytes Sha256 Json Verify AuditLog AuditFiles AuditProps AuditWriter ChainProps LogClients.
#[local] Open Scope string_scope.
#[local] Open Scope list_scope.
#[local] Open Scope Z_scope.
#[local] Opaque Sum256 canonical.

(** ** Decoding a sample *)

(** [b[i:j]]. *)
Definition slice (i j : nat) (b : list Z) : list Z := take (j - i) (drop i b).

(** [bytes.TrimRight(b, "\x00")]. *)
Fixpoint TrimNul (b : list Z) : list Z :=
  match b with
  | [] => []
  | c :: b => match TrimNul b with [] => if c =? 0 then [] else [c] | b' => c :: b' end
  end.

Definition decisionName (decision mode : Z) : string :=
  if decision =? 0 then "allowed" else if mode =? 1 then "denied" else "would-deny".

Definition modeName (mode : Z) : string := if mode =? 1 then "enforce" else "observe".

(** The name of a hook in a record: ["unknown"] for an id the table lacks. *)
Definition eventHook (id : Z) : string := if (hookName id =? "")%string then "unknown" else hookName id.

Definition decodeEvent (b : list Z) : provEvent :=
  let mode := le_combine (slice 36 40 b) in
  ProvEvent (le_combine (slice 0 8 b)) (le_combine (slice 8 12 b)) (byte_of <$> TrimNul (slice 12 28 b))
    (B (eventHook (le_combine (slice 28 32 b))))
    (B (decisionName (le_combine (slice 32 36 b)) mode)) (B (modeName mode)).

(** A sample shorter than the structure is skipped. *)
Definition readSample (b : list Z) : option provEvent :=
  if (length b <? 40)%nat then None else Some (decodeEvent b).

(** ** Start-up *)

(** What the start reads: inode numbers and [/proc/self/cgroup]. *)
Record start_env := StartEnv { se_stat : string -> option Z; se_self : option string }.

Fixpoint v2_line (lines : list string) : string :=
  match lines with
  | [] => ""
  | l :: lines => match TrimPrefix_opt "0::" l with Some p => p | None => v2_line lines end
  end.

Definition selfCgroupPath (self : option string) : string :=
  match self with Some data => v2_line (Split (ascii_of_N 10) (TrimSpace data)) | None => "" end.

Definition tcbCgroupIDs (e : start_env) : list Z :=
  option_list (se_stat e "/sys/fs/cgroup")
  ++ (let p := selfCgroupPath (se_self e) in
      if (p =? "")%string then [] else option_list (se_stat e (cgroup_file p))).

(** An update of [tcb_cgroups] that fails is only logged. *)
Definition tcb_add (tcb : gmap Z Z) (cg : Z) : gmap Z Z :=
  match m_update tcb_ops BPF_ANY cg 1 tcb with Ok tcb => tcb | Err _ => tcb end.

(** The maps after a start: the pins of the previous run are removed, the object's maps are
    new, the trusted cgroups are added and then the broker's, if it exists. *)
Definition start_maps (e : start_env) : kstate :=
  KState (replicate 8 0) (foldl tcb_add ∅ (tcbCgroupIDs e ++ option_list (se_stat e brokerCgroupPath))) ∅ ∅ [].

(** ** The daemon *)
Definition collector_log : string := "provenance.jsonl".
Definition collector_domain : bytes := B "collector".

(** What a run of the daemon shows: verdicts of the programs, with the record each submitted,
    and records passed to [append], with its answer. *)
Inductive obs :=
| Judged (i : invocation) (ret : Z) (submitted : option event)
| Recorded (ev : provEvent) (ok : bool).

(** [d_up] tells whether the process runs: its links are not pinned, so the programs are
    attached only while it does. *)
Record daemon := Daemon {
  d_sys : sys;
  d_up : bool;
  d_log : log_state;
  d_hist : list log_event;   (* what the log was given, oldest first *)
  d_trace : list obs }.

Inductive dlabel :=
| DStart (e : start_env) (repair_ok : bool)
| DSys (ev : sys_event)
| DRead (x : io)
| DReadError
| DStop
| DCrash (x : io) (mid_rotate : bool) (k : nat).

(** Programs, control socket and garbage collection are the collector's. *)
Definition of_collector (ev : sys_event) : bool :=
  match ev with Invoke _ | ControlReq _ _ _ _ | Tick _ => true | _ => false end.

Definition with_maps (m : kstate) (y : sys) : sys :=
  Sys m (control_chain y) (broker_chain y) (gate_ y) (decided_ y) (gc_ y).

Definition pop_event (y : sys) (es : list event) : sys := with_maps (set_events es (maps y)) y.

(** What a program invoked in [m] shows. *)
Definition verdict_obs (ev : sys_event) (m : kstate) : list obs :=
  match ev with
  | Invoke i =>
      let '(ret, m') := invoke i m in [Judged i ret (head (drop (length (events m)) (events m')))]
  | _ => []
  end.

Section daemon.
  Context (Unmarshal : bytes -> option auditRecord).
  Context (rotateBytes : Z) (segKeep : nat) (sign : bytes -> bytes).
  Abbreviation log_step := (log_step Unmarshal collector_log collector_domain rotateBytes segKeep sign).
  Abbreviation append := (append collector_log collector_domain rotateBytes segKeep sign).

(** [runCollector] up to its loop: the log is opened and repaired, and the marks of the
    garbage collection start empty. *)
Definition start (e : start_env) (repair_ok : bool) (y : daemon) : daemon :=
  let s := d_sys y in
  Daemon (Sys (start_maps e) (control_chain s) (broker_chain s) (gate_ s) (decided_ s) (GcState ∅ ∅))
    true (log_step (d_log y) (Boot repair_ok)) (d_hist y ++ [Boot repair_ok]) (d_trace y).

(** One turn of the loop on a record: decoded, appended, a failure of which is only logged. *)
Definition read_one (x : io) (y : daemon) : daemon :=
  match events (maps (d_sys y)), d_log y with
  | e :: es, (Some a, fs) =>
      let s := pop_event (d_sys y) es in
      match readSample (encode_event e) with
      | None => Daemon s (d_up y) (d_log y) (d_hist y) (d_trace y)
      | Some ev =>
          Daemon s (d_up y) (log_step (d_log y) (Append x ev)) (d_hist y ++ [Append x ev])
            (d_trace y ++ [Recorded ev (append x ev a fs).1.1])
      end
  | _, _ => y
  end.

(** The process ends: the ring buffer, which is not pinned, goes with it. *)
Definition stop (y : daemon) : daemon := Daemon (pop_event (d_sys y) []) false (d_log y) (d_hist y) (d_trace y).

(** The process dies, with power or without, perhaps while it appends the oldest record. *)
Definition crash (x : io) (mid_rotate : bool) (k : nat) (y : daemon) : daemon :=
  match head (omap (fun e => readSample (encode_event e)) (events (maps (d_sys y)))) with
  | Some ev =>
      let lost := PowerLoss x ev mid_rotate k in
      stop (Daemon (d_sys y) (d_up y) (log_step (d_log y) lost) (d_hist y ++ [lost]) (d_trace y))
  | None => stop y
  end.

Definition daemon_step (y : daemon) (l : dlabel) : daemon :=
  match l with
  | DStart e r => if d_up y then y else start e r y
  | DSys ev =>
      if of_collector ev && negb (d_up y) then y
      else Daemon (sys_step (d_sys y) ev) (d_up y) (d_log y) (d_hist y) (d_trace y ++ verdict_obs ev (maps (d_sys y)))
  | DRead x => if d_up y then read_one x y else y
  | DReadError => y
  | DStop => stop y
  | DCrash x mid k => if d_up y then crash x mid k y else y
  end.

(** Before the first start: nothing in the buffer, the directory [fs]. *)
Definition off (s : sys) (fs : dir) : daemon := Daemon (with_maps (set_events [] (maps s)) s) false (None, fs) [] [].

Definition daemon_run (s : sys) (fs : dir) (ls : list dlabel) : daemon := foldl daemon_step (off s fs) ls.
End daemon.
