(* ===== verification/EventsProps.v ===== *)
(** * From the verdict of a program to a record on the signed chain

    The reader decodes what the programs encode; the chain of the collector holds records of
    verdicts only, each says "denied" exactly when the operation was, those acknowledged stay,
    and while the daemon runs none is lost or reordered. *)
From Stdlib Require Import ZArith Lia Ascii String.
From stdpp Require Import base tactics numbers option strings list gmap.
From S2P Require Import Prelude Endian CType Objects Maps Kernel Hooks Fixtures HookProps Abi Classes Gc Control Broker Approval System Bytes Sha256 Json Verify AuditLog AuditFiles AuditProps AuditWriter ChainProps LogClients Events.
#[local] Open Scope string_scope.
#[local] Open Scope list_scope.
#[local] Open Scope Z_scope.
#[local] Opaque Sum256 canonical.

(** ** The sample is the structure *)

(** The offsets written in the reader are those of the members in the C structure. *)
Lemma slices_are_members b :
  member_bytes struct_event ["cgroup_id"] b = slice 0 8 b /\ member_bytes struct_event ["pid"] b = slice 8 12 b
  /\ member_bytes struct_event ["comm"] b = slice 12 28 b /\ member_bytes struct_event ["hook"] b = slice 28 32 b
  /\ member_bytes struct_event ["decision"] b = slice 32 36 b /\ member_bytes struct_event ["mode"] b = slice 36 40 b.
Proof. split_and!; reflexivity. Qed.

(** What the reader makes of a record. *)
Definition prov_of (ev : event) : provEvent :=
  ProvEvent (ev_cgroup_id ev) (ev_pid ev) (byte_of <$> TrimNul (ev_comm ev)) (B (eventHook (ev_hook ev)))
    (B (decisionName (ev_decision ev) (ev_mode ev))) (B (modeName (ev_mode ev))).

Lemma read_encoded ev : wf_event ev -> readSample (encode_event ev) = Some (prov_of ev).
Proof.
  intros Hwf. destruct (event_roundtrip ev Hwf) as (Hl & H1 & H2 & H3 & H4 & H5 & H6).
  destruct (slices_are_members (encode_event ev)) as (E1 & E2 & E3 & E4 & E5 & E6).
  unfold readSample. change (sizeof struct_event) with 40 in Hl. rewrite (proj2 (Nat.ltb_ge _ _)) by lia.
  unfold decodeEvent. rewrite <- E1, <- E2, <- E3, <- E4, <- E5, <- E6, H1, H2, H3, H4, H5, H6. reflexivity.
Qed.

Lemma TrimNul_length b : (length (TrimNul b) <= length b)%nat.
Proof.
  induction b as [|c b IH]; [done|]. cbn [TrimNul]. destruct (TrimNul b); [destruct (c =? 0); cbn; lia|]. cbn in *. lia.
Qed.

(** The bytes before the terminating NULs are kept as they are. *)
Lemma TrimNul_padded b n : (forall c, list.last b = Some c -> c <> 0) -> TrimNul (b ++ replicate n 0) = b.
Proof.
  assert (TrimNul (replicate n 0) = []) as Hn by (induction n as [|n IH]; cbn; [done|by rewrite IH]).
  induction b as [|c b IH]; intros Hl; [done|]. cbn [app TrimNul]. destruct b as [|c' b].
  - cbn [app]. rewrite Hn. by rewrite (proj2 (Z.eqb_neq _ _) (Hl c eq_refl)).
  - rewrite IH; [done|]. intros d Hd. apply Hl. exact Hd.
Qed.

Lemma eventHook_short h : len (B (eventHook h)) <= 14.
Proof.
  unfold eventHook, hookName. destruct (list_find _ hookNames) as [[i [h' n]]|] eqn:E; [|done].
  apply list_find_Some in E as (Hl & _). cbn.
  do 5 (destruct i as [|i]; [injection Hl as <- <-; vm_compute; congruence|]). done.
Qed.

Lemma prov_of_ok ev : wf_event ev -> event_ok (prov_of ev).
Proof.
  intros [Hc Hp Hm _ _ _]. split_and!; [done..|]. cbn [prov_of e_comm e_hook e_decision e_mode].
  pose proof (eventHook_short (ev_hook ev)).
  assert (len (B (decisionName (ev_decision ev) (ev_mode ev))) <= 10) by (unfold decisionName; repeat case_match; vm_compute; congruence).
  assert (len (B (modeName (ev_mode ev))) <= 7) by (unfold modeName; case_match; vm_compute; congruence).
  pose proof (TrimNul_length (ev_comm ev)). unfold len at 1. rewrite length_fmap. lia.
Qed.

(** ** Verdicts and their records *)
Definition dm_spec (ret : Z) (dm : Z * Z) : Prop :=
  (dm.1 = 0 \/ dm.1 = 1) /\ (dm.2 = 0 \/ dm.2 = 1) /\ (dm = (1, 1) <-> ret = - EPERM).

Definition verdict_ok (o : obs) : Prop :=
  match o with
  | Judged i ret (Some e) => exists dm, e = the_event (i_env i) (prog_hook (i_prog i)) dm /\ dm_spec ret dm
  | _ => True
  end.

(** One invocation: the record it submits, if any, is the new end of the buffer and tells
    the verdict. *)
Lemma invoke_submits i s :
  exists sub, events (invoke i s).2 = events s ++ option_list sub
    /\ head (drop (length (events s)) (events (invoke i s).2)) = sub /\ verdict_ok (Judged i (invoke i s).1 sub).
Proof.
  assert (exists sub, events (invoke i s).2 = events s ++ option_list sub
    /\ verdict_ok (Judged i (invoke i s).1 sub)) as (sub & -> & Hv).
  2:{ exists sub. split_and!; [done| |done]. rewrite drop_app_length. by destruct sub. }
  destruct (Z.eq_dec (i_ret i) 0) as [Hr|Hr].
  - rewrite invoke_events by done.
    assert (forall dm, dm_of i s = Some dm -> dm_spec (invoke i s).1 dm) as Hspec.
    { intros dm Hdm. destruct (dm_of_bits i s dm Hdm) as [Hb1 Hb2]. split_and!; [done..|].
      rewrite invoke_eq, Hr. cbn [Z.eqb negb fst]. rewrite verdict_eperm. revert Hdm. unfold dm_of.
      destruct (guarded i s), (i_prog i), (outcome_of i s); intros [= <-]; cbn; split; congruence. }
    destruct (dm_of i s) as [dm|]; [|exists None; by rewrite app_nil_r].
    destruct (reserve_ok _ _); [|exists None; by rewrite app_nil_r].
    exists (Some (the_event (i_env i) (prog_hook (i_prog i)) dm)). split; [done|]. exists dm. eauto.
  - exists None. rewrite invoke_eq. destruct (Z.eqb_spec (i_ret i) 0); [done|]. cbn [negb snd option_list].
    by rewrite app_nil_r.
Qed.

Lemma the_event_wf e hook ret dm : wf_env e -> in_width 32 hook -> dm_spec ret dm -> wf_event (the_event e hook dm).
Proof.
  intros [Hc Hm] Hh (H1 & H2 & _). split; cbn [the_event ev_cgroup_id ev_pid ev_comm ev_hook ev_decision ev_mode]; [done|apply wrap_in_width; lia|done|done| |];
    unfold in_width; lia.
Qed.

(** "denied" on record is a denial. *)
Lemma denied_name dm : (dm.1 = 0 \/ dm.1 = 1) -> (dm.2 = 0 \/ dm.2 = 1) ->
  decisionName dm.1 dm.2 = "denied" <-> dm = (1, 1).
Proof. destruct dm as [d m]. cbn [fst snd]. intros [-> | ->] [-> | ->]; cbn; split; congruence. Qed.

(** The other components leave the ring buffer alone. *)
Lemma sys_step_events y ev :
  match ev with Invoke _ => False | _ => True end -> events (maps (sys_step y ev)) = events (maps y).
Proof.
  assert (forall x d s, events (b_maps (finishGated x d s).1.2) = events (b_maps s)) as Hf.
  { intros x d s. destruct (finishGated x d s) as [[r s'] l] eqn:E. cbn [fst snd].
    apply finishGated_cases in E as (v & a & _ & [(-> & _)|(detail & _ & E & _)]); [done|].
    apply execute_effect in E as (_ & E). destruct (pd_kind _);
      [destruct E as [-> _]|destruct E as (_ & live & _ & _ & ->)|destruct E as [_ ->]]; done. }
  destruct ev as [i|x p f|e li uid pid f|id|x n|e at_ p f|f]; cbn [sys_step]; intros Hne; [done|..].
  - destruct (handleBrokerConn _ _ _ _) as [|pd]; [done|]. destruct (register pd (gate_ y)) as [[id|] g]; [done|].
    cbn [with_broker maps]. apply Hf.
  - destruct (handleApprove _ _ _ _ _ _ _) as [[[r g] s] d] eqn:E. cbn [with_gate with_broker maps].
    apply handleApprove_effect in E as [(_ & -> & _)|[(_ & -> & _)|(_ & _ & _ & cg & path & req & _ & [->|(_ & live & _ & ->)])]]; done.
  - by destruct (resolve _ _ _ _ _) as [d g].
  - destruct (decided_ y !! n) as [d|]; [|done]. cbn [maps]. apply Hf.
  - cbn [maps]. pose proof (handleControlConn_effect e at_ p f (CState (maps y) (control_chain y))) as He.
    by destruct He.
  - destruct (gcTick f (gc_ y) (maps y)) as [g m] eqn:E. cbn [maps].
    apply gcTick_spec in E as (_ & _ & _ & He & _). exact He.
Qed.

(** ** The daemon *)

(** The records the programs submitted and those given to [append], in order. *)
Definition submissions (tr : list obs) : list event :=
  omap (fun o => match o with Judged _ _ sub => sub | Recorded _ _ => None end) tr.
Definition appended (tr : list obs) : list provEvent :=
  omap (fun o => match o with Recorded ev _ => Some ev | Judged _ _ _ => None end) tr.

(** Within the design: invocations by tasks of the kernel, and faults the writer tolerates. *)
Definition tame_dlabel (l : dlabel) : Prop :=
  match l with
  | DStart _ r => r = true
  | DSys (Invoke i) => wf_env (i_env i)
  | DRead x | DCrash x _ _ => tame_io x
  | _ => True
  end.

Section daemon.
  Context (Unmarshal : bytes -> option auditRecord) {HJ : JsonReader Unmarshal}.
  Context (rotateBytes : Z) (segKeep : nat) (sign : bytes -> bytes).
  Abbreviation keeps := (keeps_history Unmarshal collector_log collector_domain rotateBytes segKeep sign).
  Abbreviation step := (daemon_step Unmarshal rotateBytes segKeep sign).
  Abbreviation drun := (daemon_run Unmarshal rotateBytes segKeep sign).
  Abbreviation append := (append collector_log collector_domain rotateBytes segKeep sign).
  Abbreviation waiting y := (events (maps (d_sys y))).
  Abbreviation records fs := (chain_records Unmarshal (segment_files collector_log fs) (open_file fs collector_log)).

Record daemon_inv (fs : dir) (n : nat) (y : daemon) : Prop := {
  di_verdicts : Forall verdict_ok (d_trace y);
  di_wf : Forall wf_event (submissions (d_trace y));
  di_fifo : appended (d_trace y) ++ (prov_of <$> waiting y) `sublist_of` (prov_of <$> submissions (d_trace y));
  di_waiting : waiting y `sublist_of` submissions (d_trace y);
  di_history : keeps fs n (d_log y) (d_hist y) (fun ev => Recorded ev true ∈ d_trace y);
  di_given : given (d_hist y) ++ (prov_of <$> waiting y) `sublist_of` (prov_of <$> submissions (d_trace y)) }.

Lemma waiting_wf fs n y : daemon_inv fs n y -> Forall wf_event (waiting y).
Proof.
  intros Hi. apply Forall_forall. intros e He. pose proof (di_wf _ _ _ Hi) as Hw. rewrite Forall_forall in Hw.
  apply Hw. eapply elem_of_sublist; [exact He|apply Hi].
Qed.

Lemma submissions_snoc tr o : submissions (tr ++ [o]) = submissions tr ++ submissions [o].
Proof. apply omap_app. Qed.
Lemma appended_snoc tr o : appended (tr ++ [o]) = appended tr ++ appended [o].
Proof. apply omap_app. Qed.

Lemma given_snoc hist e : given (hist ++ [e]) = given hist ++ given [e].
Proof. apply omap_app. Qed.

Lemma daemon_inv_mono fs n y : daemon_inv fs n y -> daemon_inv fs (S n) y.
Proof. intros [Hv Hw Hf Hwa Hh Ho]. split; [done..| |done]. eapply history_weaken; [| |exact Hh]; [lia|done]. Qed.

(** A step that leaves log and trace alone and may lose what was waiting. *)
Lemma daemon_inv_frame fs n y y' :
  d_trace y' = d_trace y -> d_log y' = d_log y -> d_hist y' = d_hist y -> waiting y' `sublist_of` waiting y ->
  daemon_inv fs n y -> daemon_inv fs n y'.
Proof.
  intros Et El Eh Hs [Hv Hw Hf Hwa Hh Hg].
  assert (forall l : list provEvent, l ++ (prov_of <$> waiting y') `sublist_of` l ++ (prov_of <$> waiting y)) as Hl.
  { intros l. apply sublist_app; [done|]. by apply fmap_sublist. }
  split; rewrite ?Et, ?El, ?Eh; [done|done|by etrans; [apply Hl|]|by etrans|done|by etrans; [apply Hl|]].
Qed.

(** The log takes an event made of the first records waiting, or of none. *)
Lemma daemon_inv_log fs n y y' e :
  d_trace y' = d_trace y -> d_log y' = log_step Unmarshal collector_log collector_domain rotateBytes segKeep sign (d_log y) e ->
  d_hist y' = d_hist y ++ [e] -> waiting y' = [] -> tame e -> given [e] `sublist_of` (prov_of <$> waiting y) ->
  daemon_inv fs n y -> daemon_inv fs (S n) y'.
Proof.
  intros Et El Eh Ew Hte Hoff [Hv Hw Hf Hwa Hh Hg]. split; rewrite ?Et, ?El, ?Eh, ?Ew, ?given_snoc; cbn [fmap list_fmap]; rewrite ?app_nil_r; try done.
  - etrans; [|exact Hf]. by apply sublist_inserts_r.
  - apply sublist_nil_l.
  - by apply history_event.
  - etrans; [|exact Hg]. by apply sublist_app.
Qed.

Lemma read_waiting fs n y :
  daemon_inv fs n y -> omap (fun e => readSample (encode_event e)) (waiting y) = prov_of <$> waiting y.
Proof.
  intros Hw%waiting_wf. induction Hw as [|e es He Hes IH]; [done|]. rewrite fmap_cons, <- IH.
  cbn [omap list_omap]. by rewrite read_encoded.
Qed.

Lemma stop_inv fs n y : daemon_inv fs n y -> daemon_inv fs n (stop y).
Proof. apply daemon_inv_frame; try done. apply sublist_nil_l. Qed.

Lemma crash_inv fs n x mid k y :
  tame_io x -> daemon_inv fs n y -> daemon_inv fs (S n) (crash Unmarshal rotateBytes segKeep sign x mid k y).
Proof.
  intros Hx Hi. unfold crash. rewrite (read_waiting fs n y Hi). pose proof (waiting_wf fs n y Hi) as Hw.
  destruct (waiting y) as [|e es] eqn:Ew; cbn [fmap list_fmap head]; [by apply daemon_inv_mono, stop_inv|].
  apply Forall_cons in Hw as [He _]. cbv zeta.
  eapply (daemon_inv_log fs n y _ (PowerLoss x (prov_of e) mid k)); [done..|split; [done|by apply prov_of_ok]| |exact Hi].
  rewrite Ew. cbn. apply sublist_skip, sublist_nil_l.
Qed.

Lemma read_one_inv fs n x y :
  tame_io x -> daemon_inv fs n y -> daemon_inv fs (S n) (read_one Unmarshal rotateBytes segKeep sign x y).
Proof.
  intros Hx Hi. pose proof (waiting_wf fs n y Hi) as Hw.
  unfold read_one. destruct (waiting y) as [|e es] eqn:Ew; [by apply daemon_inv_mono|].
  destruct (d_log y) as [[a|] fs0] eqn:El; [|by apply daemon_inv_mono].
  apply Forall_cons in Hw as [Hwe Hwes]. rewrite read_encoded by done. destruct Hi as [Hv Hs Hf Hwa Hh Ho].
  rewrite Ew, ?fmap_cons in *.
  split; cbn [d_trace d_log d_hist d_sys maps pop_event with_maps set_events events];
    rewrite ?submissions_snoc, ?appended_snoc; change (submissions [Recorded _ _]) with (@nil event); rewrite ?app_nil_r; try done.
  - apply Forall_app. by repeat constructor.
  - change (appended [Recorded ?ev ?ok]) with [ev]. by rewrite <- app_assoc.
  - etrans; [|exact Hwa]. by apply sublist_cons.
  - rewrite <- El. eapply history_weaken; [reflexivity| |eapply (history_append Unmarshal collector_log collector_domain rotateBytes segKeep sign fs n (d_log y) (d_hist y) _ x (prov_of e) a fs0 Hx (prov_of_ok e Hwe) El Hh)].
    intros ev' [Hin|[= -> ->]%list_elem_of_singleton]%elem_of_app; auto.
  - rewrite given_snoc. change (given [Append x (prov_of e)]) with [prov_of e]. by rewrite <- app_assoc.
Qed.

Lemma invoke_inv fs n i y :
  wf_env (i_env i) -> d_up y = true -> daemon_inv fs n y -> daemon_inv fs (S n) (step y (DSys (Invoke i))).
Proof.
  intros He Hup [Hv Hw Hf Hwa Hh Ho]%daemon_inv_mono. cbn [daemon_step of_collector verdict_obs]. rewrite Hup. cbn [andb negb].
  destruct (invoke_submits i (maps (d_sys y))) as (sub & Hev & Hhd & Hok).
  destruct (invoke i (maps (d_sys y))) as [ret m'] eqn:Ei. cbn [fst snd] in *. rewrite Hhd.
  split; cbn [d_trace d_log d_hist d_sys sys_step maps]; rewrite ?Ei; cbn [snd];
    rewrite ?submissions_snoc, ?appended_snoc, ?Hev; change (appended [Judged _ _ _]) with (@nil provEvent); rewrite ?app_nil_r.
  - apply Forall_app. by repeat constructor.
  - apply Forall_app. split; [done|]. destruct sub as [e|]; [|constructor]. destruct Hok as (dm & -> & Hdm).
    apply Forall_singleton. eapply the_event_wf; [done|apply hook_width|exact Hdm].
  - rewrite !fmap_app, app_assoc. apply sublist_app; [done|]. by destruct sub.
  - apply sublist_app; [done|]. by destruct sub.
  - eapply history_weaken; [done| |exact Hh]. intros ev [Hin|[=]%list_elem_of_singleton]%elem_of_app. done.
  - rewrite !fmap_app, app_assoc. apply sublist_app; [done|]. by destruct sub.
Qed.

Lemma step_inv fs n l y : tame_dlabel l -> daemon_inv fs n y -> daemon_inv fs (S n) (step y l).
Proof.
  intros Hl Hi. destruct l as [e r|ev|x| | |x mid k]; cbn [daemon_step].
  - destruct (d_up y); [by apply daemon_inv_mono|].
    eapply (daemon_inv_log fs n y _ (Boot r)); [done..|exact Hl|apply sublist_nil_l|exact Hi].
  - destruct (of_collector ev && negb (d_up y)) eqn:Eu; [by apply daemon_inv_mono|].
    destruct ev as [i| | | | | |].
    1:{ pose proof (invoke_inv fs n i y Hl) as Hin. cbn [daemon_step of_collector] in *. destruct (d_up y); [|done].
        apply Hin; done. }
    all: eapply daemon_inv_frame; [apply app_nil_r|done|done| |by apply daemon_inv_mono]; cbn [d_sys]; by rewrite sys_step_events.
  - destruct (d_up y); [by apply read_one_inv|by apply daemon_inv_mono].
  - by apply daemon_inv_mono.
  - by apply daemon_inv_mono, stop_inv.
  - destruct (d_up y); [by apply crash_inv|by apply daemon_inv_mono].
Qed.

Lemma run_snoc_d s fs ls l : drun s fs (ls ++ [l]) = step (drun s fs ls) l.
Proof. unfold daemon_run. by rewrite foldl_app. Qed.

Lemma daemon_run_inv s fs ls : Forall tame_dlabel ls -> daemon_inv fs (length ls) (drun s fs ls).
Proof.
  induction ls as [|l ls IH] using rev_ind; intros Ht.
  { split; [constructor|constructor|done|done| |done].
    eapply history_weaken; [| |apply history_init]; [done|]. by intros ev ?%elem_of_nil. }
  apply Forall_app in Ht as [Ht [Hl _]%Forall_cons]. rewrite run_snoc_d, length_app, Nat.add_comm. apply step_inv; auto.
Qed.

(** *** Exactness while the daemon runs *)
Definition uninterrupted (l : dlabel) : Prop := match l with DStop | DCrash _ _ _ => False | _ => True end.

Lemma exact_step y l :
  uninterrupted l -> tame_dlabel l -> Forall wf_event (waiting y) ->
  (d_up y = false -> waiting y = []) ->
  appended (d_trace y) ++ (prov_of <$> waiting y) = prov_of <$> submissions (d_trace y) ->
  let y' := step y l in
  (d_up y' = false -> waiting y' = [])
  /\ appended (d_trace y') ++ (prov_of <$> waiting y') = prov_of <$> submissions (d_trace y').
Proof.
  intros Hu Ht Hw Hdn Hex. cbv zeta. destruct l as [e r|ev|x| | |x mid k]; cbn [daemon_step uninterrupted] in *; try done.
  - destruct (d_up y) eqn:Eu; [by rewrite Eu|]. rewrite (Hdn eq_refl) in Hex. done.
  - destruct (of_collector ev && negb (d_up y)) eqn:Eu; [done|].
    destruct ev as [i| | | | | |].
    1:{ cbn [of_collector andb] in Eu. apply negb_false_iff in Eu. cbn [verdict_obs sys_step].
        destruct (invoke_submits i (maps (d_sys y))) as (sub & Hev & Hhd & _).
        destruct (invoke i (maps (d_sys y))) as [ret m']. cbn [fst snd] in *. rewrite Hhd.
        cbn [d_up d_trace d_sys maps]. rewrite submissions_snoc, appended_snoc, Hev, !fmap_app. split; [congruence|].
        change (appended [Judged _ _ _]) with (@nil provEvent). rewrite app_nil_r, app_assoc, Hex. by destruct sub. }
    all: cbn [d_up d_trace d_sys verdict_obs]; rewrite app_nil_r, sys_step_events by done; done.
  - destruct (d_up y) eqn:Eu; [|split; [intros _; by apply Hdn|done]]. unfold read_one. destruct (waiting y) as [|e es] eqn:Ew.
    { rewrite Ew. split; [congruence|done]. }
    destruct (d_log y) as [[a|] fs0]; [|rewrite Ew; split; [congruence|done]].
    apply Forall_cons in Hw as [Hwe _]. rewrite read_encoded by done.
    cbn [d_up d_trace d_sys pop_event with_maps maps set_events events]. split; [congruence|].
    rewrite submissions_snoc, appended_snoc. change (submissions [Recorded _ _]) with (@nil event).
    rewrite app_nil_r, <- app_assoc. exact Hex.
Qed.

Lemma exact_run s fs ls :
  Forall tame_dlabel ls -> Forall uninterrupted ls ->
  let y := drun s fs ls in
  (d_up y = false -> waiting y = []) /\ appended (d_trace y) ++ (prov_of <$> waiting y) = prov_of <$> submissions (d_trace y).
Proof.
  cbv zeta. induction ls as [|l ls IH] using rev_ind; intros Ht Hu; [done|].
  apply Forall_app in Ht as [Ht [Hl _]%Forall_cons]. apply Forall_app in Hu as [Hu [Hul _]%Forall_cons].
  rewrite run_snoc_d. apply exact_step; [done|done| |apply IH; done|apply IH; done].
  eapply waiting_wf. by apply daemon_run_inv.
Qed.

(** ** Properties of the daemon *)
(** A subsequence of what a partial map yields comes from a subsequence. *)
Lemma sublist_omap_inv {A A'} (f : A -> option A') l k :
  l `sublist_of` omap f k -> exists k', k' `sublist_of` k /\ Forall2 (fun x z => f z = Some x) l k'.
Proof.
  revert l. induction k as [|z k IH]; intros l; [intros ->%sublist_nil_r; exists []; by repeat constructor|].
  cbn. destruct (f z) as [x|] eqn:E.
  - intros [Hl|(l' & -> & Hl)]%sublist_cons_r; destruct (IH _ Hl) as (k' & Hs & Hf).
    + exists k'. split; [by apply sublist_cons|done].
    + exists (z :: k'). split; [by apply sublist_skip|by constructor].
  - intros Hl. destruct (IH _ Hl) as (k' & Hs & Hf). exists k'. split; [by apply sublist_cons|done].
Qed.

Lemma record_names now e a : forall i ret dm,
  e = the_event (i_env i) (prog_hook (i_prog i)) dm -> dm_spec ret dm ->
  let r := make_record collector_domain sign now (prov_of e) a in
  CgroupID r = cur_cgroup (i_env i) /\ Hook r = B (eventHook (prog_hook (i_prog i)))
  /\ (Decision_ r = B "denied" <-> ret = - EPERM).
Proof.
  intros i ret dm -> (H1 & H2 & H3) r. split_and!; [done| |].
  - subst r. cbn [make_record Hook prov_of e_hook the_event ev_hook]. by destruct (i_prog i).
  - rewrite <- H3. subst r. cbn [make_record Decision_ prov_of e_decision the_event ev_decision ev_mode]. destruct dm as [d m]. cbn [fst snd] in *.
    destruct H1 as [-> | ->], H2 as [-> | ->]; vm_compute; split; congruence.
Qed.

(** The record [r] tells the verdict [o]. *)
Definition tells (r : auditRecord) (o : obs) : Prop :=
  exists i ret e, o = Judged i ret (Some e)
    /\ CgroupID r = cur_cgroup (i_env i) /\ Hook r = B (eventHook (prog_hook (i_prog i)))
    /\ (Decision_ r = B "denied" <-> ret = - EPERM).

Lemma records_tell tr h :
  Forall verdict_ok tr -> records_some collector_domain sign h (prov_of <$> submissions tr) ->
  exists vs, vs `sublist_of` tr /\ Forall2 tells h vs.
Proof.
  intros Hok (gs & Hsub & Hrec). unfold submissions in Hsub. rewrite list_fmap_omap in Hsub.
  apply sublist_omap_inv in Hsub as (vs & Hvs & Hf). exists vs. split; [done|].
  assert (Forall verdict_ok vs) as Hokv.
  { apply Forall_forall. intros o Ho. rewrite Forall_forall in Hok. apply Hok. by eapply elem_of_sublist. }
  clear -Hrec Hf Hokv. revert vs Hf Hokv. induction Hrec as [|r g h gs Hr Hrec IH]; intros vs Hf Hokv; [inv Hf; constructor|].
  inv Hf as [|? o ? vs' Ho Hf']. apply Forall_cons in Hokv as [Ho' Hokv]. constructor; [|by apply IH].
  destruct o as [i ret [e|]|]; [|done..]. injection Ho as <-. destruct Ho' as (dm & -> & Hdm), Hr as (now & a & ->).
  exists i, ret, (the_event (i_env i) (prog_hook (i_prog i)) dm). split; [done|]. by eapply record_names.
Qed.

(** C5: The chain of the collector is a record of verdicts. Whatever the programs, the other
    components, the reader, restarts, write faults and losses of power do in whatever order: the
    records on the signed chain tell, in order and each at most once, invocations of the
    programs, by their cgroup and under their hook, and a record says "denied" exactly when the
    operation was denied; and every record whose append was acknowledged stays on the chain. *)
Theorem chain_is_a_record_of_verdicts s fs ls a fs' :
  (1 <= segKeep)%nat -> (forall m, len (sign m) = 64) -> fresh collector_log fs ->
  Forall tame_dlabel ls -> Z.of_nat (length ls) + 3 < 2 ^ 64 ->
  d_log (drun s fs ls) = (Some a, fs') ->
  exists pruned, chained collector_domain sign zeroHash 0 (pruned ++ records fs')
    /\ (exists vs, vs `sublist_of` d_trace (drun s fs ls) /\ Forall2 tells (pruned ++ records fs') vs)
    /\ (forall ev, Recorded ev true ∈ d_trace (drun s fs ls) ->
          exists now a0, make_record collector_domain sign now ev a0 ∈ pruned ++ records fs').
Proof.
  intros Hk Hsl Hf Ht Hb Hlog. pose proof (daemon_run_inv s fs ls Ht) as Hi.
  destruct (chain_of_history Unmarshal collector_log collector_domain rotateBytes segKeep sign fs _ _ _ _ a fs' Hk Hsl Hf Hb
    (di_history _ _ _ Hi) Hlog) as (pruned & Hc & Htold & gs & Hgs & Hrec).
  exists pruned. split_and!; [done| |done]. apply records_tell; [apply Hi|]. exists gs. split; [|done].
  etrans; [exact Hgs|]. etrans; [|exact (di_given _ _ _ Hi)]. by apply sublist_inserts_r.
Qed.

(** *** Delivery *)
Lemma up_open s fs ls : let y := drun s fs ls in d_up y = true -> is_Some (d_log y).1.
Proof.
  cbv zeta. induction ls as [|l ls IH] using rev_ind; [done|]. rewrite run_snoc_d. set (y := drun s fs ls) in *.
  destruct l as [e r|ev|x| | |x mid k]; cbn [daemon_step]; try done.
  - destruct (d_up y) eqn:Eu; [intros _; by apply IH|]. intros _. unfold start. cbn [d_log log_step]. destruct (d_log y) as [o fs0].
    destruct (openAuditLog _ _ _ _). by destruct o; eexists.
  - destruct (_ && _); [done|]. exact IH.
  - destruct (d_up y) eqn:Eu; [|congruence]. intros _. unfold read_one.
    destruct (waiting y) as [|e es]; [by apply IH|]. destruct (d_log y) as [[a|] fs0] eqn:El; [|rewrite El; by apply IH].
    destruct (readSample _) as [ev|]; cbn [d_log]; [|by eexists]. cbn [log_step].
    destruct (append x ev a fs0) as [[ok a'] fs1]. by eexists.
  - destruct (d_up y) eqn:Eu; [|congruence]. unfold crash. by destruct (head _).
Qed.

Lemma step_read x y e es a fs0 :
  d_up y = true -> waiting y = e :: es -> d_log y = (Some a, fs0) -> wf_event e ->
  step y (DRead x) =
  Daemon (pop_event (d_sys y) es) true
    (log_step Unmarshal collector_log collector_domain rotateBytes segKeep sign (d_log y) (Append x (prov_of e)))
    (d_hist y ++ [Append x (prov_of e)]) (d_trace y ++ [Recorded (prov_of e) (append x (prov_of e) a fs0).1.1]).
Proof. intros Hup Ew El He. cbn [daemon_step]. rewrite Hup. unfold read_one. by rewrite Ew, El, read_encoded, Hup. Qed.

Lemma reads_drain xs y :
  d_up y = true -> is_Some (d_log y).1 -> Forall wf_event (waiting y) -> length xs = length (waiting y) ->
  let y' := foldl step y (DRead <$> xs) in
  waiting y' = [] /\ appended (d_trace y') = appended (d_trace y) ++ (prov_of <$> waiting y)
  /\ submissions (d_trace y') = submissions (d_trace y).
Proof.
  cbv zeta. revert y. induction xs as [|x xs IH]; intros y Hup Hop Hw Hlen.
  { destruct (waiting y) eqn:Ew; [|done]. split_and!; [done|by rewrite app_nil_r|done]. }
  destruct (waiting y) as [|e es] eqn:Ew; [done|]. destruct (d_log y) as [[a|] fs0] eqn:El; [|by destruct Hop].
  apply Forall_cons in Hw as [He Hes]. rewrite fmap_cons. cbn [foldl]. rewrite (step_read x y e es a fs0) by done.
  set (y1 := Daemon _ _ _ _ _). assert (waiting y1 = es) as Ew1 by done.
  destruct (IH y1) as (H1 & H2 & H3); [done| |by rewrite Ew1|rewrite Ew1; by injection Hlen|].
  { unfold y1. rewrite El. cbn [d_log log_step]. destruct (append x (prov_of e) a fs0) as [[ok a'] fs1]. by eexists. }
  split_and!; [exact H1| |].
  - rewrite H2, Ew1. unfold y1. cbn [d_trace]. by rewrite appended_snoc, <- app_assoc.
  - rewrite H3. unfold y1. cbn [d_trace]. by rewrite submissions_snoc, app_nil_r.
Qed.

(** C17: No verdict is lost while the daemon runs. In a run without a stop or a crash, in which
    programs, other components and reader interleave, what has been given to the log followed by
    what waits in the buffer is what the programs submitted, in their order; and as many turns
    of the reader as records wait deliver them all. *)
Theorem every_record_is_delivered s fs ls xs :
  Forall tame_dlabel ls -> Forall uninterrupted ls ->
  d_up (drun s fs ls) = true -> length xs = length (waiting (drun s fs ls)) ->
  appended (d_trace (drun s fs ls)) ++ (prov_of <$> waiting (drun s fs ls)) = prov_of <$> submissions (d_trace (drun s fs ls))
  /\ let y' := drun s fs (ls ++ (DRead <$> xs)) in
     waiting y' = [] /\ appended (d_trace y') = prov_of <$> submissions (d_trace (drun s fs ls)).
Proof.
  intros Ht Hu Hup Hlen. destruct (exact_run s fs ls Ht Hu) as [_ Hex]. split; [done|]. cbv zeta.
  destruct (reads_drain xs (drun s fs ls) Hup (up_open s fs ls Hup)) as (H1 & H2 & H3); [|done|].
  { eapply waiting_wf. by apply daemon_run_inv. }
  unfold daemon_run in *. rewrite foldl_app. split; [done|]. by rewrite H2, Hex.
Qed.
End daemon.

(** ** Start-up *)
Lemma tcb_adds ids (m : gmap Z Z) c :
  (size m + length ids <= 64)%nat -> foldl tcb_add m ids !! c = (if decide (c ∈ ids) then Some 1 else m !! c).
Proof.
  revert m. induction ids as [|d ids IH]; intros m Hs; [by rewrite decide_False by by intros ?%elem_of_nil|]. cbn [foldl].
  assert (tcb_add m d = <[d := 1]> m) as ->.
  { unfold tcb_add. cbn [m_update tcb_ops hash_ops]. unfold hash_update. destruct (m !! d); [done|].
    change (max_entries tcb_cgroups_map) with 64. cbn [length] in Hs. by rewrite (proj2 (Z.ltb_lt _ _)) by lia. }
  rewrite IH.
  2:{ cbn [length] in Hs. destruct (decide (is_Some (m !! d))) as [H1|H1].
      - rewrite map_size_insert_Some by done. lia.
      - rewrite map_size_insert_None by (by apply eq_None_not_Some). lia. }
  destruct (decide (c ∈ ids)) as [Hc|Hc]; [by rewrite decide_True by by right|]. destruct (decide (c = d)) as [->|Hne].
  - rewrite lookup_insert_eq. by rewrite decide_True by by left.
  - rewrite lookup_insert_ne, decide_False; [done| |done]. by intros [?|?]%elem_of_cons.
Qed.

Lemma tcbCgroupIDs_length e : (length (tcbCgroupIDs e) <= 2)%nat.
Proof.
  unfold tcbCgroupIDs. rewrite length_app. cbv zeta. destruct (se_stat e _), (_ =? _)%string; cbn; try lia;
    destruct (se_stat e _); cbn; lia.
Qed.

(** A start is fail-open and forgets: after [runCollector] has replaced the maps no program
    denies anything an earlier module allowed, whatever was armed before, no grant and no
    manifest is left, and exactly the root cgroup, the collector's own and the broker's, as far
    as they can be read, are trusted. *)
Theorem start_is_fail_open e :
  (forall i, (invoke i (start_maps e)).1 = i_ret i)
  /\ grant_once (start_maps e) = ∅ /\ egress_policy (start_maps e) = ∅ /\ events (start_maps e) = []
  /\ (forall c, is_tcb (start_maps e) c = true <-> c ∈ tcbCgroupIDs e \/ se_stat e brokerCgroupPath = Some c).
Proof.
  split_and!; [|done..|].
  - intros i. rewrite invoke_eq. destruct (Z.eqb_spec (i_ret i) 0) as [->|]; [|done]. cbn [negb fst].
    destruct (guarded i _); [|done]. unfold outcome_of, gate. destruct (is_tcb _ _); [done|].
    assert (forall h, armed (start_maps e) h = false) as ->; [|done].
    intros h. unfold armed. cbn [start_maps enforce_flags]. unfold m_lookup, flags_ops, array_ops, array_lookup.
    destruct (array_index _ h) as [i'|]; [|done]. cbn. by do 8 (destruct i' as [|i']; [done|]).
  - intros c. unfold is_tcb. cbn [start_maps tcb_cgroups]. pose proof (tcbCgroupIDs_length e).
    rewrite tcb_adds.
    2:{ rewrite map_size_empty, length_app. destruct (se_stat e brokerCgroupPath); cbn; lia. }
    destruct (decide _) as [[Hin|Hin]%elem_of_app|Hn].
    + split; [auto|done].
    + split; [intros _; right|done]. destruct (se_stat e brokerCgroupPath); [|by apply elem_of_nil in Hin].
      by apply list_elem_of_singleton in Hin as ->.
    + split; [done|]. intros Hc. exfalso. apply Hn. apply elem_of_app. destruct Hc as [?| ->]; [auto|]. right. by left.
Qed.

(** ** Nothing is lost in decoding *)
Lemma TrimNul_restore b : exists n, b = TrimNul b ++ replicate n 0.
Proof.
  induction b as [|c b (n & IH)]; [by exists 0%nat|]. cbn [TrimNul]. destruct (TrimNul b) as [|d b'].
  - destruct (Z.eqb_spec c 0) as [->|]; [exists (S n)|exists n]; cbn in *; by rewrite <- IH.
  - exists n. cbn. f_equal. exact IH.
Qed.

Lemma TrimNul_inj b b' : length b = length b' -> TrimNul b = TrimNul b' -> b = b'.
Proof.
  intros Hl E. destruct (TrimNul_restore b) as [n Hn], (TrimNul_restore b') as [n' Hn'].
  pose proof (f_equal length Hn) as Ln. pose proof (f_equal length Hn') as Ln'.
  rewrite E in Hn, Ln. rewrite length_app, length_replicate in Ln, Ln'. replace n' with n in Hn' by lia. congruence.
Qed.

Lemma B_inj s s' : B s = B s' -> s = s'.
Proof. intros E%(f_equal string_of_list_ascii). unfold B in E. by rewrite !string_of_list_ascii_of_string in E. Qed.

(** A record of a program: its bits are bits and its hook is one the reader names. *)
Record program_event (ev : event) : Prop := {
  pe_wf : wf_event ev;
  pe_comm : Forall is_byte (ev_comm ev);
  pe_hook : exists p, ev_hook ev = prog_hook p;
  pe_decision : ev_decision ev = 0 \/ ev_decision ev = 1;
  pe_mode : ev_mode ev = 0 \/ ev_mode ev = 1 }.

Lemma eventHook_inj p p' : eventHook (prog_hook p) = eventHook (prog_hook p') -> prog_hook p = prog_hook p'.
Proof. by destruct p, p'; vm_compute. Qed.

Lemma names_inj d m d' m' :
  (d = 0 \/ d = 1) -> (m = 0 \/ m = 1) -> (d' = 0 \/ d' = 1) -> (m' = 0 \/ m' = 1) ->
  decisionName d m = decisionName d' m' -> modeName m = modeName m' -> d = d' /\ m = m'.
Proof. intros [-> | ->] [-> | ->] [-> | ->] [-> | ->]; vm_compute; by intros ??. Qed.

(** C34: The bytes a program writes into the ring buffer and the record the reader makes of them
    determine each other: the reader finds every member where the C structure has it, skips no
    record of a program, and two records it cannot tell apart are the same record. *)
Theorem reader_is_lossless ev ev' :
  program_event ev -> program_event ev' ->
  readSample (encode_event ev) = Some (prov_of ev)
  /\ (readSample (encode_event ev) = readSample (encode_event ev') -> ev = ev').
Proof.
  intros [Hw Hc (p & Hp) Hd Hm] [Hw' Hc' (p' & Hp') Hd' Hm']. split; [by apply read_encoded|].
  rewrite !read_encoded by done. destruct ev as [cg pid comm h d m], ev' as [cg' pid' comm' h' d' m'].
  unfold prov_of. cbn [ev_cgroup_id ev_pid ev_comm ev_hook ev_decision ev_mode] in *. intros E.
  injection E as -> -> Ec Eh Ed Em. subst h h'.
  apply B_inj in Eh, Ed, Em. apply eventHook_inj in Eh.
  destruct (names_inj d m d' m') as [-> ->]; [done..|]. rewrite Eh. f_equal.
  destruct Hw as [_ _ Hl _ _ _], Hw' as [_ _ Hl' _ _ _]. cbn [ev_comm] in *.
  apply TrimNul_inj; [congruence|].
  assert (forall b, Forall is_byte b -> Forall is_byte (TrimNul b)) as Htr.
  { intros b Hb. destruct (TrimNul_restore b) as [n Hn]. rewrite Hn in Hb. by apply Forall_app in Hb as [? _]. }
  apply map_byte_of_inj; auto.
Qed.

(** ** A day of the collector

    It starts, root arms the bpf hook, the agent's bpf call is denied and its connect recorded,
    the denial is read; the second append tears and power is lost; after a restart the bpf call
    is allowed, recorded and read. *)
Definition a_start : start_env :=
  StartEnv (fun p => if (p =? "/sys/fs/cgroup")%string then Some 1
                     else if (p =? "/sys/fs/cgroup/system.slice/bulkhead-collector.service")%string then Some 2
                     else if (p =? brokerCgroupPath)%string then Some 3 else None)
    (Some ("0::/system.slice/bulkhead-collector.service" ++ String (ascii_of_N 10) EmptyString)%string).

Definition arm_bpf : dlabel :=
  DSys (ControlReq (UEnv (fun _ => true) (fun _ => Some 3) true) (fun _ => "") (Peer 0 5 "/system.slice/bulkhead-enforce.service")
    ["ENFORCE-SET"; "bpf"; "1"]).

Definition morning : list dlabel :=
  [DStart a_start true; arm_bpf; DSys (Invoke bpf_call); DSys (Invoke connect_call); DRead good_io].
Definition collector_day : list dlabel :=
  morning ++ [DCrash torn_io false 30; DSys (Invoke bpf_call); DStart a_start true; DSys (Invoke bpf_call); DReadError; DRead good_io].

Abbreviation a_day_of := (daemon_run UnmarshalStrict 0 1 toy_sign quiet ∅).

(** The names on record, and what the maps trust. *)
Example a_day_read :
  (fun ev => (string_of_list_ascii (e_hook ev), string_of_list_ascii (e_decision ev), string_of_list_ascii (e_mode ev)))
    <$> appended (d_trace (a_day_of collector_day))
  = [("bpf", "denied", "enforce"); ("bpf", "allowed", "observe")]
  /\ length (submissions (d_trace (a_day_of collector_day))) = 3%nat
  /\ tcbCgroupIDs a_start = [1; 2] /\ map_to_list (tcb_cgroups (start_maps a_start)) ≡ₚ [(1, 1); (2, 1); (3, 1)].
Proof. vm_compute. split_and!; try reflexivity. apply (bool_decide_unpack _). vm_compute. exact I. Qed.

Lemma day_tame : Forall tame_dlabel collector_day.
Proof.
  unfold collector_day, morning. repeat constructor; try (apply good_io_tame || apply torn_io_tame); vm_compute; congruence.
Qed.

Lemma chain_is_a_record_of_verdicts_witness :
  exists a fs pruned vs, d_log (a_day_of collector_day) = (Some a, fs)
    /\ vs `sublist_of` d_trace (a_day_of collector_day)
    /\ Forall2 tells (pruned ++ chain_records UnmarshalStrict (segment_files collector_log fs) (open_file fs collector_log)) vs.
Proof.
  pose proof (chain_is_a_record_of_verdicts UnmarshalStrict 0 1 toy_sign quiet ∅ collector_day) as H.
  assert (match d_log (a_day_of collector_day) with (Some _, _) => true | _ => false end = true)
    as Hopen by (vm_compute; reflexivity).
  revert Hopen H. generalize (d_log (a_day_of collector_day)). intros [[a|] fs] Hopen H; [|discriminate Hopen].
  destruct (H a fs ltac:(lia) toy_length a_log_fresh day_tame ltac:(vm_compute; reflexivity) eq_refl)
    as (pruned & _ & (vs & Hs & Hf) & _).
  exists a, fs, pruned, vs. split_and!; [reflexivity|exact Hs|exact Hf].
Defined.

Lemma every_record_is_delivered_witness :
  appended (d_trace (a_day_of (morning ++ (DRead <$> [good_io]))))
  = prov_of <$> submissions (d_trace (a_day_of morning)).
Proof.
  apply (every_record_is_delivered UnmarshalStrict 0 1 toy_sign quiet ∅ morning [good_io]).
  - pose proof day_tame as H. unfold collector_day in H. by apply Forall_app in H as [? _].
  - repeat constructor.
  - vm_compute. reflexivity.
  - vm_compute. reflexivity.
Defined.

Lemma reader_is_lossless_witness :
  readSample (encode_event (the_event agent_env HOOK_BPF (1, 1))) = Some (prov_of (the_event agent_env HOOK_BPF (1, 1))).
Proof.
  assert (program_event (the_event agent_env HOOK_BPF (1, 1))) as H.
  { split.
    - split; vm_compute; (split; congruence) || reflexivity.
    - repeat constructor; vm_compute; congruence.
    - by exists PBpf.
    - by right.
    - by right. }
  exact (proj1 (reader_is_lossless _ _ H H)).
Defined.
