(* ===== verification/MapTypes.v ===== *)
(** * The types of the maps

    The programs read the maps as C types and act on particular values: a flag and a trusted
    cgroup count when they are 1, a grant is spent when its count is 1, a manifest is a mask of
    five classes. User space writes them through four doors: the start of the collector, the
    control socket, the broker's executors and the operator's clamp, the garbage collection.
    This file shows that no sequence of events ever puts anything else there. *)
From Stdlib Require Import ZArith Lia Ascii String.
From stdpp Require Import base tactics numbers option strings list gmap.
From S2P Require Import Prelude Objects Maps Kernel Hooks Fixtures HookProps Classes Gc Control Broker Approval System Bytes AuditLog Events.
#[local] Open Scope string_scope.
#[local] Open Scope list_scope.
#[local] Open Scope Z_scope.

(** ** Maps of bounded size *)
Definition fits {K V} `{Countable K} (cap : Z) (P : K -> V -> Prop) (m : gmap K V) : Prop :=
  Z.of_nat (size m) <= cap /\ map_Forall P m.

Section fits.
  Context {K V : Type} `{Countable K} (cap : Z) (P : K -> V -> Prop).

Lemma fits_update f k v (m m' : gmap K V) :
  hash_update cap f k v m = Ok m' -> P k v -> fits cap P m -> fits cap P m'.
Proof.
  intros Hu Hp [Hs Hm]. split; [by eapply hash_update_size|].
  rewrite (hash_update_inv _ _ _ _ _ _ Hu). by apply map_Forall_insert_2.
Qed.

Lemma fits_sub (m m' : gmap K V) :
  (forall k, m' !! k = m !! k \/ m' !! k = None) -> fits cap P m -> fits cap P m'.
Proof.
  intros Hsub [Hs Hm].
  assert (m' ⊆ m) as Hle.
  { apply map_subseteq_spec. intros k v Hk. destruct (Hsub k) as [E|E]; congruence. }
  split; [apply map_subseteq_size in Hle; lia|]. intros k v Hk. apply Hm. by apply (lookup_weaken m').
Qed.

Lemma fits_deletes cap' ks (m : gmap K V) : fits cap P m -> fits cap P (delete_each (hash_ops cap') ks m).
Proof. apply fits_sub. intros k. rewrite delete_each_lookup. destruct (decide (k ∈ ks)); auto. Qed.

Lemma fits_replace k v w (m : gmap K V) : m !! k = Some v -> P k w -> fits cap P m -> fits cap P (<[k := w]> m).
Proof.
  intros Hk Hp [Hs Hm]. split; [by rewrite map_size_insert_Some by eauto|]. by apply map_Forall_insert_2.
Qed.
End fits.

(** ** What the maps hold *)
Definition is_flag (v : Z) : Prop := v = 0 \/ v = 1.
Definition is_mask (v : Z) : Prop := 0 <= v < 32.
Definition grantable_id (h : Z) : Prop := h = HOOK_PTRACE \/ h = HOOK_SETUID \/ h = HOOK_CAPSET.

Definition tcb_entry (c v : Z) : Prop := in_width 64 c /\ v = 1.
Definition egress_entry (c v : Z) : Prop := in_width 64 c /\ is_mask v.
Definition grant_entry (k : grant_key) (v : grant_val) : Prop :=
  in_width 64 (gk_cgid k) /\ grantable_id (gk_hook k) /\ gk_pad k = 0 /\ gv_count v = 1 /\ in_width 64 (gv_expire_ns v).
Definition event_entry (ev : event) : Prop :=
  in_width 64 (ev_cgroup_id ev) /\ in_width 32 (ev_pid ev) /\ length (ev_comm ev) = 16%nat /\ in_width 32 (ev_hook ev)
  /\ (ev_decision ev = 0 \/ ev_decision ev = 1) /\ (ev_mode ev = 0 \/ ev_mode ev = 1).

Record well_typed (m : kstate) : Prop := {
  wt_flags : length (enforce_flags m) = 8%nat /\ Forall is_flag (enforce_flags m);
  wt_tcb : fits (max_entries tcb_cgroups_map) tcb_entry (tcb_cgroups m);
  wt_egress : fits (max_entries egress_policy_map) egress_entry (egress_policy m);
  wt_grants : fits (max_entries grant_once_map) grant_entry (grant_once m);
  wt_events : Forall event_entry (events m) }.

(** A request that waits for a verdict, or for its executor. *)
Definition req_typed (p : pending) : Prop :=
  in_width 64 (pd_cg p) /\ is_mask (pd_reqMask p) /\ (pd_kind p = actGrantOnce -> grantable_id (pd_hook p)).

Record sys_typed (y : sys) : Prop := {
  st_maps : well_typed (maps y);
  st_pend : map_Forall (fun _ p => req_typed p) (pend (gate_ y));
  st_decided : Forall (fun d => req_typed (dd_req d)) (decided_ y) }.

(** What the kernel supplies is of its type: cgroup ids and inode numbers have 64 bits, and so
    has the clock a grant expires by. *)
Definition wf_sys_event (ev : sys_event) : Prop :=
  match ev with
  | Invoke i => wf_env (i_env i)
  | Request _ p _ => in_width 64 (p_cgid p)
  | Operator _ _ _ _ _ | Timeout _ => True
  | Run x _ => in_width 64 (grantExpiry (x_b x))
  | ControlReq e _ p _ => in_width 64 (p_cgid p) /\ forall path id, stat e path = Some id -> in_width 64 id
  | Tick f => forall id, fs_broker f = Some id -> in_width 64 id
  end.

Definition wf_start (e : start_env) : Prop := forall path id, se_stat e path = Some id -> in_width 64 id.

(** ** Masks *)
Lemma mask_low v : is_mask v <-> Z.land v 31 = v.
Proof.
  unfold is_mask. change 31 with (Z.ones 5). rewrite Z.land_ones by lia. change (2 ^ 5) with 32. split.
  - apply Z.mod_small.
  - intros <-. apply Z.mod_pos_bound. lia.
Qed.

Lemma expand_mask live req ceiling : is_mask live -> is_mask req -> is_mask (expandMask live req ceiling).
Proof.
  rewrite !mask_low. unfold expandMask. intros Hl Hr. rewrite Z.land_lor_distr_l, Hl.
  by rewrite <- Z.land_assoc, (Z.land_comm ceiling), Z.land_assoc, Hr.
Qed.

Lemma narrow_mask live req : is_mask live -> is_mask (narrowMask live req).
Proof.
  rewrite !mask_low. unfold narrowMask. intros Hl. apply Z.bits_inj'. intros i Hi. rewrite <- Hl.
  rewrite Z.land_spec, !Z.ldiff_spec, Z.land_spec. by destruct (Z.testbit live i), (Z.testbit 31 i), (Z.testbit req i).
Qed.

(** ** The doors *)
Lemma typed_wf m : well_typed m -> wf_state m.
Proof.
  intros [[Hl Hf] [Ht1 Ht2] [He1 He2] [Hg1 Hg2] Hev]. split; [split; [done|]..|done].
  - eapply Forall_impl; [exact Hf|]. intros v [-> | ->]; unfold in_width; lia.
  - intros c v Hc. destruct (Ht2 c v Hc) as [? ->]. split; [done|unfold in_width; lia].
  - intros c v Hc. destruct (He2 c v Hc) as [? Hv]. unfold is_mask, in_width in *. split; [done|lia].
  - intros k v Hk. destruct (Hg2 k v Hk) as (? & Hh & ? & -> & ?). split_and!; try done.
    destruct Hh as [-> |[-> | ->]]; unfold in_width; vm_compute; split; congruence.
Qed.

Lemma invoke_typed i m : wf_env (i_env i) -> well_typed m -> well_typed (invoke i m).2.
Proof.
  intros Hi Hm. pose proof (wf_events _ (wf_invoke i m Hi (typed_wf m Hm))) as Hev. destruct Hm as [Hf Ht He Hg _].
  split; [by rewrite invoke_frame by done..| |done].
  revert Hg. apply fits_sub. intros k. destruct (invoke_grants i m) as [[_ ->]|(_ & _ & _ & _ & -> & _)]; [auto|].
  destruct (decide (k = i_key i)) as [->|]; [right; apply lookup_delete_eq|left; by rewrite lookup_delete_ne].
Qed.

Lemma set_egress_typed g m : fits (max_entries egress_policy_map) egress_entry g -> well_typed m -> well_typed (set_egress g m).
Proof. intros Hg []. by split. Qed.

Lemma set_grants_typed g m : fits (max_entries grant_once_map) grant_entry g -> well_typed m -> well_typed (set_grants g m).
Proof. intros Hg []. by split. Qed.

Lemma set_tcb_typed g m : fits (max_entries tcb_cgroups_map) tcb_entry g -> well_typed m -> well_typed (set_tcb g m).
Proof. intros Hg []. by split. Qed.

Lemma flags_update_typed f hid v l l' :
  array_update f hid v l = Ok l' -> is_flag v -> length l = 8%nat /\ Forall is_flag l -> length l' = 8%nat /\ Forall is_flag l'.
Proof.
  unfold array_update. intros Hu Hv [Hl Hf]. destruct (array_index l hid), f; try done; injection Hu as <-;
    (split; [by rewrite length_insert|by apply Forall_insert]).
Qed.

(** The update that has succeeded. *)
Ltac updated := match goal with H : m_update _ _ _ _ _ = Ok _ |- _ => exact H end.

(** The control socket writes flags of 0 or 1, masks that were parsed, and ones. *)
Lemma control_typed e at_ p f s :
  wf_sys_event (ControlReq e at_ p f) -> well_typed (c_maps s) -> well_typed (c_maps (handleControlConn e at_ p f s).2).
Proof.
  intros [Hcg Hst] Hm. unfold handleControlConn. destruct (negb _); [done|]. destruct f as [|verb f']; [done|].
  destruct (verb =? "EGRESS-SET-SELF")%string.
  { unfold ctlEgressSetSelf. repeat case_match; cbn [snd]; rewrite ?recordControl_maps; try done.
    apply set_egress_typed; [|done]. eapply fits_update; [updated| |apply Hm]. split; [done|by eapply parseClasses_bound]. }
  destruct (verb =? "EGRESS-CLEAR-SELF")%string.
  { unfold ctlEgressClearSelf. repeat case_match; cbn [snd]; rewrite ?recordControl_maps; try done.
    apply set_egress_typed; [|done]. destruct Hm as [_ _ He _ _]. revert He. apply fits_sub. intros k.
    cbn [m_delete egress_ops hash_ops] in *. unfold hash_delete in *. repeat case_match; simplify_eq.
    destruct (decide (k = p_cgid p)) as [->|]; [right; apply lookup_delete_eq|left; by rewrite lookup_delete_ne]. }
  destruct (verb =? "GRANT-CLEAR-SELF")%string.
  { unfold ctlGrantClearSelf. repeat case_match; cbn [snd]; rewrite ?recordControl_maps; try done.
    apply set_grants_typed; [|done]. apply fits_deletes, Hm. }
  destruct (verb =? "TCB-REGISTER-BROKER")%string.
  { unfold ctlTcbRegisterBroker. repeat case_match; cbn [snd]; rewrite ?recordControl_maps; try done.
    apply set_tcb_typed; [|done]. eapply fits_update; [updated| |apply Hm]. split; [by eapply Hst|done]. }
  destruct (verb =? "WAIT-BROKER-TCB")%string; [by rewrite wait_broker_frame|].
  destruct (verb =? "ENFORCE-SET")%string; [|by case_match].
  unfold ctlEnforceSet. repeat case_match; cbn [snd]; rewrite ?recordControl_maps; try done;
    (destruct Hm as [Hf Ht He Hg Hev]; split; [|done..]; eapply flags_update_typed; [updated| |done]; unfold is_flag; repeat case_match; auto).
Qed.

(** An executor writes a grant of one for a grantable hook, or widens a mask by a mask. *)
Lemma finishGated_typed x d s :
  in_width 64 (grantExpiry (x_b x)) \/ dd_ok d = false -> req_typed (dd_req d) ->
  well_typed (b_maps s) -> well_typed (b_maps (finishGated x d s).1.2).
Proof.
  intros Hx (Hcg & Hmask & Hhook) Hm. destruct (finishGated x d s) as [[r s'] l] eqn:E. cbn [fst snd].
  apply finishGated_cases in E as (v & a & _ & [(-> & _)|(detail & Hok & E & _)]); [done|].
  destruct Hx as [Hx|?]; [|congruence]. unfold execute in E. destruct (negb _); [done|].
  destruct (pd_kind (dd_req d)).
  - destruct (lookupEgressMask _ _ _); [|done]. destruct (launchChild _ _ _ _ _); [|done]. by injection E as _ <- _.
  - destruct (negb _); [done|]. cbn [m_lookup egress_ops hash_ops] in E.
    destruct (egress_policy (b_maps s) !! _) as [live|] eqn:El; [|done].
    destruct (m_update _ _ _ _ _) as [g|] eqn:Eu; [|done]. injection E as _ <- _.
    apply set_egress_typed; [|done]. pose proof (wt_egress _ Hm) as He.
    eapply fits_update; [exact Eu| |exact He]. split; [done|]. apply expand_mask; [|done]. by apply He in El as [_ ?].
  - destruct (negb _); [done|]. destruct (m_update _ _ _ _ _) as [g|] eqn:Eu; [|done]. injection E as _ <- _.
    apply set_grants_typed; [|done]. eapply fits_update; [exact Eu| |apply Hm]. by split_and!; [|apply Hhook|..].
Qed.

Lemma tick_typed f g m : wf_sys_event (Tick f) -> well_typed m -> well_typed (gcTick f g m).2.
Proof.
  intros Hb [Hf Ht He Hg Hev]. destruct (gcTick f g m) as [g' m'] eqn:E. cbn [snd].
  apply gcTick_spec in E as (Eg & Ee & Ef & Ev & Et & _). split; [by rewrite Ef| | | |by rewrite Ev].
  - rewrite Et. unfold reconcileTCB. cbv zeta. destruct (_ <? _)%nat; [done|].
    destruct (fs_broker f) as [bid|] eqn:Eb; [|by apply fits_deletes]. apply fits_deletes.
    destruct (m_lookup _ _ _); [done|]. destruct (m_update _ _ _ _ _) as [t|] eqn:Eu; [|done].
    eapply fits_update; [exact Eu| |done]. split; [by apply Hb|done].
  - revert He. apply fits_sub. intros c. rewrite Ee. destruct (decide _); auto.
  - revert Hg. apply fits_sub. intros k. rewrite Eg. destruct (decide _); auto.
Qed.

Lemma start_typed e : wf_start e -> well_typed (start_maps e).
Proof.
  intros He. assert (forall ids (t : gmap Z Z), Forall (in_width 64) ids ->
    fits (max_entries tcb_cgroups_map) tcb_entry t -> fits (max_entries tcb_cgroups_map) tcb_entry (foldl tcb_add t ids)) as Hadd.
  { induction ids as [|c ids IH]; intros t Hids Ht; [done|]. apply Forall_cons in Hids as [Hc Hids]. cbn [foldl].
    apply IH; [done|]. unfold tcb_add. destruct (m_update _ _ _ _ _) as [t'|] eqn:Eu; [|done].
    by eapply fits_update; [exact Eu| |]. }
  assert (forall path, Forall (in_width 64) (option_list (se_stat e path))) as Hopt.
  { intros path. destruct (se_stat e path) eqn:E; [|constructor]. repeat constructor; by eapply He. }
  split; [split; [done|by repeat constructor; left]| |by split..|constructor].
  apply Hadd; [|by split]. unfold tcbCgroupIDs. rewrite !Forall_app. split_and!; [done| |done]. by case_match.
Qed.

(** ** Requests *)
Lemma request_typed e p f m pd : handleBrokerConn e p f m = Gate pd -> in_width 64 (p_cgid p) -> req_typed pd.
Proof.
  intros Hg Hcg. pose proof (handleBrokerConn_gate e p f m pd Hg) as (_ & Ecg & _ & Hk).
  split_and!; [by rewrite Ecg| |intros E; by rewrite E in Hk]. clear Hk. revert Hg.
  assert (is_mask 0) as H0 by (unfold is_mask; lia).
  unfold handleBrokerConn, handleDelegateTail, handleExpandTail, handleGrantOnceTail.
  repeat case_match; intros [= <-]; cbn [pd_reqMask]; try done; by eapply parseClasses_bound.
Qed.

Lemma register_typed p g :
  req_typed p -> map_Forall (fun _ p => req_typed p) (pend g) -> map_Forall (fun _ p => req_typed p) (pend (register p g).2).
Proof. intros Hp Hg. unfold register. destruct (_ || _); [done|]. cbn [snd pend]. by apply map_Forall_insert_2. Qed.

Lemma resolve_typed id ok v op g d g' :
  map_Forall (fun _ p => req_typed p) (pend g) -> (d, g') = resolve id ok v op g ->
  Forall (fun d => req_typed (dd_req d)) (option_list d) /\ map_Forall (fun _ p => req_typed p) (pend g').
Proof.
  intros Hg. unfold resolve. destruct (pend g !! id) as [p|] eqn:E; intros [= -> ->]; [|by split].
  split; [constructor; [by apply Hg in E|constructor]|]. cbn [pend]. by apply map_Forall_delete.
Qed.

Lemma with_gate_typed g ds y :
  map_Forall (fun _ p => req_typed p) (pend g) -> Forall (fun d => req_typed (dd_req d)) ds -> sys_typed y ->
  sys_typed (with_gate g ds y).
Proof. intros Hg Hd [Hm _ Hy]. split; [done..|]. cbn [with_gate decided_]. by apply Forall_app. Qed.

(** ** The system *)
Lemma sys_step_typed y ev : wf_sys_event ev -> sys_typed y -> sys_typed (sys_step y ev).
Proof.
  intros Hev Hy. pose proof Hy as [Hm Hp Hd]. destruct ev as [i|x p f|e li uid pid f|id|x n|e at_ p f|f]; cbn [sys_step].
  - split; [|done..]. by apply invoke_typed.
  - destruct (handleBrokerConn _ _ _ _) as [|pd] eqn:Eg; [done|]. apply request_typed in Eg; [|done].
    pose proof (register_typed pd (gate_ y) Eg Hp) as Hr.
    destruct (register pd (gate_ y)) as [[id|] g]; [by apply with_gate_typed|]. split; [|done..]. cbn [maps with_broker].
    apply finishGated_typed; [by right|done..].
  - destruct (handleApprove _ _ _ _ _ _ _) as [[[r g] s] d] eqn:E.
    apply handleApprove_effect in E as [(-> & -> & ->)|[(_ & -> & id & ok & v & op & E)|(_ & -> & -> & cg & path & req & _ & Hs)]].
    + by apply with_gate_typed.
    + apply (resolve_typed _ _ _ _ _ _ _ Hp) in E as [? ?]. by apply with_gate_typed.
    + apply with_gate_typed; [done..|]. split; [|done..]. cbn [maps with_broker].
      destruct Hs as [->|(_ & live & El & ->)]; [done|]. cbn [b_maps broker_of] in *. apply set_egress_typed; [|done].
      pose proof (wt_egress _ Hm) as He. eapply fits_replace; [exact El| |exact He].
      apply He in El as [? ?]. split; [done|by apply narrow_mask].
  - destruct (resolve id false "timeout" "-" (gate_ y)) as [d g] eqn:E.
    destruct (resolve_typed id false "timeout" "-" (gate_ y) d g Hp (eq_sym E)) as [? ?]. by apply with_gate_typed.
  - destruct (decided_ y !! n) as [d|] eqn:E; [|done]. pose proof (Forall_lookup_1 _ _ _ _ Hd E) as Hd1.
    split; cbn [maps gate_ decided_]; [|done|by apply Forall_delete]. apply finishGated_typed; [by left|done..].
  - split; [|done..]. cbn [maps]. by apply control_typed.
  - pose proof (tick_typed f (gc_ y) (maps y) Hev Hm) as Ht. destruct (gcTick f (gc_ y) (maps y)) as [g m]. by split.
Qed.

(** C40: The maps keep their types. From a start of the collector with no request waiting,
    whatever sequence of invocations, control requests, agents' requests, operator commands,
    timeouts, executions and ticks follows, with cgroup ids and times of 64 bits: there are
    eight flags, each 0 or 1; every trusted cgroup has the value 1, every manifest is a mask of
    the five classes, every grant is of one use, for ptrace, setuid or capset and under a key
    with zero padding; no map exceeds the capacity the object declares; and every record in the
    ring has its field widths. *)
Theorem maps_keep_their_types e y l :
  wf_start e -> maps y = start_maps e -> pend (gate_ y) = ∅ -> decided_ y = [] -> Forall wf_sys_event l ->
  sys_typed (run y l).
Proof.
  intros He Hm Hp Hd Hl. assert (sys_typed y) as Hy.
  { split; [rewrite Hm; by apply start_typed|by rewrite Hp|by rewrite Hd]. }
  clear Hm Hp Hd. revert y Hy. induction Hl as [|ev l Hev Hl IH]; intros y Hy; [done|].
  apply (IH (sys_step y ev)). by apply sys_step_typed.
Qed.

(** ** Evaluated: a day at a started appliance, with an arming and a tick *)
Definition started_env : start_env :=
  StartEnv (fun p => if (p =? "/sys/fs/cgroup")%string then Some 1
                     else if (p =? "/sys/fs/cgroup/system.slice/bulkhead-collector.service")%string then Some 2
                     else if (p =? brokerCgroupPath)%string then Some 3 else None)
    (Some "0::/system.slice/bulkhead-collector.service").
Definition started : sys := Sys (start_maps started_env) [] [] empty_gate [] (GcState ∅ ∅).
Definition root_peer : peer := Peer 0 5 "/system.slice/bulkhead-enforce.service".
Definition any_fs : uenv := UEnv (fun _ => true) (fun _ => Some 3) true.
Definition typed_day : list sys_event :=
  [ControlReq any_fs (fun _ => "") root_peer ["ENFORCE-SET"; "ptrace"; "1"];
   ControlReq any_fs (fun _ => "") (Peer 0 7 "/bulkhead-agent.slice/bulkhead-agent@w.service") ["EGRESS-SET-SELF"; "any"]]
  ++ a_day ++ [Tick (Fs {[7]} [1; 2] (Some 3))].

Example typed_day_run :
  enforce_flags (maps (run started typed_day)) = [0; 1; 0; 0; 0; 0; 0; 0]
  /\ egress_policy (maps (run started typed_day)) !! 7 = Some 31.
Proof. vm_compute. auto. Qed.

Lemma maps_keep_their_types_witness : sys_typed (run started typed_day).
Proof.
  apply (maps_keep_their_types started_env started typed_day); try reflexivity.
  - intros path id. unfold started_env. cbn [se_stat].
    repeat (destruct (_ =? _)%string; [intros [= <-]; split; vm_compute; congruence|]). discriminate.
  - assert (wf_env agent_env) as Ha by (split; [split; [discriminate|reflexivity]|reflexivity]).
    assert (forall path id, stat any_fs path = Some id -> in_width 64 id) as Hs
      by (intros path id [= <-]; split; [discriminate|reflexivity]).
    assert (forall n : N, (n < 1000)%N -> in_width 64 (Z.of_N n)) as Hn by (intros n Hn; unfold in_width; lia).
    unfold typed_day, a_day. cbn [app]. repeat (apply Forall_cons_2; [cbn [wf_sys_event]|]); [..|constructor];
      first [exact I|exact Ha|split; [|exact Hs]|idtac]; [by apply (Hn 5%N)|by apply (Hn 7%N)|by apply (Hn 7%N)| |].
    + split; [discriminate|reflexivity].
    + intros id [= <-]. by apply (Hn 3%N).
Defined.
