(* ===== verification/VsockMux.v ===== *)
(** * The vsock multiplexer: [fc-vsockmux/main.go]

    The only way out of a Firecracker guest. On the host one leg per provisioned port listens
    on a UNIX socket and splices each accepted connection to the fixed target of that leg; in
    the guest a forwarder does the same towards the host. A peer is a script: when its bytes
    arrive, how it ends, and how long it takes the bytes written to it. Times are in
    nanoseconds. *)
From Stdlib Require Import ZArith Lia Ascii String.
From stdpp Require Import base tactics numbers option strings list gmap.
From S2P Require Import Prelude Maps Classes Control Broker Bytes AuditLog.
#[local] Open Scope string_scope.
#[local] Open Scope list_scope.
#[local] Open Scope Z_scope.

Definition second : Z := 10 ^ 9.
Definition maxConnsPerLeg : nat := 64.
Definition idleTimeout : Z := 120 * second.
Definition tunnelMax : Z := 3600 * second.
Definition dialTimeout : Z := 5 * second.
Definition bufSize : Z := 32 * 1024.

(** ** Peers *)

(** What a connection delivers: bytes with the time they arrive, and then silence, the end of
    the stream or an error. *)
Inductive ending := Silent | Eof (t : Z) | Broken (t : Z).
Record source := Source { s_chunks : list (Z * bytes); s_end : ending }.

(** How the other side takes one [Write]: the time it needs, whether it takes all, and how many
    bytes it has taken when the write fails or times out. *)
Record taking := Taking { tk_time : Z; tk_ok : bool; tk_part : nat }.

(** [src.Read(buf)] under the deadline [rd]: a deadline already past fails at once. *)
Inductive read_res :=
| Got (t : Z) (b : bytes) (rest : source)
| AtEof (t : Z)
| ReadFailed (t : Z)
| TimedOut (t : Z).

Definition read (now rd : Z) (s : source) : read_res :=
  if rd <=? now then TimedOut now
  else
    match s_chunks s with
    | (t, b) :: cs =>
        if t <=? rd then
          let rest := drop (Z.to_nat bufSize) b in
          Got (Z.max now t) (take (Z.to_nat bufSize) b)
            (Source (match rest with [] => cs | _ => (t, rest) :: cs end) (s_end s))
        else TimedOut rd
    | [] =>
        match s_end s with
        | Silent => TimedOut rd
        | Eof t => if t <=? rd then AtEof (Z.max now t) else TimedOut rd
        | Broken t => if t <=? rd then ReadFailed (Z.max now t) else TimedOut rd
        end
    end.

(** [dst.Write(b)] under the deadline of [idleTimeout] from now: when it returned, what has been
    taken, and whether that is all. *)
Definition write (now : Z) (w : taking) (b : bytes) : Z * bytes * bool :=
  let d := Z.max 0 (tk_time w) in
  if tk_ok w && (d <? idleTimeout) then (now + d, b, true)
  else (now + Z.min d idleTimeout, take (tk_part w) b, false).

(** ** Copying *)
Inductive reason := Finished | Failed | Stalled | Refused.
Record copied := Copied { c_out : bytes; c_at : Z; c_why : reason }.

(** One direction; [i] counts the writes, [None] is the end of the fuel. *)
Fixpoint copyIdle (fuel : nat) (now total : Z) (s : source) (ws : nat -> taking) (i : nat) : option copied :=
  match fuel with
  | O => None
  | S fuel =>
      let rd := if total <? now + idleTimeout then total else now + idleTimeout in
      match read now rd s with
      | Got t [] s => copyIdle fuel t total s ws i
      | Got t b s =>
          let '(t', done, ok) := write t (ws i) b in
          if ok then
            match copyIdle fuel t' total s ws (S i) with
            | Some c => Some (Copied (done ++ c_out c) (c_at c) (c_why c))
            | None => None
            end
          else Some (Copied done t' Refused)
      | AtEof t => Some (Copied [] t Finished)
      | ReadFailed t => Some (Copied [] t Failed)
      | TimedOut t => Some (Copied [] t Stalled)
      end
  end.

Definition weight (s : source) : nat := foldr (fun c n => S (length c.2) + n)%nat 0%nat (s_chunks s).

Definition copy (now total : Z) (s : source) (ws : nat -> taking) : copied :=
  default (Copied [] now Failed) (copyIdle (S (weight s)) now total s ws 0).

(** A connection: what comes from it and how it takes what is written to it. *)
Record peer_conn := PeerConn { pc_in : source; pc_takes : nat -> taking }.

(** [splice(a, b)]: both directions, each half-closed when it ends; both ends are closed when
    the later one has. *)
Record spliced := Spliced { sp_to_b : copied; sp_to_a : copied; sp_closed : Z }.

Definition splice (now : Z) (a b : peer_conn) : spliced :=
  let total := now + tunnelMax in
  let to_a := copy now total (pc_in b) (pc_takes a) in
  let to_b := copy now total (pc_in a) (pc_takes b) in
  Spliced to_b to_a (Z.max (c_at to_a) (c_at to_b)).

(** ** A leg of the host *)

(** How a dial turns out: the time it takes and the connection, if any. *)
Record dial := Dial { d_time : Z; d_conn : option peer_conn }.

(** A leg: its target and, for each slot in use, when it is released. *)
Record leg := Leg { l_target : string; l_slots : list Z }.

Inductive outcome := Dropped | DialFailed | Relayed (target : string) (sp : spliced).

(** The goroutine of one accepted connection: what it did and when its slot is released. *)
Definition relay_conn (now : Z) (target : string) (c : peer_conn) (d : dial) : outcome * Z :=
  let t := Z.max 0 (d_time d) in
  match d_conn d with
  | Some up =>
      if t <? dialTimeout then let sp := splice (now + t) c up in (Relayed target sp, sp_closed sp)
      else (DialFailed, now + dialTimeout)
  | None => (DialFailed, now + Z.min t dialTimeout)
  end.

(** The slots not yet released at [now]. *)
Definition held (now : Z) (slots : list Z) : list Z := List.filter (fun r => now <? r) slots.

(** A connection accepted at [now] takes a free slot or is dropped. *)
Definition accept (now : Z) (c : peer_conn) (dials : string -> dial) (l : leg) : outcome * leg :=
  let slots := held now (l_slots l) in
  if (length slots <? maxConnsPerLeg)%nat then
    let '(o, r) := relay_conn now (l_target l) c (dials (l_target l)) in (o, Leg (l_target l) (r :: slots))
  else (Dropped, Leg (l_target l) slots).

(** What a leg sees: connections with the time of their accept and how a dial would turn out. *)
Record arrival := Arrival { ar_at : Z; ar_conn : peer_conn; ar_dials : string -> dial }.

Fixpoint serve (l : leg) (cs : list arrival) : list outcome * leg :=
  match cs with
  | [] => ([], l)
  | c :: cs =>
      let '(o, l) := accept (ar_at c) (ar_conn c) (ar_dials c) l in
      let '(os, l) := serve l cs in (o :: os, l)
  end.

(** [acceptNext]: accept errors other than a closed listener are retried. *)
Inductive accept_try := Accepted (c : arrival) | Transient | Closed.
Fixpoint acceptNext (tries : list accept_try) : option (arrival * list accept_try) :=
  match tries with
  | [] | Closed :: _ => None
  | Transient :: tries => acceptNext tries
  | Accepted c :: tries => Some (c, tries)
  end.

Fixpoint accept_loop (fuel : nat) (tries : list accept_try) : list arrival :=
  match fuel with
  | O => []
  | S fuel => match acceptNext tries with Some (c, tries) => c :: accept_loop fuel tries | None => [] end
  end.

(** ** Binding *)
Inductive node := Socket (owner : Z) | Symlink (to : string) | OtherFile.
Abbreviation nodes := (gmap string node).

(** [net.Listen("unix", path)]: bind fails on a path that exists, of whatever kind. *)
Definition Listen (me : Z) (path : string) (fs : nodes) : option nodes :=
  match fs !! path with Some _ => None | None => Some (<[path := Socket me]> fs) end.

Inductive bind_error := IsSymlink | NotSocket | ListenFailed.

(** [listenLegFresh]; [remove] tells whether [os.Remove] works. *)
Definition listenLegFresh (me : Z) (remove : bool) (path : string) (fs : nodes) : result bind_error nodes :=
  match fs !! path with
  | Some (Symlink _) => Err IsSymlink
  | Some OtherFile => Err NotSocket
  | Some (Socket _) => match Listen me path (if remove then delete path fs else fs) with Some fs => Ok fs | None => Err ListenFailed end
  | None => match Listen me path fs with Some fs => Ok fs | None => Err ListenFailed end
  end.

(** [strings.Cut(spec, "=")]. *)
Fixpoint Cut (sep : ascii) (s : string) : option (string * string) :=
  match s with
  | EmptyString => None
  | String c s' =>
      if Ascii.eqb c sep then Some (EmptyString, s')
      else match Cut sep s' with Some (a, b) => Some (String c a, b) | None => None end
  end.

Definition legPath (base port : string) : string := (base ++ "_" ++ port)%string.

(** [serveHost] up to its loops: the legs by the number of their listener, bound in order; a bad
    specification or a failing bind ends the process. *)
Fixpoint bind_legs (base : string) (remove : bool) (n : Z) (specs : list string) (fs : nodes) : option (list (Z * leg) * nodes) :=
  match specs with
  | [] => Some ([], fs)
  | spec :: specs =>
      '(port, target) ← Cut "=" spec;
      match listenLegFresh n remove (legPath base port) fs with
      | Err _ => None
      | Ok fs => '(legs, fs) ← bind_legs base remove (n + 1) specs fs; Some ((n, Leg target []) :: legs, fs)
      end
  end.

Definition serveHost (remove : bool) (args : list string) (fs : nodes) : option (list (Z * leg) * nodes) :=
  match args with
  | base :: spec :: specs => bind_legs base remove 0 (spec :: specs) fs
  | _ => None
  end.

(** ** The guest *)

(** [mustPort]: [strconv.ParseUint(strings.TrimSpace(s), 10, 32)]. *)
Definition mustPort (s : string) : option Z :=
  n ← parse_digits (TrimSpace s); if n <? 2 ^ 32 then Some n else None.

(** [serveGuest] up to its loops: the port of each leg by the number of its listener; whatever
    is at a path is removed first. A guest's leg has no cap. *)
Fixpoint guest_legs (remove : bool) (n : Z) (specs : list string) (fs : nodes) : option (list (Z * Z) * nodes) :=
  match specs with
  | [] => Some ([], fs)
  | spec :: specs =>
      '(path, p) ← Cut "=" spec;
      port ← mustPort p;
      fs ← Listen n path (if remove then delete path fs else fs);
      '(legs, fs) ← guest_legs remove (n + 1) specs fs; Some ((n, port) :: legs, fs)
  end.

Definition serveGuest (remove : bool) (args : list string) (fs : nodes) : option (list (Z * Z) * nodes) :=
  match args with [] => None | _ => guest_legs remove 0 args fs end.

(** The target a connection to [path] is spliced to: that of the listener bound there. *)
Definition reaches (legs : list (Z * leg)) (fs : nodes) (path : string) : option string :=
  match fs !! path with
  | Some (Socket n) => (fun p => l_target p.2) <$> (snd <$> list_find (fun p => p.1 = n) legs)
  | _ => None
  end.
