(* ===== verification/VsockProps.v ===== *)
(** * Correctness of the vsock multiplexer

    Copying is byte-transparent and bounded in time, a leg holds at most its number of slots
    and none of them for ever, and a connection reaches only the target the operator gave for
    its leg. *)
From Stdlib Require Import ZArith Lia Ascii String.
From stdpp Require Import base tactics numbers option strings list gmap.
From S2P Require Import Prelude Maps Classes Control Broker Bytes AuditLog VsockMux.
#[local] Open Scope string_scope.
#[local] Open Scope list_scope.
#[local] Open Scope Z_scope.

(** ** Copying *)

(** The bytes a peer sends. *)
Definition sent (s : source) : bytes := concat (s_chunks s).*2.

Lemma bufSize_pos : (1 <= Z.to_nat bufSize)%nat.
Proof. unfold bufSize. lia. Qed.

#[local] Opaque bufSize.

(** A read that delivers gives the next bytes and leaves less, and returns by its deadline. *)
Lemma read_got now rd s t b s' :
  read now rd s = Got t b s' ->
  now < rd /\ now <= t <= rd /\ sent s = b ++ sent s' /\ (weight s' < weight s)%nat /\ s_end s' = s_end s.
Proof.
  unfold read. destruct (Z.leb_spec rd now) as [|Hrd]; [done|]. destruct s as [cs e]. cbn [s_chunks s_end].
  destruct cs as [|[t0 b0] cs]; [destruct e; repeat case_match; done|]. destruct (Z.leb_spec t0 rd) as [Ht|]; [|done].
  cbv zeta. intros [= <- <- <-]. split_and!; [done|lia|lia| | |done].
  - unfold sent. cbn [s_chunks]. rewrite fmap_cons. cbn [concat snd].
    destruct (drop _ b0) as [|c r] eqn:E; [|rewrite fmap_cons; cbn [concat snd]];
      rewrite <- (take_drop (Z.to_nat bufSize) b0) at 1; rewrite E; by rewrite ?app_nil_r, <- ?app_assoc.
  - unfold weight. cbn [s_chunks foldr snd]. pose proof bufSize_pos as Hb.
    destruct (drop _ b0) as [|c r] eqn:E; [cbn; lia|]. cbn [foldr snd]. rewrite <- E, length_drop.
    assert (0 < length b0)%nat; [|lia]. destruct b0; [by rewrite drop_nil in E|cbn; lia].
Qed.

Lemma read_ends now rd s r t :
  read now rd s = r -> r = AtEof t \/ r = ReadFailed t \/ r = TimedOut t -> now <= t <= Z.max now rd.
Proof.
  intros <-. unfold read. destruct (Z.leb_spec rd now); [intros [?|[?|?]]; simplify_eq; lia|].
  destruct (s_chunks s) as [|[t0 b0] cs].
  - destruct (s_end s) as [|te|te]; [|destruct (Z.leb_spec te rd)..]; intros [?|[?|?]]; simplify_eq; lia.
  - destruct (Z.leb_spec t0 rd); intros [?|[?|?]]; simplify_eq; lia.
Qed.

Lemma write_spec now w b t d ok :
  write now w b = (t, d, ok) -> now <= t <= now + idleTimeout /\ d `prefix_of` b /\ (ok = true -> d = b).
Proof.
  assert (0 < idleTimeout) as Hi by (unfold idleTimeout, second; lia).
  unfold write. destruct (tk_ok w && (Z.max 0 (tk_time w) <? idleTimeout)) eqn:E; intros [= <- <- <-].
  - apply andb_prop in E as [_ E%Z.ltb_lt]. split_and!; [lia|lia|done|done].
  - split_and!; [lia|lia|apply prefix_take|done].
Qed.

(** The copy returns, with enough fuel, whatever the peers do. *)
Lemma copyIdle_total fuel now total s ws i : (weight s < fuel)%nat -> is_Some (copyIdle fuel now total s ws i).
Proof.
  revert now s i. induction fuel as [|fuel IH]; intros now s i Hf; [lia|]. cbn [copyIdle].
  destruct (read _ _ s) as [t b s'| | |] eqn:E; [|by eexists..]. apply read_got in E as (_ & _ & _ & Hw & _).
  destruct b as [|x b]; [apply IH; lia|]. destruct (write _ _ _) as [[t' d] ok]. destruct ok; [|by eexists].
  destruct (IH t' s' (S i)) as [c ->]; [lia|]. by eexists.
Qed.

Record good_copy (now total : Z) (s : source) (c : copied) : Prop := {
  gc_prefix : c_out c `prefix_of` sent s;
  gc_all : c_why c = Finished -> c_out c = sent s /\ exists t, s_end s = Eof t;
  gc_time : now <= c_at c <= Z.max now (total + idleTimeout) }.

Lemma copyIdle_good fuel now total s ws i c :
  copyIdle fuel now total s ws i = Some c -> good_copy now total s c.
Proof.
  assert (0 < idleTimeout) as Hi by (unfold idleTimeout, second; lia).
  revert now s i c. induction fuel as [|fuel IH]; intros now s i c; [done|]. cbn [copyIdle]. cbv zeta.
  set (rd := if total <? now + idleTimeout then total else now + idleTimeout).
  assert (rd <= total) as Hrd by (subst rd; destruct (Z.ltb_spec total (now + idleTimeout)); lia).
  destruct (read now rd s) as [t b s'|t|t|t] eqn:E.
  - apply read_got in E as (Hlt & Ht & Hs & _ & He). destruct b as [|x b].
    + intros [Hp Ha Hti]%IH. split; [by rewrite Hs|by rewrite Hs, <- He|lia].
    + destruct (write t (ws i) (x :: b)) as [[t' d] ok] eqn:Ew. apply write_spec in Ew as (Ht' & Hpre & Hok).
      destruct ok.
      * destruct (copyIdle fuel t' total s' ws (S i)) as [c'|] eqn:Ec; [|done]. intros [= <-].
        apply IH in Ec as [Hp Ha Hti]. rewrite Hok by done. split; cbn [c_out c_at c_why]; [rewrite Hs; by apply prefix_app| |lia].
        intros [-> Hend]%Ha. rewrite Hs, <- He. done.
      * intros [= <-]. split; cbn [c_out c_at c_why]; [|done|lia]. rewrite Hs. by apply prefix_app_r.
  - pose proof (read_ends _ _ _ _ t E ltac:(auto)) as Ht. intros [= <-]. split; cbn [c_out c_at c_why]; [apply prefix_nil| |lia].
    intros _. revert E. unfold read, sent. destruct (rd <=? now); [done|]. destruct (s_chunks s) as [|[t0 b0] cs]; [|by destruct (t0 <=? rd)].
    destruct (s_end s) as [|te|te]; [done| |by destruct (te <=? rd)]. eauto.
  - pose proof (read_ends _ _ _ _ t E ltac:(auto)) as Ht. intros [= <-]. split; cbn [c_out c_at c_why]; [apply prefix_nil|done|lia].
  - pose proof (read_ends _ _ _ _ t E ltac:(auto)) as Ht. intros [= <-]. split; cbn [c_out c_at c_why]; [apply prefix_nil|done|lia].
Qed.

Lemma copy_good now total s ws : good_copy now total s (copy now total s ws).
Proof.
  unfold copy. destruct (copyIdle_total (S (weight s)) now total s ws 0) as [c Hc]; [lia|]. rewrite Hc. by eapply copyIdle_good.
Qed.

Lemma splice_closed now a b : now <= sp_closed (splice now a b) <= now + tunnelMax + idleTimeout.
Proof.
  assert (0 < idleTimeout /\ 0 < tunnelMax) as [Hi Htm] by (unfold idleTimeout, tunnelMax, second; lia).
  unfold splice. cbn [sp_closed].
  pose proof (gc_time _ _ _ _ (copy_good now (now + tunnelMax) (pc_in a) (pc_takes b))).
  pose proof (gc_time _ _ _ _ (copy_good now (now + tunnelMax) (pc_in b) (pc_takes a))). lia.
Qed.

(** C26: A splice is byte-transparent and bounded. Whatever the two peers do, both directions
    return; each peer receives a prefix of what the other sent, all of it if the stream was read
    to its end and taken; and both connections are closed at the latest [idleTimeout] after
    [tunnelMax]. *)
Theorem splice_transparent_and_bounded now a b :
  let sp := splice now a b in
  let dir s w := copyIdle (S (weight (pc_in s))) now (now + tunnelMax) (pc_in s) (pc_takes w) 0 in
  dir a b = Some (sp_to_b sp) /\ dir b a = Some (sp_to_a sp)
  /\ c_out (sp_to_b sp) `prefix_of` sent (pc_in a) /\ c_out (sp_to_a sp) `prefix_of` sent (pc_in b)
  /\ (c_why (sp_to_b sp) = Finished -> c_out (sp_to_b sp) = sent (pc_in a))
  /\ (c_why (sp_to_a sp) = Finished -> c_out (sp_to_a sp) = sent (pc_in b))
  /\ now <= sp_closed sp <= now + tunnelMax + idleTimeout.
Proof.
  cbv zeta.
  assert (forall s w, copyIdle (S (weight (pc_in s))) now (now + tunnelMax) (pc_in s) (pc_takes w) 0
    = Some (copy now (now + tunnelMax) (pc_in s) (pc_takes w))) as Hd.
  { intros s w. unfold copy. destruct (copyIdle_total (S (weight (pc_in s))) now (now + tunnelMax) (pc_in s) (pc_takes w) 0) as [c Hc];
      [lia|]. by rewrite Hc. }
  destruct (copy_good now (now + tunnelMax) (pc_in a) (pc_takes b)) as [Hp1 Ha1 _].
  destruct (copy_good now (now + tunnelMax) (pc_in b) (pc_takes a)) as [Hp2 Ha2 _].
  split_and!; [apply Hd|apply Hd|exact Hp1|exact Hp2|apply Ha1|apply Ha2|apply splice_closed..].
Qed.

(** A peer that is silent from the start is cut off after [idleTimeout]. *)
Lemma silent_is_cut now total ws :
  now < total -> copy now total (Source [] Silent) ws = Copied [] (Z.min total (now + idleTimeout)) Stalled.
Proof.
  intros Ht. assert (0 < idleTimeout) as Hi by (unfold idleTimeout, second; lia). unfold copy. cbn [weight s_chunks foldr copyIdle].
  unfold read. cbv zeta. destruct (Z.ltb_spec total (now + idleTimeout)) as [H|H].
  - rewrite (proj2 (Z.leb_gt total now)) by lia. cbn [s_chunks s_end default from_option]. rewrite Z.min_l by lia. done.
  - rewrite (proj2 (Z.leb_gt (now + idleTimeout) now)) by lia. cbn [s_chunks s_end default from_option]. rewrite Z.min_r by lia. done.
Qed.

(** ** The slots of a leg *)

(** The longest a slot is held: a dial, a tunnel, and a write begun at its end. *)
Definition holdMax : Z := dialTimeout + tunnelMax + idleTimeout.

Definition pending_slots (now : Z) (l : list Z) : nat := length (held now l).
Definition recent (now : Z) (cs : list arrival) : nat := length (List.filter (fun c => now <? ar_at c + holdMax) cs).

Lemma relay_release now target c d o r :
  relay_conn now target c d = (o, r) ->
  now <= r <= now + holdMax /\ o <> Dropped /\ (forall t sp, o = Relayed t sp -> t = target).
Proof.
  assert (0 < idleTimeout /\ 0 < tunnelMax /\ 0 < dialTimeout) as (Hi & Htm & Hdt)
    by (unfold idleTimeout, tunnelMax, dialTimeout, second; lia).
  unfold relay_conn, holdMax. cbv zeta. destruct (d_conn d) as [up|]; [destruct (Z.ltb_spec (Z.max 0 (d_time d)) dialTimeout)|];
    intros [= <- <-]; (split_and!; [..|done|by intros ?? [= <- _] || done]); try lia;
    pose proof (splice_closed (now + Z.max 0 (d_time d)) c up) as Hc; unfold splice in Hc; cbn [sp_closed] in Hc; lia.
Qed.

Lemma filter_shrinks now now' l : (pending_slots now (held now' l) <= pending_slots now l)%nat.
Proof.
  unfold pending_slots, held. induction l as [|r l IH]; [done|]. cbn [List.filter]. destruct (now' <? r), (now <? r) eqn:E;
    cbn [List.filter]; rewrite ?E; cbn [length]; lia.
Qed.

Lemma filter_length {A} (f : A -> bool) l : (length (List.filter f l) <= length l)%nat.
Proof. induction l as [|x l IH]; [done|]. cbn. destruct (f x); cbn; lia. Qed.

Lemma accept_pending now t c ds l :
  (pending_slots now (l_slots (accept t c ds l).2) <= pending_slots now (l_slots l) + recent now [Arrival t c ds])%nat.
Proof.
  unfold accept. cbv zeta. pose proof (filter_shrinks now t (l_slots l)) as Hs.
  destruct (_ <? maxConnsPerLeg)%nat; [|cbn [snd l_slots]; lia].
  destruct (relay_conn t (l_target l) c (ds (l_target l))) as [o r] eqn:E. apply relay_release in E as (Hr & _ & _).
  cbn [snd l_slots]. unfold pending_slots at 1, held at 1, recent. cbn [List.filter ar_at]. fold (held now (held t (l_slots l))).
  destruct (Z.ltb_spec now r), (Z.ltb_spec now (t + holdMax)); cbn [length]; unfold pending_slots in *; lia.
Qed.

Lemma serve_pending now l cs : (pending_slots now (l_slots (serve l cs).2) <= pending_slots now (l_slots l) + recent now cs)%nat.
Proof.
  revert l. induction cs as [|c cs IH]; intros l; cbn [serve snd]; [lia|].
  pose proof (accept_pending now (ar_at c) (ar_conn c) (ar_dials c) l) as Ha.
  destruct (accept _ _ _ l) as [o l1]. specialize (IH l1). destruct (serve l1 cs) as [os l2]. cbn [snd] in *.
  unfold recent in *. cbn [List.filter ar_at] in *. destruct (now <? ar_at c + holdMax); cbn [length] in *; lia.
Qed.

Lemma serve_inv l cs :
  (length (l_slots l) <= maxConnsPerLeg)%nat ->
  let '(os, l') := serve l cs in
  (length (l_slots l') <= maxConnsPerLeg)%nat /\ l_target l' = l_target l
  /\ Forall (fun o => forall t sp, o = Relayed t sp -> t = l_target l) os.
Proof.
  revert l. induction cs as [|c cs IH]; intros l Hl; cbn [serve]; [split_and!; [done|done|constructor]|].
  assert (let '(o, l1) := accept (ar_at c) (ar_conn c) (ar_dials c) l in (length (l_slots l1) <= maxConnsPerLeg)%nat
    /\ l_target l1 = l_target l /\ forall t sp, o = Relayed t sp -> t = l_target l) as H1.
  { unfold accept. cbv zeta. pose proof (filter_length (fun r => ar_at c <? r) (l_slots l)) as Hfl. fold (held (ar_at c) (l_slots l)) in Hfl.
    destruct (Nat.ltb_spec (length (held (ar_at c) (l_slots l))) maxConnsPerLeg);
      [|cbn [l_slots l_target]; split_and!; [lia|done|done]].
    destruct (relay_conn _ _ _ _) as [o r] eqn:E. apply relay_release in E as (_ & _ & Ht). cbn [l_slots l_target length]. split_and!; [lia|done|done]. }
  destruct (accept _ _ _ l) as [o l1]. destruct H1 as (H1 & H2 & H3). specialize (IH l1 H1).
  destruct (serve l1 cs) as [os l2]. destruct IH as (I1 & I2 & I3). rewrite H2 in *. split_and!; [done|done|by constructor].
Qed.

(** C27: A leg never wedges. Whatever connections a guest opens and however they behave, a leg
    holds at most 64 slots, what it relays goes to its own target, and a new connection is
    dropped only if 64 others came within the last [holdMax], the bound on how long any
    connection keeps its slot. *)
Theorem leg_never_wedges target cs now c dials :
  let '(os, l) := serve (Leg target []) cs in
  (length (l_slots l) <= 64)%nat
  /\ Forall (fun o => forall t sp, o = Relayed t sp -> t = target) os
  /\ ((recent now cs < 64)%nat -> (accept now c dials l).1 <> Dropped).
Proof.
  pose proof (serve_inv (Leg target []) cs ltac:(cbn; lia)) as Hinv.
  pose proof (serve_pending now (Leg target []) cs) as Hp.
  destruct (serve (Leg target []) cs) as [os l]. destruct Hinv as (H1 & H2 & H3). split_and!; [done|done|].
  intros Hr. unfold accept. cbv zeta. cbn [snd] in Hp. unfold pending_slots in Hp. cbn [l_slots held List.filter length] in Hp.
  rewrite (proj2 (Nat.ltb_lt _ _)) by (unfold maxConnsPerLeg; lia).
  destruct (relay_conn _ _ _ _) as [o r] eqn:E. apply relay_release in E as (_ & Hn & _). exact Hn.
Qed.

(** ** The table of legs *)
Lemma listenLegFresh_ok me remove path fs fs' :
  listenLegFresh me remove path fs = Ok fs' ->
  fs' = <[path := Socket me]> fs /\ (fs !! path = None \/ exists o, fs !! path = Some (Socket o)).
Proof.
  unfold listenLegFresh, Listen. destruct (fs !! path) as [[o| |]|] eqn:E; [|done..|].
  - destruct remove; [rewrite lookup_delete_eq; intros [= <-]; rewrite insert_delete_eq; eauto|by rewrite E].
  - intros [= <-]. auto.
Qed.

(** The specification [port=target] is among [specs]. *)
Definition provisioned (specs : list string) (port target : string) : Prop :=
  exists spec, spec ∈ specs /\ Cut "=" spec = Some (port, target).

Record bound_legs (base : string) (n : Z) (specs : list string) (fs : nodes) (legs : list (Z * leg)) (fs' : nodes) : Prop := {
  bl_numbers : Forall (fun p => n <= p.1) legs /\ NoDup legs.*1;
  bl_frame : forall path x, fs !! path = Some x -> (forall o, x <> Socket o) -> fs' !! path = Some x;
  bl_stays : forall path o, fs !! path = Some (Socket o) -> exists k, fs' !! path = Some (Socket k);
  bl_sockets : forall path k, fs' !! path = Some (Socket k) ->
    (k < n /\ fs !! path = Some (Socket k))
    \/ (exists port target, provisioned specs port target /\ path = legPath base port /\ (k, Leg target []) ∈ legs);
  bl_bound : forall port target, provisioned specs port target ->
    exists target' k, provisioned specs port target' /\ (k, Leg target' []) ∈ legs /\ fs' !! legPath base port = Some (Socket k) }.

Lemma provisioned_cons spec specs port target :
  provisioned (spec :: specs) port target <-> Cut "=" spec = Some (port, target) \/ provisioned specs port target.
Proof.
  unfold provisioned. split.
  - intros (s & [->|Hs]%elem_of_cons & Hc); [auto|right; eauto].
  - intros [Hc|(s & Hs & Hc)]; [exists spec|exists s]; (split; [|done]); [by left|by right].
Qed.

Lemma legPath_inj base port port' : legPath base port = legPath base port' -> port = port'.
Proof. intros E. apply (inj (String.append base)) in E. by apply (inj (String.append "_")) in E. Qed.

(** One more leg in front. *)
Lemma bound_cons base n spec specs fs port target legs fs' :
  Cut "=" spec = Some (port, target) -> (forall p o, fs !! p = Some (Socket o) -> o < n) ->
  (fs !! legPath base port = None \/ exists o, fs !! legPath base port = Some (Socket o)) ->
  bound_legs base (n + 1) specs (<[legPath base port := Socket n]> fs) legs fs' ->
  bound_legs base n (spec :: specs) fs ((n, Leg target []) :: legs) fs'.
Proof.
  intros Hc Hold Hfree [[Hn Hnd] Hfr Hst Hso Hbo].
  assert (forall p t, provisioned specs p t -> provisioned (spec :: specs) p t) as Hright.
  { intros p t Hp. apply provisioned_cons. by right. }
  assert (provisioned (spec :: specs) port target) as Hleft by (apply provisioned_cons; by left).
  assert (forall path k, fs' !! path = Some (Socket k) ->
    (k < n /\ fs !! path = Some (Socket k))
    \/ (exists p t, provisioned (spec :: specs) p t /\ path = legPath base p /\ (k, Leg t []) ∈ (n, Leg target []) :: legs)) as Hsock.
  { intros path k Hk. destruct (Hso path k Hk) as [[Hlt Hl]|(p & t & Hp & -> & Hin)].
    - destruct (decide (path = legPath base port)) as [->|Hne].
      + rewrite lookup_insert_eq in Hl. injection Hl as <-. right. exists port, target. split_and!; [done..|by left].
      + rewrite lookup_insert_ne in Hl by done. left. split; [by eapply Hold|done].
    - right. exists p, t. split_and!; [auto|done|by right]. }
  split; [split| | |exact Hsock|].
  - constructor; [cbn; lia|]. eapply Forall_impl; [exact Hn|]. intros ? ?; cbn in *; lia.
  - rewrite fmap_cons. constructor; [|done]. intros ([k lg] & Hk & Hin)%list_elem_of_fmap. cbn in Hk. subst k.
    rewrite Forall_forall in Hn. specialize (Hn _ Hin). cbn in Hn. lia.
  - intros path x Hx Hns. apply Hfr; [|done]. destruct (decide (path = legPath base port)) as [->|Hne]; [|by rewrite lookup_insert_ne].
    destruct Hfree as [Hf|[o Hf]]; [congruence|]. exfalso. apply (Hns o). congruence.
  - intros path o Ho. destruct (decide (path = legPath base port)) as [->|Hne]; [apply (Hst _ n), lookup_insert_eq|].
    apply (Hst _ o). by rewrite lookup_insert_ne.
  - intros p t [Hc'|Hp]%provisioned_cons.
    + rewrite Hc in Hc'. injection Hc' as <- <-. destruct (Hst (legPath base port) n (lookup_insert_eq _ _ _)) as [k Hk].
      destruct (Hso _ _ Hk) as [[Hlt Hl]|(p & t & Hp & ->%legPath_inj & Hin)].
      * rewrite lookup_insert_eq in Hl. injection Hl as <-. exists target, n. split_and!; [done|by left|done].
      * exists t, k. split_and!; [auto|by right|done].
    + destruct (Hbo p t Hp) as (t' & k & Hp' & Hin & Hk). exists t', k. split_and!; [auto|by right|done].
Qed.

Lemma bind_legs_ok base remove n specs fs legs fs' :
  bind_legs base remove n specs fs = Some (legs, fs') -> (forall p o, fs !! p = Some (Socket o) -> o < n) ->
  bound_legs base n specs fs legs fs'.
Proof.
  revert n fs legs fs'. induction specs as [|spec specs IH]; intros n fs legs fs' E Hold; cbn [bind_legs] in E.
  { injection E as <- <-. split; [repeat constructor|done|eauto| |by intros port target (s & ?%elem_of_nil & _)].
    intros path k Hk. left. split; [by eapply Hold|done]. }
  destruct (Cut "=" spec) as [[port target]|] eqn:Hc; [|done]. cbn [mbind option_bind] in E.
  destruct (listenLegFresh n remove (legPath base port) fs) as [fs1|] eqn:El; [|done].
  apply listenLegFresh_ok in El as [-> Hfree].
  destruct (bind_legs base remove (n + 1) specs _) as [[legs1 fs2]|] eqn:Eb; [|done]. injection E as <- <-.
  eapply bound_cons; [done|done|done|]. apply IH; [done|].
  intros p o. destruct (decide (p = legPath base port)) as [->|Hne]; [rewrite lookup_insert_eq; intros [= <-]; lia|].
  rewrite lookup_insert_ne by done. intros Ho%Hold. lia.
Qed.

Lemma reaches_leg legs fs path k lg :
  NoDup legs.*1 -> (k, lg) ∈ legs -> fs !! path = Some (Socket k) -> reaches legs fs path = Some (l_target lg).
Proof.
  intros Hnd Hin Hk. unfold reaches. rewrite Hk. destruct (list_find (fun p : Z * leg => p.1 = k) legs) as [[i [k' lg']]|] eqn:E.
  - apply list_find_Some in E as (Hi & Heq & _). cbn in Heq. subst k'. apply list_elem_of_lookup in Hin as [j Hj].
    assert (i = j) as ->; [|by rewrite Hi in Hj; injection Hj as ->].
    eapply NoDup_lookup; [exact Hnd| |]; rewrite list_lookup_fmap; [by rewrite Hi|by rewrite Hj].
  - exfalso. eapply (proj1 (list_find_None _ _)), Forall_forall in E; [|exact Hin]. by cbn in E.
Qed.

(** The table of the host. When the multiplexer has bound its legs, a connection to any path
    is spliced, if at all, to the target the operator gave for the port of that path; every
    provisioned port is reachable; and nothing that is not a socket is replaced or followed, so
    a link planted at a leg's path ends the start instead of redirecting the leg. *)
Theorem legs_reach_operator_targets base remove specs fs legs fs' :
  (forall p o, fs !! p = Some (Socket o) -> o < 0) ->
  serveHost remove (base :: specs) fs = Some (legs, fs') ->
  (forall path t, reaches legs fs' path = Some t -> exists port, provisioned specs port t /\ path = legPath base port)
  /\ (forall port t, provisioned specs port t ->
        exists t', provisioned specs port t' /\ reaches legs fs' (legPath base port) = Some t')
  /\ (forall port t x, provisioned specs port t -> fs !! legPath base port = Some x -> exists o, x = Socket o).
Proof.
  intros Hold E. unfold serveHost in E. destruct specs as [|spec specs]; [done|].
  apply bind_legs_ok in E as [[Hn Hnd] Hfr Hst Hso Hbo]; [|done].
  split_and!.
  - intros path t Hr. destruct (fs' !! path) as [[k| |]|] eqn:Ek; [|by unfold reaches in Hr; rewrite Ek in Hr..].
    destruct (Hso path k Ek) as [[Hlt _]|(port & t' & Hp & -> & Hin)].
    + exfalso. unfold reaches in Hr. rewrite Ek in Hr. destruct (list_find _ legs) as [[i [k' lg]]|] eqn:Ef; [|done].
      apply list_find_Some in Ef as (Hi & Heq & _). cbn in Heq. subst k'. apply list_elem_of_lookup_2 in Hi.
      rewrite Forall_forall in Hn. specialize (Hn _ Hi). cbn in Hn. lia.
    + rewrite (reaches_leg legs fs' _ k (Leg t' [])) in Hr by done. injection Hr as <-. eauto.
  - intros port t Hp. destruct (Hbo port t Hp) as (t' & k & Hp' & Hin & Hk). exists t'. split; [done|].
    by rewrite (reaches_leg legs fs' _ k (Leg t' [])).
  - intros port t x Hp Hx. destruct x as [o|to|]; [eauto|..]; exfalso;
      destruct (Hbo port t Hp) as (t' & k & _ & _ & Hk); rewrite (Hfr _ _ Hx) in Hk by done; done.
Qed.

(** ** Accepting *)

(** What arrives before the listener is closed. *)
Fixpoint before_close (tries : list accept_try) : list arrival :=
  match tries with
  | [] | Closed :: _ => []
  | Transient :: tries => before_close tries
  | Accepted c :: tries => c :: before_close tries
  end.

Lemma acceptNext_spec tries :
  match acceptNext tries with
  | Some (c, rest) => before_close tries = c :: before_close rest /\ (length rest < length tries)%nat
  | None => before_close tries = []
  end.
Proof.
  induction tries as [|[c| |] tries IH]; cbn [acceptNext before_close length]; [done|split; [done|lia]| |done].
  destruct (acceptNext tries) as [[c rest]|]; [|done]. destruct IH as [-> ?]. split; [done|lia].
Qed.

(** A transient accept error costs no connection: the loop serves everything that arrives
    until its listener is closed. *)
Theorem transient_errors_do_not_end_a_leg tries :
  accept_loop (S (length tries)) tries = before_close tries.
Proof.
  enough (forall fuel, (length tries < fuel)%nat -> accept_loop fuel tries = before_close tries) as H by (apply H; lia).
  intros fuel. revert tries. induction fuel as [|fuel IH]; intros tries Hf; [lia|]. cbn [accept_loop].
  pose proof (acceptNext_spec tries) as Hs. destruct (acceptNext tries) as [[c rest]|]; [|done].
  destruct Hs as [-> Hl]. f_equal. apply IH. lia.
Qed.

(** ** The guest's ports *)
Lemma mustPort_range s n : mustPort s = Some n -> 0 <= n < 2 ^ 32.
Proof.
  unfold mustPort, parse_digits. destruct (all_digits _); cbn [mbind option_bind]; [|done]. cbv zeta.
  pose proof (digits_nonneg (TrimSpace s) 0 ltac:(lia)) as Hd.
  destruct (_ <? 2 ^ 64); cbn; [|done]. destruct (Z.ltb_spec (digits 0 (TrimSpace s)).1 (2 ^ 32)); [|done]. intros [= <-]. lia.
Qed.

(** ** Evaluated *)

(** A guest that sends a line every 100 seconds, and an upstream that stops taking bytes. *)
Definition trickle : source := Source ((fun i => (Z.of_nat i * 100 * second, B "x")) <$> seq 1 36) Silent.
Definition takes_all (_ : nat) : taking := Taking 0 true 0.
Definition stops_at (n : nat) (i : nat) : taking := if (i <? n)%nat then Taking 0 true 0 else Taking (10 * idleTimeout) true 0.

(** The write deadline is not capped by the total one: a tunnel may stay open, and keep its
    slot, for [idleTimeout] longer than [tunnelMax]. *)
Example tunnel_outlives_its_maximum :
  sp_closed (splice 0 (PeerConn trickle takes_all) (PeerConn (Source [] (Eof 1)) (stops_at 35))) = tunnelMax + idleTimeout.
Proof. vm_compute. reflexivity. Qed.

Definition an_exchange : spliced :=
  splice 0 (PeerConn (Source [(5, B "CONNECT example.com:443")] (Eof 9)) takes_all)
    (PeerConn (Source [(7, B "OK")] (Eof 8)) takes_all).
Example exchange_runs :
  string_of_list_ascii (c_out (sp_to_b an_exchange)) = "CONNECT example.com:443"
  /\ string_of_list_ascii (c_out (sp_to_a an_exchange)) = "OK" /\ sp_closed an_exchange = 9.
Proof. vm_compute. done. Qed.

Definition silent_conn : peer_conn := PeerConn (Source [] Silent) takes_all.
Definition up_at_once (_ : string) : dial := Dial 0 (Some silent_conn).
Definition flood : list arrival := replicate 70 (Arrival 0 silent_conn up_at_once).

(** Of seventy silent connections 64 are held; the others are dropped, and after the idle
    timeout the next one is served. *)
Example flood_is_shed :
  length (List.filter (fun o => match o with Dropped => true | _ => false end) (serve (Leg "/run/proxy.sock" []) flood).1) = 6%nat
  /\ (accept idleTimeout silent_conn up_at_once (serve (Leg "/run/proxy.sock" []) flood).2).1 <> Dropped.
Proof. vm_compute. done. Qed.

Lemma leg_never_wedges_witness :
  (accept (holdMax + 1) silent_conn up_at_once (serve (Leg "/run/proxy.sock" []) flood).2).1 <> Dropped.
Proof.
  pose proof (leg_never_wedges "/run/proxy.sock" flood (holdMax + 1) silent_conn up_at_once) as H.
  destruct (serve (Leg "/run/proxy.sock" []) flood) as [os l]. destruct H as (_ & _ & H). apply H. vm_compute. lia.
Defined.

Definition host_args : list string := ["/run/fc/v.sock"; "5000=/run/bulkhead/egress.sock"; "5001=/run/bulkhead/router.sock"].
Definition stale_dir : nodes := {["/run/fc/v.sock_5000" := Socket (-1); "/run/fc/other" := Symlink "/etc"]}.
Definition host_legs : list (Z * leg) :=
  [(0, Leg "/run/bulkhead/egress.sock" []); (1, Leg "/run/bulkhead/router.sock" [])].
Definition host_dir : nodes :=
  <["/run/fc/v.sock_5001" := Socket 1]> (<["/run/fc/v.sock_5000" := Socket 0]> stale_dir).

Lemma legs_reach_operator_targets_witness :
  exists port, provisioned (tail host_args) port "/run/bulkhead/egress.sock" /\ "/run/fc/v.sock_5000" = legPath "/run/fc/v.sock" port.
Proof.
  refine (proj1 (legs_reach_operator_targets "/run/fc/v.sock" true (tail host_args) stale_dir host_legs host_dir _ _)
    "/run/fc/v.sock_5000" "/run/bulkhead/egress.sock" _).
  - intros p o Ho. unfold stale_dir in Ho.
    apply lookup_insert_Some in Ho as [[_ [= <-]]|[_ Ho]]; [lia|]. apply lookup_singleton_Some in Ho as [_ [=]].
  - vm_compute. reflexivity.
  - vm_compute. reflexivity.
Defined.

(** A link planted at a leg's path ends the start. *)
Example planted_link_is_refused :
  serveHost true host_args (<["/run/fc/v.sock_5001" := Symlink "/run/bulkhead/control.sock"]> stale_dir) = None.
Proof. vm_compute. reflexivity. Qed.

Example guest_ports :
  (fun r => (r.1, r.2 !! "/run/proxy.sock")) <$> serveGuest true ["/run/proxy.sock=5000"; "/run/router.sock= 5001 "] (<["/run/proxy.sock" := OtherFile]> ∅)
    = Some ([(0, 5000); (1, 5001)], Some (Socket 0))
  /\ serveGuest false ["/run/proxy.sock=5000"] (<["/run/proxy.sock" := OtherFile]> ∅) = None
  /\ serveGuest true [] ∅ = None /\ mustPort "4294967296" = None.
Proof. vm_compute. done. Qed.
