(* ===== verification/Retention.v ===== *)
(** * The footprint of a chain

    Rotation and pruning bound what one chain occupies: [segKeep] sealed segments and a live
    file, each at most [rotateBytes] plus one record, as long as the file operations of
    rotations succeed. Writes and syncs may fail and power may be lost while a record is
    written. *)
From Stdlib Require Import ZArith Lia Ascii String.
From stdpp Require Import base tactics numbers option strings list gmap sorting.
From S2P Require Import Prelude Maps Bytes Sha256 Json Verify AuditLog AuditFiles AuditProps AuditWriter ChainProps.
#[local] Open Scope string_scope.
#[local] Open Scope list_scope.
#[local] Open Scope Z_scope.
#[local] Opaque Sum256 canonical.

(** A rotation in which nothing fails. *)
Definition rotates (x : rot_io) : Prop :=
  r_sync x = true /\ r_rename x = true /\ r_reopen x = true /\ forall n, r_remove x n = true.

(** Events whose strings have at most [strs] bytes in all and whose rotations succeed. *)
Definition quiet (strs : Z) (ev : log_event) : Prop :=
  match ev with
  | Boot repair_ok => repair_ok = true
  | Append x e | PowerLoss x e false _ =>
      tame_io x /\ event_ok e /\ rotates (io_rot x)
      /\ len (e_comm e) + len (e_hook e) + len (e_decision e) + len (e_mode e) <= strs
  | PowerLoss _ _ true _ => False
  end.

Lemma quiet_tame strs ev : quiet strs ev -> tame ev.
Proof. destruct ev as [|x e|x e [] k]; cbn; tauto. Qed.

(** The longest line of such an event. *)
Definition max_line (strs : Z) : Z := 2000 + 18 * strs.

(** Which segments were pruned does not matter here. *)
Definition anything (_ : Z * list auditRecord) : Prop := True.

Section bounds.
  Context (Unmarshal : bytes -> option auditRecord) {HJ : JsonReader Unmarshal}.
  Context (base : string) (domain : bytes) (rotateBytes : Z) (segKeep : nat) (sign : bytes -> bytes) (strs : Z).
  Context (Hkeep : (1 <= segKeep)%nat) (Hsl : forall m, len (sign m) = 64) (Hrot : 0 < rotateBytes) (Hstrs : 0 <= strs).
  Abbreviation maybe_rotate := (maybe_rotate base rotateBytes segKeep).
  Abbreviation append := (append base domain rotateBytes segKeep sign).
  Abbreviation open_on := (open_on base domain sign anything).

(** Whether a file belongs to the chain, and the bound on all of them. *)
Definition of_chain (name : string) : Prop := name = base \/ is_Some (seg_number base name).
Definition small (fs : dir) : Prop :=
  (length (listSegments base fs) <= segKeep)%nat
  /\ forall name, of_chain name -> len (contents name fs) <= rotateBytes + max_line strs.

Lemma file_insert name n (b : bytes) fs : contents name (<[n := b]> fs) = if decide (n = name) then b else contents name fs.
Proof. unfold contents. destruct (decide (n = name)) as [->|]; [by rewrite lookup_insert_eq|by rewrite lookup_insert_ne]. Qed.

Lemma file_delete name n (fs : dir) : contents name (delete n fs) = if decide (n = name) then [] else contents name fs.
Proof. unfold contents. destruct (decide (n = name)) as [->|]; [by rewrite lookup_delete_eq|by rewrite lookup_delete_ne]. Qed.

Lemma file_prune name x fs : len (contents name (pruneSegments base segKeep x fs)) <= len (contents name fs).
Proof.
  unfold pruneSegments. generalize (prune_order base segKeep fs). intros ns. revert fs.
  induction ns as [|n ns IH]; intros fs; [done|]. cbn [foldl]. etrans; [apply IH|].
  unfold remove_one. destruct (r_remove x n); [|done]. rewrite file_delete. case_decide; [|done]. unfold len. cbn. lia.
Qed.

Lemma line_bound now e (a : auditLog) :
  len (prevHash a) = Size -> len (e_comm e) + len (e_hook e) + len (e_decision e) + len (e_mode e) <= strs ->
  len (line_of (make_record domain sign now e a)) <= max_line strs.
Proof.
  intros Hp Hs. unfold line_of, max_line. rewrite len_app. change (len [newline]) with 1.
  pose proof (len_marshal (make_record domain sign now e a)) as Hm.
  cbn [make_record Comm Hook Decision_ Mode PrevHash Hash Sig] in Hm.
  rewrite !len_encode, Hsl, length_Sum256, Hp in Hm. unfold Size in Hm.
  pose proof (len_replace (e_comm e) false). pose proof (len_replace (e_hook e) false).
  pose proof (len_replace (e_decision e) false). pose proof (len_replace (e_mode e) false). unfold ToValidUTF8 in *. lia.
Qed.

(** Writing the live file does not change the listing. *)
Lemma list_write k h frag fs (b : bytes) :
  holds base domain sign anything k h frag fs -> listSegments base (<[base := b]> fs) = listSegments base fs.
Proof.
  intros (gone & segs & live & Hv & _). rewrite (view_lists _ _ _ _ _ Hv).
  apply (view_set base segs live frag [] b) in Hv. by rewrite <- (view_lists _ _ _ _ _ Hv).
Qed.

Lemma remove_all x j segs live fs :
  (forall n, r_remove x n = true) -> view base segs live [] fs ->
  view base (drop j segs) live [] (foldl (remove_one base x) fs (take j segs.*1)).
Proof.
  intros Hx. revert segs fs. induction j as [|j IH]; intros segs fs Hv; [done|].
  destruct segs as [|[n rs] segs]; [done|]. rewrite fmap_cons. cbn [take foldl fst drop].
  apply IH. unfold remove_one. rewrite Hx. by eapply view_drop.
Qed.

Lemma prune_keeps k h x fs :
  (forall n, r_remove x n = true) -> holds base domain sign anything k h [] fs ->
  (length (listSegments base (pruneSegments base segKeep x fs)) <= segKeep)%nat.
Proof.
  intros Hx (gone & segs & live & Hv & _). unfold pruneSegments, prune_order. rewrite (view_lists _ _ _ _ _ Hv), length_fmap.
  destruct (Nat.leb_spec (length segs) segKeep) as [Hle|Hgt].
  - cbn [foldl]. by rewrite (view_lists _ _ _ _ _ Hv), length_fmap.
  - apply (remove_all x (length segs - segKeep) segs live fs Hx) in Hv.
    rewrite (view_lists _ _ _ _ _ Hv), length_fmap, length_drop. lia.
Qed.

(** After the rotation step the live file has room for a record. *)
Lemma maybe_rotate_small k h x a fs off a' fs' :
  tame_io x -> rotates (io_rot x) -> open_on k h a fs -> k + 2 < 2 ^ 64 -> small fs ->
  maybe_rotate x a fs = (off, a', fs') -> small fs' /\ len (contents base fs') <= rotateBytes.
Proof.
  intros Hx (Rs & Rr & Ro & Rm) (Hh & [b Hb] & Hf & _ & _ & Hk) Hbig [Hc Hsm]. unfold AuditLog.maybe_rotate. rewrite Hf.
  assert (contents base fs = b) as Hcb by (unfold contents; by rewrite Hb).
  unfold file_size. rewrite Hcb. destruct (_ && _) eqn:E.
  2:{ intros [= <- <- <-]. rewrite Hcb. split; [done|]. rewrite (proj2 (Z.ltb_lt 0 _) Hrot) in E. cbn in E.
      apply Z.leb_gt in E. unfold len. lia. }
  apply andb_prop in E as [_ E%Z.leb_le].
  destruct (holds_seal base domain segKeep sign Hkeep anything (segNext a) h fs b) as [Hseal _]; [done|done| |lia|].
  { intros ->. cbn in E. lia. }
  unfold rotate, rename. rewrite Rs, Rr, Ro, Hb. cbn [negb]. intros [= <- <- <-].
  apply holds_create in Hseal as [Hcr _]. set (fs1 := create base _) in *.
  assert (contents base fs1 = []) as Hc1.
  { unfold fs1, create. rewrite file_insert, decide_True by done. rewrite file_insert, decide_False by apply segmentName_base.
    rewrite file_delete, decide_True by done. done. }
  split; [split|].
  - by eapply prune_keeps.
  - intros name Hn. etrans; [apply file_prune|]. unfold fs1, create. rewrite file_insert. case_decide.
    { rewrite file_insert, decide_False by apply segmentName_base. rewrite file_delete, decide_True by done.
      unfold len, max_line. cbn. lia. }
    rewrite file_insert. case_decide; [rewrite <- Hcb; apply Hsm; by left|].
    rewrite file_delete. case_decide; [unfold len, max_line; cbn; lia|]. by apply Hsm.
  - etrans; [apply file_prune|]. rewrite Hc1. unfold len. cbn. lia.
Qed.

(** One more line, or a part of it, fits. *)
Lemma write_small k h fs l :
  holds base domain sign anything k h [] fs -> small fs -> len (contents base fs) <= rotateBytes -> len l <= max_line strs -> small (write base l fs).
Proof.
  intros Hh [Hc Hsm] Hb Hl. unfold write. split; [by erewrite list_write|].
  intros name Hn. rewrite file_insert. case_decide; [rewrite len_app; lia|by apply Hsm].
Qed.

Lemma append_small k h x e a fs ok a' fs' :
  tame_io x -> event_ok e -> rotates (io_rot x) ->
  len (e_comm e) + len (e_hook e) + len (e_decision e) + len (e_mode e) <= strs ->
  open_on k h a fs -> k + 2 < 2 ^ 64 -> small fs -> append x e a fs = (ok, a', fs') -> small fs'.
Proof.
  intros Hx He Hr Hs Hop Hbig Hsm. unfold AuditLog.append. cbv zeta.
  destruct (io_stat x); cbn [negb]; [|intros [= _ _ <-]; done].
  destruct (maybe_rotate x a fs) as [[off a1] fs1] eqn:Er.
  destruct (maybe_rotate_small k h x a fs off a1 fs1) as [Hsm1 Hroom]; [done..|].
  destruct (maybe_rotate_open base domain rotateBytes segKeep sign Hkeep anything k h x a fs off a1 fs1)
    as (Hop1 & Hoff & _ & _); [done..|].
  destruct Hoff as [->| ->]; [intros [= _ _ <-]; done|].
  destruct Hop1 as (Hh & [b Hb] & Hf & _ & _ & _). rewrite Hf.
  assert (file_size base fs1 = length b) as -> by (unfold file_size, contents; by rewrite Hb).
  destruct Hop as (_ & _ & _ & Hp & _ & _). pose proof Hx as (_ & _ & -> & _).
  destruct (io_write x) as [j|]; [rewrite truncate_write by done; intros [= _ _ <-]; done|].
  destruct (io_sync x); cbn [negb]; [|rewrite truncate_write by done; intros [= _ _ <-]; done].
  intros [= _ _ <-]. eapply write_small; [done|done|done|]. apply line_bound; [|done]. rewrite Hp. by apply len_tip.
Qed.

Lemma boot_small k h frag fs a fs' :
  holds base domain sign anything k h frag fs -> fragment domain sign (tip_of domain zeroHash h) (last_seq 0 h) frag ->
  small fs -> openAuditLog Unmarshal base true fs = (a, fs') -> small fs'.
Proof.
  intros Hh Hf [Hc Hsm]. unfold openAuditLog.
  set (fs1 := match fs !! base with Some b => <[base := repairTornTail b]> fs | None => fs end).
  assert (forall b, len (repairTornTail b) <= len b) as Hrep.
  { intros b. unfold repairTornTail. destruct (rev b); [done|]. destruct (Ascii.eqb _ _); [done|]. unfold len.
    rewrite length_take. lia. }
  assert (small fs1 /\ exists frag', holds base domain sign anything k h frag' fs1) as [[Hc1 Hsm1] [frag' Hh1]].
  { pose proof Hh as (gone & segs & live & Hv & Hpm & Hh' & Hch & Hr).
    unfold fs1. destruct (fs !! base) as [b|] eqn:Hb; [|split; [done|by eexists]]. split; [split|].
    - by erewrite list_write.
    - intros name Hn. rewrite file_insert. case_decide; [|by apply Hsm]. etrans; [apply Hrep|].
      assert (contents base fs = b) as <- by (unfold contents; by rewrite Hb). apply Hsm. by left.
    - exists []. exists gone, segs, live. split_and!; [|done..].
      pose proof (view_base_present base _ _ _ _ Hv (ex_intro _ _ Hb)) as Hb'. rewrite Hb in Hb'. injection Hb' as ->.
      unfold content. rewrite repair_flat by (by eapply fragment_no_newline). rewrite <- content_nil. by eapply view_set. }
  intros [= <- <-]. fold fs1. unfold create. split; [by erewrite list_write|].
  intros name Hn. rewrite file_insert. case_decide; [subst; apply Hsm1; by left|by apply Hsm1].
Qed.

Lemma log_step_small k h s ev :
  quiet strs ev -> log_inv base domain sign anything k h s -> 0 <= k -> k + 3 < 2 ^ 64 -> small s.2 ->
  small (log_step Unmarshal base domain rotateBytes segKeep sign s ev).2.
Proof.
  intros Hev Hinv Hk0 Hbig Hsm. destruct s as [[a|] fs], ev as [ro|x e|x e mid j]; cbn [log_step quiet snd] in *; try done.
  - subst ro. destruct (openAuditLog _ _ _ _) as [a' fs'] eqn:E. destruct Hinv as (Hh & _).
    eapply boot_small; [exact Hh|by left|done|exact E].
  - destruct Hev as (Hx & He & Hr & Hs). destruct (append x e a fs) as [[ok a'] fs'] eqn:E.
    eapply (append_small k h); [exact Hx|exact He|exact Hr|done|done|lia|done|exact E].
  - destruct mid; [done|]. destruct Hev as (Hx & He & Hr & Hs). unfold lose_power. cbn [andb].
    destruct (maybe_rotate x a fs) as [[off a1] fs1] eqn:Er.
    destruct (maybe_rotate_small k h x a fs off a1 fs1) as [Hsm1 Hroom]; [done..|lia|done|done|].
    destruct (maybe_rotate_open base domain rotateBytes segKeep sign Hkeep anything k h x a fs off a1 fs1)
      as ((Hh & _ & Hf & _) & _); [done..|lia|done|]. rewrite Hf.
    eapply write_small; [done|done|done|].
    destruct Hinv as (_ & _ & _ & Hp & _).
    etrans; [|apply (line_bound (io_now x) e a); [rewrite Hp; by apply len_tip|done]]. unfold len. rewrite length_take. lia.
  - subst ro. destruct (openAuditLog _ _ _ _) as [a' fs'] eqn:E. destruct Hinv as (frag & Hh & Hf).
    eapply boot_small; [exact Hh|exact Hf|done|exact E].
Qed.

Lemma run_small k h s evs :
  Forall (quiet strs) evs -> log_inv base domain sign anything k h s -> 0 <= k -> k + Z.of_nat (length evs) + 3 < 2 ^ 64 ->
  small s.2 -> small (run Unmarshal base domain rotateBytes segKeep sign s evs).2.
Proof.
  intros Ht. revert k h s. induction Ht as [|ev evs Hev Ht IH]; intros k h s Hinv Hk Hbig Hsm; [done|].
  cbn [length run] in *.
  destruct (log_step_inv Unmarshal base domain rotateBytes segKeep sign Hkeep Hsl anything k h s ev) as (h2 & Hinv' & _);
    [by eapply quiet_tame|done|done|done|lia|].
  apply (IH (k + 1) (h ++ h2)); [done|lia|lia|]. apply (log_step_small k h); [done|done|done|lia|done].
Qed.

(** The bytes of the chain on disk. *)
Definition footprint (fs : dir) : Z :=
  len (contents base fs) + foldr (fun n acc => len (contents (segmentName base n) fs) + acc) 0 (listSegments base fs).

Lemma small_footprint fs :
  Forall (fun n => 0 <= n < 2 ^ 64) (listSegments base fs) -> small fs ->
  footprint fs <= (Z.of_nat segKeep + 1) * (rotateBytes + max_line strs).
Proof.
  intros Hr [Hc Hsm]. unfold footprint. pose proof (Hsm base ltac:(by left)) as Hb.
  assert (foldr (fun n acc => len (contents (segmentName base n) fs) + acc) 0 (listSegments base fs)
    <= Z.of_nat (length (listSegments base fs)) * (rotateBytes + max_line strs)) as Hs.
  { induction Hr as [|n ns Hn Hns IH]; [done|]. cbn [foldr length] in *.
    pose proof (Hsm (segmentName base n) ltac:(right; rewrite seg_number_name by done; by eexists)).
    specialize (IH ltac:(lia)). lia. }
  unfold max_line in *. nia.
Qed.
End bounds.

(** C31: The footprint of a chain is bounded. Whatever sequence of boots, appends with failing
    writes and syncs, and losses of power in the middle of a record, as long as rotations
    succeed there are never more than [segKeep] sealed segments, and the chain occupies at
    most [segKeep + 1] times the threshold plus one record. *)
Theorem footprint_bounded Unmarshal (HJ : JsonReader Unmarshal) base domain rotateBytes segKeep sign strs evs :
  (1 <= segKeep)%nat -> (forall m, len (sign m) = 64) -> 0 < rotateBytes -> 0 <= strs ->
  Forall (quiet strs) evs -> Z.of_nat (length evs) + 3 < 2 ^ 64 ->
  let fs := (run Unmarshal base domain rotateBytes segKeep sign (None, ∅) evs).2 in
  (length (listSegments base fs) <= segKeep)%nat
  /\ footprint base fs <= (Z.of_nat segKeep + 1) * (rotateBytes + max_line strs).
Proof.
  intros Hk Hsl Hr Hs Hq Hb. assert (fresh base ∅) as Hf by (split; reflexivity). cbv zeta.
  pose proof (run_small Unmarshal base domain rotateBytes segKeep sign strs Hk Hsl Hr Hs 0 [] (None, ∅) evs
    Hq (fresh_inv base domain sign anything ∅ Hf) ltac:(lia) ltac:(lia)) as Hsm.
  specialize (Hsm ltac:(cbn [snd]; split; [rewrite (proj2 Hf); cbn [length]; lia|intros name _; unfold contents; rewrite lookup_empty; unfold len, max_line; cbn [length]; lia])).
  split; [by destruct Hsm|]. apply small_footprint; try done.
  destruct (run_from_fresh Unmarshal base domain rotateBytes segKeep sign Hk Hsl anything ∅ evs Hf) as (k & h & Hinv & _);
    [by eapply Forall_impl; [exact Hq|apply quiet_tame]|done|done|].
  destruct (run _ _ _ _ _ _ _ _) as [[a|] fs]; cbn [log_inv snd] in *.
  - destruct Hinv as ((gone & segs & live & Hv & _) & _). rewrite (view_lists _ _ _ _ _ Hv).
    eapply Forall_impl; [exact (vw_range _ _ _ _ _ Hv)|]. intros n Hn. cbn in Hn. lia.
  - destruct Hinv as (frag & (gone & segs & live & Hv & _) & _). rewrite (view_lists _ _ _ _ _ Hv).
    eapply Forall_impl; [exact (vw_range _ _ _ _ _ Hv)|]. intros n Hn. cbn in Hn. lia.
Qed.

Lemma footprint_bounded_witness :
  (length (listSegments a_log (run UnmarshalStrict a_log (B "collector") 300 1 toy_sign (None, ∅) later).2) <= 1)%nat.
Proof.
  refine (proj1 (footprint_bounded UnmarshalStrict strict_reader a_log (B "collector") 300 1 toy_sign 100 later
    ltac:(lia) toy_length ltac:(lia) ltac:(lia) _ ltac:(vm_compute; reflexivity))).
  unfold later, early. repeat constructor;
    try (apply good_io_tame || apply torn_io_tame); try (apply an_event_ok; cbn; lia); try reflexivity; vm_compute; discriminate.
Defined.
