(* ===== verification/Attest.v ===== *)
(** * Attestation: [attest.go]

    The measured digest, the posture gate, the extension of the boot PCR, the quote with the
    heads of the audit chains and the checks of a verifier. The TPM is a record of
    operations with the laws the code relies on; the parser of TPMS_ATTEST, the parser of
    keys and ECDSA are parameters. The map of claims an envelope also carries is shipped for
    operators and read by nobody; it is left out. *)
From Stdlib Require Import ZArith Lia Ascii String.
From stdpp Require Import base tactics numbers option strings list gmap sorting.
From S2P Require Import Prelude Maps Kernel Classes Control Broker Bytes Sha256 Json Verify AuditLog.
#[local] Open Scope string_scope.
#[local] Open Scope list_scope.
#[local] Open Scope Z_scope.
#[local] Opaque Sum256.

(** ** The measured digest *)
Definition sortedHookIDs : list Z := merge_sort Z.le hookNames.*1.

Definition expectedTCBCount : Z := 3.

Definition digest_input (exeHashHex : bytes) (flagVals : Z -> Z) (tcbCount : Z) (tcbClean : bool) : bytes :=
  putStr (B "bulkhead-attest-v1") ++ putStr exeHashHex ++ put (Z.of_nat (length sortedHookIDs))
  ++ (sortedHookIDs ≫= fun id => put id ++ put (flagVals id))
  ++ put tcbCount ++ put (if tcbClean then 1 else 0).

Definition composeDigest (exeHashHex : bytes) (flagVals : Z -> Z) (tcbCount : Z) (tcbClean : bool) : bytes :=
  Sum256 (digest_input exeHashHex flagVals tcbCount tcbClean).

Definition expectedDefaultArmedD (exeHashHex : bytes) : bytes :=
  composeDigest exeHashHex (fun id => if (id =? hookBPF) || (id =? hookConnect) then 1 else 0) expectedTCBCount true.

(** ** The box: files, maps, cgroups *)
Record box := Box {
  selfExe : option bytes;        (** /proc/self/exe *)
  files : uenv;                  (** which pinned maps open, the cgroup at a path *)
  selfCgroupPath : string;       (** empty when it cannot be read *)
  maps : kstate }.

Definition tcbCgroupIDs (b : box) : list Z :=
  option_list (stat (files b) "/sys/fs/cgroup")
  ++ (if (selfCgroupPath b =? "")%string then []
      else option_list (stat (files b) (Clean ("/sys/fs/cgroup/" ++ selfCgroupPath b)%string))).

(** The root, the collector and the broker, as far as they resolve. *)
Definition expected_tcb (b : box) : gset Z :=
  list_to_set (tcbCgroupIDs b) ∪ list_to_set (option_list (stat (files b) brokerCgroupPath)).

Inductive attest_error :=
| NoExe | NoFlagsMap | NoTcbMap | NoTpm | PcrReadFailed | PcrExtendFailed | QuoteFailed | NoAk | BadNonce.

Definition tcbMembershipState (b : box) : result attest_error (Z * bool) :=
  if negb (pinned (files b) "tcb_cgroups") then Err NoTcbMap
  else
    let live : gset Z := dom (tcb_cgroups (maps b)) in
    let expected := expected_tcb b in
    Ok (Z.of_nat (size live),
        (size live =? size expected)%nat && bool_decide (live ⊆ expected) && bool_decide (expected ⊆ live)).

Definition flag_of (b : box) (id : Z) : Z := default 0 (m_lookup flags_ops (enforce_flags (maps b)) id).

Definition attestDigest (b : box) : result attest_error bytes :=
  match selfExe b with
  | None => Err NoExe
  | Some exe =>
      if negb (pinned (files b) "enforce_flags") then Err NoFlagsMap
      else
        match tcbMembershipState b with
        | Err x => Err x
        | Ok (count, clean) => Ok (composeDigest (EncodeToString (Sum256 exe)) (flag_of b) count clean)
        end
  end.

(** *** The posture gate *)
Definition posturePass (e0 e2 clean : bool) (count : Z) : bool := e0 && e2 && clean && (count =? expectedTCBCount).

Definition b2i (b : bool) : Z := if b then 1 else 0.

Definition gate_detail (e0 e2 clean : bool) (count : Z) : string :=
  ("e0=" ++ Itoa (b2i e0) ++ " e2=" ++ Itoa (b2i e2) ++ " tcb_clean=" ++ (if clean then "true" else "false")
   ++ " count=" ++ Itoa count)%string.

Definition gatePosture (b : box) : result attest_error (bool * string) :=
  if negb (pinned (files b) "enforce_flags") then Err NoFlagsMap
  else
    let e0 := flag_of b hookBPF =? 1 in
    let e2 := flag_of b hookConnect =? 1 in
    match tcbMembershipState b with
    | Err x => Err x
    | Ok (count, clean) => Ok (posturePass e0 e2 clean count, gate_detail e0 e2 clean count)
    end.

(** ** The TPM *)
Definition attestPCR : Z := 14.

Definition pcrSelectBitmap (pcr : Z) : bytes :=
  byte_of <$> <[Z.to_nat (pcr / 8) := Z.shiftl 1 (pcr mod 8)]> [0; 0; 0].

Definition pcrExtendFromZero (d : bytes) : bytes := Sum256 (zeroHash ++ d).

Inductive rc := RcOk | RcRetry | RcError.

(** [tpmRetry]: at most eight calls, again only on TPM_RC_RETRY. *)
Fixpoint retry {S} (n : nat) (fn : S -> rc * S) (err : rc) (s : S) : rc * S :=
  match n with
  | O => (err, s)
  | S n =>
      match fn s with
      | (RcRetry, s) => retry n fn RcRetry s
      | (e, s) => (e, s)
      end
  end.
Definition tpmRetry {S} (fn : S -> rc * S) (s : S) : rc * S := retry 8 fn RcOk s.

(** A signed quote: the attested bytes and the two halves of the signature. *)
Record quote_rsp := QuoteRsp { q_quoted : bytes; q_r : bytes; q_s : bytes }.

(** The commands the collector uses; the AK has a fixed template, its public key is a
    function of the TPM. *)
Record tpm_ops (T : Type) := TpmOps {
  tpm_open : T -> bool;
  tpm_read : T -> option bytes;                                     (** PCR_Read of attestPCR *)
  tpm_extend : bytes -> T -> rc * T;                                (** PCR_Extend of attestPCR *)
  tpm_ak : T -> option bytes;                                       (** CreatePrimary, PKIX DER *)
  tpm_quote : bytes -> list (Z * bytes) -> T -> (rc * option quote_rsp) * T }.
Arguments TpmOps {T}. Arguments tpm_open {T}. Arguments tpm_read {T}. Arguments tpm_extend {T}.
Arguments tpm_ak {T}. Arguments tpm_quote {T}.

Definition doAttestExtend {T} (ops : tpm_ops T) (b : box) (t : T) : result attest_error bytes * T :=
  match attestDigest b with
  | Err x => (Err x, t)
  | Ok d =>
      if negb (tpm_open ops t) then (Err NoTpm, t)
      else
        match tpm_read ops t with
        | None => (Err PcrReadFailed, t)
        | Some cur =>
            if negb (bool_decide (cur = zeroHash)) then (Ok d, t)
            else
              match tpmRetry (tpm_extend ops d) t with
              | (RcOk, t) => (Ok d, t)
              | (_, t) => (Err PcrExtendFailed, t)
              end
        end
  end.

(** ** The quote *)
Record attestEnvelope := Envelope {
  AKPubDER : bytes; Quoted : bytes; SigR : bytes; SigS : bytes; Nonce : bytes; PCR : Z;
  HeadCollector : bytes; HeadControl : bytes; HeadBroker : bytes }.

Definition extra_input (nonce hColl hCtrl hBroker : bytes) : bytes :=
  putStr (B "bulkhead-attest-qd-v1") ++ putStr nonce ++ putStr hColl ++ putStr hCtrl ++ putStr hBroker.

Definition quoteExtraData (nonce : bytes) (hColl hCtrl hBroker : option bytes) : bytes :=
  Sum256 (extra_input nonce (headOrZero hColl) (headOrZero hCtrl) (headOrZero hBroker)).

(** What [hex.DecodeString] returns beside its error: the bytes decoded before it. *)
Fixpoint DecodePrefix (h : bytes) : bytes :=
  match h with
  | a :: b :: h =>
      match unhex a, unhex b with
      | Some x, Some y => byte_of (16 * x + y) :: DecodePrefix h
      | _, _ => []
      end
  | _ => []
  end.

Definition envHeads (env : attestEnvelope) : option bytes * option bytes * option bytes :=
  (Some (DecodePrefix (HeadCollector env)), Some (DecodePrefix (HeadControl env)), Some (DecodePrefix (HeadBroker env))).

(** The heads on disk: the collector's two chains in one directory, the broker's in its own. *)
Definition attestChainHeads (Unmarshal : bytes -> option auditRecord) (base broker : dir)
    : option bytes * option bytes * option bytes :=
  (lastChainTip Unmarshal "provenance.jsonl" base, lastChainTip Unmarshal "control.jsonl" base,
   lastChainTip Unmarshal "provenance.jsonl" broker).

Definition TPMAlgSHA256 : Z := 11.
Definition selection : list (Z * bytes) := [(TPMAlgSHA256, pcrSelectBitmap attestPCR)].

Definition doAttestQuote {T} (ops : tpm_ops T) (b : box) (heads : option bytes * option bytes * option bytes)
    (nonceHex : bytes) (t : T) : result attest_error attestEnvelope * T :=
  match DecodeString nonceHex with
  | None => (Err BadNonce, t)
  | Some nonce =>
      if len nonce <? 16 then (Err BadNonce, t)
      else
        match attestDigest b with
        | Err x => (Err x, t)
        | Ok _ =>
            let '(hColl, hCtrl, hBroker) := heads in
            let extra := quoteExtraData nonce hColl hCtrl hBroker in
            if negb (tpm_open ops t) then (Err NoTpm, t)
            else
              match tpm_ak ops t with
              | None => (Err NoAk, t)
              | Some ak =>
                  let quote '(_, t) := let '((e, r), t) := tpm_quote ops extra selection t in (e, (r, t)) in
                  match tpmRetry quote (None, t) with
                  | (RcOk, (Some q, t)) =>
                      (Ok (Envelope (EncodeToString ak) (EncodeToString (q_quoted q)) (EncodeToString (q_r q))
                             (EncodeToString (q_s q)) nonceHex attestPCR
                             (EncodeToString (headOrZero hColl)) (EncodeToString (headOrZero hCtrl))
                             (EncodeToString (headOrZero hBroker))), t)
                  | (_, (_, t)) => (Err QuoteFailed, t)
                  end
              end
        end
  end.

(** ** The verifier *)
Definition TPMGeneratedValue : Z := 0xff544347.

Record quote_info := QuoteInfo { PCRSelect : list (Z * bytes); PCRDigest : bytes }.
Record tpms_attest := Attested { Magic : Z; ExtraData : bytes; quote_of : option quote_info }.

Inductive envelope_error :=
| NotAttest | NotGenerated | WrongExtra | BadAk | BadSigPart | SignatureInvalid | NotQuote | WrongSelection
| WrongPcr | WrongDigest.

(** [big.Int.SetBytes]. *)
Definition SetBytes (b : bytes) : Z := foldl (fun acc c => 256 * acc + val c) 0 b.

Section verifier.
  Context (UnmarshalAttest : bytes -> option tpms_attest).
  Context (PubKey : Type) (ecdsaPubFromDER : bytes -> option PubKey) (EcdsaVerify : PubKey -> bytes -> Z -> Z -> bool).

Definition decodeECDSASig (rHex sHex : bytes) : option (Z * Z) :=
  match DecodeString rHex, DecodeString sHex with
  | Some rb, Some sb => Some (SetBytes rb, SetBytes sb)
  | _, _ => None
  end.

Definition verifyEnvelopeChecks (env : attestEnvelope) (expectedD nonce akDER : bytes) : result envelope_error unit :=
  let quoted := DecodePrefix (Quoted env) in
  match UnmarshalAttest quoted with
  | None => Err NotAttest
  | Some att =>
      if negb (Magic att =? TPMGeneratedValue) then Err NotGenerated
      else
        let '(hColl, hCtrl, hBroker) := envHeads env in
        if negb (bool_decide (ExtraData att = quoteExtraData nonce hColl hCtrl hBroker)) then Err WrongExtra
        else match ecdsaPubFromDER akDER with
        | None => Err BadAk
        | Some pub =>
            match decodeECDSASig (SigR env) (SigS env) with
            | None => Err BadSigPart
            | Some (r, s) =>
                if negb (EcdsaVerify pub (Sum256 quoted) r s) then Err SignatureInvalid
                else match quote_of att with
                | None => Err NotQuote
                | Some qi =>
                    if negb (bool_decide (PCRSelect qi = selection)) then Err WrongSelection
                    else if negb (PCR env =? attestPCR) then Err WrongPcr
                    else if negb (bool_decide (PCRDigest qi = Sum256 (pcrExtendFromZero expectedD))) then Err WrongDigest
                    else Ok tt
                end
            end
        end
  end.

(** The pinned key: hexadecimal or a file with it, and it must be a key. *)
Definition resolveAKPin (ReadFile : bytes -> option bytes) (arg : bytes) : option bytes :=
  let s := TrimSpaceB arg in
  match s with
  | [] => None
  | c :: name =>
      match (if Ascii.eqb c (byte_of 64) then TrimSpaceB <$> ReadFile name else Some s) with
      | None => None
      | Some s => match DecodeString s with
                  | Some der => match ecdsaPubFromDER der with Some _ => Some der | None => None end
                  | None => None
                  end
      end
  end.

Inductive verify_outcome := UnusableD | UnusableNonce | UnusablePin | OtherBox | Refused (x : envelope_error) | Accepted.

(** [cmdAttestVerify] on a parsed envelope. *)
Definition cmdAttestVerify (ReadFile : bytes -> option bytes) (env : attestEnvelope) (expectedDHex nonceHex pinnedAK : bytes)
    : verify_outcome :=
  match DecodeString expectedDHex with
  | None => UnusableD
  | Some expectedD =>
      if negb (len expectedD =? 32) then UnusableD
      else match DecodeString nonceHex with
      | None => UnusableNonce
      | Some nonce =>
          if len nonce <? 16 then UnusableNonce
          else match resolveAKPin ReadFile pinnedAK with
          | None => UnusablePin
          | Some pinDER =>
              let akDER := DecodePrefix (AKPubDER env) in
              if negb (bool_decide (akDER = pinDER)) then OtherBox
              else match verifyEnvelopeChecks env expectedD nonce akDER with
                   | Err x => Refused x
                   | Ok _ => Accepted
                   end
          end
      end
  end.

(** *** The self-check of the box *)
Inductive pin_file := PinAbsent | PinUnreadable | PinFile (data : bytes).
Inductive selfcheck_error :=
| CheckQuote (x : attest_error) | CheckNoAk | CheckNoExe | CheckBadPin | CheckOtherTpm | CheckPinUnreadable
| CheckEnvelope (x : envelope_error).
Inductive identity := StructuralFallback | EkRootedPin.

(** [doAttestSelfCheck] with a fresh nonce. The envelope it verifies is the one
    [doAttestQuote] wrote. *)
Definition doAttestSelfCheck {T} (ops : tpm_ops T) (b : box) (heads : option bytes * option bytes * option bytes)
    (ReadFile : bytes -> option bytes) (pin : pin_file) (nonce : bytes) (t : T) : result selfcheck_error identity * T :=
  match doAttestQuote ops b heads (EncodeToString nonce) t with
  | (Err x, t) => (Err (CheckQuote x), t)
  | (Ok env, t) =>
      match DecodeString (AKPubDER env) with
      | None | Some [] => (Err CheckNoAk, t)
      | Some akDER =>
          match selfExe b with
          | None => (Err CheckNoExe, t)
          | Some exe =>
              let expD := expectedDefaultArmedD (EncodeToString (Sum256 exe)) in
              let check id :=
                match verifyEnvelopeChecks env expD nonce akDER with
                | Err x => Err (CheckEnvelope x)
                | Ok _ => Ok id
                end in
              (match pin with
               | PinUnreadable => Err CheckPinUnreadable
               | PinAbsent => check StructuralFallback
               | PinFile data =>
                   match resolveAKPin ReadFile (TrimSpaceB data) with
                   | None => Err CheckBadPin
                   | Some pinDER => if negb (bool_decide (akDER = pinDER)) then Err CheckOtherTpm else check EkRootedPin
                   end
               end, t)
          end
      end
  end.
End verifier.

(** ** The verbs of the control socket *)
Inductive ctl_attest_error (E : Type) := NotOperator | Protocol | NotArmed (detail : string) | Failed (x : E).
Arguments NotOperator {E}. Arguments Protocol {E}. Arguments NotArmed {E}. Arguments Failed {E}.

Definition ctl_result {E A} (r : result E A) : result (ctl_attest_error E) A :=
  match r with Ok x => Ok x | Err x => Err (Failed x) end.

Definition ctlAttestExtend {T} (ops : tpm_ops T) (b : box) (cgPath : string) (t : T)
    : result (ctl_attest_error attest_error) bytes * T :=
  if isAgentCgroup cgPath then (Err NotOperator, t)
  else let '(r, t) := doAttestExtend ops b t in (ctl_result r, t).

Definition ctlAttestGate (b : box) (cgPath : string) : result (ctl_attest_error attest_error) string :=
  if isAgentCgroup cgPath then Err NotOperator
  else match gatePosture b with
       | Err x => Err (Failed x)
       | Ok (armed, detail) => if negb armed then Err (NotArmed detail) else Ok detail
       end.

Definition ctlAttestQuote {T} (ops : tpm_ops T) (b : box) (heads : option bytes * option bytes * option bytes)
    (cgPath : string) (f : list bytes) (t : T) : result (ctl_attest_error attest_error) attestEnvelope * T :=
  if isAgentCgroup cgPath then (Err NotOperator, t)
  else match f with
       | [_; nonceHex] => let '(r, t) := doAttestQuote ops b heads nonceHex t in (ctl_result r, t)
       | _ => (Err Protocol, t)
       end.
