(* ===== verification/AttestProps.v ===== *)
(** * What attestation proves

    The digest and the binding of the quote are injective up to a collision of SHA-256; a
    posture that passes the gate, or that a verifier accepts, is one in which the programs
    in the kernel deny; the boot PCR is extended once; an honest box verifies. *)
From Stdlib Require Import ZArith Lia Ascii String.
From stdpp Require Import base tactics numbers option strings list gmap sorting.
From S2P Require Import Prelude Objects Maps Kernel Hooks Fixtures HookProps Classes Control Broker Bytes Sha256 Json Verify AuditLog AuditFiles Attest.
#[local] Open Scope string_scope.
#[local] Open Scope list_scope.
#[local] Open Scope Z_scope.
#[local] Opaque Sum256.

(** ** The byte formats, against the test vectors of the repository *)
Example composeDigest_golden :
  EncodeToString (expectedDefaultArmedD (EncodeToString (Sum256 [])))
  = B "4d79e5d7d2ef3d6b9b9c0df88130cdff3fe2d3767b5e92c56900807c92dcc856".
Proof. vm_compute. reflexivity. Qed.

Example quoteExtraData_golden :
  EncodeToString (quoteExtraData (byte_of ∘ Z.of_nat <$> seq 0 32) (Some (Sum256 (B "collector")))
    (Some (Sum256 (B "control"))) (Some (Sum256 (B "broker"))))
  = B "61ea1963aa1a5225706038d86d8f426637ef87ca1310898b4b56773314076411".
Proof. vm_compute. reflexivity. Qed.

(** ** Injectivity *)
Lemma put_list_inj f f' ids x y :
  (forall id, in_width 64 (f id)) -> (forall id, in_width 64 (f' id)) ->
  (ids ≫= fun id => put id ++ put (f id)) ++ x = (ids ≫= fun id => put id ++ put (f' id)) ++ y ->
  (forall id, id ∈ ids -> f id = f' id) /\ x = y.
Proof.
  intros Hf Hf'. induction ids as [|id ids IH]; [intros E; split; [intros ? []%elem_of_nil|exact E]|].
  rewrite !bind_cons, <- !app_assoc. intros [_ [E1 E]%put_app_inj]%put_app_inj.
  apply IH in E as [Hids ->]. apply u64_in_inj in E1; [|done..]. split; [|done].
  intros i [->|Hi]%elem_of_cons; [done|by apply Hids].
Qed.

Lemma digest_input_inj e f c cl e' f' c' cl' :
  len e < 2 ^ 64 -> len e' < 2 ^ 64 -> (forall id, in_width 64 (f id)) -> (forall id, in_width 64 (f' id)) ->
  in_width 64 c -> in_width 64 c' ->
  digest_input e f c cl = digest_input e' f' c' cl' ->
  e = e' /\ (forall id, id ∈ sortedHookIDs -> f id = f' id) /\ c = c' /\ cl = cl'.
Proof.
  intros He He' Hf Hf' Hc Hc'. unfold digest_input. intros [_ E]%putStr_app_inj; [|done..].
  apply putStr_app_inj in E as [-> E]; [|done..]. apply put_app_inj in E as [_ E].
  apply put_list_inj in E as [Hids E]; [|done..]. apply put_app_inj in E as [Ec E].
  apply u64_in_inj in Ec; [|done..]. apply put_inj in E. split_and!; [done..|]. by destruct cl, cl'.
Qed.

(** The nonce and the heads of a quote. *)
Lemma headOrZero_len h : len (headOrZero h) = Size.
Proof. destruct h as [h|]; cbn; [destruct (Z.eqb_spec (len h) Size)|]; done. Qed.

Lemma extra_input_inj n a b c n' a' b' c' :
  len n < 2 ^ 64 -> len n' < 2 ^ 64 -> Forall (fun h => len h = Size) [a; b; c; a'; b'; c'] ->
  extra_input n a b c = extra_input n' a' b' c' -> n = n' /\ a = a' /\ b = b' /\ c = c'.
Proof.
  intros Hn Hn' Hl. repeat match goal with H : Forall _ (_ :: _) |- _ => apply Forall_cons in H as [? H] end.
  unfold Size in *. unfold extra_input. intros [_ E]%putStr_app_inj; [|done..].
  do 3 (apply putStr_app_inj in E as [-> E]; [|lia..]). rewrite <- (app_nil_r (putStr c)), <- (app_nil_r (putStr c')) in E.
  apply putStr_app_inj in E as [-> _]; [|lia..]. done.
Qed.

Lemma collision_single x y : x <> y -> Sum256 x = Sum256 y -> collision [x] [y].
Proof. intros Hne E. exists x, y. split_and!; [by left|by left|exact Hne|exact E]. Qed.

(** The digest binds the posture. Two digests are equal only if they were composed from
    the same binary hash, the same value of every hook's flag, the same number of TCB
    members and the same cleanliness, or their encodings collide under SHA-256. *)
Theorem digest_binds_posture e f c cl e' f' c' cl' :
  len e < 2 ^ 64 -> len e' < 2 ^ 64 -> (forall id, in_width 64 (f id)) -> (forall id, in_width 64 (f' id)) ->
  in_width 64 c -> in_width 64 c' ->
  composeDigest e f c cl = composeDigest e' f' c' cl' ->
  (e = e' /\ (forall id, id ∈ sortedHookIDs -> f id = f' id) /\ c = c' /\ cl = cl')
  \/ collision [digest_input e f c cl] [digest_input e' f' c' cl'].
Proof.
  intros He He' Hf Hf' Hc Hc' E. unfold composeDigest in E.
  destruct (decide (digest_input e f c cl = digest_input e' f' c' cl')) as [Ei|Hne].
  - left. by apply digest_input_inj in Ei.
  - right. by apply collision_single.
Qed.

Lemma digest_binds_posture_witness :
  (forall id, id ∈ sortedHookIDs -> (fun _ : Z => 1) id = 1) \/ collision [digest_input [] (fun _ => 1) 3 true] [digest_input [] (fun _ => 1) 3 true].
Proof.
  destruct (digest_binds_posture [] (fun _ => 1) 3 true [] (fun _ => 1) 3 true) as [(_ & H & _)|H];
    [done|done|done|done|done|done|reflexivity|left; exact H|right; exact H].
Defined.

(** ** The posture in the kernel *)
Lemma flag_armed b h : flag_of b h = 1 -> armed (maps b) h = true.
Proof.
  unfold flag_of, armed, is_one. cbn [flags_ops m_lookup array_ops]. destruct (array_lookup _ _); cbn; [|done].
  intros ->. done.
Qed.

Lemma clean_tcb b count :
  tcbMembershipState b = Ok (count, true) -> forall cg, cg ∉ expected_tcb b -> is_tcb (maps b) cg = false.
Proof.
  unfold tcbMembershipState. destruct (negb _); [done|]. intros [= _ [[_ H%bool_decide_eq_true]%andb_prop _]%andb_prop] cg Hcg.
  unfold is_tcb. destruct (tcb_cgroups (maps b) !! cg) as [v|] eqn:E; [|done]. exfalso. apply Hcg, H.
  apply elem_of_dom. by eexists.
Qed.

(** What an enforcing posture means in the kernel: a guarded operation of the bpf and connect
    hooks is denied outside the TCB. *)
Definition enforcing (b : box) : Prop :=
  forall i, i_prog i = PBpf \/ i_prog i = PConnect -> i_ret i = 0 -> guarded i (maps b) = true ->
    i_cg i ∉ expected_tcb b -> (invoke i (maps b)).1 = - EPERM.

Lemma posture_enforces b count :
  flag_of b hookBPF = 1 -> flag_of b hookConnect = 1 -> tcbMembershipState b = Ok (count, true) -> enforcing b.
Proof.
  intros H0 H2 Ht i Hi Hr Hg Hcg. rewrite invoke_eq, Hr, Hg. cbn [Z.eqb negb fst]. rewrite verdict_eperm, outcome_denied.
  rewrite (clean_tcb b count Ht) by done. apply flag_armed in H0, H2.
  destruct i as [p ctx e]; cbn [i_prog] in *. destruct Hi as [-> | ->]; cbn [prog_hook grantable andb]; auto.
Qed.

(** The posture gate is sound. When it passes, the kernel denies every bpf() call and
    every connect outside its manifest, of every cgroup other than root, collector and
    broker, and exactly three members are registered. *)
Theorem gate_pass_enforces b detail :
  gatePosture b = Ok (true, detail) ->
  enforcing b /\ Z.of_nat (base.size (dom (tcb_cgroups (maps b)) : gset Z)) = expectedTCBCount.
Proof.
  unfold gatePosture. destruct (negb _); [done|]. destruct (tcbMembershipState b) as [[count clean]|] eqn:Et; [|done].
  intros [= Hp _]. unfold posturePass in Hp. apply andb_prop in Hp as [Hp Hc%Z.eqb_eq].
  apply andb_prop in Hp as [Hp ->]. apply andb_prop in Hp as [H0%Z.eqb_eq H2%Z.eqb_eq].
  split; [by eapply posture_enforces|]. revert Et. unfold tcbMembershipState. destruct (negb _); [done|]. intros [= <- _]. done.
Qed.

(** ** The boot PCR *)

(** What the code relies on of the TPM: a read returns the value of the PCR, a successful
    extend hashes into it, nothing else changes it. *)
Record tpm_laws {T} (ops : tpm_ops T) (bank : T -> bytes) : Prop := {
  law_read : forall t v, tpm_read ops t = Some v -> v = bank t;
  law_extend : forall d t t', tpm_extend ops d t = (RcOk, t') -> bank t' = Sum256 (bank t ++ d);
  law_failed : forall d t e t', tpm_extend ops d t = (e, t') -> e <> RcOk -> bank t' = bank t;
  law_quote : forall extra sel t r t', tpm_quote ops extra sel t = (r, t') -> bank t' = bank t }.

(** [tpmRetry] ends. Whatever the TPM answers, it is asked at most eight times; it is
    asked again only after TPM_RC_RETRY, and the last answer is the result. *)
Theorem tpmRetry_bounded {S} (fn : S -> rc * S) (s : S) :
  exists k, (1 <= k <= 8)%nat
    /\ tpmRetry fn s = fn (Nat.iter (k - 1) (fun s => (fn s).2) s)
    /\ (forall j, (j < k - 1)%nat -> (fn (Nat.iter j (fun s => (fn s).2) s)).1 = RcRetry)
    /\ ((tpmRetry fn s).1 = RcRetry -> k = 8%nat).
Proof.
  unfold tpmRetry. assert (forall n err s, (1 <= n)%nat -> exists k, (1 <= k <= n)%nat
    /\ retry n fn err s = fn (Nat.iter (k - 1) (fun s => (fn s).2) s)
    /\ (forall j, (j < k - 1)%nat -> (fn (Nat.iter j (fun s => (fn s).2) s)).1 = RcRetry)
    /\ ((retry n fn err s).1 = RcRetry -> k = n)) as H; [|by apply (H 8%nat); lia].
  clear s. induction n as [|n IH]; intros err s Hn; [lia|]. cbn [retry].
  destruct (fn s) as [e s'] eqn:E.
  assert (e <> RcRetry \/ e = RcRetry) as [He| ->] by (destruct e; auto).
  - exists 1%nat. split; [lia|]. cbn [Nat.sub Nat.iter nat_rect]. rewrite E.
    destruct e; [|done|]; (split; [done|split; [intros j Hj; lia|done]]).
  - destruct n as [|n]; [exists 1%nat; cbn; rewrite E; split; [lia|]; split; [done|]; split; [intros j Hj; lia|done]|].
    destruct (IH RcRetry s' ltac:(lia)) as (k & Hk & Hr & Hj & Hl).
    assert (forall m, Nat.iter (Datatypes.S m) (fun s => (fn s).2) s = Nat.iter m (fun s => (fn s).2) s') as Hit.
    { intros m. rewrite Nat.iter_succ_r, E. done. }
    exists (Datatypes.S k). split; [lia|]. replace (Datatypes.S k - 1)%nat with (Datatypes.S (k - 1)) by lia. rewrite Hit, Hr.
    split; [done|]. split; [|intros H; rewrite <- Hr in H; by rewrite (Hl H)].
    intros [|j] Hlt; [cbn; by rewrite E|]. rewrite Hit. apply Hj. lia.
Qed.

Lemma extend_retry {T} (ops : tpm_ops T) bank d t e t' :
  tpm_laws ops bank -> tpmRetry (tpm_extend ops d) t = (e, t') ->
  (e = RcOk /\ bank t' = Sum256 (bank t ++ d)) \/ (e <> RcOk /\ bank t' = bank t).
Proof.
  intros L. unfold tpmRetry. assert (forall n err, err <> RcOk \/ (0 < n)%nat -> forall t, retry n (tpm_extend ops d) err t = (e, t') ->
    (e = RcOk /\ bank t' = Sum256 (bank t ++ d)) \/ (e <> RcOk /\ bank t' = bank t)) as H; [|by apply H; right; lia].
  clear t. induction n as [|n IH]; intros err Hn t; cbn [retry].
  { intros [= <- <-]. right. destruct Hn; [done|lia]. }
  destruct (tpm_extend ops d t) as [[] t1] eqn:E.
  - intros [= <- <-]. left. split; [done|]. by eapply law_extend.
  - intros H. apply IH in H; [|by left]. by rewrite (law_failed _ _ L d t RcRetry t1) in H.
  - intros [= <- <-]. right. split; [done|]. by eapply law_failed.
Qed.

Lemma extend_once {T} (ops : tpm_ops T) bank b t r t' :
  tpm_laws ops bank -> doAttestExtend ops b t = (r, t') ->
  bank t' = bank t \/ (bank t = zeroHash /\ exists d, attestDigest b = Ok d /\ bank t' = pcrExtendFromZero d).
Proof.
  intros L. unfold doAttestExtend. destruct (attestDigest b) as [d|] eqn:Ed; [|intros [= _ <-]; by left].
  destruct (negb _); [intros [= _ <-]; by left|]. destruct (tpm_read ops t) as [cur|] eqn:Er; [|intros [= _ <-]; by left].
  destruct (bool_decide (cur = zeroHash)) eqn:Ez; cbn [negb]; [|intros [= _ <-]; by left].
  apply bool_decide_eq_true in Ez. apply (law_read _ _ L) in Er.
  destruct (tpmRetry _ t) as [e t1] eqn:Et. apply (extend_retry _ bank) in Et as [[-> Hb]|[He Hb]]; [| |done].
  - intros [= _ <-]. right. split; [congruence|]. exists d. split; [done|]. rewrite Hb. unfold pcrExtendFromZero. by rewrite <- Er, Ez.
  - intros E. left. destruct e; [done|..]; injection E as _ <-; done.
Qed.

(** The collector's calls over the life of a boot, each at the state the box is then in. *)
Fixpoint extends {T} (ops : tpm_ops T) (bs : list box) (t : T) : T :=
  match bs with [] => t | b :: bs => extends ops bs (doAttestExtend ops b t).2 end.

(** The boot PCR is measured once. From a zero bank, however often the collector is
    restarted and asked to extend, whichever commands fail, the PCR is still zero or holds
    exactly one extension, the digest of the box at one of these moments; and once it is not
    zero no later call changes it. *)
Theorem boot_pcr_extended_once {T} (ops : tpm_ops T) bank bs t :
  tpm_laws ops bank -> bank t = zeroHash ->
  (bank (extends ops bs t) = zeroHash
   \/ exists b d, b ∈ bs /\ attestDigest b = Ok d /\ bank (extends ops bs t) = pcrExtendFromZero d)
  /\ forall bs', bank (extends ops bs t) <> zeroHash -> bank (extends ops bs' (extends ops bs t)) = bank (extends ops bs t).
Proof.
  intros L Hz.
  assert (forall bs t, bank t <> zeroHash -> bank (extends ops bs t) = bank t) as Hstay.
  { clear -L. induction bs as [|b bs IH]; intros t Ht; [done|]. cbn [extends].
    destruct (doAttestExtend ops b t) as [r t1] eqn:E. cbn [snd]. apply (extend_once _ bank) in E as [E|[E _]]; [|done|done].
    rewrite IH by congruence. done. }
  split; [|by intros bs'; apply Hstay]. revert t Hz. induction bs as [|b bs IH]; intros t Hz; [by left|]. cbn [extends].
  destruct (doAttestExtend ops b t) as [r t1] eqn:E. cbn [snd].
  destruct (decide (bank t1 = zeroHash)) as [Hz1|Hnz].
  - destruct (IH t1 Hz1) as [?|(b' & d & Hb & ? & ?)]; [by left|right]. exists b', d. split; [by right|done].
  - right. rewrite Hstay by done. apply (extend_once _ bank) in E as [E|(_ & d & Hd & E)]; [congruence| |done].
    exists b, d. split; [by left|done].
Qed.

(** ** The verifier *)
Section verifier.
  Context (UnmarshalAttest : bytes -> option tpms_attest).
  Context (PubKey : Type) (ecdsaPubFromDER : bytes -> option PubKey) (EcdsaVerify : PubKey -> bytes -> Z -> Z -> bool).
  Abbreviation verifyEnvelopeChecks := (verifyEnvelopeChecks UnmarshalAttest PubKey ecdsaPubFromDER EcdsaVerify).

(** What the checks establish about an envelope. *)
Record checked (env : attestEnvelope) (expectedD nonce akDER : bytes) (att : tpms_attest) (qi : quote_info) : Prop := {
  ck_parsed : UnmarshalAttest (DecodePrefix (Quoted env)) = Some att;
  ck_magic : Magic att = TPMGeneratedValue;
  ck_extra : ExtraData att = quoteExtraData nonce (Some (DecodePrefix (HeadCollector env)))
               (Some (DecodePrefix (HeadControl env))) (Some (DecodePrefix (HeadBroker env)));
  ck_signed : exists pub r s, ecdsaPubFromDER akDER = Some pub /\ decodeECDSASig (SigR env) (SigS env) = Some (r, s)
               /\ EcdsaVerify pub (Sum256 (DecodePrefix (Quoted env))) r s = true;
  ck_quote : quote_of att = Some qi;
  ck_select : PCRSelect qi = selection;
  ck_pcr : PCR env = attestPCR;
  ck_digest : PCRDigest qi = Sum256 (pcrExtendFromZero expectedD) }.

Lemma checks_iff env expectedD nonce akDER :
  verifyEnvelopeChecks env expectedD nonce akDER = Ok tt <-> exists att qi, checked env expectedD nonce akDER att qi.
Proof.
  unfold Attest.verifyEnvelopeChecks, envHeads. cbv zeta. split.
  - destruct (UnmarshalAttest _) as [att|] eqn:E1; [|done]. destruct (Z.eqb_spec (Magic att) TPMGeneratedValue) as [E2|]; [|done]. cbn [negb].
    destruct (bool_decide (ExtraData att = _)) eqn:E3; [|done]. apply bool_decide_eq_true in E3. cbn [negb].
    destruct (ecdsaPubFromDER akDER) as [pub|] eqn:E4; [|done]. destruct (decodeECDSASig _ _) as [[r s]|] eqn:E5; [|done].
    destruct (EcdsaVerify _ _ _ _) eqn:E6; [|done]. cbn [negb]. destruct (quote_of att) as [qi|] eqn:E7; [|done].
    destruct (bool_decide (PCRSelect qi = _)) eqn:E8; [|done]. apply bool_decide_eq_true in E8. cbn [negb].
    destruct (Z.eqb_spec (PCR env) attestPCR) as [E9|]; [|done]. cbn [negb].
    destruct (bool_decide (PCRDigest qi = _)) eqn:E10; [|done]. apply bool_decide_eq_true in E10. intros _.
    exists att, qi. split; try done. by exists pub, r, s.
  - intros (att & qi & [E1 E2 E3 (pub & r & s & E4 & E5 & E6) E7 E8 E9 E10]).
    rewrite E1, E2, Z.eqb_refl. cbn [negb]. rewrite bool_decide_true by done. cbn [negb].
    rewrite E4, E5, E6. cbn [negb]. rewrite E7, bool_decide_true by done. cbn [negb]. rewrite E9, Z.eqb_refl. cbn [negb].
    by rewrite bool_decide_true.
Qed.

(** C14: An accepted envelope proves an enforcing boot. If the checks pass with the digest
    expected of a known-good binary, and the digest the TPM quoted is that of a PCR into
    which the box extended its own measurement, then at that moment the box ran that binary
    and the kernel denied bpf() and unlisted connects outside the TCB; or SHA-256 collides
    on the values at hand. *)
Theorem accepted_box_was_enforcing env nonce akDER exe att qi b d :
  verifyEnvelopeChecks env (expectedDefaultArmedD exe) nonce akDER = Ok tt ->
  UnmarshalAttest (DecodePrefix (Quoted env)) = Some att -> quote_of att = Some qi ->
  attestDigest b = Ok d -> PCRDigest qi = Sum256 (pcrExtendFromZero d) ->
  wf_state (maps b) -> len exe < 2 ^ 64 ->
  let D := expectedDefaultArmedD exe in
  (enforcing b /\ exists self, selfExe b = Some self /\ exe = EncodeToString (Sum256 self))
  \/ collision [pcrExtendFromZero d] [pcrExtendFromZero D]
  \/ collision [zeroHash ++ d] [zeroHash ++ D]
  \/ exists self count clean, selfExe b = Some self
       /\ collision [digest_input (EncodeToString (Sum256 self)) (flag_of b) count clean]
            [digest_input exe (fun id => if (id =? hookBPF) || (id =? hookConnect) then 1 else 0) expectedTCBCount true].
Proof.
  intros H Ha Hq Hd Hp Hwf He. cbv zeta. apply checks_iff in H as (att' & qi' & [E1 _ _ _ E7 _ _ E10]).
  rewrite Ha in E1. injection E1 as <-. rewrite Hq in E7. injection E7 as <-. rewrite Hp in E10.
  destruct (decide (pcrExtendFromZero d = pcrExtendFromZero (expectedDefaultArmedD exe))) as [E|Hne].
  2:{ right. left. exact (collision_single _ _ Hne E10). }
  destruct (decide (zeroHash ++ d = zeroHash ++ expectedDefaultArmedD exe)) as [Ez|Hne].
  2:{ right. right. left. exact (collision_single _ _ Hne E). }
  apply app_inv_head in Ez. unfold attestDigest in Hd. destruct (selfExe b) as [self|] eqn:Es; [|discriminate Hd].
  destruct (negb _); [discriminate Hd|]. destruct (tcbMembershipState b) as [[count clean]|] eqn:Et; [|discriminate Hd]. injection Hd as <-.
  destruct (decide (digest_input (EncodeToString (Sum256 self)) (flag_of b) count clean
    = digest_input exe (fun id => if (id =? hookBPF) || (id =? hookConnect) then 1 else 0) expectedTCBCount true)) as [Ei|Hne].
  2:{ right. right. right. exists self, count, clean. split; [reflexivity|]. exact (collision_single _ _ Hne Ez). }
  left. clear Hp E E10 Ez. destruct Hwf as [[_ Hfl] [Hsz _] _ _ _]. apply digest_input_inj in Ei as (<- & Hf & -> & ->).
  - split; [|exists self; split; reflexivity].
    apply (posture_enforces b expectedTCBCount); [rewrite Hf; [reflexivity|]|rewrite Hf; [reflexivity|]|exact Et];
      apply list_elem_of_In; vm_compute; auto.
  - rewrite len_encode, length_Sum256. done.
  - done.
  - intros h. unfold flag_of. cbn [flags_ops m_lookup array_ops]. destruct (array_lookup _ h) as [v|] eqn:Ev; [|done]. cbn [from_option id].
    unfold array_lookup in Ev. destruct (array_index _ _) as [j|]; [|done]. cbn in Ev. apply list_elem_of_lookup_2 in Ev. rewrite Forall_forall in Hfl.
    specialize (Hfl v Ev). unfold in_width in *. lia.
  - intros id. by destruct (_ || _).
  - revert Et. unfold tcbMembershipState. destruct (negb _); [done|]. intros [= <- _].
    rewrite size_dom. unfold in_width. lia.
  - done.
Qed.

(** A quote binds its nonce and its heads. If an envelope is accepted under a nonce, and
    the TPM put into the quote what the box computed from a nonce and three heads, then
    these are the verifier's nonce and the heads the envelope reports (absent or malformed
    ones read as zero); or SHA-256 collides. An old quote is never fresh, a head cannot be
    exchanged for another. *)
Theorem quote_binds_nonce_and_heads env expectedD nonce akDER att nonce' h1 h2 h3 :
  verifyEnvelopeChecks env expectedD nonce akDER = Ok tt ->
  UnmarshalAttest (DecodePrefix (Quoted env)) = Some att ->
  ExtraData att = quoteExtraData nonce' h1 h2 h3 -> len nonce < 2 ^ 64 -> len nonce' < 2 ^ 64 ->
  let '(g1, g2, g3) := envHeads env in
  (nonce = nonce' /\ headOrZero g1 = headOrZero h1 /\ headOrZero g2 = headOrZero h2 /\ headOrZero g3 = headOrZero h3)
  \/ collision [extra_input nonce (headOrZero g1) (headOrZero g2) (headOrZero g3)]
       [extra_input nonce' (headOrZero h1) (headOrZero h2) (headOrZero h3)].
Proof.
  intros H Ha Hx Hn Hn'. apply checks_iff in H as (att' & qi & [E1 _ E3 _ _ _ _ _]).
  rewrite Ha in E1. injection E1 as <-. rewrite Hx in E3. unfold envHeads.
  set (g1 := Some (DecodePrefix (HeadCollector env))) in *. set (g2 := Some (DecodePrefix (HeadControl env))) in *.
  set (g3 := Some (DecodePrefix (HeadBroker env))) in *. unfold quoteExtraData in E3.
  destruct (decide (extra_input nonce (headOrZero g1) (headOrZero g2) (headOrZero g3)
    = extra_input nonce' (headOrZero h1) (headOrZero h2) (headOrZero h3))) as [E|Hne].
  - left. clear E3 Hx. apply extra_input_inj in E as (? & ? & ? & ?); [done|exact Hn|exact Hn'|].
    repeat constructor; apply headOrZero_len.
  - right. exact (collision_single _ _ Hne (eq_sym E3)).
Qed.

(** *** Honest boxes *)

(** What a TPM quote is: a TPMS_ATTEST over the given data, selection and PCR value, which
    verifies under the attestation key. *)
Record quote_laws {T} (ops : tpm_ops T) (bank : T -> bytes) : Prop := {
  law_attest : forall extra t q t', tpm_quote ops extra selection t = ((RcOk, Some q), t') ->
    UnmarshalAttest (q_quoted q)
    = Some (Attested TPMGeneratedValue extra (Some (QuoteInfo selection (Sum256 (bank t)))))
    /\ forall ak, tpm_ak ops t = Some ak -> exists pub, ecdsaPubFromDER ak = Some pub
         /\ EcdsaVerify pub (Sum256 (q_quoted q)) (SetBytes (q_r q)) (SetBytes (q_s q)) = true;
  law_ak : forall extra sel t r t', tpm_quote ops extra sel t = (r, t') -> tpm_ak ops t' = tpm_ak ops t }.

Lemma DecodePrefix_app b rest : DecodePrefix (EncodeToString b ++ rest) = b ++ DecodePrefix rest.
Proof.
  induction b as [|c b IH]; [done|]. unfold EncodeToString in *. rewrite bind_cons, <- app_assoc. cbn [app DecodePrefix].
  pose proof (val_bound c). pose proof (Z.mod_pos_bound (val c) 16 eq_refl).
  assert (0 <= val c / 16 < 16) by (split; [apply Z.div_pos|apply Z.div_lt_upper_bound]; lia).
  rewrite !unhex_hexdigit by lia. rewrite IH. f_equal. rewrite <- (byte_of_val c) at 3. f_equal.
  pose proof (Z.div_mod (val c) 16). lia.
Qed.

Lemma DecodePrefix_encode b : DecodePrefix (EncodeToString b) = b.
Proof. rewrite <- (app_nil_r (EncodeToString b)), DecodePrefix_app. apply app_nil_r. Qed.

Lemma headOrZero_idem h : headOrZero (Some (headOrZero h)) = headOrZero h.
Proof. pose proof (headOrZero_len h) as E. unfold headOrZero at 1. by rewrite E, Z.eqb_refl. Qed.

Lemma quote_retry {T} (ops : tpm_ops T) bank extra t q t' :
  tpm_laws ops bank -> quote_laws ops bank ->
  tpmRetry (fun p : option quote_rsp * T => let '(_, t) := p in
    let '((e, r), t) := tpm_quote ops extra selection t in (e, (r, t))) (None, t) = (RcOk, (Some q, t')) ->
  exists t1, tpm_quote ops extra selection t1 = ((RcOk, Some q), t') /\ bank t1 = bank t /\ tpm_ak ops t1 = tpm_ak ops t.
Proof.
  intros L Q. unfold tpmRetry. set (fn := fun p : option quote_rsp * T => _).
  assert (forall n err r0 t, (err <> RcOk \/ 0 < n)%nat -> retry n fn err (r0, t) = (RcOk, (Some q, t')) ->
    exists t1, tpm_quote ops extra selection t1 = ((RcOk, Some q), t') /\ bank t1 = bank t /\ tpm_ak ops t1 = tpm_ak ops t) as H;
    [|by apply H; right; lia].
  clear t. induction n as [|n IH]; intros err r0 t Hn; cbn [retry].
  { intros [= -> _ _]. destruct Hn; [done|lia]. }
  unfold fn at 1. destruct (tpm_quote ops extra selection t) as [[[] r] t1] eqn:E.
  - intros [= -> ->]. by exists t.
  - intros H. apply IH in H as (t2 & H2 & Hb & Ha); [|by left]. exists t2. split; [done|].
    by rewrite Hb, Ha, (law_quote _ _ L _ _ _ _ _ E), (law_ak _ _ Q _ _ _ _ _ E).
  - discriminate.
Qed.

(** An honest box verifies. The envelope the collector returns for a nonce passes the
    checks of a verifier that uses this nonce, the key of that TPM and the digest that was
    extended into the PCR, whatever the heads of the chains are and however often the TPM
    asked to retry. *)
Theorem honest_box_verifies {T} (ops : tpm_ops T) bank b heads nonceHex nonce ak t env t' D :
  tpm_laws ops bank -> quote_laws ops bank ->
  doAttestQuote ops b heads nonceHex t = (Ok env, t') -> DecodeString nonceHex = Some nonce ->
  tpm_ak ops t = Some ak -> bank t = pcrExtendFromZero D ->
  verifyEnvelopeChecks env D nonce ak = Ok tt /\ DecodePrefix (AKPubDER env) = ak.
Proof.
  intros L Q H Hn Hak Hb. revert H. unfold doAttestQuote. rewrite Hn. destruct (len nonce <? 16); [done|].
  destruct (attestDigest b); [|done]. destruct heads as [[h1 h2] h3]. destruct (negb _); [done|]. rewrite Hak.
  set (extra := quoteExtraData nonce h1 h2 h3).
  destruct (tpmRetry _ (None, t)) as [[] [[q|] t1]] eqn:E; try done. intros [= <- _].
  apply (quote_retry ops bank) in E as (t2 & E & Hb2 & Ha2); [|done|done].
  destruct (law_attest _ _ Q _ _ _ _ E) as [Hat Hsg]. rewrite Ha2 in Hsg. destruct (Hsg ak Hak) as (pub & Hpub & Hver).
  split; [|apply DecodePrefix_encode]. apply checks_iff. eexists _, _.
  split; cbn [Quoted HeadCollector HeadControl HeadBroker SigR SigS PCR]; rewrite ?DecodePrefix_encode.
  - exact Hat.
  - done.
  - cbn [ExtraData]. unfold extra, quoteExtraData. by rewrite !headOrZero_idem.
  - exists pub, (SetBytes (q_r q)), (SetBytes (q_s q)). split; [exact Hpub|]. split; [|exact Hver].
    unfold decodeECDSASig. by rewrite !decode_encode.
  - reflexivity.
  - reflexivity.
  - reflexivity.
  - cbn [PCRDigest]. by rewrite Hb2, Hb.
Qed.

(** The decoding of a reported head stops at the first malformed digit and keeps what it
    has: an envelope whose head has something appended is accepted as before. *)
Definition append_to_head (env : attestEnvelope) (junk : bytes) : attestEnvelope :=
  Envelope (AKPubDER env) (Quoted env) (SigR env) (SigS env) (Nonce env) (PCR env)
    (HeadCollector env ++ junk) (HeadControl env) (HeadBroker env).

Lemma altered_head_accepted env expectedD nonce akDER h :
  HeadCollector env = EncodeToString h ->
  verifyEnvelopeChecks (append_to_head env (B "zz")) expectedD nonce akDER = verifyEnvelopeChecks env expectedD nonce akDER.
Proof.
  intros E. unfold Attest.verifyEnvelopeChecks, envHeads, append_to_head.
  cbn [Quoted HeadCollector HeadControl HeadBroker SigR SigS PCR]. rewrite E, DecodePrefix_app, DecodePrefix_encode.
  change (DecodePrefix (B "zz")) with (@nil ascii). by rewrite app_nil_r.
Qed.
End verifier.

(** ** A box and a TPM, evaluated *)
Definition box_files : uenv :=
  UEnv (fun _ => true)
    (fun p => if (p =? "/sys/fs/cgroup")%string then Some 1
              else if (p =? "/sys/fs/cgroup/system.slice/bulkhead-collector.service")%string then Some 2
              else if (p =? brokerCgroupPath)%string then Some 3 else None) true.

Definition armed_maps : kstate := KState [1; 0; 0; 1; 0; 0; 0; 0] {[1 := 1; 2 := 1; 3 := 1]} {[7 := 5]} ∅ [].
Definition armed_box : box := Box (Some (B "collector")) box_files "/system.slice/bulkhead-collector.service" armed_maps.

(** A TPM that asks once for a retry: its state is the PCR and whether it has asked. *)
Definition toy_tpm : tpm_ops (bytes * bool) :=
  TpmOps (fun _ => true) (fun t : bytes * bool => Some t.1)
    (fun d (t : bytes * bool) => if t.2 then (RcOk, (Sum256 (t.1 ++ d), true)) else (RcRetry, (t.1, true)))
    (fun _ => Some (B "ak"))
    (fun extra sel (t : bytes * bool) =>
       if bool_decide (sel = selection) then
         if t.2 then let q := Sum256 t.1 ++ extra in ((RcOk, Some (QuoteRsp q (Sum256 q) [])), t)
         else ((RcRetry, None), (t.1, true))
       else ((RcError, None), t)).

Definition toy_attest (q : bytes) : option tpms_attest :=
  Some (Attested TPMGeneratedValue (drop 32 q) (Some (QuoteInfo selection (take 32 q)))).
Definition toy_key (der : bytes) : option unit := Some tt.
Definition toy_ecdsa (_ : unit) (h : bytes) (r s : Z) : bool := r =? SetBytes h.

Definition toy_bank (t : bytes * bool) : bytes := t.1.

Lemma toy_laws : tpm_laws toy_tpm toy_bank.
Proof.
  split; cbn [toy_tpm tpm_read tpm_extend tpm_quote].
  - intros t v E. injection E as <-. reflexivity.
  - intros d [p []] t'; cbn [fst snd]; intros E; [injection E as <-; reflexivity|discriminate E].
  - intros d [p []] e t'; cbn [fst snd]; intros E He; [injection E as <- <-; by destruct He|injection E as <- <-; reflexivity].
  - intros extra sel [p []] r t' E; destruct (bool_decide _); injection E as <- <-; reflexivity.
Qed.

(** The checks on an envelope of the armed box. *)
Definition toy_checks := verifyEnvelopeChecks toy_attest unit toy_key toy_ecdsa.
Definition toy_nonce : bytes := replicate 16 (byte_of 9).
Definition booted : bytes * bool := Eval vm_compute in (doAttestExtend toy_tpm armed_box (zeroHash, false)).2.
Definition toy_quote := doAttestQuote toy_tpm armed_box (None, None, None) (EncodeToString toy_nonce) booted.
Definition toy_env : attestEnvelope := Eval vm_compute in match toy_quote with (Ok env, _) => env | _ => Envelope [] [] [] [] [] 0 [] [] [] end.
Definition good_exe : bytes := Eval vm_compute in EncodeToString (Sum256 (B "collector")).

Lemma gate_pass_enforces_witness :
  gatePosture armed_box = Ok (true, "e0=1 e2=1 tcb_clean=true count=3") /\ enforcing armed_box.
Proof.
  split; [vm_compute; reflexivity|].
  exact (proj1 (gate_pass_enforces armed_box "e0=1 e2=1 tcb_clean=true count=3" ltac:(vm_compute; reflexivity))).
Defined.

Lemma boot_pcr_extended_once_witness :
  (toy_bank (extends toy_tpm [armed_box; armed_box] (zeroHash, false)) = zeroHash
   \/ exists b d, b ∈ [armed_box; armed_box] /\ attestDigest b = Ok d
        /\ toy_bank (extends toy_tpm [armed_box; armed_box] (zeroHash, false)) = pcrExtendFromZero d).
Proof. exact (proj1 (boot_pcr_extended_once toy_tpm toy_bank [armed_box; armed_box] (zeroHash, false) toy_laws eq_refl)). Defined.

Lemma armed_wf : wf_state (maps armed_box).
Proof.
  split; cbn [armed_box maps armed_maps enforce_flags tcb_cgroups egress_policy grant_once events].
  - split; [done|]. repeat constructor; done.
  - split; [vm_compute; discriminate|].
    do 2 (apply map_Forall_insert_2; [unfold in_width; lia|]). apply map_Forall_singleton. unfold in_width; lia.
  - split; [vm_compute; discriminate|]. apply map_Forall_singleton. unfold in_width; lia.
  - split; [vm_compute; discriminate|]. apply map_Forall_empty.
  - constructor.
Qed.

Definition toy_digest : bytes := Eval vm_compute in match attestDigest armed_box with Ok d => d | Err _ => [] end.
Definition toy_qi : quote_info := Eval vm_compute in QuoteInfo selection (Sum256 booted.1).
Definition toy_att : tpms_attest :=
  Eval vm_compute in match toy_attest (DecodePrefix (Quoted toy_env)) with Some a => a | None => Attested 0 [] None end.

Lemma accepted_box_was_enforcing_witness :
  let D := expectedDefaultArmedD good_exe in
  (enforcing armed_box /\ exists self, selfExe armed_box = Some self /\ good_exe = EncodeToString (Sum256 self))
  \/ collision [pcrExtendFromZero toy_digest] [pcrExtendFromZero D]
  \/ collision [zeroHash ++ toy_digest] [zeroHash ++ D]
  \/ exists self count clean, selfExe armed_box = Some self
       /\ collision [digest_input (EncodeToString (Sum256 self)) (flag_of armed_box) count clean]
            [digest_input good_exe (fun id => if (id =? hookBPF) || (id =? hookConnect) then 1 else 0) expectedTCBCount true].
Proof.
  apply (accepted_box_was_enforcing toy_attest unit toy_key toy_ecdsa toy_env toy_nonce (B "ak") good_exe toy_att toy_qi
    armed_box toy_digest);
    [vm_compute; reflexivity|vm_compute; reflexivity|vm_compute; reflexivity|vm_compute; reflexivity|vm_compute; reflexivity
    |exact armed_wf|vm_compute; reflexivity].
Defined.

Lemma quote_binds_nonce_and_heads_witness :
  (toy_nonce = toy_nonce /\ headOrZero (Some (DecodePrefix (HeadCollector toy_env))) = headOrZero None)
  \/ collision [extra_input toy_nonce (headOrZero (envHeads toy_env).1.1) (headOrZero (envHeads toy_env).1.2) (headOrZero (envHeads toy_env).2)]
       [extra_input toy_nonce zeroHash zeroHash zeroHash].
Proof.
  destruct (quote_binds_nonce_and_heads toy_attest unit toy_key toy_ecdsa toy_env (expectedDefaultArmedD good_exe) toy_nonce (B "ak")
    toy_att toy_nonce None None None) as [(H1 & H2 & _)|H];
    [vm_compute; reflexivity|vm_compute; reflexivity|vm_compute; reflexivity|vm_compute; reflexivity|vm_compute; reflexivity
    |left; split; [exact H1|exact H2]|right; exact H].
Defined.

Lemma toy_quote_laws : quote_laws toy_attest unit toy_key toy_ecdsa toy_tpm toy_bank.
Proof.
  split; cbn [toy_tpm tpm_quote tpm_ak].
  - intros extra [p []] q t'; rewrite bool_decide_true by reflexivity; cbn [fst snd]; intros E; [|discriminate E].
    injection E as <- <-. cbn [q_quoted q_r q_s]. unfold toy_bank. cbn [fst].
    assert (length (Sum256 p) = 32%nat) as Hl by (pose proof (length_Sum256 p); unfold len, Size in *; lia).
    unfold toy_attest. rewrite take_app_length', drop_app_length' by (symmetry; exact Hl).
    split; [reflexivity|]. intros ak _. exists tt. split; [reflexivity|]. apply Z.eqb_refl.
  - intros extra sel [p []] r t' E; destruct (bool_decide _); injection E as <- <-; reflexivity.
Qed.

Lemma honest_box_verifies_witness :
  toy_checks toy_env toy_digest toy_nonce (B "ak") = Ok tt.
Proof.
  exact (proj1 (honest_box_verifies toy_attest unit toy_key toy_ecdsa toy_tpm toy_bank armed_box (None, None, None)
    (EncodeToString toy_nonce) toy_nonce (B "ak") booted toy_env booted toy_digest toy_laws toy_quote_laws
    ltac:(vm_compute; reflexivity) ltac:(vm_compute; reflexivity) eq_refl ltac:(vm_compute; reflexivity))).
Defined.
