(* ===== verification/Enroll.v ===== *)
(** * Enrolment: the attestation key rooted in the TPM's endorsement key ([attest.go])

    The box exports its EK and AK ([doAttestEK]), the verifier wraps a fresh secret to that EK
    and to the name of that AK ([cmdAttestMakeCredential]), the TPM unwraps it
    ([doAttestActivate]) and the verifier pins the key it challenged
    ([cmdAttestEnrollVerify]). The TPM, go-tpm's structures and X.509 are arguments; the
    messages are records of their hexadecimal fields. *)
From Stdlib Require Import ZArith Lia Ascii String.
From stdpp Require Import base tactics numbers option strings list gmap.
From S2P Require Import Prelude Endian Maps Bytes Sha256 Json Control Broker Verify AuditLog Attest AttestProps.
#[local] Open Scope string_scope.
#[local] Open Scope list_scope.
#[local] Open Scope Z_scope.
#[local] Opaque Sum256.

Record enrollRequest := EnrollRequest {
  EKPubTPMT : bytes; EKCertDER : bytes; EKNVIndex : string; rq_AKPubDER : bytes; AKPubTPMT : bytes; AKName : bytes }.
Record activationChallenge := ActivationChallenge { CredBlob : bytes; EncSecret : bytes }.
Record activationResponse := ActivationResponse { RecoveredSecret : bytes }.
Record verifierRound := VerifierRound { rd_Secret : bytes; rd_AKPubDER : bytes }.

(** ** Reading the EK certificate *)
Definition ekCandidateIndices : list Z := [0x01c0000a; 0x01c00016; 0x01c00002].

(** The non-volatile memory: the size of an index, and reads of it. *)
Record nv := NV { nv_size : Z -> option Z; nv_read : Z -> Z -> Z -> option bytes }.

Fixpoint nv_chunks (fuel : nat) (m : nv) (idx size off : Z) (buf : bytes) : option bytes :=
  match fuel with
  | O => None
  | S fuel =>
      if off <? size then
        let chunk := if 512 <? size - off then 512 else size - off in
        match nv_read m idx off chunk with
        | None => None
        | Some b => nv_chunks fuel m idx size (off + chunk) (buf ++ b)
        end
      else Some buf
  end.

(** 8192 bytes are sixteen chunks, and one more turn ends the loop. *)
Definition nv_fuel : nat := 17.

Section enrolment.
  Context {TPMT Cert EKey PubKey : Type}.
  Context (UnmarshalPub : bytes -> option TPMT) (MarshalPub : TPMT -> bytes).
  Context (ObjectName : TPMT -> option bytes).
  Context (ECC : TPMT -> option (Z * Z)) (marshalPKIX : Z * Z -> option bytes).
  Context (ImportEncapsulationKey : TPMT -> option EKey).
  Context (CreateCredential : EKey -> bytes -> bytes -> option (bytes * bytes)).
  Context (ParseCertificate : bytes -> option Cert) (cert_point : Cert -> option (Z * Z)).
  Context (AppendCertsFromPEM : bytes -> bool) (chains_to : bytes -> Cert -> bool).
  Context (ecdsaPubFromDER : bytes -> option PubKey).

Fixpoint first_cert (m : nv) (idxs : list Z) : bytes * string :=
  match idxs with
  | [] => ([], "")
  | idx :: idxs =>
      match nv_size m idx with
      | None => first_cert m idxs
      | Some size =>
          if (size =? 0) || (8192 <? size) then first_cert m idxs
          else match nv_chunks nv_fuel m idx size 0 [] with
               | None => first_cert m idxs
               | Some buf => match ParseCertificate buf with
                             | None => first_cert m idxs
                             | Some _ => (buf, ("0x" ++ string_of_list_ascii (EncodeToString (byte_of <$> rev (le_split 4 idx))))%string)
                             end
               end
      end
  end.

Definition readEKCert (m : nv) : bytes * string := first_cert m ekCandidateIndices.

Definition tpmtECCToPKIX (pub : TPMT) : option bytes := p ← ECC pub; marshalPKIX p.
Definition derFromEKPub (pub : TPMT) : bytes := default [] (tpmtECCToPKIX pub).

(** ** The box *)

(** The TPM's part: the primary keys of the fixed templates, the name of the loaded AK, the
    memory, and TPM2_ActivateCredential under a fresh policy session. *)
Record enroll_ops (T : Type) := EnrollOps {
  en_open : T -> bool;
  en_ek : T -> option TPMT;
  en_ak : T -> option TPMT;
  en_name : T -> bytes;
  en_nv : T -> nv;
  en_activate : bytes -> bytes -> T -> (rc * option bytes) * T }.
Arguments en_open {T}. Arguments en_ek {T}. Arguments en_ak {T}. Arguments en_name {T}. Arguments en_nv {T}. Arguments en_activate {T}.

Inductive enroll_error := NoTpm' | NoEk | NoAk' | NoPkix | BadBlob | BadEnc | ActivateFailed.

Definition doAttestEK {T} (ops : enroll_ops T) (t : T) : result enroll_error enrollRequest :=
  if negb (en_open ops t) then Err NoTpm'
  else match en_ek ops t with
  | None => Err NoEk
  | Some ekPub =>
      match en_ak ops t with
      | None => Err NoAk'
      | Some akPub =>
          match tpmtECCToPKIX akPub with
          | None => Err NoPkix
          | Some akPubDER =>
              let '(certDER, nvIdx) := readEKCert (en_nv ops t) in
              Ok (EnrollRequest (EncodeToString (MarshalPub ekPub)) (EncodeToString certDER) nvIdx
                    (EncodeToString akPubDER) (EncodeToString (MarshalPub akPub)) (EncodeToString (en_name ops t)))
          end
      end
  end.

Definition doAttestActivate {T} (ops : enroll_ops T) (credBlobHex encSecretHex : bytes) (t : T)
    : result enroll_error activationResponse * T :=
  match DecodeString credBlobHex with
  | None => (Err BadBlob, t)
  | Some credBlob =>
      match DecodeString encSecretHex with
      | None => (Err BadEnc, t)
      | Some encSecret =>
          if negb (en_open ops t) then (Err NoTpm', t)
          else match en_ek ops t, en_ak ops t with
          | None, _ => (Err NoEk, t)
          | _, None => (Err NoAk', t)
          | Some _, Some _ =>
              let act '(_, t) := let '((e, r), t) := en_activate ops credBlob encSecret t in (e, (r, t)) in
              match tpmRetry act (None, t) with
              | (RcOk, (Some recovered, t)) => (Ok (ActivationResponse (EncodeToString recovered)), t)
              | (_, (_, t)) => (Err ActivateFailed, t)
              end
          end
      end
  end.

(** ** The verifier *)
Inductive credential_error :=
| BadEkHex | BadEk | BadAkHex | BadAkPub | NoName | ForgedName | AkNotEcc | OtherKey | Uncertified | NoImport | NoCredential.

(** [validateEKCertChain]; [ca] is the argument with a file already read. *)
Definition validateEKCertChain (req : enrollRequest) (ekPubDER ca : bytes) : bool :=
  match EKCertDER req with
  | [] => false
  | _ =>
      match DecodeString (EKCertDER req) with
      | None => false
      | Some certDER =>
          match ParseCertificate certDER with
          | None => false
          | Some cert =>
              AppendCertsFromPEM ca && chains_to ca cert &&
              match cert_point cert with
              | None => false
              | Some p => match marshalPKIX p with None => false | Some der => bool_decide (der = ekPubDER) end
              end
          end
      end
  end.

(** [cmdAttestMakeCredential] on a parsed request; [secret] is what the random source gave and
    an absent [ekCA] skips the validation of the certificate. *)
Definition cmdAttestMakeCredential (req : enrollRequest) (ekCA : option bytes) (secret : bytes)
    : result credential_error (activationChallenge * verifierRound) :=
  match DecodeString (EKPubTPMT req) with
  | None => Err BadEkHex
  | Some ekBytes =>
      match UnmarshalPub ekBytes with
      | None => Err BadEk
      | Some ekPub =>
          match DecodeString (AKPubTPMT req) with
          | None => Err BadAkHex
          | Some akBytes =>
              match UnmarshalPub akBytes with
              | None => Err BadAkPub
              | Some akPub =>
                  match ObjectName akPub with
                  | None => Err NoName
                  | Some name =>
                      if negb (bool_decide (name = DecodePrefix (AKName req))) then Err ForgedName
                      else match tpmtECCToPKIX akPub with
                      | None => Err AkNotEcc
                      | Some der =>
                          if negb (bool_decide (der = DecodePrefix (rq_AKPubDER req))) then Err OtherKey
                          else if negb (match ekCA with Some ca => validateEKCertChain req (derFromEKPub ekPub) ca | None => true end)
                          then Err Uncertified
                          else match ImportEncapsulationKey ekPub with
                          | None => Err NoImport
                          | Some ekKey =>
                              match CreateCredential ekKey name secret with
                              | None => Err NoCredential
                              | Some (idObject, encSecret) =>
                                  Ok (ActivationChallenge (EncodeToString idObject) (EncodeToString encSecret),
                                      VerifierRound (EncodeToString secret) (EncodeToString der))
                              end
                          end
                      end
                  end
              end
          end
      end
  end.

(** [cmdAttestEnrollVerify] on a parsed response and round: the pin file it writes. *)
Definition cmdAttestEnrollVerify (resp : activationResponse) (round : verifierRound) : option bytes :=
  match DecodeString (RecoveredSecret resp), DecodeString (rd_Secret round) with
  | Some recovered, Some secret =>
      if (len secret <? 16) || negb (bool_decide (recovered = secret)) then None
      else match DecodeString (rd_AKPubDER round) with
           | None => None
           | Some der =>
               if bool_decide (rd_AKPubDER round = []) then None
               else match ecdsaPubFromDER der with None => None | Some _ => Some (rd_AKPubDER round ++ [newline]) end
           end
  | _, _ => None
  end.
End enrolment.
Arguments EnrollOps {TPMT T}. Arguments en_open {TPMT T}. Arguments en_ek {TPMT T}. Arguments en_ak {TPMT T}.
Arguments en_name {TPMT T}. Arguments en_nv {TPMT T}. Arguments en_activate {TPMT T}.
