(* ===== verification/NetIP.v ===== *)
(** * Addresses: what the egress proxy uses of Go's [net]

    [ParseIP], [ParseCIDR], [SplitHostPort] and [JoinHostPort] on byte strings, the
    predicates of [net.IP] and [IPNet.Contains] on addresses of 16 (or 4) bytes, and
    [strings.ToLower], [Fields], [Split]. *)
From Stdlib Require Import ZArith Lia Ascii String.
From stdpp Require Import base tactics numbers option strings list gmap.
From S2P Require Import Prelude Endian Bytes.
#[local] Open Scope string_scope.
#[local] Open Scope list_scope.
#[local] Open Scope Z_scope.

(** ** Strings *)
#[export] Instance bytes_eq_dec : EqDecision bytes := _ : EqDecision (list ascii).
#[export] Instance bytes_countable : Countable bytes := _ : Countable (list ascii).

Definition is_char (n : Z) (c : ascii) : bool := val c =? n.

Definition HasPrefixB (s p : bytes) : bool := bool_decide (p `prefix_of` s).
Definition HasSuffixB (s p : bytes) : bool := bool_decide (p `suffix_of` s).

(** [strings.IndexByte]: the text before the first [n], and from there on. *)
Fixpoint cut_at (n : Z) (s : bytes) : bytes * bytes :=
  match s with
  | [] => ([], [])
  | c :: s' => if is_char n c then ([], s) else let '(a, b) := cut_at n s' in (c :: a, b)
  end.

Definition has_char (n : Z) (s : bytes) : bool := existsb (is_char n) s.

(** [strings.Split] by one byte. *)
Fixpoint SplitOn (n : Z) (s : bytes) : list bytes :=
  match s with
  | [] => [[]]
  | c :: s =>
      if is_char n c then [] :: SplitOn n s
      else match SplitOn n s with p :: ps => (c :: p) :: ps | [] => [[c]] end
  end.

(** [strings.ToLower] and [ToUpper]: byte by byte on ASCII; outside of it the Unicode
    tables are an argument. *)
Definition lower_char (c : ascii) : ascii := if between 65 90 c then byte_of (val c + 32) else c.
Definition upper_char (c : ascii) : ascii := if between 97 122 c then byte_of (val c - 32) else c.
Definition is_ascii (s : bytes) : bool := forallb (fun c => val c <? 128) s.

Class Unicode := { lower_wide : bytes -> bytes; upper_wide : bytes -> bytes; fold_wide : bytes -> bytes -> bool }.

Definition ToLower `{Unicode} (s : bytes) : bytes := if is_ascii s then lower_char <$> s else lower_wide s.
Definition ToUpper `{Unicode} (s : bytes) : bytes := if is_ascii s then upper_char <$> s else upper_wide s.

(** [strings.EqualFold]. *)
Definition EqualFold `{Unicode} (a b : bytes) : bool :=
  if is_ascii a && is_ascii b then bool_decide (lower_char <$> a = lower_char <$> b) else fold_wide a b.

(** [strings.Fields]: [word] is the field being read, reversed. *)
Definition flush (word : bytes) (ws : list bytes) : list bytes := match word with [] => ws | _ => rev word :: ws end.

Fixpoint fields_from (word l : bytes) : list bytes :=
  match l with
  | [] => flush word []
  | a :: l1 =>
      if space1 a then flush word (fields_from [] l1)
      else match l1 with
      | b :: l2 =>
          if space2 a b then flush word (fields_from [] l2)
          else match l2 with
          | c :: l3 => if space3 a b c then flush word (fields_from [] l3) else fields_from (a :: word) l1
          | [] => fields_from (a :: word) l1
          end
      | [] => fields_from (a :: word) l1
      end
  end.

Definition Fields (l : bytes) : list bytes := fields_from [] l.

(** ** Address literals *)
Definition is_digit_b (c : ascii) : bool := between 48 57 c.

(** [parseIPv4Fields]: [prev] is the byte before. *)
Fixpoint v4_fields (prev : option ascii) (n digLen : Z) (fields : list Z) (s : bytes) : option (list Z) :=
  match s with
  | [] => if (length fields <? 3)%nat then None else Some (fields ++ [u8 n])
  | c :: s' =>
      if is_digit_b c then
        if (digLen =? 1) && (n =? 0) then None
        else let n := n * 10 + (val c - 48) in
             if 255 <? n then None else v4_fields (Some c) n (digLen + 1) fields s'
      else if is_char 46 c then
        if match prev with Some p => is_char 46 p | None => true end || bool_decide (s' = []) then None
        else if (length fields =? 3)%nat then None
        else v4_fields (Some c) 0 0 (fields ++ [u8 n]) s'
      else None
  end.

Definition parseIPv4 (s : bytes) : option (list Z) := v4_fields None 0 0 [] s.

(** The hexadecimal digits in front: how many, their value, the rest. *)
Fixpoint hex_group (off : nat) (acc : Z) (s : bytes) : option (nat * Z * bytes) :=
  match s with
  | [] => Some (off, acc, [])
  | c :: s' =>
      match unhex c with
      | None => Some (off, acc, s)
      | Some d => let acc := acc * 16 + d in
                  if (3 <? off)%nat || (65535 <? acc) then None else hex_group (S off) acc s'
      end
  end.

(** The loop of [parseIPv6]: at most [n] more groups; the bytes so far, the place of the
    ellipsis, the rest. *)
Fixpoint v6_groups (n : nat) (ip : list Z) (ellipsis : option nat) (s : bytes) : option (list Z * option nat * bytes) :=
  match n with
  | O => Some (ip, ellipsis, s)
  | S n =>
      match hex_group 0 0 s with
      | None => None
      | Some (off, acc, rest) =>
          if (off =? 0)%nat then None
          else
            let ip' := ip ++ [u8 (Z.shiftr acc 8); u8 acc] in
            match rest with
            | [] => Some (ip', ellipsis, [])
            | c :: rest' =>
                if is_char 46 c then
                  if bool_decide (ellipsis = None) && negb (length ip =? 12)%nat then None
                  else if (16 <? length ip + 4)%nat then None
                  else match parseIPv4 s with Some f => Some (ip ++ f, ellipsis, []) | None => None end
                else if negb (is_char 58 c) then None
                else match rest' with
                | [] => None
                | d :: rest'' =>
                    if is_char 58 d then
                      if bool_decide (ellipsis = None) then
                        match rest'' with
                        | [] => Some (ip', Some (length ip'), [])
                        | _ => v6_groups n ip' (Some (length ip')) rest''
                        end
                      else None
                    else v6_groups n ip' ellipsis rest'
                end
            end
      end
  end.

(** [parseIPv6] of a string without zone: the ellipsis is expanded to zeros. *)
Definition parseIPv6 (s : bytes) : option (list Z) :=
  let lead := HasPrefixB s (B "::") in
  let s1 := if lead then drop 2 s else s in
  if lead && bool_decide (s1 = []) then Some (replicate 16 0)
  else
    match v6_groups 8 [] (if lead then Some 0%nat else None) s1 with
    | Some (ip, ellipsis, []) =>
        if (length ip <? 16)%nat then
          match ellipsis with
          | None => None
          | Some e => Some (take e ip ++ replicate (16 - length ip) 0 ++ drop e ip)
          end
        else match ellipsis with None => Some ip | Some _ => None end
    | _ => None
    end.

Definition v4_prefix : list Z := replicate 10 0 ++ [255; 255].

(** [netip.ParseAddr], on strings that [ParseIP] accepts: the first of '.', ':' and '%'
    decides, and a zone is refused. The bytes, and whether the literal is IPv4. *)
Definition parseAddr (s : bytes) : option (list Z * bool) :=
  if has_char 37 s then None
  else match find (fun c => is_char 46 c || is_char 58 c) s with
  | None => None
  | Some c => if is_char 46 c then ip ← parseIPv4 s; Some (ip, true) else ip ← parseIPv6 s; Some (ip, false)
  end.

(** The 16-byte form; IPv4 is mapped into ::ffff:0:0/96. *)
Definition As16 (a : list Z * bool) : list Z := if a.2 then v4_prefix ++ a.1 else a.1.

Definition ParseIP (s : bytes) : option (list Z) := As16 <$> parseAddr s.

(** [IP.To4]: the address of 4 bytes of an IPv4 address in either form. *)
Definition To4 (ip : list Z) : option (list Z) :=
  if (length ip =? 4)%nat then Some ip
  else if (length ip =? 16)%nat && bool_decide (take 12 ip = v4_prefix) then Some (drop 12 ip) else None.

(** ** Networks *)
Definition CIDRMask (ones : Z) (n : nat) : list Z :=
  (fun i => let k := ones - 8 * Z.of_nat i in
            if 8 <=? k then 255 else if 0 <? k then 255 - Z.shiftr 255 k else 0) <$> seq 0 n.

Record IPNet := IPNetwork { net_IP : list Z; net_Mask : list Z }.

(** [dtoi] of a whole string: decimal digits below 0xFFFFFF. *)
Fixpoint dtoi (n : Z) (s : bytes) : option Z :=
  match s with
  | [] => Some n
  | c :: s => if is_digit_b c then let n := n * 10 + (val c - 48) in if 0xFFFFFF <=? n then None else dtoi n s else None
  end.

Definition mask_bytes (ip m : list Z) : list Z := zip_with Z.land ip m.

Definition ParseCIDR (s : bytes) : option IPNet :=
  let '(addr, rest) := cut_at 47 s in
  match rest with
  | [] => None
  | _ :: mask =>
      '(ip, is4) ← parseAddr addr;
      n ← (if bool_decide (mask = []) then None else dtoi 0 mask);
      let size := if is4 : bool then 4%nat else 16%nat in
      if 8 * Z.of_nat size <? n then None
      else
        let m := CIDRMask n size in
        Some (IPNetwork (mask_bytes ip m) m)
  end.

(** [networkNumberAndMask]: an IPv4 network in 16 bytes is reduced to 4. *)
Definition networkNumberAndMask (n : IPNet) : list Z * list Z :=
  match To4 (net_IP n) with
  | Some ip =>
      if (length (net_Mask n) =? 4)%nat then (ip, net_Mask n)
      else if (length (net_Mask n) =? 16)%nat then (ip, drop 12 (net_Mask n)) else ([], [])
  | None =>
      if (length (net_IP n) =? 16)%nat && (length (net_Mask n) =? 16)%nat then (net_IP n, net_Mask n) else ([], [])
  end.

Definition Contains (n : IPNet) (ip : list Z) : bool :=
  let '(nn, m) := networkNumberAndMask n in
  let ip := default ip (To4 ip) in
  (length ip =? length nn)%nat && bool_decide (mask_bytes nn m = mask_bytes ip m).

(** ** Predicates of [net.IP] *)
Definition at_ (ip : list Z) (i : nat) : Z := nth i ip 0.

Definition IsUnspecified (ip : list Z) : bool :=
  match To4 ip with Some v => bool_decide (v = [0; 0; 0; 0]) | None => bool_decide (ip = replicate 16 0) end.
Definition IsLoopback (ip : list Z) : bool :=
  match To4 ip with Some v => at_ v 0 =? 127 | None => bool_decide (ip = replicate 15 0 ++ [1]) end.
Definition IsPrivate (ip : list Z) : bool :=
  match To4 ip with
  | Some v => (at_ v 0 =? 10) || ((at_ v 0 =? 172) && (Z.land (at_ v 1) 0xf0 =? 16)) || ((at_ v 0 =? 192) && (at_ v 1 =? 168))
  | None => (length ip =? 16)%nat && (Z.land (at_ ip 0) 0xfe =? 0xfc)
  end.
Definition IsMulticast (ip : list Z) : bool :=
  match To4 ip with Some v => Z.land (at_ v 0) 0xf0 =? 0xe0 | None => (length ip =? 16)%nat && (at_ ip 0 =? 0xff) end.
Definition IsLinkLocalMulticast (ip : list Z) : bool :=
  match To4 ip with
  | Some v => (at_ v 0 =? 224) && (at_ v 1 =? 0) && (at_ v 2 =? 0)
  | None => (length ip =? 16)%nat && (at_ ip 0 =? 0xff) && (Z.land (at_ ip 1) 0x0f =? 2)
  end.
Definition IsLinkLocalUnicast (ip : list Z) : bool :=
  match To4 ip with
  | Some v => (at_ v 0 =? 169) && (at_ v 1 =? 254)
  | None => (length ip =? 16)%nat && (at_ ip 0 =? 0xfe) && (Z.land (at_ ip 1) 0xc0 =? 0x80)
  end.

(** ** Host and port *)

(** The text around the last colon. *)
Definition cut_last (n : Z) (s : bytes) : option (bytes * bytes) :=
  let '(a, b) := cut_at n (rev s) in
  match b with [] => None | _ :: b => Some (rev b, rev a) end.

Definition SplitHostPort (s : bytes) : option (bytes * bytes) :=
  match cut_last 58 s with
  | None => None
  | Some (h, port) =>
      match s with
      | c :: s' =>
          if is_char 91 c then
            let '(inner, rest) := cut_at 93 s' in
            match rest with
            | _ :: after => (* the first ']' is followed by the last colon *)
                if bool_decide (after = byte_of 58 :: port) then
                  if has_char 91 s' || has_char 93 after then None else Some (inner, port)
                else None
            | [] => None
            end
          else if has_char 58 h then None
          else if has_char 91 s || has_char 93 s then None
          else Some (h, port)
      | [] => None
      end
  end.

Definition JoinHostPort (host port : bytes) : bytes :=
  if has_char 58 host then B "[" ++ host ++ B "]:" ++ port else host ++ B ":" ++ port.

(** Addresses of the documentation. *)
Example literal_examples :
  ParseIP (B "127.0.0.1") = Some (v4_prefix ++ [127; 0; 0; 1])
  /\ ParseIP (B "::ffff:10.0.0.1") = Some (v4_prefix ++ [10; 0; 0; 1])
  /\ ParseIP (B "64:ff9b::a00:1") = Some ([0; 0x64; 0xff; 0x9b] ++ replicate 8 0 ++ [10; 0; 0; 1])
  /\ ParseIP (B "2001:db8::8:800:200c:417a") = Some [32; 1; 13; 184; 0; 0; 0; 0; 0; 8; 8; 0; 32; 12; 65; 122]
  /\ ParseIP (B "127.0.0.01") = None /\ ParseIP (B "127.1") = None /\ ParseIP (B "fe80::1%eth0") = None
  /\ ParseIP (B "1:2:3:4:5:6:7::8") = None /\ ParseIP (B "1:2:3:4:5:6:7::") = Some [0; 1; 0; 2; 0; 3; 0; 4; 0; 5; 0; 6; 0; 7; 0; 0].
Proof. vm_compute. auto 20. Qed.

Example split_examples :
  SplitHostPort (B "api.host.com:443") = Some (B "api.host.com", B "443")
  /\ SplitHostPort (B "[::1]:80") = Some (B "::1", B "80")
  /\ SplitHostPort (B "::1:80") = None /\ SplitHostPort (B "[::1]80") = None /\ SplitHostPort (B "host") = None
  /\ SplitHostPort (B "a[b:80") = None /\ SplitHostPort (B "[a:b]:c]:80") = None.
Proof. vm_compute. auto 20. Qed.

Example fields_examples :
  Fields (B " *.example.com   inspect ") = [B "*.example.com"; B "inspect"]
  /\ SplitOn 46 (B "a..b") = [B "a"; []; B "b"].
Proof. vm_compute. auto. Qed.

(** ** Prefixes: masks as divisions *)
Lemma CIDRMask_S k n :
  CIDRMask k (S n) = (if 8 <=? k then 255 else if 0 <? k then 255 - Z.shiftr 255 k else 0) :: CIDRMask (k - 8) n.
Proof.
  unfold CIDRMask. rewrite <- cons_seq, fmap_cons. f_equal; [by rewrite Z.mul_0_r, Z.sub_0_r|].
  rewrite <- fmap_S_seq, <- list_fmap_compose. apply list_fmap_ext. intros i x Hx. cbn [compose].
  by replace (k - 8 * Z.of_nat (S x)) with (k - 8 - 8 * Z.of_nat x) by lia.
Qed.

Lemma length_CIDRMask k n : length (CIDRMask k n) = n.
Proof. unfold CIDRMask. by rewrite length_fmap, length_seq. Qed.

Lemma land_255 x : is_byte x -> Z.land x 255 = x.
Proof. intros [H1 H2]. change 255 with (Z.ones 8). rewrite Z.land_ones by lia. apply Z.mod_small. lia. Qed.

Lemma land_high x y k :
  is_byte x -> is_byte y -> 0 < k < 8 ->
  (Z.land x (255 - Z.shiftr 255 k) = Z.land y (255 - Z.shiftr 255 k)) <-> x / 2 ^ (8 - k) = y / 2 ^ (8 - k).
Proof.
  intros Hx Hy Hk.
  assert (forall z, is_byte z -> Z.land z (255 - Z.shiftr 255 k) = 2 ^ (8 - k) * (z / 2 ^ (8 - k))) as Hm.
  { intros z Hz. apply Z.eqb_eq. apply (byte_forall (fun z => Z.land z (255 - Z.shiftr 255 k) =? 2 ^ (8 - k) * (z / 2 ^ (8 - k)))); [|done].
    assert (k = 1 \/ k = 2 \/ k = 3 \/ k = 4 \/ k = 5 \/ k = 6 \/ k = 7) as Hc by lia.
    destruct Hc as [-> |[-> |[-> |[-> |[-> |[-> | ->]]]]]]; vm_compute; reflexivity. }
  rewrite !Hm by done. pose proof (Z.pow_pos_nonneg 2 (8 - k)). split; [intros E|by intros ->].
  apply Z.mul_cancel_l in E; [done|lia].
Qed.

Lemma be_combine_cons x l : be_combine (x :: l) = x * 2 ^ (8 * Z.of_nat (length l)) + be_combine l.
Proof.
  change (x :: l) with ([x] ++ l). rewrite be_combine_app. unfold be_combine at 1. cbn [rev app le_combine].
  rewrite Z.mul_0_r, Z.add_0_r, Z.pow_mul_r by lia. done.
Qed.

Lemma be_combine_bits l : Forall is_byte l -> 0 <= be_combine l < 2 ^ (8 * Z.of_nat (length l)).
Proof. intros H. rewrite Z.pow_mul_r by lia. by apply be_combine_bound. Qed.

(** The quotient of a byte in front of a number of [n] bits: above and below the byte. *)
Lemma div_below x c n e :
  0 <= e <= n -> 0 <= c < 2 ^ n ->
  (x * 2 ^ n + c) / 2 ^ e = x * 2 ^ (n - e) + c / 2 ^ e /\ 0 <= c / 2 ^ e < 2 ^ (n - e).
Proof.
  intros He Hc. assert (2 ^ n = 2 ^ (n - e) * 2 ^ e) as Hn by (rewrite <- Z.pow_add_r by lia; f_equal; lia).
  assert (0 < 2 ^ e) by (apply Z.pow_pos_nonneg; lia). split; [by rewrite Hn, Z.mul_assoc, Z.div_add_l by lia|].
  split; [apply Z.div_pos|apply Z.div_lt_upper_bound]; lia.
Qed.

Lemma div_above x c n j : 0 <= n -> 0 <= j -> 0 <= c < 2 ^ n -> (x * 2 ^ n + c) / 2 ^ (n + j) = x / 2 ^ j.
Proof.
  intros Hn Hj Hc. assert (0 < 2 ^ j) by (apply Z.pow_pos_nonneg; lia).
  rewrite Z.pow_add_r, <- Z.div_div by lia. by rewrite Z.div_add_l, (Z.div_small c), Z.add_0_r by lia.
Qed.

Lemma mask_none l k : k <= 0 -> mask_bytes l (CIDRMask k (length l)) = replicate (length l) 0.
Proof.
  revert k. induction l as [|x l IH]; intros k Hk; [done|]. unfold mask_bytes in *. cbn [length replicate].
  rewrite CIDRMask_S, (proj2 (Z.leb_gt 8 k)), (proj2 (Z.ltb_ge 0 k)) by lia. cbn [zip_with]. by rewrite Z.land_0_r, IH by lia.
Qed.

(** An address and a base agree under the mask of [k] ones iff they agree above it. *)
Lemma mask_prefix l b k :
  length l = length b -> Forall is_byte l -> Forall is_byte b -> k <= 8 * Z.of_nat (length l) ->
  let m := CIDRMask k (length l) in
  let e := 8 * Z.of_nat (length l) - Z.max 0 k in
  mask_bytes b m = mask_bytes l m <-> be_combine l / 2 ^ e = be_combine b / 2 ^ e.
Proof.
  intros Hlen Hl. revert b k Hlen. induction Hl as [|x l Hx Hl IH]; intros [|y b] k Hlen Hb Hk; try discriminate Hlen; [done|].
  apply Forall_cons in Hb as [Hy Hb]. injection Hlen as Hlen. cbn [length] in *. cbv zeta in *. rewrite CIDRMask_S.
  rewrite !be_combine_cons, <- Hlen.
  pose proof (be_combine_bits l Hl) as Bl. pose proof (be_combine_bits b Hb) as Bb. rewrite <- Hlen in Bb.
  specialize (IH b (k - 8) Hlen Hb ltac:(lia)). unfold mask_bytes in *. cbn [zip_with].
  replace (8 * Z.of_nat (S (length l))) with (8 * Z.of_nat (length l) + 8) in * by lia.
  set (n := 8 * Z.of_nat (length l)) in *. assert (0 <= n) by lia. destruct (Z.leb_spec 8 k) as [H8|H8].
  - rewrite !land_255 by done. replace (n - Z.max 0 (k - 8)) with (n + 8 - Z.max 0 k) in IH by lia.
    destruct (div_below x (be_combine l) n (n + 8 - Z.max 0 k)) as [-> B1]; [lia|done|].
    destruct (div_below y (be_combine b) n (n + 8 - Z.max 0 k)) as [-> B2]; [lia|done|].
    split; [intros [= -> E]; apply IH in E; by rewrite E|intros E].
    assert (x = y) as -> by nia. f_equal. apply IH. lia.
  - pose proof (mask_none l (k - 8) ltac:(lia)) as Ml. pose proof (mask_none b (k - 8) ltac:(lia)) as Mb.
    rewrite <- Hlen in Mb. unfold mask_bytes in Ml, Mb. rewrite Ml, Mb.
    replace (n + 8 - Z.max 0 k) with (n + (8 - Z.max 0 k)) by lia. rewrite !div_above by (done || lia).
    destruct (Z.ltb_spec 0 k) as [H0|H0].
    + rewrite Z.max_r, <- (land_high x y k) by (done || lia). split; [by intros [= ->]|by intros ->].
    + rewrite !Z.land_0_r, Z.max_l by lia. unfold is_byte in *. rewrite !Z.div_small by (cbn; lia). done.
Qed.

(** ** Literals denote addresses *)
Lemma u8_byte x : is_byte (u8 x).
Proof. apply (wrap_in_width 8 x). lia. Qed.

Lemma v4_fields_wf s prev n d fields ip :
  (length fields <= 3)%nat -> Forall is_byte fields -> v4_fields prev n d fields s = Some ip ->
  length ip = 4%nat /\ Forall is_byte ip.
Proof.
  revert prev n d fields. induction s as [|c s IH]; intros prev n d fields Hl Hf; cbn [v4_fields].
  - destruct (Nat.ltb_spec (length fields) 3); [done|]. intros [= <-]. rewrite length_app, Forall_app. cbn.
    split; [lia|]. split; [done|]. repeat constructor; apply u8_byte.
  - destruct (is_digit_b c).
    + destruct (_ && _); [done|]. destruct (255 <? _); [done|]. by apply IH.
    + destruct (is_char 46 c); [|done]. destruct (_ || _); [done|]. destruct (Nat.eqb_spec (length fields) 3); [done|].
      apply IH; [rewrite length_app; cbn; lia|]. rewrite Forall_app. split; [done|]. repeat constructor; apply u8_byte.
Qed.

Lemma v6_groups_wf n s ip el ip' el' s' :
  (length ip + 2 * n = 16)%nat -> Forall is_byte ip -> match el with Some e => (e <= length ip)%nat | None => True end ->
  v6_groups n ip el s = Some (ip', el', s') ->
  (length ip' <= 16)%nat /\ Forall is_byte ip' /\ match el' with Some e => (e <= length ip')%nat | None => True end.
Proof.
  revert s ip el. induction n as [|n IH]; intros s ip el Hl Hb He; cbn [v6_groups].
  { intros [= <- <- <-]. split; [lia|done]. }
  destruct (hex_group 0 0 s) as [[[off acc] rest]|]; [|done]. destruct (off =? 0)%nat; [done|].
  set (ip1 := ip ++ [u8 (Z.shiftr acc 8); u8 acc]).
  assert (length ip1 = (length ip + 2)%nat) as L1 by (unfold ip1; by rewrite length_app).
  assert (Forall is_byte ip1) as B1 by (apply Forall_app; split; [done|]; repeat constructor; apply u8_byte).
  assert (forall e, el = Some e -> (e <= length ip1)%nat) as E1 by (intros e ->; lia).
  assert (match el with Some e => (e <= length ip1)%nat | None => True end) as E2 by (destruct el; [by apply E1|done]).
  destruct rest as [|c rest]; [intros [= <- <- <-]; split; [lia|done]|].
  destruct (is_char 46 c).
  - destruct (_ && _); [done|]. destruct (Nat.ltb_spec 16 (length ip + 4)); [done|].
    destruct (parseIPv4 s) as [f|] eqn:E; [|done]. intros [= <- <- <-].
    apply v4_fields_wf in E as [Lf Bf]; [|cbn; lia|constructor].
    rewrite length_app, Lf. split; [lia|]. split; [by apply Forall_app|]. destruct el; [lia|done].
  - destruct (negb _); [done|]. destruct rest as [|d rest]; [done|]. destruct (is_char 58 d).
    + destruct (bool_decide (el = None)); [|done]. destruct rest as [|d' rest].
      * intros [= <- <- <-]. split_and!; [lia|done|lia].
      * apply IH; [lia|done|lia].
    + apply IH; [lia|done..].
Qed.

Lemma parseIPv6_wf s ip : parseIPv6 s = Some ip -> length ip = 16%nat /\ Forall is_byte ip.
Proof.
  assert (forall n, Forall is_byte (replicate n 0)) as H0 by (intros; apply Forall_replicate; unfold is_byte; lia).
  unfold parseIPv6. cbv zeta. destruct (_ && _); [intros [= <-]; split; [done|apply (H0 16%nat)]|].
  destruct (v6_groups _ _ _ _) as [[[ip1 el] [|]]|] eqn:E; try done.
  apply v6_groups_wf in E as (L & Hb & He); [|done|constructor|by case_match; [cbn; lia|]].
  destruct (Nat.ltb_spec (length ip1) 16), el as [e|]; intros [= <-]; [|split; [lia|done]].
  rewrite !length_app, length_take, length_replicate, length_drop. split; [lia|].
  rewrite !Forall_app. split_and!; [by apply Forall_take|apply H0|by apply Forall_drop].
Qed.

Lemma parseAddr_wf s ip is4 :
  parseAddr s = Some (ip, is4) -> length ip = (if is4 then 4 else 16)%nat /\ Forall is_byte ip.
Proof.
  unfold parseAddr. destruct (has_char 37 s); [done|]. destruct (find _ s) as [c|]; [|done]. destruct (is_char 46 c).
  - destruct (parseIPv4 s) as [v|] eqn:E; [|done]. intros [= <- <-]. apply v4_fields_wf in E; [done|cbn; lia|constructor].
  - destruct (parseIPv6 s) as [v|] eqn:E; [|done]. intros [= <- <-]. by apply (parseIPv6_wf s).
Qed.

Definition wf_ip (ip : list Z) : Prop := length ip = 16%nat /\ Forall is_byte ip.

Lemma ParseIP_wf s ip : ParseIP s = Some ip -> wf_ip ip.
Proof.
  unfold ParseIP. destruct (parseAddr s) as [[v b]|] eqn:E; [|done]. intros [= <-].
  apply parseAddr_wf in E as [L Hb]. destruct b; [|done]. unfold As16, v4_prefix. cbn [fst snd].
  split; [by rewrite length_app, L|]. apply Forall_app. split; [|done].
  repeat (constructor; [unfold is_byte; lia|]). constructor.
Qed.

(** ** Host and port *)
Lemma has_char_app n a b : has_char n (a ++ b) = has_char n a || has_char n b.
Proof. apply existsb_app. Qed.

Lemma has_char_cons n c b : has_char n (c :: b) = is_char n c || has_char n b.
Proof. done. Qed.

Lemma has_char_rev n a : has_char n (rev a) = has_char n a.
Proof.
  induction a as [|c a IH]; [done|]. cbn [rev]. rewrite has_char_app, IH. cbn. by rewrite orb_false_r, orb_comm.
Qed.

Lemma cut_at_app n a c b : has_char n a = false -> is_char n c = true -> cut_at n (a ++ c :: b) = (a, c :: b).
Proof.
  intros Ha Hc. induction a as [|d a IH]; cbn [app cut_at]; [by rewrite Hc|].
  cbn in Ha. apply orb_false_elim in Ha as [Hd Ha]. by rewrite Hd, IH.
Qed.

Lemma cut_last_app n h c p : has_char n p = false -> is_char n c = true -> cut_last n (h ++ c :: p) = Some (h, p).
Proof.
  intros Hp Hc. unfold cut_last. rewrite rev_app_distr. cbn [rev]. rewrite <- app_assoc. cbn [app].
  rewrite cut_at_app by (rewrite ?has_char_rev; done). by rewrite !rev_involutive.
Qed.

(** What the proxy dials is what it was asked for: the dialer splits the joined address at
    the same place. *)
Lemma split_join h p :
  has_char 91 h = false -> has_char 93 h = false ->
  has_char 58 p = false -> has_char 91 p = false -> has_char 93 p = false ->
  h <> [] -> SplitHostPort (JoinHostPort h p) = Some (h, p).
Proof.
  intros Hh1 Hh2 Hp Hp1 Hp2 Hne. unfold JoinHostPort. destruct (has_char 58 h) eqn:Hc.
  - change (B "[" ++ h ++ B "]:" ++ p) with (byte_of 91 :: h ++ byte_of 93 :: byte_of 58 :: p).
    unfold SplitHostPort.
    assert (cut_last 58 (byte_of 91 :: h ++ byte_of 93 :: byte_of 58 :: p) = Some (byte_of 91 :: h ++ [byte_of 93], p)) as ->.
    { rewrite <- (cut_last_app 58 (byte_of 91 :: h ++ [byte_of 93]) (byte_of 58) p) by done.
      cbn [app]. by rewrite <- app_assoc. }
    change (is_char 91 (byte_of 91)) with true. cbv iota. rewrite cut_at_app by done. cbv iota zeta.
    rewrite bool_decide_true by done. by rewrite has_char_app, !has_char_cons, Hh1, Hp1, Hp2.
  - change (B ":" ++ p) with (byte_of 58 :: p). unfold SplitHostPort. rewrite cut_last_app by done.
    destruct h as [|c h]; [done|]. cbn [app]. rewrite has_char_cons in Hh1, Hh2.
    apply orb_false_elim in Hh1 as [Hc1 Hh1], Hh2 as [Hc2 Hh2].
    rewrite Hc1, Hc, !has_char_cons, !has_char_app, !has_char_cons, Hc1, Hc2, Hh1, Hh2, Hp1, Hp2. done.
Qed.
