(* ===== verification/Allowlist.v ===== *)
(** * The destination policy of the egress proxy: [proxy/allowlist.go]

    The file of patterns, which destinations it permits and how a permitted one is handled
    (inspected, or spliced opaque), with a specification by entries of the file. *)
From Stdlib Require Import ZArith Lia Ascii String.
From stdpp Require Import base tactics numbers option strings list gmap.
From S2P Require Import Prelude Endian Maps Bytes Verify AuditFiles NetIP.
#[local] Open Scope string_scope.
#[local] Open Scope list_scope.
#[local] Open Scope Z_scope.

(** ** The code *)
Definition modeInspect : bytes := B "inspect".
Definition modePassthrough : bytes := B "passthrough".
Definition modePinned : bytes := B "pinned".

Definition validMode (m : bytes) : bool :=
  bool_decide (m = modeInspect) || bool_decide (m = modePassthrough) || bool_decide (m = modePinned).

Record suffixRule := SuffixRule { suffix : bytes; s_mode : bytes }.
Record cidrRule := CidrRule { c_net : IPNet; c_mode : bytes }.

Record Allowlist := AllowlistOf {
  all : bool; allMode : bytes; defMode : bytes;
  exact : gmap bytes bytes; suffixes : list suffixRule; cidrs : list cidrRule }.

(** [IndexPanic] stands for the access [fields[0]] out of range. *)
Inductive load_err := BadMode | BadCIDR | OpenFailed | ScanFailed | IndexPanic.

(** The largest line a [bufio.Scanner] accepts without [Buffer]. *)
Definition MaxScanTokenSize : Z := 64 * 1024.

Section code.
  Context `{Unicode}.

(** [env] is the value of BULKHEAD_EGRESS_DEFAULT_MODE, empty when it is not set. *)
Definition defaultEgressMode (env : bytes) : bytes :=
  let m := ToLower env in if validMode m then m else modePassthrough.

(** The line without comment and surrounding space. *)
Definition strip (raw : bytes) : bytes :=
  let line := TrimSpaceB raw in
  if has_char 35 line then TrimSpaceB (cut_at 35 line).1 else line.

(** A line of the file, by the cases of the loop's switch. *)
Inductive entry :=
| EAll (mode : bytes)
| ECidr (n : IPNet) (mode : bytes)
| ESuffix (s mode : bytes)
| EExact (h mode : bytes).

Definition entry_of (def raw : bytes) : result load_err (option entry) :=
  let line := strip raw in
  if bool_decide (line = []) then Ok None
  else match Fields line with
  | [] => Err IndexPanic
  | pat :: rest =>
      let mode := match rest with m :: _ => ToLower m | [] => def end in
      if match rest with _ :: _ => negb (validMode mode) | [] => false end then Err BadMode
      else if bool_decide (pat = B "*") then Ok (Some (EAll mode))
      else if has_char 47 pat then
        match ParseCIDR pat with Some n => Ok (Some (ECidr n mode)) | None => Err BadCIDR end
      else if HasPrefixB pat (B ".") then Ok (Some (ESuffix (ToLower pat) mode))
      else Ok (Some (EExact (ToLower pat) mode))
  end.

Definition add_entry (a : Allowlist) (e : entry) : Allowlist :=
  match e with
  | EAll m => AllowlistOf true m (defMode a) (exact a) (suffixes a) (cidrs a)
  | ECidr n m => AllowlistOf (all a) (allMode a) (defMode a) (exact a) (suffixes a) (cidrs a ++ [CidrRule n m])
  | ESuffix s m => AllowlistOf (all a) (allMode a) (defMode a) (exact a) (suffixes a ++ [SuffixRule s m]) (cidrs a)
  | EExact h m => AllowlistOf (all a) (allMode a) (defMode a) (<[h := m]> (exact a)) (suffixes a) (cidrs a)
  end.

(** The loop over the lines; a line that is too long or a read error ends it. *)
Fixpoint load_lines (readErr : bool) (lines : list bytes) (a : Allowlist) : result load_err Allowlist :=
  match lines with
  | [] => if readErr then Err ScanFailed else Ok a
  | l :: lines =>
      if MaxScanTokenSize <=? len l then Err ScanFailed
      else match entry_of (defMode a) (dropCR l) with
      | Err e => Err e
      | Ok None => load_lines readErr lines a
      | Ok (Some e) => load_lines readErr lines (add_entry a e)
      end
  end.

Definition emptyAllowlist (dm : bytes) : Allowlist := AllowlistOf false dm dm ∅ [] [].

Definition LoadAllowlist (env : bytes) (f : opened) : result load_err Allowlist :=
  let a := emptyAllowlist (defaultEgressMode env) in
  match f with
  | NotExist => Ok a
  | OpenError => Err OpenFailed
  | Opened b readErr => load_lines readErr (ScanLines b) a
  end.

(** ".example.com" matches example.com and its subdomains. *)
Definition suffix_match (h s : bytes) : bool := bool_decide (h = drop 1 s) || HasSuffixB h s.

Definition Allows (a : Allowlist) (host : bytes) : bool :=
  if all a then true
  else
    let h := ToLower host in
    if bool_decide (is_Some (exact a !! h)) then true
    else if existsb (fun s => suffix_match h (suffix s)) (suffixes a) then true
    else match ParseIP host with Some ip => existsb (fun c => Contains (c_net c) ip) (cidrs a) | None => false end.

Definition Mode (a : Allowlist) (host : bytes) : bytes :=
  let h := ToLower host in
  match exact a !! h with
  | Some m => m
  | None =>
      match find (fun s => suffix_match h (suffix s)) (suffixes a) with
      | Some s => s_mode s
      | None =>
          match (ip ← ParseIP host; find (fun c => Contains (c_net c) ip) (cidrs a)) with
          | Some c => c_mode c
          | None => if all a then allMode a else defMode a
          end
      end
  end.

(** ** The specification: entries of the file *)

(** The entries of a file, in its order. *)
Fixpoint entries (def : bytes) (lines : list bytes) : list entry :=
  match lines with
  | [] => []
  | l :: lines => match entry_of def (dropCR l) with Ok (Some e) => e :: entries def lines | _ => entries def lines end
  end.

Definition entry_mode (e : entry) : bytes := match e with EAll m | ECidr _ m | ESuffix _ m | EExact _ m => m end.

Definition matches (host : bytes) (e : entry) : bool :=
  match e with
  | EAll _ => true
  | ECidr n _ => match ParseIP host with Some ip => Contains n ip | None => false end
  | ESuffix s _ => suffix_match (ToLower host) s
  | EExact h _ => bool_decide (ToLower host = h)
  end.

(** Exact names before suffixes, before networks, before the star. *)
Definition rank (e : entry) : nat := match e with EExact _ _ => 0 | ESuffix _ _ => 1 | ECidr _ _ => 2 | EAll _ => 3 end.

(** The mode of a host: of the entries that match, the lowest rank decides; of several names
    or stars the last, of several suffixes or networks the first. *)
Definition pick (r : nat) (host : bytes) (es : list entry) : option entry :=
  let hits := filter (fun e => matches host e = true /\ rank e = r) es in
  if bool_decide (r = 0%nat \/ r = 3%nat) then last hits else head hits.

Fixpoint first_pick (rs : list nat) (host : bytes) (es : list entry) (def : bytes) : bytes :=
  match rs with
  | [] => def
  | r :: rs => match pick r host es with Some e => entry_mode e | None => first_pick rs host es def end
  end.

Definition mode_spec (host : bytes) (es : list entry) (def : bytes) : bytes := first_pick [0; 1; 2; 3]%nat host es def.
End code.

(** ** Loading *)
Section loading.
  Context `{Unicode}.

Lemma fields_from_word l w : w <> [] -> fields_from w l <> [].
Proof.
  assert (forall w ws, w <> [] -> flush w ws <> []) as Hf by (by intros [|] ?).
  revert w. induction l as [|a l1 IH]; intros w Hw; cbn [fields_from]; [by apply Hf|].
  destruct (space1 a); [by apply Hf|]. destruct l1 as [|b l2]; [by apply IH|]. destruct (space2 a b); [by apply Hf|].
  destruct l2 as [|c l3]; [by apply IH|]. destruct (space3 a b c); [by apply Hf|by apply IH].
Qed.

(** The string starts with a white-space rune. *)
Definition starts_space (l : bytes) : bool :=
  match l with
  | a :: b :: c :: _ => space1 a || space2 a b || space3 a b c
  | [a; b] => space1 a || space2 a b
  | [a] => space1 a
  | [] => false
  end.

Lemma trim_left_starts l : starts_space (trim_left l) = false.
Proof.
  induction l as [l IH] using (induction_ltof1 _ (@length ascii)). unfold ltof in IH.
  destruct l as [|a l1]; [done|]. cbn [trim_left]. destruct (space1 a) eqn:E1; [apply IH; cbn; lia|].
  destruct l1 as [|b l2]; [done|]. destruct (space2 a b) eqn:E2; [apply IH; cbn; lia|].
  destruct l2 as [|c l3]; [cbn; by rewrite E1, E2|]. destruct (space3 a b c) eqn:E3; [apply IH; cbn; lia|].
  cbn. by rewrite E1, E2, E3.
Qed.

Lemma starts_space_prefix t u : starts_space (t ++ u) = false -> starts_space t = false.
Proof.
  destruct t as [|a [|b [|c t]]], u as [|d [|e u]]; cbn; rewrite ?orb_false_iff; tauto.
Qed.

Lemma Fields_nonempty t : starts_space t = false -> t <> [] -> Fields t <> [].
Proof.
  unfold Fields. destruct t as [|a [|b [|c t]]]; [done|..]; cbn [starts_space fields_from]; rewrite ?orb_false_iff.
  - by intros -> _.
  - intros [-> ->] _. destruct (space1 b); done || by apply fields_from_word.
  - intros [[-> ->] ->] _. by apply (fields_from_word (b :: c :: t)).
Qed.

Lemma TrimSpaceB_starts l : starts_space (TrimSpaceB l) = false.
Proof.
  unfold TrimSpaceB. pose proof (trim_left_starts l) as Hs. set (u := trim_left l) in *.
  destruct (trim_rev_suffix (rev u)) as [t Ht]. apply (f_equal (@rev _)) in Ht.
  rewrite rev_involutive, rev_app_distr in Ht. rewrite Ht in Hs. by apply starts_space_prefix in Hs.
Qed.

Lemma strip_starts raw : starts_space (strip raw) = false.
Proof. unfold strip. cbv zeta. destruct (has_char 35 _); apply TrimSpaceB_starts. Qed.

(** The access [fields[0]] is never out of range. *)
Lemma entry_of_no_panic def raw : entry_of def raw <> Err IndexPanic.
Proof.
  unfold entry_of. cbv zeta. case_bool_decide; [done|].
  destruct (Fields (strip raw)) as [|pat rest] eqn:E; [by apply Fields_nonempty in E; [|apply strip_starts|]|].
  repeat case_match; done.
Qed.

Lemma load_lines_no_panic r lines a : load_lines r lines a <> Err IndexPanic.
Proof.
  revert a. induction lines as [|l lines IH]; intros a; cbn [load_lines]; [by destruct r|].
  destruct (_ <=? _); [done|]. pose proof (entry_of_no_panic (defMode a) (dropCR l)) as Hn.
  destruct (entry_of _ _) as [[e|]|e]; [apply IH|apply IH|congruence].
Qed.

(** What is loaded is the fold of the entries over the empty list. *)
Lemma defMode_foldl a es : defMode (foldl add_entry a es) = defMode a.
Proof. revert a. induction es as [|[] es IH]; intros a; cbn [foldl]; rewrite ?IH; done. Qed.

Lemma load_lines_entries r lines a a' :
  load_lines r lines a = Ok a' -> a' = foldl add_entry a (entries (defMode a) lines).
Proof.
  revert a. induction lines as [|l lines IH]; intros a; cbn [load_lines entries]; [by destruct r; intros [= <-]|].
  destruct (_ <=? _); [done|]. destruct (entry_of _ _) as [[e|]|e]; [|apply IH|done].
  intros E%IH. rewrite E. cbn [foldl]. f_equal. by destruct e.
Qed.

Lemma LoadAllowlist_entries env b r a :
  LoadAllowlist env (Opened b r) = Ok a ->
  a = foldl add_entry (emptyAllowlist (defaultEgressMode env)) (entries (defaultEgressMode env) (ScanLines b)).
Proof. apply load_lines_entries. Qed.

(** ** Which destinations are permitted *)
Lemma Allows_add a e host : Allows (add_entry a e) host = Allows a host || matches host e.
Proof.
  unfold Allows. cbv zeta. destruct e as [m|n m|s m|h m]; cbn [add_entry all exact suffixes cidrs matches].
  - by rewrite orb_true_r.
  - destruct (all a); [done|]. destruct (bool_decide _); [done|]. destruct (existsb _ _); [done|].
    destruct (ParseIP host) as [ip|]; [|done]. rewrite existsb_app. cbn. by rewrite orb_false_r.
  - destruct (all a); [done|]. destruct (bool_decide _); [done|]. rewrite existsb_app. cbn [existsb suffix].
    rewrite orb_false_r. destruct (existsb _ _); [done|]. cbn [orb].
    destruct (suffix_match _ _), (ParseIP host); try done; by destruct (existsb _ _).
  - destruct (all a); [done|]. destruct (decide (ToLower host = h)) as [<-|Hne].
    + rewrite lookup_insert_eq. rewrite (bool_decide_true (is_Some _)) by done.
      rewrite (bool_decide_true (ToLower host = ToLower host)) by done. by rewrite orb_true_r.
    + rewrite lookup_insert_ne by done. rewrite (bool_decide_false (ToLower host = h)) by done. by rewrite orb_false_r.
Qed.

Lemma Allows_foldl a es host : Allows (foldl add_entry a es) host = Allows a host || existsb (matches host) es.
Proof.
  revert a. induction es as [|e es IH]; intros a; cbn [foldl existsb]; [by rewrite orb_false_r|].
  by rewrite IH, Allows_add, orb_assoc.
Qed.

Lemma Allows_empty dm host : Allows (emptyAllowlist dm) host = false.
Proof. unfold Allows, emptyAllowlist. cbn. by destruct (ParseIP host). Qed.

(** ** How a permitted destination is handled *)
Lemma pick_snoc r host es e :
  pick r host (es ++ [e])
  = if matches host e && bool_decide (rank e = r)
    then if bool_decide (r = 0%nat \/ r = 3%nat) then Some e else match pick r host es with Some e' => Some e' | None => Some e end
    else pick r host es.
Proof.
  unfold pick. cbv zeta. rewrite filter_app, filter_cons, filter_nil.
  destruct (matches host e) eqn:Hm; cbn [andb]; [|by rewrite decide_False, app_nil_r by (by intros [? _])].
  destruct (bool_decide_reflect (rank e = r)) as [Hr|Hr]; [|by rewrite decide_False, app_nil_r by (by intros [_ ?])].
  rewrite decide_True by done. destruct (bool_decide _); [by rewrite last_snoc|]. by destruct (filter _ es).
Qed.

Definition loaded (dm : bytes) (es : list entry) : Allowlist := foldl add_entry (emptyAllowlist dm) es.

Lemma loaded_snoc dm es e : loaded dm (es ++ [e]) = add_entry (loaded dm es) e.
Proof. apply foldl_snoc. Qed.

Lemma find_app {A} (f : A -> bool) l l' : find f (l ++ l') = match find f l with Some x => Some x | None => find f l' end.
Proof. induction l as [|x l IH]; [done|]. cbn. by destruct (f x). Qed.

(** Each map or list of the loaded policy answers for the entries of its rank. *)
Lemma loaded_picks dm es host :
  exact (loaded dm es) !! ToLower host = entry_mode <$> pick 0 host es
  /\ s_mode <$> find (fun s => suffix_match (ToLower host) (suffix s)) (suffixes (loaded dm es)) = entry_mode <$> pick 1 host es
  /\ c_mode <$> (ip ← ParseIP host; find (fun c => Contains (c_net c) ip) (cidrs (loaded dm es))) = entry_mode <$> pick 2 host es
  /\ (if all (loaded dm es) then Some (allMode (loaded dm es)) else None) = entry_mode <$> pick 3 host es.
Proof.
  induction es as [|e es (I0 & I1 & I2 & I3)] using rev_ind.
  { cbn. split_and!; [done|done| |done]. by destruct (ParseIP host). }
  rewrite loaded_snoc, !pick_snoc. set (a := loaded dm es) in *. clearbody a.
  change (bool_decide (0%nat = 0%nat \/ 0%nat = 3%nat)) with true. change (bool_decide (1%nat = 0%nat \/ 1%nat = 3%nat)) with false.
  change (bool_decide (2%nat = 0%nat \/ 2%nat = 3%nat)) with false. change (bool_decide (3%nat = 0%nat \/ 3%nat = 3%nat)) with true.
  destruct e as [m|n m|s m|h m]; cbn [add_entry all allMode exact suffixes cidrs matches rank andb].
  - split_and!; [exact I0|exact I1|exact I2|done].
  - split_and!; [by rewrite andb_false_r|by rewrite andb_false_r| |by rewrite andb_false_r].
    rewrite andb_true_r. destruct (ParseIP host) as [ip|]; [|done]. cbn [mbind option_bind] in *. rewrite find_app.
    cbn [find c_net]. destruct (find _ (cidrs a)) as [c|], (pick 2 host es) as [e|], (Contains n ip); cbn in *; congruence.
  - split_and!; [by rewrite andb_false_r| |by rewrite andb_false_r|by rewrite andb_false_r].
    rewrite andb_true_r. rewrite find_app. cbn [find suffix].
    destruct (find _ (suffixes a)) as [c|], (pick 1 host es) as [e|], (suffix_match (ToLower host) s); cbn in *; congruence.
  - split_and!; [|by rewrite andb_false_r|by rewrite andb_false_r|by rewrite andb_false_r].
    rewrite andb_true_r. case_bool_decide as E; [by rewrite <- E, lookup_insert_eq|by rewrite lookup_insert_ne].
Qed.

Lemma Mode_loaded dm es host : Mode (loaded dm es) host = mode_spec host es dm.
Proof.
  destruct (loaded_picks dm es host) as (P0 & P1 & P2 & P3). unfold Mode, mode_spec. cbv zeta. cbn [first_pick].
  assert (defMode (loaded dm es) = dm) as -> by apply defMode_foldl.
  rewrite P0. destruct (pick 0 host es); [done|]. cbn [fmap option_fmap option_map].
  destruct (find _ (suffixes _)), (pick 1 host es); cbn in P1; try congruence.
  destruct (ParseIP host ≫= _), (pick 2 host es); cbn in P2; try congruence.
  destruct (all _), (pick 3 host es); cbn in P3; congruence.
Qed.
End loading.
