(* ===== verification/Proxy.v ===== *)
(** * The egress proxy: [proxy/proxy.go], [proxy/mitm.go] and the records of [proxy/audit.go]

    The dial guard, the parse of a request, and [handleConn] with the inspected relay, as a
    process that acts on its connection and appends records to the signed log. The log is
    that of [AuditLog]: [append] of [proxy/audit.go] is the collector's with cgroup and pid
    zero. Resolution, the order of dial attempts, TLS handshakes and failing replies are
    inputs of a connection; the HTTP/1.1 parser supplies the requests of a terminated flow,
    and [http.Request.Write] is an argument. *)
From Stdlib Require Import ZArith Lia Ascii String.
From stdpp Require Import base tactics numbers option strings list gmap.
From S2P Require Import Prelude Endian Maps Bytes Json Control Broker Verify AuditLog NetIP Allowlist.
#[local] Open Scope string_scope.
#[local] Open Scope list_scope.
#[local] Open Scope Z_scope.

(** ** The dial guard *)

(** [net.IPv4(a, b, c, d)]. *)
Definition IPv4 (a b c d : Z) : list Z := v4_prefix ++ [a; b; c; d].

Definition embeddedV4 (ip : list Z) : option (list Z) :=
  if negb (length ip =? 16)%nat || bool_decide (is_Some (To4 ip)) then None
  else if bool_decide (take 12 ip = [0x00; 0x64; 0xff; 0x9b] ++ replicate 8 0)
  then Some (IPv4 (at_ ip 12) (at_ ip 13) (at_ ip 14) (at_ ip 15))
  else if (at_ ip 0 =? 0x20) && (at_ ip 1 =? 0x02)
  then Some (IPv4 (at_ ip 2) (at_ ip 3) (at_ ip 4) (at_ ip 5))
  else None.

Definition stdlib_internal (ip : list Z) : bool :=
  IsLoopback ip || IsPrivate ip || IsLinkLocalUnicast ip || IsLinkLocalMulticast ip || IsMulticast ip || IsUnspecified ip.

Definition special_v4 (v4 : list Z) : bool :=
  ((at_ v4 0 =? 100) && (Z.land (at_ v4 1) 0xc0 =? 64))
  || (Z.land (at_ v4 0) 0xf0 =? 0xf0)
  || ((at_ v4 0 =? 198) && (Z.land (at_ v4 1) 0xfe =? 18))
  || ((at_ v4 0 =? 192) && (at_ v4 1 =? 0) && (at_ v4 2 =? 0)).

(** The recursion of the code is on the address embedded in another: [fuel] levels of it. *)
Fixpoint internal_fuel (fuel : nat) (ip : list Z) : bool :=
  if stdlib_internal ip then true
  else match To4 ip with
  | Some v4 => special_v4 v4
  | None =>
      if (length ip =? 16)%nat && (at_ ip 0 =? 0xfe) && (Z.land (at_ ip 1) 0xc0 =? 0xc0) then true
      else match embeddedV4 ip, fuel with
      | Some e, S fuel => internal_fuel fuel e
      | _, _ => false
      end
  end.

Definition isInternalIP (ip : list Z) : bool := internal_fuel 1 ip.

Inductive dial_err := Unparseable | NonIP | InternalAddress | Unreachable.

Definition checkDialAddr (address : bytes) (allow : list IPNet) : result dial_err unit :=
  match SplitHostPort address with
  | None => Err Unparseable
  | Some (host, _) =>
      match ParseIP host with
      | None => Err NonIP
      | Some ip =>
          if existsb (fun n => Contains n ip) allow then Ok tt
          else if isInternalIP ip then Err InternalAddress else Ok tt
      end
  end.

(** [dialer.Dial]: the attempts in the order they are made, [dialer.Control] before each
    connect; the first error is the one reported. *)
Record attempt := Attempt { at_addr : bytes; at_connects : bool }.

Fixpoint dial_from (allow : list IPNet) (first : option dial_err) (l : list attempt) : result dial_err bytes :=
  match l with
  | [] => Err (default Unreachable first)
  | t :: l =>
      match checkDialAddr (at_addr t) allow with
      | Err e => dial_from allow (Some (default e first)) l
      | Ok _ => if at_connects t then Ok (at_addr t) else dial_from allow (Some (default Unreachable first)) l
      end
  end.

(** ** The request *)
Definition maxRequestLen : nat := 300.

Inductive req_err := ReadFailed | TooLong | ControlByte | NotConnect | BadHostPort | BadHost (e : host_err) | BadPort
with host_err := EmptyHost | NumericHost | LongHost | LabelLength | LabelChar | LabelHyphen.

(** One byte at a time; [max] more may be kept. The rest of the stream is left unread. *)
Fixpoint readLine (max : nat) (buf s : bytes) : result req_err bytes * bytes :=
  match max with
  | O => (Err TooLong, s)
  | S max =>
      match s with
      | [] => (Err ReadFailed, [])
      | c :: s => if Ascii.eqb c newline then (Ok (rev buf), s) else readLine max (c :: buf) s
      end
  end.

Definition isNumericAlias (h : bytes) : bool :=
  if HasPrefixB h (B "0x") || HasPrefixB h (B "0X") then true
  else forallb (fun c => is_digit_b c || is_char 46 c) h.

Definition label_char (c : ascii) : bool := is_char 45 c || is_digit_b c || between 97 122 c || between 65 90 c.

Definition check_label (label : bytes) : result host_err unit :=
  match label, last label with
  | c :: _, Some z =>
      if (63 <? length label)%nat then Err LabelLength
      else if negb (forallb label_char label) then Err LabelChar
      else if is_char 45 c || is_char 45 z then Err LabelHyphen else Ok tt
  | _, _ => Err LabelLength
  end.

Fixpoint check_labels (ls : list bytes) : result host_err unit :=
  match ls with
  | [] => Ok tt
  | l :: ls => match check_label l with Err e => Err e | Ok _ => check_labels ls end
  end.

Definition validateHost (h : bytes) : result host_err unit :=
  if bool_decide (h = []) then Err EmptyHost
  else if bool_decide (is_Some (ParseIP h)) then Ok tt
  else if isNumericAlias h then Err NumericHost
  else if (253 <? length h)%nat then Err LongHost
  else check_labels (SplitOn 46 h).

Definition validatePort (p : bytes) : bool :=
  match parse_int (string_of_list_ascii p) with Some n => (1 <=? n) && (n <=? 65535) | None => false end.

Definition is_control (c : ascii) : bool := (val c <? 0x20) || is_char 0x7f c.

(** A request line, once it is read. *)
Definition parse_request (line : bytes) : result req_err (bytes * bytes) :=
  if existsb is_control line then Err ControlByte
  else if negb (HasPrefixB line (B "CONNECT ")) then Err NotConnect
  else match SplitHostPort (drop 8 line) with
  | None => Err BadHostPort
  | Some (host, port) =>
      match validateHost host with
      | Err e => Err (BadHost e)
      | Ok _ => if validatePort port then Ok (host, port) else Err BadPort
      end
  end.

Definition readRequest (s : bytes) : result req_err (bytes * bytes) * bytes :=
  match readLine maxRequestLen [] s with
  | (Err e, rest) => (Err e, rest)
  | (Ok line, rest) => (parse_request line, rest)
  end.

(** ** Records *)
Definition maxAuditDstLen : nat := 260.

(** The cut moves back to the start of a rune. *)
Fixpoint rune_cut (cut : nat) (s : bytes) : nat :=
  match cut with
  | O => O
  | S cut' => match s !! cut with Some c => if is_cont c then rune_cut cut' s else cut | None => cut end
  end.

Definition bounded (s : bytes) : bytes :=
  if (length s <=? maxAuditDstLen)%nat then s else take (rune_cut maxAuditDstLen s) s ++ B "...(truncated)".

Definition boundMode (s : bytes) : bytes := bounded s.

Definition dst_of (host port : bytes) : bytes := if bool_decide (port = []) then host else host ++ B ":" ++ port.

Definition proxy_event (hook decision mode : bytes) : provEvent := ProvEvent 0 0 (B "egress-proxy") hook decision mode.

Definition egress_event (host port decision reason : bytes) : provEvent :=
  proxy_event (B "connect") decision
    (B "dst=" ++ bounded (dst_of host port) ++ (if bool_decide (reason = []) then [] else B " reason=" ++ reason)).

Definition passthrough_event (host port reason : bytes) : provEvent :=
  proxy_event (B "passthrough") (B "allow") (boundMode (B "dst=" ++ dst_of host port ++ B " reason=" ++ reason)).

Definition dec (n : Z) : bytes := B (Itoa n).

Definition inspect_event (host method path : bytes) (reqBytes respBytes : Z) (decision reason : bytes) : provEvent :=
  proxy_event (B "inspect") decision
    (boundMode (B "host=" ++ host ++ B " method=" ++ method ++ B " path=" ++ path
       ++ B " reqb=" ++ dec reqBytes ++ B " respb=" ++ dec respBytes
       ++ (if bool_decide (reason = []) then [] else B " reason=" ++ reason))).

(** ** Processes *)
Inductive action :=
| Reply (msg : bytes)
| Splice (host port addr rest : bytes)   (* the opaque relay, from the unread stream on *)
| Send (host port addr out : bytes).     (* bytes of an inspected flow to the upstream *)

(** A process acts, or appends a record and continues by whether it was acknowledged. *)
Inductive proc :=
| Done
| Act (a : action) (k : proc)
| Rec (ev : provEvent) (k : bool -> proc).

Record Proxy := ProxyOf {
  allow : Allowlist; internalCIDRs : list IPNet; audit : bool;
  mitm : bool; tlsPorts : list bytes; maxReqBytes : Z; denyNeedles : list bytes; allowMethods : list bytes }.

(** A parsed request: its line, its Host, and what reading its body gives. *)
Record request := Request { r_method : bytes; r_uri : bytes; r_host : bytes; r_body : bytes }.
Inductive read_result := ReadReq (r : request) (write_ok : bool) | StreamEnd | Malformed.

(** What the environment does to a connection. *)
Record conn := Conn {
  cn_stream : bytes;             (* what the agent sends before it waits for the reply *)
  cn_dial : bytes -> list attempt; (* dial attempts for "host:port" *)
  cn_reply_ok : bool;            (* the OK reply is written *)
  cn_leaf : bool; cn_agent_tls : bool; cn_upstream_tls : bool;
  cn_requests : list read_result; cn_respBytes : Z }.

(** ** Configuration *)

(** [strings.FieldsFunc] for separators in ASCII. *)
Fixpoint fields_func (f : ascii -> bool) (word s : bytes) : list bytes :=
  match s with
  | [] => flush word []
  | c :: s => if f c then flush word (fields_func f [] s) else fields_func f (c :: word) s
  end.

Definition parseCIDRs (s : bytes) : option (list IPNet) :=
  mapM ParseCIDR (fields_func (fun c => is_char 44 c || is_char 32 c || is_char 9 c) [] s).

Definition parsePorts (s : bytes) : list bytes := fields_func (fun c => is_char 44 c || is_char 32 c) [] s.

Definition splitNonEmpty (s : bytes) : list bytes := filter (fun f => f <> []) (TrimSpaceB <$> SplitOn 44 s).

Definition methodSet `{Unicode} (s : bytes) : list bytes :=
  filter (fun f => f <> []) ((fun m => ToUpper (TrimSpaceB m)) <$> SplitOn 44 s).

Definition envOr (v def : bytes) : bytes := if bool_decide (v = []) then def else v.

Definition envIntOr (v : bytes) (def : Z) : Z :=
  match parse_int (string_of_list_ascii v) with Some n => if 0 <? n then n else def | None => def end.

(** The environment of the proxy; a variable that is not set is empty. *)
Record proxy_env := ProxyEnv {
  ev_default_mode : bytes; ev_internal : bytes; ev_ports : bytes; ev_max_req : bytes; ev_needles : bytes; ev_methods : bytes }.

(** [main] up to the listener: the policy, the opt-in, and inspection when a CA is loaded. *)
Definition configure `{Unicode} (e : proxy_env) (policy : opened) (ca : bool) : option Proxy :=
  match LoadAllowlist (ev_default_mode e) policy, parseCIDRs (ev_internal e) with
  | Ok a, Some cidrs =>
      Some (if ca then ProxyOf a cidrs true true (parsePorts (envOr (ev_ports e) (B "443")))
                         (envIntOr (ev_max_req e) (2 ^ 20)) (splitNonEmpty (ev_needles e)) (methodSet (ev_methods e))
            else ProxyOf a cidrs true false [] 0 [] [])
  | _, _ => None
  end.

Section handler.
  Context `{Unicode}.
  Context (Write : request -> bytes -> option bytes).
  Context (p : Proxy).

(** [p.record]: best effort. *)
Definition record_ (ev : provEvent) (k : proc) : proc := if audit p then Rec ev (fun _ => k) else k.

(** A record the flow depends on. *)
Definition record_or (ev : provEvent) (fail k : proc) : proc :=
  if audit p then Rec ev (fun ok => if ok then k else fail) else k.

Definition reply_end (msg : string) : proc := Act (Reply (B msg)) Done.

Definition maxInspectBody : Z := 8 * 2 ^ 20.

Definition readInspectBody (body : bytes) : bytes * bool :=
  let limit := if (maxReqBytes p <=? 0) || (maxInspectBody <? maxReqBytes p) then maxInspectBody else maxReqBytes p in
  let data := take (Z.to_nat (limit + 1)) body in
  if limit <? len data then (take (Z.to_nat limit) data, true) else (data, false).

(** [bytes.Contains]. *)
Fixpoint ContainsB (s sub : bytes) : bool :=
  HasPrefixB s sub || match s with [] => false | _ :: s => ContainsB s sub end.

(** [None] allows the request. *)
Definition inspectRequest (method serialized : bytes) (reqBytes : Z) : option bytes :=
  if negb (bool_decide (allowMethods p = [])) && negb (bool_decide (ToUpper method ∈ allowMethods p))
  then Some (B "method:" ++ method)
  else if (0 <? maxReqBytes p) && (maxReqBytes p <? reqBytes) then Some (B "req-byte-cap")
  else if existsb (ContainsB serialized) (denyNeedles p) then Some (B "needle") else None.

Definition stripPort (h : bytes) : bytes := match SplitHostPort h with Some (host, _) => host | None => h end.

Record inspectState := InspectState {
  i_method : bytes; i_path : bytes; i_reqBytes : Z; i_denied : bool; i_reason : bytes }.

Definition deny (reason : bytes) (st : inspectState) : inspectState :=
  InspectState (i_method st) (i_path st) (i_reqBytes st) true reason.

(** The agent-to-upstream loop of [inspectRelay]: it ends in [k] with the final state. *)
Fixpoint relay (host port addr : bytes) (k : inspectState -> proc) (first : bool) (st : inspectState)
    (reads : list read_result) : proc :=
  match reads with
  | [] | StreamEnd :: _ => k st
  | Malformed :: _ => k (deny (B "malformed-request") st)
  | ReadReq r write_ok :: reads =>
      let '(body, capped) := readInspectBody (r_body r) in
      if capped then k (deny (B "req-byte-cap") st)
      else match Write r body with
      | None => k st
      | Some out =>
          let h := stripPort (r_host r) in
          let mismatch := negb (bool_decide (h = [])) && negb (EqualFold h host) && bool_decide (i_reason st = []) in
          let st := InspectState (if first then r_method r else i_method st) (if first then r_uri r else i_path st)
                      (i_reqBytes st + len out) (i_denied st)
                      (if mismatch then B "finding:host-mismatch(" ++ h ++ B ")" else i_reason st) in
          match inspectRequest (r_method r) out (i_reqBytes st) with
          | Some reason => k (deny reason st)
          | None => if write_ok then Act (Send host port addr out) (relay host port addr k false st reads) else k st
          end
      end
  end.

Definition inspectRelay (c : conn) (host port addr : bytes) : proc :=
  relay host port addr
    (fun st => record_ (inspect_event host (i_method st) (i_path st) (i_reqBytes st) (cn_respBytes c)
                          (if i_denied st then B "deny" else B "allow") (i_reason st)) Done)
    true (InspectState [] [] 0 false []) (cn_requests c).

Definition recordInspectDeny (host reason : bytes) (k : proc) : proc :=
  record_ (inspect_event host [] [] 0 0 (B "deny") reason) k.

Definition terminate (c : conn) (host port addr : bytes) : proc :=
  if negb (cn_reply_ok c) then Done
  else Act (Reply (B "OK"))
    (if negb (cn_leaf c) then recordInspectDeny host (B "leaf-mint-fail") Done
     else if negb (cn_agent_tls c) then recordInspectDeny host (B "tls-handshake-fail") Done
     else if negb (cn_upstream_tls c) then recordInspectDeny host (B "upstream-verify-fail") Done
     else inspectRelay c host port addr).

Definition tls_port (port : bytes) : bool := bool_decide (port ∈ tlsPorts p).

Definition deny_record (host port : bytes) (reason : string) (k : proc) : proc :=
  record_ (egress_event host port (B "deny") (B reason)) k.

(** [handleConn] once a slot is taken. *)
Definition handleConn (c : conn) : proc :=
  match readRequest (cn_stream c) with
  | (Err _, _) => reply_end "ERR badrequest"
  | (Ok (host, port), rest) =>
      if negb (Allows (allow p) host) then deny_record host port "allowlist" (reply_end "ERR denied")
      else
        let mode := Mode (allow p) host in
        if bool_decide (mode = modeInspect) && negb (mitm p && tls_port port)
        then deny_record host port "inspect-unavailable" (reply_end "ERR denied")
        else match dial_from (internalCIDRs p) None (cn_dial c (JoinHostPort host port)) with
        | Err e =>
            deny_record host port (match e with InternalAddress => "internal-denied" | _ => "upstream-unreachable" end)
              (reply_end "ERR upstream")
        | Ok addr =>
            record_or (egress_event host port (B "allow") []) (reply_end "ERR audit")
              (if bool_decide (mode = modeInspect) then terminate c host port addr
               else
                 let reason := if bool_decide (mode = modePinned) then "pinned" else "default" in
                 record_or (passthrough_event host port (B reason)) (reply_end "ERR audit")
                   (if cn_reply_ok c then Act (Reply (B "OK")) (Act (Splice host port addr rest) Done) else Done))
        end
  end.
End handler.

(** ** The running proxy

    Connections interleave at their actions and appends; appends are serialised by the
    mutex of the log. Power may be lost at any point and the proxy started again. *)
Definition maxConcurrent : nat := 256.

Inductive obs := OAct (a : action) | ORec (ev : provEvent) (ok : bool).

(** A connection is its process and whether it holds a slot of the semaphore. *)
Record sys := Sys {
  y_log : log_state; y_hist : list log_event; y_conns : list (bool * proc); y_trace : list (nat * obs) }.

Inductive label :=
| Start (repair_ok : bool)
| Accept (c : conn)
| Step (i : nat) (x : io)
| Crash (x : io) (ev : provEvent) (mid_rotate : bool) (k : nat).

Definition running (pr : proc) : bool := match pr with Done => false | _ => true end.
Definition holds_slot (c : bool * proc) : bool := c.1 && running c.2.

Section system.
  Context `{Unicode}.
  Context (Write : request -> bytes -> option bytes) (p : Proxy).
  Context (Unmarshal : bytes -> option auditRecord) (base : string) (rotateBytes : Z) (segKeep : nat) (sign : bytes -> bytes).

Definition proxy_domain : bytes := B "egress-proxy".
Definition log_do (s : sys) (e : log_event) : log_state :=
  log_step Unmarshal base proxy_domain rotateBytes segKeep sign (y_log s) e.

Definition exec (s : sys) (l : label) : sys :=
  match l, y_log s with
  | Start r, (None, _) => Sys (log_do s (Boot r)) (y_hist s ++ [Boot r]) (y_conns s) (y_trace s)
  | Accept c, (Some _, _) =>
      let pr := if (count_if holds_slot (y_conns s) <? maxConcurrent)%nat then (true, handleConn Write p c)
                else (false, reply_end "ERR busy") in
      Sys (y_log s) (y_hist s) (y_conns s ++ [pr]) (y_trace s)
  | Step i x, (Some a, fs) =>
      match y_conns s !! i with
      | Some (slot, Act act k) => Sys (y_log s) (y_hist s) (<[i := (slot, k)]> (y_conns s)) (y_trace s ++ [(i, OAct act)])
      | Some (slot, Rec ev k) =>
          let ok := (append base proxy_domain rotateBytes segKeep sign x ev a fs).1.1 in
          Sys (log_do s (Append x ev)) (y_hist s ++ [Append x ev]) (<[i := (slot, k ok)]> (y_conns s)) (y_trace s ++ [(i, ORec ev ok)])
      | _ => s
      end
  | Crash x ev mid k, (Some _, _) =>
      Sys (log_do s (PowerLoss x ev mid k)) (y_hist s ++ [PowerLoss x ev mid k]) ((fun c => (c.1, Done)) <$> y_conns s) (y_trace s)
  | _, _ => s
  end.

Definition sys_run (fs : dir) (ls : list label) : sys := foldl exec (Sys (None, fs) [] [] []) ls.
End system.
