(* ===== verification/GuardProps.v ===== *)
(** * The dial guard as address prefixes

    [isInternalIP] is the union of a list of prefixes, addresses that carry an IPv4 address
    being judged by it; it denies whatever the kernel's classifier does not call public. *)
From Stdlib Require Import ZArith Lia Ascii String Btauto.
From stdpp Require Import base tactics numbers option strings list gmap.
From S2P Require Import Prelude Endian Objects Maps Kernel Classify Fixtures Egress Bytes Json Control Broker Verify AuditLog NetIP Allowlist Proxy.
#[local] Open Scope string_scope.
#[local] Open Scope list_scope.
#[local] Open Scope Z_scope.

(** ** The specification *)

(** [a] is in the prefix of [l] bits of [b], in a space of [bits] bits. *)
Definition within (bits a : Z) (n : Z * Z) : bool := a / 2 ^ (bits - n.2) =? n.1 / 2 ^ (bits - n.2).

Definition internal_nets4 : list (Z * Z) :=
  [ (quad 127 0 0 0, 8); (quad 10 0 0 0, 8); (quad 172 16 0 0, 12); (quad 192 168 0 0, 16); (quad 169 254 0 0, 16);
    (quad 224 0 0 0, 4); (quad 0 0 0 0, 32);
    (quad 100 64 0 0, 10); (quad 240 0 0 0, 4); (quad 198 18 0 0, 15); (quad 192 0 0 0, 24) ].

(** ::1, ::, fc00::/7, fe80::/10, ff00::/8, fec0::/10. *)
Definition internal_nets6 : list (Z * Z) :=
  [ (1, 128); (0, 128); (0xfc00 * 2 ^ 112, 7); (0xfe80 * 2 ^ 112, 10); (0xff00 * 2 ^ 112, 8); (0xfec0 * 2 ^ 112, 10) ].

Definition mapped_net : Z * Z := (0xffff * 2 ^ 32, 96).       (* ::ffff:0:0/96 *)
Definition nat64_net : Z * Z := (0x0064ff9b * 2 ^ 96, 96).    (* 64:ff9b::/96 *)
Definition sixto4_net : Z * Z := (0x2002 * 2 ^ 112, 16).      (* 2002::/16 *)

Definition internal4 (a : Z) : bool := existsb (within 32 a) internal_nets4.

Definition internal6 (a : Z) : bool :=
  if within 128 a mapped_net then internal4 (a mod 2 ^ 32)
  else existsb (within 128 a) internal_nets6
       || (within 128 a nat64_net && internal4 (a mod 2 ^ 32))
       || (within 128 a sixto4_net && internal4 (a / 2 ^ 80 mod 2 ^ 32)).

(** ** Prefixes byte by byte *)
Fixpoint hits (m b l : list Z) : bool :=
  match m, b, l with
  | mm :: m, y :: b, x :: l =>
      match mm with 0 => true | 255 => x =? y | _ => Z.land x mm =? Z.land y mm end && hits m b l
  | _, _, _ => true
  end.

Lemma hits_spec m b l :
  length m = length l -> length b = length l -> Forall is_byte b -> Forall is_byte l ->
  hits m b l = bool_decide (mask_bytes b m = mask_bytes l m).
Proof.
  unfold mask_bytes. revert b l. induction m as [|mm m IH]; intros [|y b] [|x l] Hm Hlb Hb Hl; try done.
  apply Forall_cons in Hb as [Hy Hb], Hl as [Hx Hl]. injection Hm as Hm. injection Hlb as Hlb. cbn [hits zip_with].
  rewrite (IH b l) by done. apply eq_true_iff_eq. rewrite andb_true_iff, !bool_decide_eq_true.
  assert ((match mm with 0 => true | 255 => x =? y | _ => Z.land x mm =? Z.land y mm end) = true <-> Z.land y mm = Z.land x mm) as ->.
  { assert (forall z, (Z.land x z =? Z.land y z) = true <-> Z.land y z = Z.land x z) as Hd by (intros; rewrite Z.eqb_eq; done).
    destruct (decide (mm = 0)) as [->|H0]; [by rewrite !Z.land_0_r|].
    destruct (decide (mm = 255)) as [->|H1]; [rewrite !land_255, Z.eqb_eq by done; done|].
    rewrite <- Hd. repeat case_match; done. }
  split; [by intros [-> ->]|by intros [= -> ->]].
Qed.

Lemma within_hits l b k :
  length b = length l -> Forall is_byte b -> Forall is_byte l -> 0 <= k <= 8 * Z.of_nat (length l) ->
  within (8 * Z.of_nat (length l)) (be_combine l) (be_combine b, k) = hits (CIDRMask k (length l)) b l.
Proof.
  intros Hlen Hb Hl Hk. rewrite hits_spec by (rewrite ?length_CIDRMask; done). apply eq_true_iff_eq.
  unfold within. cbn [fst snd]. rewrite Z.eqb_eq, bool_decide_eq_true.
  rewrite (mask_prefix l b k) by (done || lia). by rewrite Z.max_r by lia.
Qed.

Ltac bytes := repeat (constructor; [unfold is_byte; lia|]); constructor.

(** An address of four bytes against the prefix of [b]. *)
Lemma within4 v b k :
  length v = 4%nat -> length b = 4%nat -> Forall is_byte v -> Forall is_byte b -> 0 <= k <= 32 ->
  within 32 (be_combine v) (be_combine b, k) = hits (CIDRMask k 4) b v.
Proof. intros Hv Hb Fv Fb Hk. pose proof (within_hits v b k) as H. rewrite Hv, Hb in H. by apply H. Qed.

Lemma within16 v b k :
  length v = 16%nat -> length b = 16%nat -> Forall is_byte v -> Forall is_byte b -> 0 <= k <= 128 ->
  within 128 (be_combine v) (be_combine b, k) = hits (CIDRMask k 16) b v.
Proof. intros Hv Hb Fv Fb Hk. pose proof (within_hits v b k) as H. rewrite Hv, Hb in H. by apply H. Qed.

Definition nets4_bytes : list (list Z * Z) :=
  [ ([127; 0; 0; 0], 8); ([10; 0; 0; 0], 8); ([172; 16; 0; 0], 12); ([192; 168; 0; 0], 16); ([169; 254; 0; 0], 16);
    ([224; 0; 0; 0], 4); ([0; 0; 0; 0], 32);
    ([100; 64; 0; 0], 10); ([240; 0; 0; 0], 4); ([198; 18; 0; 0], 15); ([192; 0; 0; 0], 24) ].

Definition nets6_bytes : list (list Z * Z) :=
  [ (replicate 15 0 ++ [1], 128); (replicate 16 0, 128); (0xfc :: replicate 15 0, 7); (0xfe :: 0x80 :: replicate 14 0, 10);
    (0xff :: replicate 15 0, 8); (0xfe :: 0xc0 :: replicate 14 0, 10) ].

Definition hit (n : nat) (v : list Z) (nb : list Z * Z) : bool := hits (CIDRMask nb.2 n) nb.1 v.

Lemma internal4_hits v : length v = 4%nat -> Forall is_byte v -> internal4 (be_combine v) = existsb (hit 4 v) nets4_bytes.
Proof.
  intros Hl Hv. unfold internal4.
  change internal_nets4 with ((fun nb => (be_combine nb.1, nb.2)) <$> nets4_bytes).
  assert (Forall (fun nb => length nb.1 = 4%nat /\ Forall is_byte nb.1 /\ 0 <= nb.2 <= 32) nets4_bytes) as Hn.
  { repeat (constructor; [cbn [fst snd]; split_and!; [done|bytes|lia|lia]|]). constructor. }
  induction Hn as [|nb nbs (L & Fb & Hk) _ IH]; [done|]. cbn [fmap list_fmap existsb]. rewrite IH. f_equal.
  by apply within4.
Qed.

Lemma nets6_hits v :
  length v = 16%nat -> Forall is_byte v -> existsb (within 128 (be_combine v)) internal_nets6 = existsb (hit 16 v) nets6_bytes.
Proof.
  intros Hl Hv. change internal_nets6 with ((fun nb => (be_combine nb.1, nb.2)) <$> nets6_bytes).
  assert (Forall (fun nb => length nb.1 = 16%nat /\ Forall is_byte nb.1 /\ 0 <= nb.2 <= 128) nets6_bytes) as Hn.
  { repeat (constructor; [cbn [fst snd replicate app]; split_and!; [done|bytes|lia|lia]|]). constructor. }
  induction Hn as [|nb nbs (L & Fb & Hk) _ IH]; [done|]. cbn [fmap list_fmap existsb]. rewrite IH. f_equal.
  by apply within16.
Qed.

(** ** The guard on IPv4 *)
Lemma To4_mapped v : length v = 4%nat -> To4 (v4_prefix ++ v) = Some v.
Proof. intros H. destruct v as [|a [|b [|c [|d [|]]]]]; done. Qed.

Lemma quad_eq a b c d a' b' c' d' :
  bool_decide ([a; b; c; d] = [a'; b'; c'; d']) = (a =? a') && (b =? b') && (c =? c') && (d =? d').
Proof.
  apply eq_true_iff_eq. rewrite bool_decide_eq_true, !andb_true_iff, !Z.eqb_eq. split; [by intros [= -> -> -> ->]|by intros [[[-> ->] ->] ->]].
Qed.

(** Link-local multicast is multicast. *)
Lemma multicast_absorbs a x : ((a =? 224) && x || (Z.land a 240 =? 224)) = (Z.land a 240 =? 224).
Proof. destruct (Z.eqb_spec a 224) as [->|]; [by rewrite orb_true_r|done]. Qed.

Lemma guard_v4 v :
  length v = 4%nat -> Forall is_byte v ->
  stdlib_internal (v4_prefix ++ v) || special_v4 v = internal4 (be_combine v).
Proof.
  intros Hl Hv. rewrite internal4_hits by done. destruct v as [|a [|b [|c [|d [|]]]]]; try discriminate Hl. clear Hl.
  unfold stdlib_internal, IsLoopback, IsPrivate, IsLinkLocalUnicast, IsLinkLocalMulticast, IsMulticast, IsUnspecified, special_v4.
  rewrite !To4_mapped by done. cbn [at_ nth]. rewrite quad_eq.
  unfold nets4_bytes, hit. cbn [existsb fst snd].
  change (CIDRMask 8 4) with [255; 0; 0; 0]. change (CIDRMask 12 4) with [255; 240; 0; 0]. change (CIDRMask 16 4) with [255; 255; 0; 0].
  change (CIDRMask 4 4) with [240; 0; 0; 0]. change (CIDRMask 32 4) with [255; 255; 255; 255]. change (CIDRMask 10 4) with [255; 192; 0; 0].
  change (CIDRMask 15 4) with [255; 254; 0; 0]. change (CIDRMask 24 4) with [255; 255; 255; 0].
  cbn [hits]. change (Z.land 16 240) with 16. change (Z.land 224 240) with 224. change (Z.land 64 192) with 64.
  change (Z.land 240 240) with 240. change (Z.land 18 254) with 18.
  rewrite <- (multicast_absorbs a ((b =? 0) && (c =? 0))) at 2.
  generalize (a =? 127) (a =? 10) (a =? 172) (a =? 192) (a =? 169) (a =? 224) (a =? 0) (a =? 100) (a =? 198)
    (Z.land a 240 =? 224) (Z.land a 240 =? 240) (b =? 168) (b =? 254) (b =? 0) (Z.land b 240 =? 16) (Z.land b 192 =? 64)
    (Z.land b 254 =? 18) (c =? 0) (d =? 0).
  intros. btauto.
Qed.

(** ** The guard on IPv6 *)
Lemma hits_none r b l : hits (replicate r 0) b l = true.
Proof. revert b l. induction r as [|r IH]; intros [|y b] [|x l]; try done. apply IH. Qed.

Lemma hits_take j r b l :
  length b = (j + r)%nat -> length l = (j + r)%nat ->
  hits (replicate j 255 ++ replicate r 0) b l = bool_decide (take j l = take j b).
Proof.
  revert b l. induction j as [|j IH]; intros b l Hb Hl; [apply hits_none|].
  destruct b as [|y b], l as [|x l]; try discriminate. cbn [replicate app hits take]. rewrite IH by (cbn in *; lia).
  apply eq_true_iff_eq. rewrite andb_true_iff, !bool_decide_eq_true, Z.eqb_eq. split; [by intros [-> ->]|by intros [= -> ->]].
Qed.

(** A prefix of whole bytes. *)
Lemma hit_take j nb ip :
  length nb = 16%nat -> length ip = 16%nat -> (j <= 16)%nat ->
  hit 16 ip (nb, 8 * Z.of_nat j) = bool_decide (take j ip = take j nb).
Proof.
  intros Hn Hi Hj. unfold hit. cbn [fst snd].
  assert (CIDRMask (8 * Z.of_nat j) 16 = replicate j 255 ++ replicate (16 - j) 0) as ->.
  { do 17 (destruct j as [|j]; [reflexivity|]). lia. }
  by apply hits_take; lia.
Qed.

Lemma hit_full nb ip : length nb = 16%nat -> length ip = 16%nat -> hit 16 ip (nb, 128) = bool_decide (ip = nb).
Proof. intros Hn Hi. pose proof (hit_take 16 nb ip Hn Hi) as H. change (8 * Z.of_nat 16) with 128 in H. rewrite H by lia. by rewrite !firstn_all2 by lia. Qed.

Lemma low32 x v : length v = 4%nat -> Forall is_byte v -> be_combine (x ++ v) mod 2 ^ 32 = be_combine v.
Proof.
  intros Hl Hv. rewrite be_combine_app, Hl. change (256 ^ Z.of_nat 4) with (2 ^ 32).
  pose proof (be_combine_bits v Hv) as Hb. rewrite Hl in Hb. change (8 * Z.of_nat 4) with 32 in Hb.
  rewrite Z.add_comm, Z.mod_add by lia. by apply Z.mod_small.
Qed.

Lemma embedded32 x v y :
  length v = 4%nat -> length y = 10%nat -> Forall is_byte v -> Forall is_byte y ->
  be_combine (x ++ v ++ y) / 2 ^ 80 mod 2 ^ 32 = be_combine v.
Proof.
  intros Hl Hy Hv Fy. rewrite app_assoc, be_combine_app, Hy. change (256 ^ Z.of_nat 10) with (2 ^ 80).
  pose proof (be_combine_bits y Fy) as Hb. rewrite Hy in Hb. change (8 * Z.of_nat 10) with 80 in Hb.
  rewrite Z.div_add_l, (Z.div_small (be_combine y)), Z.add_0_r by lia. by apply low32.
Qed.

Definition nat64_bytes : list Z := [0x00; 0x64; 0xff; 0x9b] ++ replicate 8 0.

(** A carried IPv4 address is judged as itself. *)
Lemma internal_IPv4 fuel v : length v = 4%nat -> Forall is_byte v -> internal_fuel fuel (v4_prefix ++ v) = internal4 (be_combine v).
Proof.
  intros Hl Hv. rewrite <- guard_v4 by done. destruct fuel; cbn [internal_fuel]; rewrite To4_mapped by done; by destruct (stdlib_internal _).
Qed.

(** On an address that is not a mapped one. *)
Lemma stdlib_v6 ip :
  wf_ip ip -> To4 ip = None ->
  stdlib_internal ip || ((at_ ip 0 =? 0xfe) && (Z.land (at_ ip 1) 0xc0 =? 0xc0)) = existsb (hit 16 ip) nets6_bytes.
Proof.
  intros [Hl Hb] H4. unfold stdlib_internal, IsLoopback, IsPrivate, IsLinkLocalUnicast, IsLinkLocalMulticast, IsMulticast, IsUnspecified.
  rewrite !H4, Hl. cbn [Nat.eqb andb]. unfold nets6_bytes. cbn [existsb]. rewrite !hit_full by done.
  unfold hit. cbn [fst snd].
  change (CIDRMask 7 16) with (254 :: replicate 15 0). change (CIDRMask 10 16) with (255 :: 192 :: replicate 14 0).
  change (CIDRMask 8 16) with (255 :: replicate 15 0).
  destruct ip as [|a [|b ip]]; try discriminate Hl. cbn [hits at_ nth]. rewrite !hits_none.
  change (Z.land 252 254) with 252. change (Z.land 128 192) with 128. change (Z.land 192 192) with 192.
  generalize (bool_decide (a :: b :: ip = replicate 15 0 ++ [1])) (bool_decide (a :: b :: ip = replicate 16 0))
    (Z.land a 254 =? 252) (a =? 254) (a =? 255) (Z.land b 192 =? 128) (Z.land b 192 =? 192) (Z.land b 15 =? 2).
  intros. btauto.
Qed.

Lemma within_take j nb ip :
  length nb = 16%nat -> Forall is_byte nb -> wf_ip ip -> (j <= 16)%nat ->
  within 128 (be_combine ip) (be_combine nb, 8 * Z.of_nat j) = bool_decide (take j ip = take j nb).
Proof. intros Hn Fn [Hl Hb] Hj. rewrite within16 by (done || lia). by apply hit_take. Qed.

Lemma within_mapped ip : wf_ip ip -> within 128 (be_combine ip) mapped_net = bool_decide (take 12 ip = v4_prefix).
Proof. intros Hw. exact (within_take 12 (v4_prefix ++ replicate 4 0) ip eq_refl ltac:(cbn; bytes) Hw ltac:(lia)). Qed.

Lemma within_nat64 ip : wf_ip ip -> within 128 (be_combine ip) nat64_net = bool_decide (take 12 ip = nat64_bytes).
Proof. intros Hw. exact (within_take 12 (nat64_bytes ++ replicate 4 0) ip eq_refl ltac:(cbn; bytes) Hw ltac:(lia)). Qed.

Lemma within_sixto4 ip :
  wf_ip ip -> within 128 (be_combine ip) sixto4_net = (at_ ip 0 =? 0x20) && (at_ ip 1 =? 0x02).
Proof.
  intros Hw. transitivity (bool_decide (take 2 ip = [0x20; 0x02])).
  - exact (within_take 2 ([0x20; 0x02] ++ replicate 14 0) ip eq_refl ltac:(cbn; bytes) Hw ltac:(lia)).
  - destruct Hw as [Hl _]. destruct ip as [|a [|b ip]]; try discriminate Hl. cbn [at_ nth take]. apply eq_true_iff_eq.
    rewrite bool_decide_eq_true, andb_true_iff, !Z.eqb_eq. split; [by intros [= -> ->]|by intros [-> ->]].
Qed.

Lemma split_ip ip : wf_ip ip ->
  exists x v, ip = x ++ v /\ take 12 ip = x /\ length x = 12%nat /\ length v = 4%nat /\ Forall is_byte v
    /\ v = [at_ ip 12; at_ ip 13; at_ ip 14; at_ ip 15].
Proof.
  intros [Hl Hb]. exists (take 12 ip), (drop 12 ip). rewrite take_drop, length_take, length_drop, Hl.
  split_and!; [done..|by apply Forall_drop|]. do 17 (destruct ip as [|? ip]; try discriminate Hl). done.
Qed.

Lemma sixto4_ip ip : wf_ip ip ->
  exists x v y, ip = x ++ v ++ y /\ length v = 4%nat /\ length y = 10%nat /\ Forall is_byte v /\ Forall is_byte y
    /\ v = [at_ ip 2; at_ ip 3; at_ ip 4; at_ ip 5].
Proof.
  intros [Hl Hb]. exists (take 2 ip), (take 4 (drop 2 ip)), (drop 6 ip).
  rewrite !length_take, !length_drop, Hl. split_and!; try done.
  - rewrite <- (take_drop 2 ip) at 1. f_equal. rewrite <- (take_drop 4 (drop 2 ip)) at 1. by rewrite drop_drop.
  - by apply Forall_take, Forall_drop.
  - by apply Forall_drop.
  - do 17 (destruct ip as [|? ip]; try discriminate Hl). done.
Qed.

Lemma internal_fuel_S fuel ip :
  internal_fuel (S fuel) ip =
    if stdlib_internal ip then true
    else match To4 ip with
    | Some v4 => special_v4 v4
    | None => if (length ip =? 16)%nat && (at_ ip 0 =? 0xfe) && (Z.land (at_ ip 1) 0xc0 =? 0xc0) then true
              else match embeddedV4 ip with Some e => internal_fuel fuel e | None => false end
    end.
Proof. done. Qed.

(** The guard is the union of its prefixes. *)
Lemma isInternalIP_spec ip : wf_ip ip -> isInternalIP ip = internal6 (be_combine ip).
Proof.
  intros Hw. pose proof Hw as [Hl Hb]. destruct (split_ip ip Hw) as (x & v & Hip & Hx & Lx & Lv & Fv & Hv).
  unfold isInternalIP, internal6. rewrite within_mapped by done. case_bool_decide as Hm.
  { assert (ip = v4_prefix ++ v) as -> by congruence. rewrite internal_IPv4 by done. by rewrite low32. }
  assert (To4 ip = None) as H4 by (unfold To4; rewrite Hl; cbn [Nat.eqb andb]; by rewrite bool_decide_false).
  rewrite internal_fuel_S, H4, Hl. cbn [Nat.eqb andb]. rewrite nets6_hits, <- stdlib_v6 by done.
  destruct (stdlib_internal ip); [done|]. cbn [orb]. destruct (_ && _); [done|]. cbn [orb].
  rewrite within_nat64, within_sixto4 by done.
  unfold embeddedV4. rewrite Hl, (bool_decide_false (is_Some (To4 ip))) by (rewrite H4; by intros [? ?]). cbn [Nat.eqb negb orb].
  change ([0; 100; 255; 155] ++ replicate 8 0) with nat64_bytes. case_bool_decide as Hn.
  - unfold IPv4. rewrite <- Hv, internal_IPv4 by done. assert (be_combine ip mod 2 ^ 32 = be_combine v) as -> by (rewrite Hip; by apply low32). cbn [andb].
    assert (at_ ip 0 = 0) as -> by (destruct ip as [|a ip]; [discriminate Hl|by injection Hn as ->]). by rewrite orb_false_r.
  - cbn [andb orb]. destruct (_ && _); [|done]. cbn [andb].
    destruct (sixto4_ip ip Hw) as (x' & v' & y & Hip' & Lv' & Ly & Fv' & Fy & Hv'). unfold IPv4.
    rewrite <- Hv', internal_IPv4 by done. assert (be_combine ip / 2 ^ 80 mod 2 ^ 32 = be_combine v') as -> by (rewrite Hip'; by apply embedded32). done.
Qed.

(** ** The guard and the kernel's classifier *)
Lemma first_class_hit bits a ps d : first_class bits a ps d <> d -> existsb (in_prefix bits a) ps = true.
Proof. induction ps as [|q ps IH]; cbn [first_class existsb]; [done|]. by destruct (in_prefix bits a q). Qed.

(** Every prefix of the classifier is one of the guard. *)
Definition pf_net (q : prefix) : Z * Z := (pf_base q, pf_len q).

Lemma existsb_incl {A B} (f : A -> bool) (g : B -> bool) (h : A -> B) l l' :
  (forall x, f x = g (h x)) -> incl (h <$> l) l' -> existsb f l = true -> existsb g l' = true.
Proof.
  intros Hf Hi (x & Hx & E)%existsb_exists. apply existsb_exists. exists (h x). split; [|congruence].
  apply Hi. by apply in_map.
Qed.

Lemma class_v4_internal a : class_v4 a <> DST_PUBLIC -> internal4 a = true.
Proof.
  intros H%first_class_hit. revert H. apply (existsb_incl _ _ pf_net); [done|].
  intros x Hx. cbn in Hx |- *. unfold pf_net in Hx. cbn [pf_base pf_len] in Hx. intuition.
Qed.

Lemma class_v6_internal a : class_v6 a <> DST_PUBLIC -> internal6 a = true.
Proof.
  unfold class_v6, internal6. change (in_prefix 128 a v4_mapped) with (within 128 a mapped_net).
  destruct (within 128 a mapped_net); [apply class_v4_internal|]. intros H%first_class_hit.
  apply orb_true_intro. left. apply orb_true_intro. left. revert H. apply (existsb_incl _ _ pf_net); [done|].
  intros x Hx. cbn in Hx |- *. unfold pf_net in Hx. cbn [pf_base pf_len] in Hx. intuition.
Qed.

(** The 16-byte address in a socket address. *)
Inductive socket_ip : list Z -> list Z -> Prop :=
| socket_ip4 port v zero :
    length port = 2%nat -> length v = 4%nat -> length zero = 8%nat -> socket_ip (sockaddr_in_bytes port v zero) (mapped v)
| socket_ip6 port flow ip rest :
    length port = 2%nat -> length flow = 4%nat -> length ip = 16%nat -> socket_ip (sockaddr_in6_bytes port flow ip rest) ip.

Lemma socket_ip_class bs ip :
  socket_ip bs ip -> Forall is_byte bs -> wf_ip ip /\ class_of_sockaddr bs = class_v6 (be_combine ip).
Proof.
  intros [port v zero Lp Lv Lz|port flow ip' rest Lp Lf Li] Hb.
  - unfold sockaddr_in_bytes in Hb. rewrite !Forall_app in Hb. destruct Hb as (_ & _ & Fv & _).
    rewrite class_of_in, class_of_mapped by done. split; [|done]. split; [unfold mapped; simpl; lia|].
    unfold mapped. rewrite !Forall_app. split_and!; [cbn; bytes|bytes|done].
  - unfold sockaddr_in6_bytes in Hb. rewrite !Forall_app in Hb. destruct Hb as (_ & _ & _ & Fi & _).
    by rewrite class_of_in6.
Qed.

(** C32: The dial guard is a union of address prefixes. For a resolved address that splits
    into an IP literal and a port, the check passes if the operator opted a network in that
    contains it, and otherwise exactly when it is in none of the listed prefixes (loopback,
    private, link-local, multicast, unspecified, shared, reserved, benchmarking, protocol
    assignments, site-local), an IPv4 address mapped into IPv6 or carried by NAT64 or 6to4
    being judged by the IPv4 list. *)
Theorem dial_guard_is_prefixes address nets host port ip :
  SplitHostPort address = Some (host, port) -> ParseIP host = Some ip ->
  checkDialAddr address nets
  = if existsb (fun n => Contains n ip) nets then Ok tt
    else if internal6 (be_combine ip) then Err InternalAddress else Ok tt.
Proof.
  intros Hs Hp. unfold checkDialAddr. rewrite Hs, Hp. by rewrite isInternalIP_spec by (by eapply ParseIP_wf).
Qed.

Lemma dial_guard_is_prefixes_witness :
  checkDialAddr (B "[64:ff9b::7f00:1]:80") [] = Err InternalAddress.
Proof.
  rewrite (dial_guard_is_prefixes (B "[64:ff9b::7f00:1]:80") [] (B "64:ff9b::7f00:1") (B "80")
    ([0; 0x64; 0xff; 0x9b] ++ replicate 8 0 ++ [127; 0; 0; 1])) by (vm_compute; reflexivity). vm_compute. reflexivity.
Defined.

(** C29: The proxy dials nothing that the kernel's connect program calls loopback,
    link-local or private. If the classifier does not give an IPv4 or IPv6 socket address
    the public class, the guard denies its address, unless the operator opted it in. *)
Theorem guard_covers_classifier e a bs ip address host port :
  sockaddr_at e a bs -> socket_ip bs ip -> classify_dest e a (Z.of_nat (length bs)) <> DST_PUBLIC ->
  SplitHostPort address = Some (host, port) -> ParseIP host = Some ip ->
  checkDialAddr address [] = Err InternalAddress.
Proof.
  intros (Ha & Hb & Hm & _) Hs Hc Hsp Hp. destruct (socket_ip_class bs ip Hs Hb) as [Hw E].
  rewrite classify_dest_bytes, E in Hc by done. apply class_v6_internal in Hc.
  unfold checkDialAddr. rewrite Hsp, Hp. cbn [existsb]. by rewrite isInternalIP_spec, Hc.
Qed.

(** A connect to 10.0.0.5. *)
Definition lan_sa : list Z := sockaddr_in_bytes [0; 80] [10; 0; 0; 5] (replicate 8 0).
Definition lan_env : env := Env 7 0 (replicate 16 97) 1000 (bytes_at 4096 lan_sa) (fun dst => dst) (fun _ => true).

Lemma lan_at : sockaddr_at lan_env 4096 lan_sa.
Proof.
  split_and!; [done| |split; [done|vm_compute; reflexivity]|vm_compute; lia].
  apply (bool_decide_unpack _). vm_compute. exact I.
Qed.

Lemma guard_covers_classifier_witness :
  classify_dest lan_env 4096 16 = DST_PRIVATE /\ checkDialAddr (B "10.0.0.5:80") [] = Err InternalAddress.
Proof.
  split; [vm_compute; reflexivity|].
  apply (guard_covers_classifier lan_env 4096 lan_sa (mapped [10; 0; 0; 5]) (B "10.0.0.5:80") (B "10.0.0.5") (B "80") lan_at);
    [by constructor|vm_compute; discriminate|vm_compute; reflexivity|vm_compute; reflexivity].
Defined.
