(* ===== verification/ProxyProps.v ===== *)
(** * The mediated egress path

    A request names one destination, which is the one dialed; a policy file means its
    entries; and whatever connections do, interleaved and across losses of power, bytes flow
    only to a permitted, guarded and recorded destination. *)
From Stdlib Require Import ZArith Lia Ascii String.
From stdpp Require Import base tactics numbers option strings list gmap.
From S2P Require Import Prelude Endian Maps Bytes Sha256 Json Control Broker Verify AuditLog AuditFiles AuditProps AuditWriter ChainProps LogClients.
From S2P Require Import NetIP Allowlist Proxy.
#[local] Open Scope string_scope.
#[local] Open Scope list_scope.
#[local] Open Scope Z_scope.
#[local] Opaque Sum256 canonical.

(** ** The request *)
Lemma readLine_ok max buf s line rest :
  readLine max buf s = (Ok line, rest) ->
  exists l, s = l ++ newline :: rest /\ line = rev buf ++ l /\ no_newline l /\ (length l < max)%nat.
Proof.
  revert buf s. induction max as [|max IH]; intros buf s; cbn [readLine]; [done|].
  destruct s as [|c s]; [done|]. destruct (Ascii.eqb_spec c newline) as [->|Hc].
  - intros [= <- <-]. exists []. rewrite app_nil_r. split_and!; [done|done|apply not_elem_of_nil|cbn; lia].
  - intros (l & -> & -> & Hn & Hl)%IH. exists (c :: l). cbn [rev app length]. rewrite <- app_assoc.
    split_and!; [done|done|by apply not_elem_of_cons|lia].
Qed.

Lemma cut_at_app_eq n s : s = (cut_at n s).1 ++ (cut_at n s).2.
Proof. induction s as [|c s IH]; [done|]. cbn [cut_at]. destruct (is_char n c); [done|]. destruct (cut_at n s). cbn in *. by f_equal. Qed.

Lemma cut_at_clean n s : has_char n (cut_at n s).1 = false.
Proof.
  induction s as [|c s IH]; [done|]. cbn [cut_at]. destruct (is_char n c) eqn:E; [done|].
  destruct (cut_at n s). cbn [fst] in *. by rewrite has_char_cons, E.
Qed.

(** The parts of a split address hold no bracket, and the port no colon. *)
Lemma split_clean s h port :
  SplitHostPort s = Some (h, port) ->
  has_char 91 h = false /\ has_char 93 h = false
  /\ has_char 58 port = false /\ has_char 91 port = false /\ has_char 93 port = false.
Proof.
  unfold SplitHostPort. destruct (cut_last 58 s) as [[h0 p0]|] eqn:Ec; [|done].
  assert (has_char 58 p0 = false /\ exists c, s = h0 ++ c :: p0) as [Hp [c0 Hs]].
  { revert Ec. unfold cut_last. pose proof (cut_at_app_eq 58 (rev s)) as Ha. pose proof (cut_at_clean 58 (rev s)) as Hcl.
    destruct (cut_at 58 (rev s)) as [a b]. cbn [fst snd] in *. destruct b as [|c b]; [done|]. intros [= <- <-].
    rewrite has_char_rev. split; [done|]. exists c. apply (f_equal (@rev _)) in Ha.
    rewrite rev_involutive, rev_app_distr in Ha. cbn [rev] in Ha. by rewrite <- app_assoc in Ha. }
  destruct s as [|c s']; [done|]. destruct (is_char 91 c).
  - pose proof (cut_at_app_eq 93 s') as Ha. pose proof (cut_at_clean 93 s') as Hcl. destruct (cut_at 93 s') as [inner rest].
    cbn [fst snd] in *. destruct rest as [|d after]; [done|]. case_bool_decide as Ea; [|done].
    destruct (_ || _) eqn:Eb; [done|]. intros [= <- <-]. apply orb_false_elim in Eb as [E1 E2].
    rewrite Ha, Ea, has_char_app, !has_char_cons in E1. apply orb_false_elim in E1 as [E1 E3].
    apply orb_false_elim in E3 as [_ E3]. apply orb_false_elim in E3 as [_ E3].
    rewrite Ea, has_char_cons in E2. apply orb_false_elim in E2 as [_ E2]. done.
  - destruct (has_char 58 h0); [done|]. destruct (_ || _) eqn:Eb; [done|]. intros [= <- <-].
    apply orb_false_elim in Eb as [E1 E2]. rewrite Hs, has_char_app, has_char_cons in E1, E2.
    apply orb_false_elim in E1 as [? E1], E2 as [? E2]. apply orb_false_elim in E1 as [_ ?], E2 as [_ ?]. done.
Qed.

Lemma parse_request_ok line host port :
  parse_request line = Ok (host, port) ->
  existsb is_control line = false /\ (exists hp, line = B "CONNECT " ++ hp /\ SplitHostPort hp = Some (host, port))
  /\ validateHost host = Ok tt /\ validatePort port = true.
Proof.
  unfold parse_request. destruct (existsb _ _); [done|]. destruct (HasPrefixB _ _) eqn:Ep; [|done]. cbn [negb].
  destruct (SplitHostPort _) as [[h q]|] eqn:Es; [|done]. destruct (validateHost h) as [[]|] eqn:Eh; [|done].
  destruct (validatePort q) eqn:Eq; [|done]. intros [= -> ->]. apply bool_decide_eq_true in Ep as [hp ->].
  split_and!; try done. exists hp. split; [done|exact Es].
Qed.

Lemma validateHost_nonempty h : validateHost h = Ok tt -> h <> [].
Proof. intros H ->. by cbv in H. Qed.

(** A syntactically valid DNS name. *)
Definition dns_label (l : bytes) : Prop :=
  (1 <= length l <= 63)%nat /\ forallb label_char l = true
  /\ option_map (is_char 45) (head l) = Some false /\ option_map (is_char 45) (last l) = Some false.

Definition dns_name (h : bytes) : Prop :=
  (length h <= 253)%nat /\ isNumericAlias h = false /\ Forall dns_label (SplitOn 46 h).

Lemma check_label_ok l : check_label l = Ok tt -> dns_label l.
Proof.
  unfold check_label. destruct l as [|c l]; [done|]. destruct (last (c :: l)) as [z|] eqn:Ez; [|done].
  destruct (Nat.ltb_spec 63 (length (c :: l))); [done|]. destruct (forallb label_char (c :: l)) eqn:El; [|done]. cbn [negb].
  destruct (is_char 45 c) eqn:E1; [done|]. destruct (is_char 45 z) eqn:E2; [done|]. intros _.
  split_and!; [cbn; lia|cbn in *; lia|done|cbn; by rewrite E1|rewrite Ez; cbn; by rewrite E2].
Qed.

Lemma check_labels_ok ls : check_labels ls = Ok tt -> Forall dns_label ls.
Proof.
  induction ls as [|l ls IH]; cbn [check_labels]; [constructor|]. destruct (check_label l) as [[]|] eqn:E; [|done].
  intros H%IH. constructor; [by apply check_label_ok|done].
Qed.

Lemma validateHost_ok h : validateHost h = Ok tt -> is_Some (ParseIP h) \/ dns_name h.
Proof.
  unfold validateHost. case_bool_decide; [done|]. case_bool_decide; [by left|]. destruct (isNumericAlias h) eqn:En; [done|].
  destruct (Nat.ltb_spec 253 (length h)); [done|]. intros Hl%check_labels_ok. right. done.
Qed.

(** One parse of the destination. An accepted request is a single line of fewer than
    300 bytes without control bytes, "CONNECT host:port"; what follows it is left unread for
    the relay. The host is an IP literal or a valid DNS name that is no numeric alias of
    one, and the address handed to the dialer splits back into the same host and port. *)
Theorem request_names_what_is_dialed s host port rest :
  readRequest s = (Ok (host, port), rest) ->
  (exists line hp, s = line ++ newline :: rest /\ line = B "CONNECT " ++ hp /\ SplitHostPort hp = Some (host, port)
     /\ (length line < 300)%nat /\ existsb is_control line = false)
  /\ (is_Some (ParseIP host) \/ dns_name host)
  /\ SplitHostPort (JoinHostPort host port) = Some (host, port).
Proof.
  unfold readRequest. destruct (readLine maxRequestLen [] s) as [[line|] rest'] eqn:El; [|done].
  intros [= Hp ->]. apply readLine_ok in El as (l & -> & -> & _ & Hl). cbn [rev app] in *.
  apply parse_request_ok in Hp as (Hc & (hp & -> & Hs) & Hh & _).
  apply split_clean in Hs as Hcl. destruct Hcl as (H1 & H2 & H3 & H4 & H5). split_and!.
  - exists (B "CONNECT " ++ hp), hp. done.
  - by apply validateHost_ok.
  - apply split_join; try done. by apply validateHost_nonempty.
Qed.

Lemma request_names_what_is_dialed_witness :
  SplitHostPort (JoinHostPort (B "2001:db8::1") (B "443")) = Some (B "2001:db8::1", B "443").
Proof.
  exact (proj2 (proj2 (request_names_what_is_dialed (B "CONNECT [2001:db8::1]:443" ++ newline :: B "payload")
    (B "2001:db8::1") (B "443") (B "payload") ltac:(vm_compute; reflexivity)))).
Defined.

(** ** The policy *)
Section policy.
  Context `{Unicode}.

(** C35: The policy is its file. If the file loads, a host is permitted exactly when an entry
    of the file matches it, and its mode is that of the deciding entry: the last matching
    exact name, else the first matching suffix, else the first matching network, else the
    last star, else the default. *)
Theorem allowlist_refines_entries env b readErr a host :
  LoadAllowlist env (Opened b readErr) = Ok a ->
  let es := entries (defaultEgressMode env) (ScanLines b) in
  Allows a host = existsb (matches host) es /\ Mode a host = mode_spec host es (defaultEgressMode env).
Proof.
  intros ->%LoadAllowlist_entries. cbv zeta. split; [|apply Mode_loaded].
  by rewrite Allows_foldl, Allows_empty.
Qed.
End policy.

(** Case mapping confined to ASCII. *)
Definition ascii_only : Unicode :=
  {| lower_wide := fun s => lower_char <$> s; upper_wide := fun s => upper_char <$> s;
     fold_wide := fun a b => bool_decide (lower_char <$> a = lower_char <$> b) |}.

Definition lines (l : list string) : bytes := l ≫= fun s => B s ++ [newline].

Definition a_policy : bytes :=
  lines ["# egress"; "api.example.com inspect"; ".example.com"; "10.0.0.0/8 pinned  # lab"; "198.51.100.7"].

Definition a_list : Allowlist :=
  Eval vm_compute in match LoadAllowlist (H := ascii_only) [] (Opened a_policy false) with Ok a => a | Err _ => emptyAllowlist [] end.

Lemma allowlist_refines_entries_witness :
  Allows (H := ascii_only) a_list (B "API.example.com") = true
  /\ Mode (H := ascii_only) a_list (B "API.example.com") = modeInspect
  /\ Allows (H := ascii_only) a_list (B "example.org") = false.
Proof.
  pose proof (fun h => allowlist_refines_entries (H := ascii_only) [] a_policy false a_list h
    ltac:(vm_compute; reflexivity)) as W. cbv zeta in W.
  rewrite (proj1 (W (B "API.example.com"))), (proj2 (W (B "API.example.com"))), (proj1 (W (B "example.org"))).
  vm_compute. auto.
Defined.

(** Of several suffixes the first in the file decides, not the longest: a longer suffix
    marked for inspection after a shorter one is spliced uninspected. *)
Lemma longer_suffix_does_not_win :
  match LoadAllowlist (H := ascii_only) [] (Opened (lines [".example.com passthrough"; ".bank.example.com inspect"]) false) with
  | Ok a => Mode (H := ascii_only) a (B "www.bank.example.com") = modePassthrough
  | Err _ => False
  end.
Proof. vm_compute. reflexivity. Qed.

(** An exact entry for an address is matched as text: another spelling of the same address
    falls to the star, so an address marked for inspection is spliced when it is asked for
    in its mapped form. *)
Lemma address_alias_dodges_inspection :
  match LoadAllowlist (H := ascii_only) [] (Opened (lines ["*"; "198.51.100.7 inspect"]) false) with
  | Ok a => ParseIP (B "::ffff:198.51.100.7") = ParseIP (B "198.51.100.7")
            /\ Mode (H := ascii_only) a (B "198.51.100.7") = modeInspect
            /\ Allows (H := ascii_only) a (B "::ffff:198.51.100.7") = true
            /\ Mode (H := ascii_only) a (B "::ffff:198.51.100.7") = modePassthrough
  | Err _ => False
  end.
Proof. vm_compute. auto. Qed.

(** A port is accepted with leading zeros, and the cap on the recorded destination then cuts
    it: two requests for different ports of one host leave the same record. *)
Definition long_host : bytes := B "a.example.com".
Definition padded_port (n : string) : bytes := replicate 260 (byte_of 48) ++ B n.

Lemma padded_port_is_not_recorded :
  readRequest (B "CONNECT " ++ long_host ++ B ":" ++ padded_port "443" ++ [newline])
    = (Ok (long_host, padded_port "443"), [])
  /\ readRequest (B "CONNECT " ++ long_host ++ B ":" ++ padded_port "22" ++ [newline])
    = (Ok (long_host, padded_port "22"), [])
  /\ egress_event long_host (padded_port "443") (B "allow") [] = egress_event long_host (padded_port "22") (B "allow") [].
Proof. vm_compute. auto. Qed.

(** ** Processes and their paths *)

(** [path pr t pr']: the process goes through the observations [t] and continues as [pr']. *)
Inductive path : proc -> list obs -> proc -> Prop :=
| path_nil pr : path pr [] pr
| path_act pr t a k : path pr t (Act a k) -> path pr (t ++ [OAct a]) k
| path_rec pr t ev k ok : path pr t (Rec ev k) -> path pr (t ++ [ORec ev ok]) (k ok).

(** The records acknowledged along a path. *)
Definition granted (t : list obs) : list provEvent := omap (fun o => match o with ORec ev true => Some ev | _ => None end) t.

(** An action is justified by the records acknowledged before it. *)
Fixpoint safe (ok : list provEvent -> action -> Prop) (seen : list provEvent) (pr : proc) : Prop :=
  match pr with
  | Done => True
  | Act a k => ok seen a /\ safe ok seen k
  | Rec ev k => safe ok (seen ++ [ev]) (k true) /\ safe ok seen (k false)
  end.

Lemma path_safe ok pr t pr' :
  path pr t pr' -> safe ok [] pr ->
  safe ok (granted t) pr' /\ forall t1 a t2, t = t1 ++ OAct a :: t2 -> ok (granted t1) a.
Proof.
  intros Hp Hs. induction Hp as [pr|pr t a k Hp IH|pr t ev k b Hp IH].
  - split; [done|]. by intros [|] ? ?.
  - destruct (IH Hs) as [[Ha Hk] Hpre]. unfold granted in *. rewrite omap_app. cbn [omap list_omap]. rewrite app_nil_r.
    split; [done|]. intros t1 a' t2 E. destruct t2 as [|o t2 _] using rev_ind.
    + apply app_inj_tail in E as [<- [= <-]]. done.
    + rewrite app_comm_cons, app_assoc in E. apply app_inj_tail in E as [-> _]. by eapply Hpre.
  - destruct (IH Hs) as [[Ht Hf] Hpre]. unfold granted in *. rewrite omap_app. cbn [omap list_omap].
    split; [destruct b; [done|by rewrite app_nil_r]|]. intros t1 a' t2 E. destruct t2 as [|o t2 _] using rev_ind.
    + apply app_inj_tail in E as [_ [=]].
    + rewrite app_comm_cons, app_assoc in E. apply app_inj_tail in E as [-> _]. by eapply Hpre.
Qed.

(** ** What a flow needs *)
Section mediation.
  Context `{Unicode} (Write : request -> bytes -> option bytes) (p : Proxy).

Definition permitted (host port addr : bytes) : Prop :=
  validateHost host = Ok tt /\ validatePort port = true
  /\ Allows (allow p) host = true /\ checkDialAddr addr (internalCIDRs p) = Ok tt.

Definition connect_allow (host port : bytes) : provEvent := egress_event host port (B "allow") [].

(** Bytes of an inspected flow: a request written out by the proxy that the rules let pass. *)
Definition vetted (out : bytes) : Prop :=
  (exists r body, Write r body = Some out /\ (allowMethods p = [] \/ ToUpper (r_method r) ∈ allowMethods p))
  /\ existsb (ContainsB out) (denyNeedles p) = false.

Definition mediated (seen : list provEvent) (a : action) : Prop :=
  match a with
  | Reply _ => True
  | Splice host port addr _ =>
      permitted host port addr /\ connect_allow host port ∈ seen
      /\ Mode (allow p) host <> modeInspect /\ exists reason, passthrough_event host port reason ∈ seen
  | Send host port addr out =>
      permitted host port addr /\ connect_allow host port ∈ seen
      /\ Mode (allow p) host = modeInspect /\ mitm p = true /\ tls_port p port = true /\ vetted out
  end.

Lemma dial_guarded nets first l addr : dial_from nets first l = Ok addr -> checkDialAddr addr nets = Ok tt.
Proof.
  revert first. induction l as [|t l IH]; intros first; cbn [dial_from]; [done|].
  destruct (checkDialAddr (at_addr t) nets) as [[]|] eqn:E; [|apply IH]. destruct (at_connects t); [by intros [= <-]|apply IH].
Qed.

Lemma safe_record ok seen ev k :
  (forall seen', seen ⊆ seen' -> safe ok seen' k) -> safe ok seen (record_ p ev k).
Proof. intros Hk. unfold record_. destruct (audit p); cbn [safe]; [split|]; apply Hk; set_solver. Qed.

Lemma inspectRequest_none method out n :
  inspectRequest p method out n = None ->
  (allowMethods p = [] \/ ToUpper method ∈ allowMethods p) /\ existsb (ContainsB out) (denyNeedles p) = false
  /\ (0 < maxReqBytes p -> n <= maxReqBytes p).
Proof.
  unfold inspectRequest. destruct (_ && _) eqn:E1; [done|]. destruct (0 <? _) eqn:E2.
  - cbn [andb]. destruct (Z.ltb_spec (maxReqBytes p) n); [done|]. destruct (existsb _ _); [done|]. intros _. split_and!; [|done|lia].
    apply andb_false_iff in E1 as [E1%negb_false_iff%bool_decide_eq_true|E1%negb_false_iff%bool_decide_eq_true]; auto.
  - cbn [andb]. destruct (existsb _ _); [done|]. intros _. apply Z.ltb_ge in E2. split_and!; [|done|lia].
    apply andb_false_iff in E1 as [E1%negb_false_iff%bool_decide_eq_true|E1%negb_false_iff%bool_decide_eq_true]; auto.
Qed.

Lemma relay_safe host port addr k first st reads seen :
  permitted host port addr -> connect_allow host port ∈ seen -> Mode (allow p) host = modeInspect ->
  mitm p = true -> tls_port p port = true -> (forall st, safe mediated seen (k st)) ->
  safe mediated seen (relay Write p host port addr k first st reads).
Proof.
  intros Hp Hs Hm Hc Ht Hk. revert first st. induction reads as [|[r ok| |] reads IH]; intros first st; cbn [relay]; try apply Hk.
  destruct (readInspectBody p (r_body r)) as [body capped]. destruct capped; [apply Hk|].
  destruct (Write r body) as [out|] eqn:Ew; [|apply Hk].
  destruct (inspectRequest _ _ _ _) as [reason|] eqn:Ei; [apply Hk|]. destruct ok; [|apply Hk]. cbn [safe]. split; [|apply IH].
  apply inspectRequest_none in Ei as (Hme & Hn & _). split_and!; try done. split; [|done]. by exists r, body.
Qed.

Lemma terminate_safe c host port addr seen :
  permitted host port addr -> connect_allow host port ∈ seen -> Mode (allow p) host = modeInspect ->
  mitm p = true -> tls_port p port = true -> safe mediated seen (terminate Write p c host port addr).
Proof.
  intros Hp Hs Hm Hc Ht. unfold terminate, recordInspectDeny, inspectRelay. destruct (cn_reply_ok c); [|done]. cbn [negb safe].
  split; [done|]. destruct (cn_leaf c), (cn_agent_tls c), (cn_upstream_tls c); cbn [negb]; try (by apply safe_record).
  apply relay_safe; try done. intros st. by apply safe_record.
Qed.

Lemma handleConn_safe c : audit p = true -> safe mediated [] (handleConn Write p c).
Proof.
  intros Ha. unfold handleConn. destruct (readRequest (cn_stream c)) as [[[host port]|] rest] eqn:Er; [|done].
  assert (validateHost host = Ok tt /\ validatePort port = true) as [Hh Hpo].
  { unfold readRequest in Er. destruct (readLine _ _ _) as [[line|] rest']; [|done]. injection Er as Er _.
    apply parse_request_ok in Er as (_ & _ & ? & ?). done. }
  destruct (Allows (allow p) host) eqn:Eal; [|by apply safe_record]. cbn [negb]. cbv zeta.
  destruct (bool_decide_reflect (Mode (allow p) host = modeInspect)) as [Em|Em]; cbn [andb].
  - destruct (mitm p) eqn:Emi; [|by apply safe_record]. destruct (tls_port p port) eqn:Et; [|by apply safe_record]. cbn [andb negb].
    destruct (dial_from _ _ _) as [addr|e] eqn:Ed; [|by apply safe_record]. apply dial_guarded in Ed.
    unfold record_or. rewrite Ha. cbn [safe app]. split; [|done]. apply terminate_safe; try done. by left.
  - destruct (dial_from _ _ _) as [addr|e] eqn:Ed; [|by apply safe_record]. apply dial_guarded in Ed.
    unfold record_or. rewrite Ha. cbn [safe app]. split_and!; try done. destruct (cn_reply_ok c); [|done]. cbn [safe].
    unfold mediated. split_and!; try done; [by left|]. eexists. right. by left.
Qed.

(** What is sent on an inspected flow stays within the cap. *)
Definition size (a : action) : Z := match a with Send _ _ _ out => len out | _ => 0 end.
Definition sent (t : list obs) : Z := foldr (fun o n => match o with OAct a => size a + n | ORec _ _ => n end) 0 t.

Fixpoint capped (n : Z) (pr : proc) : Prop :=
  match pr with
  | Done => True
  | Act a k => n + size a <= maxReqBytes p /\ capped (n + size a) k
  | Rec _ k => forall b, capped n (k b)
  end.

Lemma sent_snoc t o : sent (t ++ [o]) = sent t + sent [o].
Proof.
  unfold sent. induction t as [|o' t IH]; [done|]. rewrite <- app_comm_cons. cbn [foldr] in *. rewrite IH. destruct o'; lia.
Qed.

Lemma path_capped pr t pr' : path pr t pr' -> capped 0 pr -> 0 <= maxReqBytes p -> capped (sent t) pr' /\ sent t <= maxReqBytes p.
Proof.
  intros Hp Hc Hm. induction Hp as [pr|pr t a k Hp IH|pr t ev k b Hp IH]; [done|..]; destruct (IH Hc) as [Hk Hs]; rewrite sent_snoc.
  - change (sent [OAct a]) with (size a + 0). rewrite Z.add_0_r. cbn [capped] in Hk. by destruct Hk.
  - change (sent [ORec ev b]) with 0. rewrite Z.add_0_r. split; [exact (Hk b)|done].
Qed.

Lemma capped_record n ev k : capped n k -> capped n (record_ p ev k).
Proof. intros Hk. unfold record_. destruct (audit p); [intros _; exact Hk|exact Hk]. Qed.

Lemma capped_reply n msg k : n <= maxReqBytes p -> capped n k -> capped n (Act (Reply msg) k).
Proof. intros Hn Hk. cbn [capped size]. by rewrite Z.add_0_r. Qed.

Lemma relay_capped host port addr k first st reads :
  0 < maxReqBytes p -> (forall n st, capped n (k st)) -> capped (i_reqBytes st) (relay Write p host port addr k first st reads).
Proof.
  intros Hm Hk. revert first st. induction reads as [|[r ok| |] reads IH]; intros first st; cbn [relay]; try apply Hk.
  destruct (readInspectBody p (r_body r)) as [body []]; [apply Hk|]. destruct (Write r body) as [out|]; [|apply Hk].
  destruct (inspectRequest _ _ _ _) as [reason|] eqn:Ei; [apply Hk|]. destruct ok; [|apply Hk].
  apply inspectRequest_none in Ei as (_ & _ & Hc). cbn [i_reqBytes] in Hc. specialize (Hc Hm). cbn [capped size].
  split; [done|]. exact (IH false (InspectState _ _ (i_reqBytes st + len out) _ _)).
Qed.

Lemma handleConn_capped c : 0 < maxReqBytes p -> capped 0 (handleConn Write p c).
Proof.
  intros Hm. assert (forall msg, capped 0 (reply_end msg)) as Hend by (intros; by apply capped_reply; [lia|]).
  assert (forall host port reason msg, capped 0 (deny_record p host port reason (reply_end msg))) as Hd
    by (intros; by apply capped_record).
  assert (forall ev k, capped 0 k -> capped 0 (record_or p ev (reply_end "ERR audit") k)) as Hr.
  { intros ev k Hk. unfold record_or. destruct (audit p); [|done]. intros []; done. }
  unfold handleConn. destruct (readRequest (cn_stream c)) as [[[host port]|] rest]; [|apply Hend].
  destruct (Allows (allow p) host); [|apply Hd]. cbn [negb]. cbv zeta. destruct (_ && _); [apply Hd|].
  destruct (dial_from _ _ _) as [addr|e]; [|apply Hd]. apply Hr. case_bool_decide.
  - unfold terminate, recordInspectDeny, inspectRelay. destruct (cn_reply_ok c); [|done]. apply capped_reply; [lia|].
    repeat (case_match; [by apply capped_record|]). apply (relay_capped host port addr _ true (InspectState [] [] 0 false []) _ Hm).
    intros. by apply capped_record.
  - apply Hr. destruct (cn_reply_ok c); [|done]. apply capped_reply; [lia|]. cbn [capped size]. split; [lia|done].
Qed.

(** Without a re-signing CA a host marked for inspection is refused: no flow, no opaque
    relay, and a record of the denial. *)
Lemma inspect_without_ca_is_refused c host port rest :
  mitm p = false -> readRequest (cn_stream c) = (Ok (host, port), rest) ->
  Allows (allow p) host = true -> Mode (allow p) host = modeInspect ->
  handleConn Write p c = deny_record p host port "inspect-unavailable" (reply_end "ERR denied").
Proof. intros Hm Hr Ha Hmo. unfold handleConn. by rewrite Hr, Ha, Hmo, Hm, bool_decide_true. Qed.
End mediation.

(** ** The running proxy *)
Lemma insert_snd_lookup {A} (l : list A) i j x y : l !! i = Some y -> <[i := x]> l !! j = if decide (i = j) then Some x else l !! j.
Proof.
  intros Hi. apply lookup_lt_Some in Hi. destruct (decide (i = j)) as [<-|]; [by apply list_lookup_insert_eq|by apply list_lookup_insert_ne].
Qed.

(** The observations of one connection. *)
Definition of_conn (i : nat) (t : list (nat * obs)) : list obs :=
  omap (fun io => if decide (io.1 = i) then Some io.2 else None) t.

Lemma of_conn_app i t t' : of_conn i (t ++ t') = of_conn i t ++ of_conn i t'.
Proof. apply omap_app. Qed.

Lemma of_conn_one i j o : of_conn i [(j, o)] = if decide (j = i) then [o] else [].
Proof. unfold of_conn. cbn. by destruct (decide (j = i)). Qed.

Section running.
  Context `{Unicode} (Write : request -> bytes -> option bytes) (p : Proxy).
  Context (Unmarshal : bytes -> option auditRecord) {HJ : JsonReader Unmarshal}.
  Context (base : string) (rotateBytes : Z) (segKeep : nat) (sign : bytes -> bytes).
  Abbreviation exec := (exec Write p Unmarshal base rotateBytes segKeep sign).
  Abbreviation sys_run := (sys_run Write p Unmarshal base rotateBytes segKeep sign).
  Abbreviation records fs := (chain_records Unmarshal (segment_files base fs) (open_file fs base)).

(** A connection is on a path of its handler, or was cut off on one. *)
Definition starts (pr : proc) : Prop := pr = reply_end "ERR busy" \/ exists c, pr = handleConn Write p c.

Definition on_path (t : list obs) (pr : proc) : Prop :=
  exists pr0 pr1, starts pr0 /\ path pr0 t pr1 /\ (pr = pr1 \/ pr = Done).

Record sys_inv (s : sys) : Prop := {
  si_paths : forall i slot pr, y_conns s !! i = Some (slot, pr) -> on_path (of_conn i (y_trace s)) pr;
  si_ids : Forall (fun io => (io.1 < length (y_conns s))%nat) (y_trace s) }.

Lemma of_conn_fresh s i : sys_inv s -> (length (y_conns s) <= i)%nat -> of_conn i (y_trace s) = [].
Proof.
  intros [_ Hids] Hi. unfold of_conn. induction Hids as [|[j o] t Hj _ IH]; [done|]. cbn in *.
  destruct (decide (j = i)); [lia|done].
Qed.

Lemma on_path_step s i slot pr pr' o log hist :
  sys_inv s -> y_conns s !! i = Some (slot, pr) ->
  (forall t, on_path t pr -> on_path (t ++ [o]) pr') ->
  sys_inv (Sys log hist (<[i := (slot, pr')]> (y_conns s)) (y_trace s ++ [(i, o)])).
Proof.
  intros [Hpa Hid] Hi Hstep. split; cbn [y_conns y_trace].
  - intros j slot' pr2. rewrite (insert_snd_lookup _ _ _ _ _ Hi), of_conn_app, of_conn_one.
    destruct (decide (i = j)) as [<-|]; [intros [= <- <-]; by eapply Hstep, Hpa|]. rewrite app_nil_r. apply Hpa.
  - rewrite length_insert. apply Forall_app. split; [done|]. repeat constructor. cbn. by eapply lookup_lt_Some.
Qed.

Lemma exec_inv s l : sys_inv s -> sys_inv (exec s l).
Proof.
  intros Hinv. pose proof Hinv as [Hpa Hid]. destruct l as [r|c|i x|x ev mid k]; unfold exec, Proxy.exec; destruct (y_log s) as [[a|] fs]; try done.
  - split; cbn [y_conns y_trace].
    + intros j slot pr [Hj|[Hj Hn]]%lookup_app_Some; [by eapply Hpa|]. apply list_lookup_singleton_Some in Hn as [Hj0 Hn].
      rewrite (of_conn_fresh s j Hinv) by lia. exists pr, pr. split_and!; [|constructor|by left].
      destruct (_ <? _)%nat; injection Hn as _ <-; [right; by eexists|by left].
    + rewrite length_app. eapply Forall_impl; [exact Hid|]. intros [j o] Hj. cbn in *. lia.
  - destruct (y_conns s !! i) as [[slot [|act k|ev k]]|] eqn:Hi; try done.
    + apply (on_path_step s i slot (Act act k)); try done. intros t (pr0 & pr1 & Hs & Hp & [<-|[=]]).
      exists pr0, k. split_and!; [done| |by left]. by apply path_act.
    + apply (on_path_step s i slot (Rec ev k)); try done. intros t (pr0 & pr1 & Hs & Hp & [<-|[=]]).
      exists pr0. eexists. split_and!; [done| |by left]. by apply path_rec.
  - split; cbn [y_conns y_trace]; [|by rewrite length_fmap].
    intros i slot pr Hi. rewrite list_lookup_fmap in Hi. destruct (y_conns s !! i) as [[slot' pr']|] eqn:E; [|done].
    injection Hi as <- <-. destruct (Hpa _ _ _ E) as (pr0 & pr1 & Hs & Hp & _). exists pr0, pr1. auto.
Qed.

Lemma foldl_exec_inv ls s : sys_inv s -> sys_inv (foldl exec s ls).
Proof. revert s. induction ls as [|l ls IH]; intros s Hs; [done|]. by apply IH, exec_inv. Qed.

Lemma sys_run_inv fs ls : sys_inv (sys_run fs ls).
Proof. apply foldl_exec_inv. split; cbn; [done|constructor]. Qed.

(** What was observed of a connection is on a path of its handler. *)
Lemma observed_path fs ls t1 i o t2 :
  y_trace (sys_run fs ls) = t1 ++ (i, o) :: t2 ->
  exists pr0 pr1, starts pr0 /\ path pr0 (of_conn i t1 ++ o :: of_conn i t2) pr1.
Proof.
  intros E. destruct (sys_run_inv fs ls) as [Hpa Hid]. rewrite E in Hpa, Hid.
  apply Forall_app in Hid as [_ Hid]. apply Forall_cons in Hid as [Hi _]. cbn [fst] in Hi.
  destruct (lookup_lt_is_Some_2 _ _ Hi) as [[slot pr] Hl]. destruct (Hpa i slot pr Hl) as (pr0 & pr1 & Hs & Hp & _).
  exists pr0, pr1. split; [done|]. rewrite of_conn_app in Hp. change ((i, o) :: t2) with ([(i, o)] ++ t2) in Hp.
  rewrite of_conn_app, of_conn_one, decide_True in Hp by done. done.
Qed.

(** The whole of what was observed of a connection. *)
Lemma observed_capped fs ls i : 0 < maxReqBytes p -> sent (of_conn i (y_trace (sys_run fs ls))) <= maxReqBytes p.
Proof.
  intros Hm. pose proof (sys_run_inv fs ls) as Hinv. destruct (decide (i < length (y_conns (sys_run fs ls)))%nat) as [Hi|Hi].
  - destruct (lookup_lt_is_Some_2 _ _ Hi) as [[slot pr] Hl]. destruct (si_paths _ Hinv i slot pr Hl) as (pr0 & pr1 & Hs & Hp & _).
    assert (capped p 0 pr0) as Hc.
    { destruct Hs as [->|[c ->]]; [|by apply handleConn_capped]. apply capped_reply; [lia|done]. }
    destruct (path_capped p pr0 _ pr1 Hp Hc ltac:(lia)) as [_ Hle]. exact Hle.
  - rewrite (of_conn_fresh _ i Hinv) by lia. cbn. lia.
Qed.

Lemma observed_mediated fs ls t1 i a t2 :
  audit p = true -> y_trace (sys_run fs ls) = t1 ++ (i, OAct a) :: t2 ->
  mediated Write p (granted (of_conn i t1)) a.
Proof.
  intros Ha (pr0 & pr1 & Hs & Hp)%observed_path.
  assert (safe (mediated Write p) [] pr0) as Hsafe by (destruct Hs as [->|[c ->]]; [done|by apply handleConn_safe]).
  destruct (path_safe _ _ _ _ Hp Hsafe) as [_ Hpre]. by eapply Hpre.
Qed.

(** ** The log *)
(** Records the handler emits are small. *)
Fixpoint events_ok (pr : proc) : Prop :=
  match pr with Done => True | Act _ k => events_ok k | Rec ev k => event_ok ev /\ forall b, events_ok (k b) end.

Lemma rune_cut_le cut s : (rune_cut cut s <= cut)%nat.
Proof. induction cut as [|cut IH]; cbn [rune_cut]; [lia|]. repeat case_match; lia. Qed.

Lemma len_bounded s : len (bounded s) <= 280.
Proof.
  unfold bounded. destruct (Nat.leb_spec (length s) maxAuditDstLen) as [Hl|Hl]; unfold maxAuditDstLen in *; [unfold len; lia|].
  rewrite len_app. pose proof (rune_cut_le 260 s). unfold len. rewrite length_take. cbn [B length list_ascii_of_string]. lia.
Qed.

Lemma proxy_event_ok hook decision mode : len hook + len decision + len mode <= 1000 -> event_ok (proxy_event hook decision mode).
Proof.
  intros Hl. split_and!; [done..|]. cbn [e_comm e_hook e_decision e_mode proxy_event]. change (len (B "egress-proxy")) with 12. lia.
Qed.

Lemma egress_event_ok host port decision reason : len decision + len reason <= 100 -> event_ok (egress_event host port decision reason).
Proof.
  intros Hl. apply proxy_event_ok. rewrite !len_app. pose proof (len_bounded (dst_of host port)). change (len (B "connect")) with 7.
  change (len (B "dst=")) with 4. case_bool_decide; [change (len []) with 0; unfold len in *; lia|]. rewrite len_app. change (len (B " reason=")) with 8. lia.
Qed.

Lemma passthrough_event_ok host port reason : event_ok (passthrough_event host port reason).
Proof. apply proxy_event_ok. unfold boundMode. pose proof (len_bounded (B "dst=" ++ dst_of host port ++ B " reason=" ++ reason)). cbn [len B length list_ascii_of_string] in *. unfold len in *. cbn in *. lia. Qed.

Lemma inspect_event_ok host method path_ n m decision reason : len decision <= 10 -> event_ok (inspect_event host method path_ n m decision reason).
Proof. intros Hd. apply proxy_event_ok. unfold boundMode. match goal with |- context [bounded ?s] => pose proof (len_bounded s) end. change (len (B "inspect")) with 7. lia. Qed.

Lemma record_events_ok ev k : event_ok ev -> events_ok k -> events_ok (record_ p ev k).
Proof. intros He Hk. unfold record_. by destruct (audit p). Qed.

Lemma record_or_events_ok ev f k : event_ok ev -> events_ok f -> events_ok k -> events_ok (record_or p ev f k).
Proof. intros He Hf Hk. unfold record_or. destruct (audit p); [|done]. split; [done|]. by intros []. Qed.

Lemma relay_events_ok host port addr k first st reads :
  (forall st, events_ok (k st)) -> events_ok (relay Write p host port addr k first st reads).
Proof.
  intros Hk. revert first st. induction reads as [|[r ok| |] reads IH]; intros first st; cbn [relay]; try apply Hk.
  destruct (readInspectBody p (r_body r)) as [body []]; [apply Hk|]. destruct (Write r body) as [out|]; [|apply Hk].
  destruct (inspectRequest _ _ _ _); [apply Hk|]. destruct ok; [|apply Hk]. cbn [events_ok]. apply IH.
Qed.

Lemma inspected_events_ok host method path_ n m decision reason :
  len decision <= 10 -> events_ok (record_ p (inspect_event host method path_ n m decision reason) Done).
Proof. intros Hd. apply record_events_ok; [by apply inspect_event_ok|done]. Qed.

Lemma terminate_events_ok c host port addr : events_ok (terminate Write p c host port addr).
Proof.
  unfold terminate, recordInspectDeny, inspectRelay. destruct (cn_reply_ok c); [|done]. cbn [negb events_ok].
  repeat (case_match; [by apply inspected_events_ok|]). apply relay_events_ok. intros st. apply inspected_events_ok.
  by destruct (i_denied st).
Qed.

Lemma handleConn_events_ok c : events_ok (handleConn Write p c).
Proof.
  assert (forall host port reason k, len (B reason) <= 40 -> events_ok k -> events_ok (deny_record p host port reason k)) as Hd.
  { intros host port reason k Hr Hk. apply record_events_ok; [|done]. apply egress_event_ok. change (len (B "deny")) with 4. lia. }
  unfold handleConn. destruct (readRequest (cn_stream c)) as [[[host port]|] rest]; [|done].
  destruct (Allows (allow p) host); [|by apply Hd]. cbn [negb]. cbv zeta. destruct (_ && _); [by apply Hd|].
  destruct (dial_from _ _ _) as [addr|e]; [|by apply Hd; [destruct e|]].
  apply record_or_events_ok; [by apply egress_event_ok|done|]. case_bool_decide; [apply terminate_events_ok|].
  apply record_or_events_ok; [apply passthrough_event_ok|done|]. by destruct (cn_reply_ok c).
Qed.

(** Faults within the design: those the writer of the log tolerates. *)
Definition tame_label (l : label) : Prop :=
  match l with
  | Start r => r = true
  | Accept _ => True
  | Step _ x => tame_io x
  | Crash x ev _ _ => tame_io x /\ event_ok ev
  end.

(** The log of the proxy has the history of its appends, and holds what they acknowledged. *)
Abbreviation keeps := (keeps_history Unmarshal base proxy_domain rotateBytes segKeep sign).
Record log_inv (fs : dir) (n : nat) (s : sys) : Prop := {
  li_history : keeps fs n (y_log s) (y_hist s) (fun ev => exists i, (i, ORec ev true) ∈ y_trace s);
  li_events : Forall (fun c => events_ok c.2) (y_conns s) }.

Lemma log_inv_mono fs n s : log_inv fs n s -> log_inv fs (S n) s.
Proof. intros [Hh He]. split; [|done]. revert Hh. apply history_weaken; [lia|done]. Qed.

Lemma exec_log_inv fs n s l : tame_label l -> log_inv fs n s -> log_inv fs (S n) (exec s l).
Proof.
  intros Hl Hinv. pose proof Hinv as [Hh He].
  destruct l as [r|c|i x|x ev mid k]; unfold exec, Proxy.exec; destruct (y_log s) as [[a|] fs0] eqn:Hlog; try by apply log_inv_mono.
  - split; [|done]. rewrite <- Hlog in Hh. by apply history_event.
  - apply log_inv_mono. split; cbn [y_log y_hist y_conns y_trace]; [done|].
    apply Forall_app. split; [done|]. repeat constructor. destruct (_ <? _)%nat; cbn [snd]; [apply handleConn_events_ok|done].
  - destruct (y_conns s !! i) as [[slot [|act k|ev k]]|] eqn:Hi; try by apply log_inv_mono.
    all: pose proof (proj1 (Forall_lookup _ _) He i _ Hi) as Hk; cbn [snd events_ok] in Hk.
    + apply log_inv_mono. split; cbn [y_log y_hist y_conns y_trace]; [|by apply Forall_insert].
      revert Hh. apply history_weaken; [done|]. intros ev (j & [Hj|Hj]%elem_of_app); [by exists j|]. by apply list_elem_of_singleton in Hj.
    + destruct Hk as [Hev Hk]. split; cbn [y_log y_hist y_conns y_trace]; [|apply Forall_insert; [done|apply Hk]].
      rewrite <- Hlog in Hh. apply (history_append _ _ _ _ _ _ fs n _ _ _ x ev a fs0 Hl Hev Hlog) in Hh.
      revert Hh. apply history_weaken; [done|]. intros ev' (j & [Hj|Hj]%elem_of_app); [left; by exists j|right].
      apply list_elem_of_singleton in Hj as [= -> -> Hok]. done.
  - split; cbn [y_log y_hist y_conns y_trace]; [rewrite <- Hlog in Hh; by apply history_event|]. apply Forall_fmap. by apply Forall_true.
Qed.

Lemma sys_run_log_inv fs ls : Forall tame_label ls -> log_inv fs (length ls) (sys_run fs ls).
Proof.
  intros Hls. unfold sys_run, Proxy.sys_run. assert (log_inv fs 0 (Sys (None, fs) [] [] [])) as H0.
  { split; [|constructor]. apply (history_weaken _ _ _ _ _ _ fs 0 0 _ _ (fun _ => False)); [done| |apply history_init].
    intros ? [? []%elem_of_nil]. }
  change (length ls) with (0 + length ls)%nat. revert H0. generalize (Sys (None, fs) [] [] []) 0%nat.
  induction Hls as [|l ls Hl _ IH]; intros s n Hs; cbn [foldl length]; [by rewrite Nat.add_0_r|].
  rewrite Nat.add_succ_r, <- Nat.add_succ_l. apply IH. by apply exec_log_inv.
Qed.

Lemma granted_observed i ev t : ev ∈ granted (of_conn i t) -> (i, ORec ev true) ∈ t.
Proof.
  unfold granted, of_conn. rewrite list_elem_of_omap. intros (o & (x & Hx & Ho)%list_elem_of_omap & Ev).
  destruct x as [j o']. cbn in Ho. destruct (decide (j = i)) as [->|]; [|done]. injection Ho as ->.
  destruct o as [|ev' []]; try done. by injection Ev as ->.
Qed.

Lemma slots_bounded fs ls : (count_if holds_slot (y_conns (sys_run fs ls)) <= maxConcurrent)%nat.
Proof.
  unfold sys_run, Proxy.sys_run. assert (count_if holds_slot (y_conns (Sys (None, fs) [] [] [])) <= maxConcurrent)%nat as H0 by (cbn; lia).
  revert H0. generalize (Sys (None, fs) [] [] []). induction ls as [|l ls IH]; intros s Hs; [done|]. cbn [foldl]. apply IH.
  assert (forall i slot pr pr', y_conns s !! i = Some (slot, pr) -> running pr = true ->
    (count_if holds_slot (<[i := (slot, pr')]> (y_conns s)) <= maxConcurrent)%nat) as Hins.
  { intros i slot pr pr' Hi Hr. pose proof (count_if_insert holds_slot i (slot, pr) (slot, pr') (y_conns s) Hi) as E.
    unfold holds_slot at 2 4 in E. cbn [fst snd] in E. rewrite Hr in E. destruct slot, (running pr'); cbn [andb] in E; lia. }
  destruct l as [r|c|i x|x ev mid k]; unfold exec, Proxy.exec; destruct (y_log s) as [[a|] fs0]; try done; cbn [y_conns].
  - rewrite count_if_app, count_if_cons. unfold holds_slot at 2. destruct (Nat.ltb_spec (count_if holds_slot (y_conns s)) maxConcurrent).
    + cbn [fst snd andb]. destruct (running _); cbn; lia.
    + cbn. lia.
  - destruct (y_conns s !! i) as [[slot [|act k|ev k]]|] eqn:Hi; cbn [y_conns]; try done; by eapply Hins.
  - transitivity 0%nat; [|lia]. clear. induction (y_conns s) as [|[slot pr] l IH]; [done|]. cbn [fmap list_fmap].
    rewrite count_if_cons. unfold holds_slot at 1. cbn [fst snd running]. by rewrite andb_false_r.
Qed.

(** C6: Complete mediation. Whatever requests agents send, however their connections
    interleave, dial attempts, handshakes and file operations turn out, and wherever power
    is lost: when bytes flow, the host and port were validated, the host is permitted by the
    policy, the address passed the dial guard, and the signed log acknowledged an "allow"
    record of this connection's destination before. An opaque relay is never that of a host
    marked for inspection and is also recorded as uninspected; bytes of an inspected flow
    are a request the proxy wrote itself, whose method is permitted and in which no denied
    string occurs, and all of a connection's are within the cap. At most 256 connections are
    served at a time. *)
Theorem every_flow_is_mediated fs ls t1 i a t2 :
  audit p = true -> y_trace (sys_run fs ls) = t1 ++ (i, OAct a) :: t2 ->
  mediated Write p (granted (of_conn i t1)) a
  /\ (0 < maxReqBytes p -> sent (of_conn i (y_trace (sys_run fs ls))) <= maxReqBytes p)
  /\ (count_if holds_slot (y_conns (sys_run fs ls)) <= 256)%nat.
Proof. intros Ha E. split_and!; [by eapply observed_mediated|apply observed_capped|apply slots_bounded]. Qed.

(** The destination an action sends bytes to. *)
Definition reaches (a : action) : option (bytes * bytes) :=
  match a with Reply _ => None | Splice host port _ _ | Send host port _ _ => Some (host, port) end.

Lemma reaches_recorded seen a host port : mediated Write p seen a -> reaches a = Some (host, port) -> connect_allow host port ∈ seen.
Proof. destruct a; intros Hm [= <- <-]; apply Hm. Qed.

(** C18: Every destination reached is on the chain. With faults that the writer of the log
    tolerates, starting from an empty directory: if the proxy runs, each destination that
    bytes were ever sent to, before or after losses of power, has a "connect" "allow" record
    among what was pruned and what the directory retains, and these records form one signed
    hash chain from zero. *)
Theorem reached_destinations_stay_on_the_chain fs ls t1 i act t2 host port a fs' :
  audit p = true -> (1 <= segKeep)%nat -> (forall m, len (sign m) = 64) ->
  fresh base fs -> Forall tame_label ls -> Z.of_nat (length ls) + 3 < 2 ^ 64 ->
  y_log (sys_run fs ls) = (Some a, fs') ->
  y_trace (sys_run fs ls) = t1 ++ (i, OAct act) :: t2 -> reaches act = Some (host, port) ->
  exists pruned r,
    r ∈ pruned ++ records fs' /\ chained proxy_domain sign zeroHash 0 (pruned ++ records fs')
    /\ Hook r = B "connect" /\ Decision_ r = B "allow"
    /\ Json.Mode r = ToValidUTF8 (e_mode (connect_allow host port)).
Proof.
  intros Ha Hk Hsl Hf Hls Hb Hlog Et Hre.
  pose proof (sys_run_log_inv fs ls Hls) as [Hh _].
  pose proof (reaches_recorded _ _ _ _ (observed_mediated fs ls t1 i act t2 Ha Et) Hre) as Hg%granted_observed.
  destruct (told_is_on_chain Unmarshal base proxy_domain rotateBytes segKeep sign fs _ _ _ _ a fs' (connect_allow host port)
    Hk Hsl Hf Hb Hh Hlog) as (pruned & r & Hin & Hc & now & a0 & ->).
  { exists i. rewrite Et. apply elem_of_app. by left. }
  eexists pruned, _. split_and!; [exact Hin|exact Hc| | |reflexivity].
  - change (ToValidUTF8 (B "connect") = B "connect"). vm_compute. reflexivity.
  - change (ToValidUTF8 (B "allow") = B "allow"). vm_compute. reflexivity.
Qed.
End running.

(** ** A run, evaluated

    One connection is spliced, one inspected; a first dial attempt of each is to loopback. *)
Definition toy_write (r : request) (body : bytes) : option bytes :=
  Some (r_method r ++ B " " ++ r_uri r ++ [newline] ++ body).

Definition a_proxy : Proxy :=
  Eval vm_compute in
    match configure (H := ascii_only) (ProxyEnv [] [] [] (B "4096") (B "SECRET") (B "get, post")) (Opened a_policy false) true with
    | Some p => p
    | None => ProxyOf (emptyAllowlist []) [] false false [] 0 [] []
    end.

Definition a_conn (line : string) (reqs : list read_result) : conn :=
  Conn (B line ++ [newline]) (fun _ => [Attempt (B "127.0.0.1:443") true; Attempt (B "198.51.100.20:443") true])
    true true true true reqs 0.

Definition a_get : read_result := ReadReq (Request (B "GET") (B "/") (B "api.example.com") []) true.
Definition a_leak : read_result := ReadReq (Request (B "POST") (B "/") (B "api.example.com") (B "my SECRET")) true.

Definition some_labels : list label :=
  [Start true; Accept (a_conn "CONNECT www.example.com:443" []); Accept (a_conn "CONNECT api.example.com:443" [a_get; a_leak]);
   Step 0 good_io; Step 1 good_io; Step 0 good_io; Step 1 good_io; Step 0 good_io; Step 1 good_io; Step 0 good_io; Step 1 good_io].

Definition a_run : sys := sys_run (H := ascii_only) toy_write a_proxy UnmarshalStrict a_log 0 1 toy_sign ∅ some_labels.
Definition a_trace : list (nat * obs) := Eval vm_compute in y_trace a_run.
Definition a_final : log_state := Eval vm_compute in y_log a_run.

Example a_run_acts :
  omap (fun io => match io.2 with OAct a => Some (io.1, reaches a) | _ => None end) a_trace
  = [(1%nat, None); (0%nat, None); (1%nat, Some (B "api.example.com", B "443")); (0%nat, Some (B "www.example.com", B "443"))]
  /\ match last a_trace with Some (_, ORec ev _) => e_decision ev | _ => [] end = B "deny".
Proof. vm_compute. auto. Qed.

Lemma some_labels_tame : Forall tame_label some_labels.
Proof. repeat constructor; try done; unfold tame_label; try apply good_io_tame. Qed.

Lemma every_flow_is_mediated_witness :
  mediated (H := ascii_only) toy_write a_proxy (granted (of_conn 0 (take 6 a_trace)))
    (Splice (B "www.example.com") (B "443") (B "198.51.100.20:443") []).
Proof.
  exact (proj1 (every_flow_is_mediated (H := ascii_only) toy_write a_proxy UnmarshalStrict a_log 0 1 toy_sign ∅ some_labels
    (take 6 a_trace) 0 (Splice (B "www.example.com") (B "443") (B "198.51.100.20:443") []) (drop 7 a_trace)
    eq_refl ltac:(vm_compute; reflexivity))).
Defined.

Lemma reached_destinations_stay_on_the_chain_witness :
  exists pruned r, r ∈ pruned ++ chain_records UnmarshalStrict (segment_files a_log a_final.2) (open_file a_final.2 a_log)
    /\ Hook r = B "connect" /\ Decision_ r = B "allow" /\ Json.Mode r = B "dst=www.example.com:443".
Proof.
  destruct (reached_destinations_stay_on_the_chain (H := ascii_only) toy_write a_proxy UnmarshalStrict a_log 0 1 toy_sign ∅ some_labels
    (take 6 a_trace) 0 (Splice (B "www.example.com") (B "443") (B "198.51.100.20:443") []) (drop 7 a_trace)
    (B "www.example.com") (B "443") (match a_final.1 with Some a => a | None => AuditLog "" [] 0 0 end) a_final.2
    eq_refl ltac:(lia) toy_length a_log_fresh some_labels_tame ltac:(vm_compute; reflexivity)
    ltac:(vm_compute; reflexivity) ltac:(vm_compute; reflexivity) eq_refl) as (pruned & r & H1 & _ & H2 & H3 & H4).
  exists pruned, r. split_and!; [exact H1|exact H2|exact H3|]. rewrite H4. vm_compute. reflexivity.
Defined.
