(* ===== verification/ProxyRelay.v ===== *)
(** * The egress proxy's flows in time: the opaque relay and the slots

    [splice], the response direction of [inspectRelay] and [idleConn.Read] of [proxy.go] and
    [mitm.go] on peers that send and take at will, how long [handleConn] keeps its slot, and
    what that means for the 256 slots all agents share. *)
From Stdlib Require Import ZArith Lia Ascii String.
From stdpp Require Import base tactics numbers option strings list gmap.
From S2P Require Import Prelude Bytes Proxy VsockMux VsockProps.
#[local] Open Scope string_scope.
#[local] Open Scope list_scope.
#[local] Open Scope Z_scope.

Definition requestTimeout : Z := 5 * second.
Definition upDialTimeout : Z := 10 * second.

(** How a write to a peer goes: it is taken after some time, it fails after a part was taken,
    or it never returns. The relay sets no deadline on its writes. *)
Inductive write_fate := Takes (d : Z) | Fails (d : Z) (part : nat) | Blocks (part : nat).

Inductive relay_end := StreamEnd | StreamBroken | Idle | Cap | WriteError | Stuck.

(** One direction: what went out, how many bytes were read, when it returned, if it did. *)
Record relayed := RelayedTo { r_out : bytes; r_read : Z; r_at : option Z; r_why : relay_end }.

Section relay.
  Context (idle tmax : Z).   (* p.idleTimeout, p.tunnelMax *)

(** The deadline of a read: [idle] from now, capped by the absolute one; none after that. *)
Definition read_by (now deadline : Z) : option Z :=
  if deadline <=? now then None else Some (if deadline <? now + idle then deadline else now + idle).

(** [idleConn.Read]. *)
Definition idleRead (now total : Z) (s : source) : read_res :=
  match read_by now total with None => TimedOut now | Some rd => read now rd s end.

Fixpoint cp (fuel : nat) (now deadline : Z) (s : source) (ws : nat -> write_fate) (i : nat) : option relayed :=
  match fuel with
  | O => None
  | S fuel =>
      match read_by now deadline with
      | None => Some (RelayedTo [] 0 (Some now) Cap)
      | Some rd =>
          match read now rd s with
          | Got t [] s => cp fuel t deadline s ws i
          | Got t b s =>
              match ws i with
              | Takes d =>
                  match cp fuel (t + Z.max 0 d) deadline s ws (S i) with
                  | Some r => Some (RelayedTo (b ++ r_out r) (len b + r_read r) (r_at r) (r_why r))
                  | None => None
                  end
              | Fails d part => Some (RelayedTo (take part b) (len b) (Some (t + Z.max 0 d)) WriteError)
              | Blocks part => Some (RelayedTo (take part b) (len b) None Stuck)
              end
          | AtEof t => Some (RelayedTo [] 0 (Some t) StreamEnd)
          | ReadFailed t => Some (RelayedTo [] 0 (Some t) StreamBroken)
          | TimedOut t => Some (RelayedTo [] 0 (Some t) Idle)
          end
      end
  end.

Definition relay_dir (now deadline : Z) (s : source) (ws : nat -> write_fate) : relayed :=
  default (RelayedTo [] 0 None Stuck) (cp (S (weight s)) now deadline s ws 0).

Record party := Party { pt_sends : source; pt_takes : nat -> write_fate }.

(** [wg.Wait]: the later of two ends, if both come. *)
Definition both (a b : option Z) : option Z :=
  match a, b with Some a, Some b => Some (Z.max a b) | _, _ => None end.

Record tunnel := TunnelRun { tn_down : relayed; tn_up : relayed; tn_end : option Z }.

(** [p.splice(c, up)]. *)
Definition proxy_splice (now : Z) (c up : party) : tunnel :=
  let deadline := now + tmax in
  let down := relay_dir now deadline (pt_sends up) (pt_takes c) in
  let u := relay_dir now deadline (pt_sends c) (pt_takes up) in
  TunnelRun down u (both (r_at down) (r_at u)).

(** ** The time of a connection *)

(** What a connection does before its relay: when its line is complete, how long dial and
    appends take (zero where the path has none), how it takes the reply. *)
Record script := Script { sc_line : option Z; sc_dial : Z; sc_appends : Z; sc_reply : write_fate }.

(** How it goes on: an answer and the end; the opaque relay; or two handshakes, without a
    deadline, and the inspected relay, whose requests end when the agent ends them or its reads
    and writes reach the deadline. *)
Inductive course :=
| Turned
| Opaque (c up : party)
| Terminated (agent upstream : option Z) (requests : Z) (up : source) (takes : nat -> write_fate).

Definition line_time (sc : script) : Z :=
  match sc_line sc with Some t => Z.min (Z.max 0 t) requestTimeout | None => requestTimeout end.

(** [writeReply] sets a deadline. *)
Definition reply_time (w : write_fate) : Z :=
  match w with Takes d | Fails d _ => Z.min (Z.max 0 d) requestTimeout | Blocks _ => requestTimeout end.

Definition before (sc : script) : Z :=
  line_time sc + Z.min (Z.max 0 (sc_dial sc)) upDialTimeout + Z.max 0 (sc_appends sc) + reply_time (sc_reply sc).

(** When [handleConn], admitted at [now], returns and releases its slot. *)
Definition released (now : Z) (sc : script) (c : course) : option Z :=
  let t := now + before sc in
  match c with
  | Turned => Some t
  | Opaque a b => tn_end (proxy_splice t a b)
  | Terminated (Some agent) (Some upstream) requests up takes =>
      let t := t + Z.max 0 agent + Z.max 0 upstream in
      both (Some (Z.min (Z.max t requests) (t + tmax))) (r_at (relay_dir t (t + tmax) up takes))
  | Terminated _ _ _ _ _ => None
  end.

(** ** The slots *)

(** A slot in use and when it is released, if ever. *)
Definition in_use (now : Z) (slots : list (option Z)) : list (option Z) :=
  List.filter (fun r => match r with Some r => now <? r | None => true end) slots.

Inductive admission := Busy | Served.

(** The head of [handleConn]: a free slot or "ERR busy". *)
Definition take_slot (now : Z) (r : option Z) (slots : list (option Z)) : admission * list (option Z) :=
  let slots := in_use now slots in
  if (length slots <? maxConcurrent)%nat then (Served, r :: slots) else (Busy, slots).

Record caller := Caller { cl_at : Z; cl_script : script; cl_course : course }.

Fixpoint proxy_run (slots : list (option Z)) (cs : list caller) : list admission * list (option Z) :=
  match cs with
  | [] => ([], slots)
  | c :: cs =>
      let '(a, slots) := take_slot (cl_at c) (released (cl_at c) (cl_script c) (cl_course c)) slots in
      let '(os, slots) := proxy_run slots cs in (a :: os, slots)
  end.
End relay.
