(* ===== verification/RelayProps.v ===== *)
(** * The opaque relay and the slots of the egress proxy: what they promise, and to whom

    Bytes pass unchanged and in order. A flow ends, and its slot is released, as long as the
    peers take what is written to them; the relay sets no write deadline and the handshakes
    none at all, so a peer that does not can keep its slot for ever. *)
From Stdlib Require Import ZArith Lia Ascii String.
From stdpp Require Import base tactics numbers option strings list gmap.
From S2P Require Import Prelude Bytes Proxy VsockMux VsockProps ProxyRelay.
#[local] Open Scope string_scope.
#[local] Open Scope list_scope.
#[local] Open Scope Z_scope.

(** Every write returns within [w]. *)
Definition prompt (w : Z) (ws : nat -> write_fate) : Prop :=
  forall i, match ws i with Takes d | Fails d _ => d <= w | Blocks _ => False end.

Section relay.
  Context (idle tmax : Z) (Hidle : 0 < idle) (Htmax : 0 < tmax).

Lemma read_by_cap now deadline rd : read_by idle now deadline = Some rd -> now < rd <= deadline.
Proof.
  unfold read_by. destruct (Z.leb_spec deadline now); [done|]. destruct (Z.ltb_spec deadline (now + idle)); intros [= <-]; lia.
Qed.

(** A read of an inspected connection returns by the deadline of the tunnel. *)
Lemma idleRead_bounded now total s t b s' : idleRead idle now total s = Got t b s' -> now <= t <= total.
Proof.
  unfold idleRead. destruct (read_by idle now total) as [rd|] eqn:E; [|done]. apply read_by_cap in E.
  intros (_ & ? & _)%read_got. lia.
Qed.

Lemma cp_total fuel now deadline s ws i : (weight s < fuel)%nat -> is_Some (cp idle fuel now deadline s ws i).
Proof.
  revert now s i. induction fuel as [|fuel IH]; intros now s i Hf; [lia|]. cbn [cp].
  destruct (read_by _ _ _) as [rd|]; [|by eexists]. destruct (read now rd s) as [t b s'| | |] eqn:E; [|by eexists..].
  apply read_got in E as (_ & _ & _ & Hw & _). destruct b as [|x b]; [apply IH; lia|].
  destruct (ws i) as [d|d part|part]; [|by eexists..]. destruct (IH (t + Z.max 0 d) s' (S i)) as [r ->]; [lia|]. by eexists.
Qed.

Record good_relay (now deadline : Z) (s : source) (ws : nat -> write_fate) (r : relayed) : Prop := {
  gr_prefix : r_out r `prefix_of` sent s;
  gr_all : r_why r = StreamEnd -> r_out r = sent s;
  gr_read : len (r_out r) <= r_read r <= len (sent s);
  gr_stuck : r_at r = None -> exists i part, ws i = Blocks part;
  gr_time w e : 0 <= w -> prompt w ws -> r_at r = Some e -> now <= e <= Z.max now (deadline + w) }.

Lemma good_nothing now deadline s ws t why :
  now <= t <= Z.max now deadline -> (why = StreamEnd -> sent s = []) -> good_relay now deadline s ws (RelayedTo [] 0 (Some t) why).
Proof.
  intros Ht Hw. split; cbn [r_out r_read r_at r_why]; [apply prefix_nil|intros ->%Hw; done|unfold len; cbn; lia|done|].
  intros w e Hw0 _ [= <-]. lia.
Qed.

Lemma read_eof now rd s t : read now rd s = AtEof t -> sent s = [].
Proof.
  unfold read, sent. destruct (rd <=? now); [done|]. destruct (s_chunks s) as [|[t0 b0] cs]; [done|]. by destruct (t0 <=? rd).
Qed.

Lemma cp_good fuel now deadline s ws i r : cp idle fuel now deadline s ws i = Some r -> good_relay now deadline s ws r.
Proof.
  revert now s i r. induction fuel as [|fuel IH]; intros now s i r; [done|]. cbn [cp].
  destruct (read_by idle now deadline) as [rd|] eqn:Erd; [|intros [= <-]; apply good_nothing; [lia|done]].
  apply read_by_cap in Erd. destruct (read now rd s) as [t b s'|t|t|t] eqn:E.
  2-4: pose proof (read_ends _ _ _ _ t E ltac:(auto)) as Ht; intros [= <-]; apply good_nothing; [lia|try done].
  2: intros _; by apply read_eof in E.
  apply read_got in E as (_ & Ht & Hs & _ & _). assert (len (sent s) = len b + len (sent s')) as Hl.
  { unfold len. rewrite Hs, length_app. lia. }
  destruct b as [|x b].
  { intros [H1 H2 H3 H4 H5]%IH. rewrite app_nil_l in Hs. split; rewrite ?Hs; try done. intros w e Hw Hp He. specialize (H5 w e Hw Hp He). lia. }
  destruct (ws i) as [d|d part|part] eqn:Ew.
  - destruct (cp idle fuel _ deadline s' ws (S i)) as [r'|] eqn:Ec; [|done]. intros [= <-].
    apply IH in Ec as [H1 H2 H3 H4 H5]. split; cbn [r_out r_read r_at r_why]; [rewrite Hs; exact (prefix_app (x :: b) _ _ H1)|..].
    + intros ->%H2. by rewrite Hs.
    + unfold len in *. cbn [length app] in *. rewrite !length_app in *. lia.
    + done.
    + intros w e Hw Hp He. pose proof (Hp i) as Hi. rewrite Ew in Hi. specialize (H5 w e Hw Hp He). lia.
  - intros [= <-]. split; cbn [r_out r_read r_at r_why]; [rewrite Hs; apply prefix_app_r, prefix_take|done| |done|].
    + unfold len in *. rewrite length_take. lia.
    + intros w e Hw Hp [= <-]. pose proof (Hp i) as Hi. rewrite Ew in Hi. lia.
  - intros [= <-]. split; cbn [r_out r_read r_at r_why]; [rewrite Hs; apply prefix_app_r, prefix_take|done| |by exists i, part|done].
    unfold len in *. rewrite length_take. lia.
Qed.

Lemma relay_good now deadline s ws : good_relay now deadline s ws (relay_dir idle now deadline s ws).
Proof.
  unfold relay_dir. destruct (cp_total (S (weight s)) now deadline s ws 0) as [r Hr]; [lia|]. rewrite Hr. by eapply cp_good.
Qed.

Lemma relay_ends now deadline s ws w :
  0 <= w -> prompt w ws -> exists e, r_at (relay_dir idle now deadline s ws) = Some e /\ now <= e <= Z.max now (deadline + w).
Proof.
  intros Hw Hp. destruct (relay_good now deadline s ws) as [_ _ _ Hs Ht]. destruct (r_at _) as [e|].
  - exists e. split; [done|]. by apply Ht.
  - destruct (Hs eq_refl) as (i & part & Hb). specialize (Hp i). by rewrite Hb in Hp.
Qed.

Lemma both_None a b : both a b = None -> a = None \/ b = None.
Proof. destruct a, b; naive_solver. Qed.

(** The relay is transparent in both directions, whatever the peers do; what is counted is at
    least what was delivered; and it returns unless a write to a peer never does. *)
Lemma splice_transparent now c up :
  let tn := proxy_splice idle tmax now c up in
  r_out (tn_up tn) `prefix_of` sent (pt_sends c) /\ r_out (tn_down tn) `prefix_of` sent (pt_sends up)
  /\ (r_why (tn_up tn) = StreamEnd -> r_out (tn_up tn) = sent (pt_sends c))
  /\ (r_why (tn_down tn) = StreamEnd -> r_out (tn_down tn) = sent (pt_sends up))
  /\ len (r_out (tn_down tn)) <= r_read (tn_down tn)
  /\ (tn_end tn = None -> exists i part, pt_takes c i = Blocks part \/ pt_takes up i = Blocks part).
Proof.
  cbv zeta. unfold proxy_splice. cbn [tn_up tn_down tn_end].
  destruct (relay_good now (now + tmax) (pt_sends c) (pt_takes up)) as [U1 U2 _ U4 _].
  destruct (relay_good now (now + tmax) (pt_sends up) (pt_takes c)) as [D1 D2 D3 D4 _].
  split_and!; [done|done|done|done|lia|]. intros [(i & p & H)%D4|(i & p & H)%U4]%both_None; eauto.
Qed.

(** A connection whose peers take every write within [w] and whose handshakes return within [h]. *)
Definition lively (w h : Z) (c : course) : Prop :=
  match c with
  | Turned => True
  | Opaque a b => prompt w (pt_takes a) /\ prompt w (pt_takes b)
  | Terminated (Some x) (Some y) _ _ takes => x <= h /\ y <= h /\ prompt w takes
  | Terminated _ _ _ _ _ => False
  end.

(** How long such a connection keeps its slot at most, if its appends take [a]. *)
Definition keeps (w h a : Z) : Z := 2 * requestTimeout + upDialTimeout + a + 2 * h + tmax + w.

Lemma before_bounds sc a : sc_appends sc <= a -> 0 <= a -> 0 <= before sc <= 2 * requestTimeout + upDialTimeout + a.
Proof.
  assert (0 < requestTimeout /\ 0 < upDialTimeout) as [Hr Hd] by (unfold requestTimeout, upDialTimeout, second; lia).
  intros Ha H0. unfold before. assert (0 <= line_time sc <= requestTimeout) by (unfold line_time; destruct (sc_line sc); lia).
  assert (0 <= reply_time (sc_reply sc) <= requestTimeout) by (unfold reply_time; destruct (sc_reply sc); lia). lia.
Qed.

Lemma lively_released w h a now sc c :
  0 <= w -> 0 <= h -> 0 <= a -> sc_appends sc <= a -> lively w h c ->
  exists e, released idle tmax now sc c = Some e /\ now <= e <= now + keeps w h a.
Proof.
  intros Hw Hh Ha Hsc Hl. pose proof (before_bounds sc a Hsc Ha) as Hb. unfold released, keeps. cbv zeta.
  destruct c as [|p q|[x|] [y|] rq up takes]; cbn [lively] in Hl; try done.
  - eexists. split; [done|]. lia.
  - destruct Hl as [Hp Hq]. unfold proxy_splice. cbn [tn_end].
    set (t := now + before sc) in *.
    destruct (relay_ends t (t + tmax) (pt_sends q) (pt_takes p) w Hw Hp) as (e1 & -> & H1).
    destruct (relay_ends t (t + tmax) (pt_sends p) (pt_takes q) w Hw Hq) as (e2 & -> & H2).
    cbn [both]. eexists. split; [done|]. lia.
  - destruct Hl as (Hx & Hy & Hp). set (t := now + before sc + Z.max 0 x + Z.max 0 y) in *.
    destruct (relay_ends t (t + tmax) up takes w Hw Hp) as (e & -> & He). cbn [both]. eexists. split; [done|]. lia.
Qed.

(** ** The slots *)
Abbreviation run := (proxy_run idle tmax).

Lemma take_slot_cap now r slots : (length (take_slot now r slots).2 <= maxConcurrent)%nat \/ (length (in_use now slots) > maxConcurrent)%nat.
Proof. unfold take_slot. cbv zeta. destruct (Nat.ltb_spec (length (in_use now slots)) maxConcurrent); cbn [snd length]; lia. Qed.

Lemma in_use_le now now' slots : (length (in_use now (in_use now' slots)) <= length (in_use now slots))%nat.
Proof.
  unfold in_use. induction slots as [|[r|] l IH]; [done| |]; cbn [List.filter].
  - destruct (now' <? r); cbn [List.filter]; destruct (now <? r); cbn [length]; lia.
  - cbn [length]. lia.
Qed.

Lemma in_use_cons now e slots : in_use now (Some e :: slots) = if now <? e then Some e :: in_use now slots else in_use now slots.
Proof. done. Qed.

Lemma run_cap slots cs : (length slots <= maxConcurrent)%nat -> (length (run slots cs).2 <= maxConcurrent)%nat.
Proof.
  revert slots. induction cs as [|c cs IH]; intros slots Hs; [done|]. cbn [proxy_run].
  destruct (take_slot _ _ slots) as [o slots'] eqn:E. specialize (IH slots'). destruct (run slots' cs) as [os s2]. cbn [snd] in *. apply IH.
  replace slots' with (take_slot (cl_at c) (released idle tmax (cl_at c) (cl_script c) (cl_course c)) slots).2 by by rewrite E.
  assert (length (in_use (cl_at c) slots) <= length slots)%nat by apply List.filter_length_le.
  destruct (take_slot_cap (cl_at c) (released idle tmax (cl_at c) (cl_script c) (cl_course c)) slots); lia.
Qed.

(** The connections of [cs] that came within the last [b] before [now]. *)
Definition came_since (b now : Z) (cs : list caller) : nat := length (List.filter (fun c => now <? cl_at c + b) cs).

Lemma run_load w h a now slots cs :
  0 <= w -> 0 <= h -> 0 <= a -> Forall (fun c => lively w h (cl_course c) /\ sc_appends (cl_script c) <= a) cs ->
  (length (in_use now (run slots cs).2) <= length (in_use now slots) + came_since (keeps w h a) now cs)%nat.
Proof.
  intros Hw Hh Ha. revert slots. induction cs as [|c cs IH]; intros slots Hf; [cbn [proxy_run snd]; lia|].
  apply Forall_cons in Hf as [[Hl Hs] Hf]. cbn [proxy_run].
  destruct (lively_released w h a (cl_at c) (cl_script c) (cl_course c)) as (e & -> & He); [done..|].
  unfold take_slot. cbv zeta. pose proof (in_use_le now (cl_at c) slots) as Hin.
  unfold came_since in *. cbn [List.filter].
  destruct (Nat.ltb_spec (length (in_use (cl_at c) slots)) maxConcurrent).
  - specialize (IH (Some e :: in_use (cl_at c) slots) Hf). destruct (run _ cs) as [os s2]. cbn [snd] in *.
    rewrite in_use_cons in IH. destruct (Z.ltb_spec now e), (Z.ltb_spec now (cl_at c + keeps w h a)); cbn [length] in *; lia.
  - specialize (IH (in_use (cl_at c) slots) Hf). destruct (run _ cs) as [os s2]. cbn [snd] in *.
    destruct (now <? _); cbn [length]; lia.
Qed.

(** C28: The proxy's opaque relay is transparent, and its slots recover as long as peers take
    what they are sent. Whatever two peers do, each receives a prefix of what the other sent,
    all of it if the stream was read to its end, and the relay returns unless a write to a peer
    never does. Over any sequence of connections at most 256 slots are in use, and if every
    write returns within [w], every handshake within [h] and the appends within [a], a new
    connection is turned away only if 256 others came within the last [keeps w h a]. *)
Theorem relay_transparent_and_slots_recover w h a cs now r :
  0 <= w -> 0 <= h -> 0 <= a -> Forall (fun c => lively w h (cl_course c) /\ sc_appends (cl_script c) <= a) cs ->
  (forall t c up, let tn := proxy_splice idle tmax t c up in
     r_out (tn_up tn) `prefix_of` sent (pt_sends c) /\ r_out (tn_down tn) `prefix_of` sent (pt_sends up)
     /\ (r_why (tn_up tn) = StreamEnd -> r_out (tn_up tn) = sent (pt_sends c))
     /\ (r_why (tn_down tn) = StreamEnd -> r_out (tn_down tn) = sent (pt_sends up))
     /\ len (r_out (tn_down tn)) <= r_read (tn_down tn)
     /\ (tn_end tn = None -> exists i part, pt_takes c i = Blocks part \/ pt_takes up i = Blocks part))
  /\ (length (run [] cs).2 <= 256)%nat
  /\ ((came_since (keeps w h a) now cs < 256)%nat -> (take_slot now r (run [] cs).2).1 = Served).
Proof.
  intros Hw Hh Ha Hf. split_and!; [exact splice_transparent|apply run_cap; cbn; lia|]. intros Hc.
  pose proof (run_load w h a now [] cs Hw Hh Ha Hf) as Hl. unfold take_slot. cbv zeta. cbn [in_use List.filter length] in Hl.
  by rewrite (proj2 (Nat.ltb_lt _ _)) by (unfold maxConcurrent; lia).
Qed.

(** *** Peers that stall *)
Lemma in_use_stuck now n : in_use now (replicate n None) = replicate n None.
Proof. unfold in_use. induction n as [|n IH]; [done|]. cbn. by rewrite IH. Qed.

Lemma stuck_fill n cs :
  Forall (fun c => released idle tmax (cl_at c) (cl_script c) (cl_course c) = None) cs -> (n + length cs <= maxConcurrent)%nat ->
  run (replicate n None) cs = (replicate (length cs) Served, replicate (n + length cs) None).
Proof.
  intros Hf. revert n. induction Hf as [|c cs Hc _ IH]; intros n Hn; [cbn; by rewrite Nat.add_0_r|]. cbn [proxy_run length] in *.
  rewrite Hc. unfold take_slot. rewrite in_use_stuck, length_replicate, (proj2 (Nat.ltb_lt _ _)) by lia.
  change (None :: replicate n None) with (replicate (S n) (@None Z)). rewrite IH by lia. cbn [replicate]. do 2 f_equal. lia.
Qed.

Lemma full_run cs : run (replicate maxConcurrent None) cs = (replicate (length cs) Busy, replicate maxConcurrent None).
Proof.
  induction cs as [|c cs IH]; [done|]. cbn [proxy_run length]. unfold take_slot. rewrite in_use_stuck, length_replicate, Nat.ltb_irrefl.
  by rewrite IH.
Qed.

Lemma run_app slots cs cs' :
  run slots (cs ++ cs') = ((run slots cs).1 ++ (run (run slots cs).2 cs').1, (run (run slots cs).2 cs').2).
Proof.
  revert slots. induction cs as [|c cs IH]; intros slots; [cbn; by destruct (run slots cs')|]. cbn [app proxy_run].
  destruct (take_slot _ _ slots) as [o s1]. rewrite IH. by destruct (run s1 cs) as [os s2].
Qed.

(** 256 connections that never return leave no slot, for any later time: every other agent is
    told "ERR busy" until the proxy is restarted. *)
Theorem stalled_flows_exhaust_the_proxy cs later :
  length cs = maxConcurrent ->
  Forall (fun c => released idle tmax (cl_at c) (cl_script c) (cl_course c) = None) cs ->
  (run [] (cs ++ later)).1 = replicate maxConcurrent Served ++ replicate (length later) Busy.
Proof.
  intros Hl Hf. change (@nil (option Z)) with (replicate 0 (@None Z)).
  rewrite run_app, (stuck_fill 0 cs Hf) by (cbn; lia). cbn [fst snd]. by rewrite Nat.add_0_l, Hl, full_run.
Qed.
End relay.

(** ** Evaluated *)
Definition takes_at_once (_ : nat) : write_fate := Takes 0.
Definition quick : script := Script (Some 0) 0 0 (Takes 0).
Definition prompt_pair : course :=
  Opaque (Party (Source [(10, B "GET")] (Eof 20)) takes_at_once) (Party (Source [(15, B "200")] (Eof 30)) takes_at_once).

(** A client that does not read its answer, and one that never begins its handshake. *)
Definition never_reads : course :=
  Opaque (Party (Source [(10, B "GET")] Silent) (fun _ => Blocks 0)) (Party (Source [(15, B "200")] (Eof 30)) takes_at_once).
Definition never_greets : course := Terminated None (Some 0) 0 (Source [] Silent) takes_at_once.

Lemma relay_transparent_and_slots_recover_witness :
  (length (proxy_run idleTimeout tunnelMax [] (replicate 300 (Caller 0 quick prompt_pair))).2 <= 256)%nat
  /\ (take_slot (10 * tunnelMax) (Some 0) (proxy_run idleTimeout tunnelMax [] (replicate 300 (Caller 0 quick prompt_pair))).2).1 = Served.
Proof.
  destruct (relay_transparent_and_slots_recover idleTimeout tunnelMax ltac:(reflexivity) ltac:(reflexivity) 0 0 0
    (replicate 300 (Caller 0 quick prompt_pair)) (10 * tunnelMax) (Some 0)) as (_ & H1 & H2); [lia..| | ].
  - apply Forall_replicate. split; [split; intros i; cbn; lia|cbn; lia].
  - split; [exact H1|]. apply H2. vm_compute. lia.
Defined.

Example stalled_flows :
  released idleTimeout tunnelMax 0 quick never_reads = None /\ released idleTimeout tunnelMax 0 quick never_greets = None
  /\ released idleTimeout tunnelMax 0 quick prompt_pair = Some 30.
Proof. vm_compute. done. Qed.

(** The released configuration with 256 clients of either kind: a year later it is still busy. *)
Example a_year_later :
  (proxy_run idleTimeout tunnelMax [] (replicate 256 (Caller 0 quick never_reads) ++ [Caller (365 * 24 * tunnelMax) quick prompt_pair])).1
    = replicate maxConcurrent Served ++ [Busy].
Proof. vm_compute. reflexivity. Qed.
