(* ===== verification/AgentDial.v ===== *)
(** * The agent's dialler and the mediated path: [agent/egress.go]

    [proxyDial] sends one CONNECT line to the egress proxy and reads one line back. Composed
    with the proxy's [handleConn] and, in a Firecracker guest, with the multiplexer between
    them: what a tunnel the agent holds says about the proxy's decision. *)
From Stdlib Require Import ZArith Lia Ascii String.
From stdpp Require Import base tactics numbers option strings list gmap.
From S2P Require Import Prelude Maps Bytes Json Control Broker Verify AuditLog VsockMux VsockProps.
From S2P Require Import NetIP Allowlist Proxy ProxyProps.
#[local] Open Scope string_scope.
#[local] Open Scope list_scope.
#[local] Open Scope Z_scope.

Inductive reply_err := ReplyFailed | ReplyTooLong.

(** [readReply(c, max)] on what the connection still delivers; [max] counts the bytes that may
    still be kept, the rest stays unread. *)
Fixpoint readReply (max : nat) (buf s : bytes) : result reply_err bytes * bytes :=
  match max with
  | O => (Err ReplyTooLong, s)
  | S max =>
      match s with
      | [] => (Err ReplyFailed, [])
      | c :: s => if Ascii.eqb c newline then (Ok (rev buf), s) else readReply max (c :: buf) s
      end
  end.

(** What [fmt.Fprintf(c, "CONNECT %s\n", addr)] sends. *)
Definition dialRequest (addr : bytes) : bytes := B "CONNECT " ++ addr ++ [newline].

Inductive dialled :=
| Tunnel (rest : bytes)      (* the connection, with what it has not read of it *)
| EgressDenied
| DialError.

(** [proxyDial]: whether the connect and the write work, and what comes back. *)
Definition proxyDial (connects writes : bool) (s : bytes) : dialled :=
  if negb connects then DialError
  else if negb writes then DialError
  else match readReply 256 [] s with
  | (Err _, _) => DialError
  | (Ok reply, rest) =>
      if bool_decide (reply = B "OK") then Tunnel rest
      else if HasPrefixB reply (B "ERR denied") then EgressDenied else DialError
  end.

(** ** The proxy's side of the wire *)

(** The actions of a connection whose appends are answered by [oks]; it stops where they end. *)
Fixpoint actions (oks : list bool) (pr : proc) : list action :=
  match pr with
  | Done => []
  | Act a k => a :: actions oks k
  | Rec ev k => match oks with ok :: oks => actions oks (k ok) | [] => [] end
  end.

Definition is_reply (a : action) : option bytes := match a with Reply msg => Some msg | _ => None end.

Definition reply_of (acts : list action) : option bytes := head (omap is_reply acts).

(** What the agent receives: the first reply line and whatever follows, or nothing. *)
Definition wire (acts : list action) (later : bytes) : bytes :=
  match reply_of acts with Some msg => msg ++ newline :: later | None => [] end.

(** ** Lemmas *)
Lemma readReply_line max buf l rest :
  no_newline l -> (length l < max)%nat -> readReply max buf (l ++ newline :: rest) = (Ok (rev buf ++ l), rest).
Proof.
  revert max buf. induction l as [|c l IH]; intros [|max] buf Hn Hl; cbn [length] in Hl; try lia; cbn [app readReply].
  - by rewrite Ascii.eqb_refl, app_nil_r.
  - apply not_elem_of_cons in Hn as [Hc Hn]. destruct (Ascii.eqb_spec c newline) as [->|]; [done|].
    rewrite IH by (done || lia). cbn [rev]. by rewrite <- app_assoc.
Qed.

(** The proxy's reader agrees on a stream and on any longer one. *)
Lemma readLine_prefix max buf s s' line rest :
  readLine max buf s = (Ok line, rest) -> s `prefix_of` s' ->
  exists more, readLine max buf s' = (Ok line, rest ++ more).
Proof.
  revert buf s s'. induction max as [|max IH]; intros buf s s'; cbn [readLine]; [done|]. destruct s as [|c s]; [done|].
  intros E [k ->]. cbn [app]. destruct (Ascii.eqb c newline); [|by apply (IH _ s); [|by exists k]].
  injection E as <- <-. eauto.
Qed.

Lemma readRequest_prefix s s' host port rest :
  readRequest s = (Ok (host, port), rest) -> s `prefix_of` s' -> exists more, readRequest s' = (Ok (host, port), rest ++ more).
Proof.
  unfold readRequest. destruct (readLine maxRequestLen [] s) as [[line|] r] eqn:E; [|done]. intros [= Hp ->] Hpre.
  destruct (readLine_prefix _ _ _ _ _ _ E Hpre) as [more ->]. exists more. by rewrite Hp.
Qed.

Lemma readLine_line max buf l rest :
  no_newline l -> (length l < max)%nat -> readLine max buf (l ++ newline :: rest) = (Ok (rev buf ++ l), rest).
Proof.
  revert max buf. induction l as [|c l IH]; intros [|max] buf Hn Hl; cbn [length] in Hl; try lia; cbn [app readLine].
  - by rewrite Ascii.eqb_refl, app_nil_r.
  - apply not_elem_of_cons in Hn as [Hc Hn]. destruct (Ascii.eqb_spec c newline) as [->|]; [done|].
    rewrite IH by (done || lia). cbn [rev]. by rewrite <- app_assoc.
Qed.

(** Bytes that went through the guest's forwarder and then through the host's multiplexer. *)
Lemma through_mux now now' a b a' b' :
  VsockProps.sent (pc_in a') = c_out (sp_to_b (splice now a b)) -> c_out (sp_to_b (splice now' a' b')) `prefix_of` VsockProps.sent (pc_in a).
Proof.
  intros E. etrans; [apply (gc_prefix now' (now' + tunnelMax)), copy_good|]. rewrite E.
  apply (gc_prefix now (now + tunnelMax)), copy_good.
Qed.

Section path.
  Context `{Unicode}.
  Context (Write : request -> bytes -> option bytes) (p : Proxy).
  Abbreviation first_reply oks pr := (reply_of (actions oks pr)).

Lemma first_reply_end oks s msg : first_reply oks (reply_end s) = Some msg -> msg = B s.
Proof. by intros [= <-]. Qed.

Lemma first_reply_record oks ev k msg : first_reply oks (record_ p ev k) = Some msg -> exists oks', first_reply oks' k = Some msg.
Proof. unfold record_. destruct (audit p); [|eauto]. destruct oks as [|ok oks]; [done|]. cbn [actions]. eauto. Qed.

Lemma actions_record_or oks ev fail k msg :
  first_reply oks (record_or p ev fail k) = Some msg ->
  exists oks', (first_reply oks' fail = Some msg \/ first_reply oks' k = Some msg /\ actions oks (record_or p ev fail k) = actions oks' k).
Proof.
  unfold record_or. destruct (audit p); [|eauto]. destruct oks as [|[] oks]; [done|..]; cbn [actions]; eauto.
Qed.

(** An action of a connection to [host] and [port] at the address [to] sends bytes there only;
    the opaque relay starts with the stream [rest]. *)
Definition flows_to (host port to rest : bytes) (a : action) : Prop :=
  match a with
  | Reply _ => True
  | Splice h q x r => h = host /\ q = port /\ x = to /\ r = rest
  | Send h q x _ => h = host /\ q = port /\ x = to
  end.

Lemma actions_all (Q : action -> Prop) seen pr : safe (fun _ => Q) seen pr -> forall oks, Forall Q (actions oks pr).
Proof.
  revert seen. induction pr as [|a k IH|ev k IH]; intros seen Hs oks; cbn [safe actions] in *; [constructor| |].
  - destruct Hs as [Ha Hk]. constructor; [done|]. by apply (IH seen).
  - destruct oks as [|ok oks]; [constructor|]. destruct Hs as [Ht Hf], ok; [by apply (IH true (seen ++ [ev]))|by apply (IH false seen)].
Qed.

Lemma record_all (Q : action -> Prop) seen ev k :
  (forall seen, safe (fun _ => Q) seen k) -> safe (fun _ => Q) seen (record_ p ev k).
Proof. intros Hk. unfold record_. destruct (audit p); cbn [safe]; auto. Qed.

Lemma record_or_all (Q : action -> Prop) seen ev fail k :
  (forall seen, safe (fun _ => Q) seen fail) -> (forall seen, safe (fun _ => Q) seen k) ->
  safe (fun _ => Q) seen (record_or p ev fail k).
Proof. intros Hf Hk. unfold record_or. destruct (audit p); cbn [safe]; auto. Qed.

Lemma relay_flows host port to rest k first st reads seen :
  (forall st, safe (fun _ => flows_to host port to rest) seen (k st)) ->
  safe (fun _ => flows_to host port to rest) seen (relay Write p host port to k first st reads).
Proof.
  intros Hk. revert first st. induction reads as [|[r ok| |] reads IH]; intros first st; cbn [relay]; try apply Hk.
  destruct (readInspectBody p (r_body r)) as [body capped]. destruct capped; [apply Hk|]. destruct (Write r body) as [out|]; [|apply Hk].
  destruct (inspectRequest _ _ _ _); [apply Hk|]. destruct ok; [|apply Hk]. cbn [safe]. split; [done|apply IH].
Qed.

Lemma terminate_flows c host port to rest seen : safe (fun _ => flows_to host port to rest) seen (terminate Write p c host port to).
Proof.
  unfold terminate, recordInspectDeny, inspectRelay. destruct (cn_reply_ok c); [|done]. cbn [negb safe].
  split; [done|]. destruct (cn_leaf c), (cn_agent_tls c), (cn_upstream_tls c); cbn [negb]; try (by apply record_all).
  apply relay_flows. intros st. by apply record_all.
Qed.

Lemma handleConn_flows c host port rest to :
  readRequest (cn_stream c) = (Ok (host, port), rest) ->
  dial_from (internalCIDRs p) None (cn_dial c (JoinHostPort host port)) = Ok to ->
  safe (fun _ => flows_to host port to rest) [] (handleConn Write p c).
Proof.
  intros Hr Hd. unfold handleConn. rewrite Hr. destruct (negb (Allows (allow p) host)); [by apply record_all|]. cbv zeta.
  destruct (_ && _); [by apply record_all|]. rewrite Hd. apply record_or_all; [done|]. intros seen.
  case_bool_decide; [apply terminate_flows|]. apply record_or_all; [done|]. intros seen'. by destruct (cn_reply_ok c).
Qed.

(** The first reply to a request tells its fate. *)
Inductive fate (c : conn) (acts : list action) : bytes -> Prop :=
| FateBad e rest : readRequest (cn_stream c) = (Err e, rest) -> fate c acts (B "ERR badrequest")
| FateDenied host port rest :
    readRequest (cn_stream c) = (Ok (host, port), rest) ->
    Allows (allow p) host = false \/ (Mode (allow p) host = modeInspect /\ mitm p && tls_port p port = false) ->
    fate c acts (B "ERR denied")
| FateFailed msg : msg = B "ERR upstream" \/ msg = B "ERR audit" -> fate c acts msg
| FateOk host port rest to :
    readRequest (cn_stream c) = (Ok (host, port), rest) -> Allows (allow p) host = true ->
    dial_from (internalCIDRs p) None (cn_dial c (JoinHostPort host port)) = Ok to -> Forall (flows_to host port to rest) acts ->
    (Mode (allow p) host <> modeInspect -> Splice host port to rest ∈ acts) -> fate c acts (B "OK").

Lemma handleConn_fate oks c msg :
  first_reply oks (handleConn Write p c) = Some msg -> fate c (actions oks (handleConn Write p c)) msg.
Proof.
  destruct (readRequest (cn_stream c)) as [[[host port]|e] rest] eqn:Er.
  2:{ unfold handleConn. rewrite Er. intros ->%first_reply_end. by econstructor. }
  pose proof (handleConn_flows c host port rest) as Hfl. revert Hfl. unfold handleConn. rewrite Er.
  destruct (Allows (allow p) host) eqn:Eal; cbn [negb]; intros Hfl.
  2:{ intros [oks' ->%first_reply_end]%first_reply_record. eapply FateDenied; [done|auto]. }
  cbv zeta in *. destruct (_ && _) eqn:Ei.
  { apply andb_prop in Ei as [Em%bool_decide_eq_true Et%negb_true_iff].
    intros [oks' ->%first_reply_end]%first_reply_record. eapply FateDenied; [done|auto]. }
  destruct (dial_from _ _ _) as [to|e] eqn:Ed.
  2:{ intros [oks' ->%first_reply_end]%first_reply_record. apply FateFailed. auto. }
  pose proof (actions_all _ _ _ (Hfl to eq_refl eq_refl) oks) as Hall. revert Hall.
  intros Hall [oks1 [->%first_reply_end|[Hr Ha]]]%actions_record_or; [apply FateFailed; auto|]. rewrite Ha in *. revert Hr Hall.
  case_bool_decide as Hm.
  - unfold terminate. destruct (cn_reply_ok c); cbn [negb]; [|done]. intros [= <-] Hall. by eapply FateOk.
  - intros [oks2 [->%first_reply_end|[Hr ->]]]%actions_record_or; [intros _; apply FateFailed; auto|]. revert Hr.
    destruct (cn_reply_ok c); [|done]. intros [= <-] Hall. eapply FateOk; try done. intros _. cbn [actions]. right. by left.
Qed.

Lemma proxyDial_wire connects writes acts later msg :
  reply_of acts = Some msg -> no_newline msg -> (length msg < 256)%nat -> connects = true -> writes = true ->
  proxyDial connects writes (wire acts later)
  = if bool_decide (msg = B "OK") then Tunnel later else if HasPrefixB msg (B "ERR denied") then EgressDenied else DialError.
Proof. intros E Hn Hl -> ->. unfold proxyDial, wire. rewrite E. cbn [negb]. by rewrite (readReply_line 256 [] msg later). Qed.

Lemma fate_short c acts msg : fate c acts msg -> no_newline msg /\ (length msg < 256)%nat.
Proof.
  assert (forall m, forallb (fun c => negb (Ascii.eqb c newline)) m = true -> no_newline m) as Hn.
  { intros m Hm Hin. rewrite forallb_forall in Hm. apply list_elem_of_In in Hin. specialize (Hm _ Hin). by rewrite Ascii.eqb_refl in Hm. }
  intros [?? _|??? _ _|? [->| ->]|???? _ _ _ _ _]; (split; [by apply Hn; vm_compute|vm_compute; lia]).
Qed.

End path.

(** A destination in the form the HTTP client gives it is understood by the proxy as it was
    meant, and the bytes after the line are left to the tunnel. *)
Theorem dial_request_is_understood addr host port payload :
  SplitHostPort addr = Some (host, port) -> existsb is_control addr = false -> (length addr < 292)%nat ->
  validateHost host = Ok tt -> validatePort port = true ->
  readRequest (dialRequest addr ++ payload) = (Ok (host, port), payload).
Proof.
  intros Hs Hc Hl Hh Hp. unfold readRequest, dialRequest.
  assert (no_newline (B "CONNECT " ++ addr)) as Hn.
  { intros [Hin|Hin]%elem_of_app; [apply (bool_decide_pack (newline ∈ B "CONNECT ")) in Hin; by vm_compute in Hin|].
    assert (existsb is_control addr = true) as Hc'; [|congruence]. apply existsb_exists. exists newline.
    split; [by apply list_elem_of_In|done]. }
  replace ((B "CONNECT " ++ addr ++ [newline]) ++ payload) with ((B "CONNECT " ++ addr) ++ newline :: payload)
    by by rewrite <- !app_assoc.
  rewrite (readLine_line maxRequestLen []); [|done|rewrite length_app; unfold maxRequestLen; cbn [length B list_ascii_of_string]; lia].
  unfold parse_request. change (rev [] ++ ?l) with l. rewrite existsb_app, Hc, orb_false_r.
  change (existsb is_control (B "CONNECT ")) with false. cbv iota.
  assert (HasPrefixB (B "CONNECT " ++ addr) (B "CONNECT ") = true) as -> by (apply bool_decide_eq_true; by eexists).
  cbn [negb]. change (drop 8 (B "CONNECT " ++ addr)) with addr. by rewrite Hs, Hh, Hp.
Qed.

(** ** Evaluated *)
Lemma dial_request_is_understood_witness :
  readRequest (dialRequest (B "www.example.com:443") ++ B "hello") = (Ok (B "www.example.com", B "443"), B "hello").
Proof.
  apply (dial_request_is_understood (B "www.example.com:443") (B "www.example.com") (B "443") (B "hello"));
    vm_compute; (reflexivity || lia).
Defined.

Definition no_write (_ : request) (_ : bytes) : option bytes := None.
Definition plain_proxy : Proxy := ProxyOf a_list [] true false [] 0 [] [].

(** The agent in a microVM: its bytes pass the forwarder in the guest and the multiplexer. *)
Definition agent_side (addr : string) : peer_conn :=
  PeerConn (Source [(1, dialRequest (B addr))] Silent) takes_all.
Definition first_hop (addr : string) : spliced := splice 0 (agent_side addr) silent_conn.
Definition second_hop (addr : string) : spliced :=
  splice 1 (PeerConn (Source [(2, c_out (sp_to_b (first_hop addr)))] Silent) takes_all) silent_conn.

Definition vm_conn (addr : string) : conn :=
  Conn (c_out (sp_to_b (second_hop addr))) (fun _ => [Attempt (B "198.51.100.20:443") true]) true true true true [] 0.

Abbreviation vm_dial addr :=
  (proxyDial true true (wire (actions [true; true] (handleConn (H := ascii_only) no_write plain_proxy (vm_conn addr))) (B "tls"))).

Example vm_dials : vm_dial "www.example.com:443" = Tunnel (B "tls") /\ vm_dial "example.org:443" = EgressDenied.
Proof. vm_compute. done. Qed.

