(* ===== verification/Commands.v ===== *)
(** * The collector's command line: clients of the control socket and direct writers

    [controlRPC] and its retrying forms, [cmdControl], [cmdEnforce], [cmdEgress] and
    [resolveCgroupID] of [control.go] and [main.go]. A client of the socket has the collector
    write the maps; [cmdEgress] makes its own bpf() calls. The enforcing program judges the
    calls of both like anybody's: that the collector's own pass is a consequence of its entry
    in the list of trusted cgroups, which its start writes and its ticks keep. Times are in
    nanoseconds. *)
From Stdlib Require Import ZArith Lia Ascii String.
From stdpp Require Import base tactics numbers option strings list gmap.
From S2P Require Import Prelude Objects Maps Kernel Hooks Fixtures HookProps Classes Gc Control Broker Approval System Bytes AuditLog NetIP Events EventsProps MapTypes VsockMux.
#[local] Open Scope string_scope.
#[local] Open Scope list_scope.
#[local] Open Scope Z_scope.

(** ** The client *)

(** How one exchange goes: the socket is not reached, the reply is lost after the request was
    served, or the reply arrives. [why] is what the error says. *)
Inductive try := Unreached (why : string) | ReplyLost (why : string) | Answered.

Definition millisecond : Z := 10 ^ 6.
Definition retryWindow : Z := 30 * second.
Definition retryPause : Z := 500 * millisecond.

Section client.
  Context {S : Type}.
  Context (serve : string -> S -> reply * S).   (* the collector, on a line *)
  Context (others : nat -> S -> S).             (* what happened before the i-th exchange *)
  Context (tries : nat -> Z * try).             (* how long the i-th exchange takes, and how it goes *)

Definition controlRPC (t : try) (line : string) (s : S) : (bool * string) * S :=
  match t with
  | Unreached why => ((false, ("control " ++ why)%string), s)
  | ReplyLost why => ((false, ("control " ++ why)%string), (serve line s).2)
  | Answered => let '(r, s) := serve line s in ((HasPrefix (TrimSpace r) "OK", TrimSpace r), s)
  end.

(** The loops share their shape: an answer OK ends them, so does one that is not to be retried,
    so does the deadline. [None] is the end of the fuel. *)
Fixpoint rpc_loop (fuel : nat) (retry : string -> bool) (deadline now : Z) (i : nat) (line : string) (s : S)
    : option ((bool * string) * Z * S) :=
  match fuel with
  | O => None
  | Datatypes.S fuel =>
      let now := now + Z.max 0 (tries i).1 in
      let '((ok, resp), s) := controlRPC (tries i).2 line (others i s) in
      if ok then Some ((true, resp), now, s)
      else if negb (retry resp) || (deadline <? now) then Some ((false, resp), now, s)
      else rpc_loop fuel retry deadline (now + retryPause) (Datatypes.S i) line s
  end.

(** Sixty-one pauses fill the window. *)
Definition enough : nat := 62.

Definition client (retry : string -> bool) (now : Z) (line : string) (s : S) : (bool * string) * Z * S :=
  default ((false, ""), now, s) (rpc_loop enough retry (now + retryWindow) now 0 line s).

Definition controlRPCRetry (now : Z) (line : string) (s : S) : (bool * string) * Z * S := client (fun _ => true) now line s.
Definition controlRPCGate (now : Z) (line : string) (s : S) : (bool * string) * Z * S :=
  client (fun resp => HasPrefix resp "control ") now line s.

(** How a command ends. *)
Inductive exit := Usage | Fatal (msg : string) | Exit0 (msg : string).

Definition ctl_line (args : list string) : option string :=
  match args with
  | verb :: rest =>
      if (verb =? "egress-set-self")%string then
        match rest with classes :: _ => Some ("EGRESS-SET-SELF " ++ classes)%string | [] => None end
      else if (verb =? "egress-clear-self")%string then Some "EGRESS-CLEAR-SELF"
      else if (verb =? "grant-clear-self")%string then Some "GRANT-CLEAR-SELF"
      else if (verb =? "tcb-register-broker")%string then Some "TCB-REGISTER-BROKER"
      else if (verb =? "wait-broker-tcb")%string then Some "WAIT-BROKER-TCB"
      else None
  | [] => None
  end.

Definition cmdControl (now : Z) (args : list string) (s : S) : exit * S :=
  match ctl_line args, args with
  | Some line, verb :: _ =>
      let '((ok, resp), _, s) := client (shouldRetryControl verb) now line s in (if ok then Exit0 resp else Fatal resp, s)
  | _, _ => (Usage, s)
  end.

Definition cmdEnforce (now : Z) (args : list string) (s : S) : exit * S :=
  match args with
  | sw :: rest =>
      if negb (sw =? "on")%string && negb (sw =? "off")%string then (Usage, s)
      else
        let hook := match rest with h :: _ => h | [] => "bpf" end in
        match hookID hook with
        | None => (Fatal "unknown hook", s)
        | Some _ =>
            let v := if (sw =? "on")%string then "1" else "0" in
            let '((ok, resp), _, s) := controlRPCRetry now ("ENFORCE-SET " ++ hook ++ " " ++ v)%string s in
            (if ok then Exit0 resp else Fatal resp, s)
        end
  | [] => (Usage, s)
  end.
End client.

(** The collector on a line of a connection: [strings.Fields(strings.TrimSpace(line))]. *)
Definition request_fields (line : string) : list string := string_of_list_ascii <$> Fields (TrimSpaceB (B line)).

(** One bpf() call of a task: judged first by the program on the bpf hook. *)
Definition bpf_call_by (t : env) (s : kstate) : bool * kstate :=
  let '(r, s) := invoke (Inv PBpf [0; 0; 0; 0] t) s in (r =? 0, s).

(** [ctlEnforceSet] with its two bpf() calls, to open the pinned map and to update it, made by
    the collector's task [c]. *)
Definition ctlEnforceSet_by (c : env) (e : uenv) (cgPath : string) (f : list string) (s : cstate) : reply * cstate :=
  if isAgentCgroup cgPath then ("ERR not-operator", s)
  else
    match f with
    | [_; hook; v] =>
        if negb (v =? "0")%string && negb (v =? "1")%string then ("ERR protocol", s)
        else
          match hookID hook with
          | None => ("ERR bad-hook", s)
          | Some hid =>
              let val := if (v =? "1")%string then 1 else 0 in
              let '(opens, m) := bpf_call_by c (c_maps s) in
              let s := on_maps m s in
              if negb opens || negb (pinned e "enforce_flags") then ("ERR map", s)
              else
                let '(updates, m) := bpf_call_by c (c_maps s) in
                let s := on_maps m s in
                if negb updates then ("ERR update", recordControl e "control:enforce-set" hook "err" "update-failed" 0 s)
                else
                  match m_update flags_ops BPF_ANY hid val (enforce_flags (c_maps s)) with
                  | Err _ => ("ERR update", recordControl e "control:enforce-set" hook "err" "update-failed" 0 s)
                  | Ok m => (("OK " ++ hook ++ "=" ++ v)%string,
                      recordControl e "control:enforce-set" hook "ok" (hook ++ "=" ++ v)%string 0
                        (on_maps (set_flags m (c_maps s)) s))
                  end
          end
    | _ => ("ERR protocol", s)
    end.

(** The collector, running as [c], on a line from [p]; the state is the whole system's. *)
Definition control_server (c : env) (e : uenv) (attest : list string -> reply) (p : peer) (line : string) (y : sys)
    : reply * sys :=
  let f := request_fields line in
  let s := CState (maps y) (control_chain y) in
  let '(r, s) :=
    if (p_uid p =? 0) && bool_decide (head f = Some "ENFORCE-SET") then ctlEnforceSet_by c e (p_path p) f s
    else handleControlConn e attest p f s in
  (r, Sys (c_maps s) (c_chain s) (broker_chain y) (gate_ y) (decided_ y) (gc_ y)).

(** ** Writing a manifest directly *)

(** The blanks before a number: a line break among them is an error. *)
Fixpoint SkipSpace (s : string) : option string :=
  match s with
  | String c s' => if Ascii.eqb c newline then None else if IsSpace c then SkipSpace s' else Some s
  | EmptyString => Some s
  end.

(** [fmt.Sscanf(spec, "id:%d", &id)]: blanks are skipped, what follows the digits is not
    looked at. *)
Definition scan_id (spec : string) : option Z :=
  match TrimPrefix_opt "id:" spec with
  | None => None
  | Some s =>
      match SkipSpace s with
      | Some (String c _ as d) => if is_digit c then let n := (digits 0 d).1 in if n <? 2 ^ 64 then Some n else None else None
      | _ => None
      end
  end.

Definition resolveCgroupID (e : start_env) (spec : string) : option Z :=
  if (spec =? "self")%string then
    let p := selfCgroupPath (se_self e) in
    if (p =? "")%string then None else se_stat e (cgroup_file p)
  else if HasPrefix spec "id:" then scan_id spec
  else if HasPrefix spec "/sys/fs/cgroup" then se_stat e spec
  else if HasPrefix spec "/" then se_stat e (cgroup_file spec)
  else None.

Definition cmdEgress (t : env) (e : start_env) (args : list string) (s : kstate) : exit * kstate :=
  match args with
  | verb :: spec :: rest =>
      if negb (verb =? "set")%string && negb (verb =? "clear")%string then (Usage, s)
      else
        match resolveCgroupID e spec with
        | None => (Fatal "resolve cgroup", s)
        | Some cg =>
            let '(ok, s) := bpf_call_by t s in
            if negb ok then (Fatal "open pinned egress_policy", s)
            else if (verb =? "clear")%string then
              let '(ok, s) := bpf_call_by t s in
              if negb ok then (Fatal "clear egress_policy", s)
              else match m_delete egress_ops cg (egress_policy s) with
                   | Ok g => (Exit0 "cleared", set_egress g s)
                   | Err ENOENT => (Exit0 "cleared", s)
                   | Err _ => (Fatal "clear egress_policy", s)
                   end
            else
              match rest with
              | [] => (Fatal "usage", s)
              | classes :: _ =>
                  match parseClasses classes with
                  | None => (Fatal "unknown class", s)
                  | Some mask =>
                      let '(ok, s) := bpf_call_by t s in
                      if negb ok then (Fatal "update egress_policy", s)
                      else match m_update egress_ops BPF_ANY cg mask (egress_policy s) with
                           | Ok g => (Exit0 (classNames mask), set_egress g s)
                           | Err _ => (Fatal "update egress_policy", s)
                           end
                  end
              end
        end
  | _ => (Usage, s)
  end.

(** ** Properties *)
Section client_props.
  Context {S : Type} (serve : string -> S -> reply * S) (others : nat -> S -> S) (tries : nat -> Z * try).
  Abbreviation loop := (rpc_loop serve others tries).
  Context (P : S -> Prop) (Hothers : forall i s, P s -> P (others i s)) (Hserves : forall line s, P s -> P (serve line s).2).

Lemma loop_ends fuel retry deadline now i line s :
  (1 <= fuel)%nat -> deadline < now + Z.of_nat (fuel - 1) * retryPause -> is_Some (loop fuel retry deadline now i line s).
Proof.
  assert (0 < retryPause) as Hp by (unfold retryPause, millisecond; lia).
  revert now i s. induction fuel as [|fuel IH]; intros now i s Hf Hd; [lia|]. cbn [rpc_loop]. cbv zeta.
  destruct (controlRPC _ _ _ _) as [[[] resp] s1]; [by eexists|].
  destruct (negb (retry resp)); [by eexists|]. cbn [orb]. destruct (Z.ltb_spec deadline (now + Z.max 0 (tries i).1)); [by eexists|].
  apply IH; [|destruct fuel as [|fuel]; cbn [Nat.sub] in *; [lia|rewrite ?Nat.sub_0_r in *; lia]].
  destruct fuel; [|lia]. cbn [Nat.sub] in Hd. lia.
Qed.

(** A client always ends: within its window there is room for 61 pauses. *)
Lemma client_ends retry now line s : is_Some (loop enough retry (now + retryWindow) now 0 line s).
Proof. apply loop_ends; unfold enough, retryWindow, retryPause, second, millisecond; lia. Qed.

Lemma rpc_keeps t line s : P s -> P (controlRPC serve t line s).2.
Proof.
  intros Hs. pose proof (Hserves line s Hs) as H. destruct t; cbn [controlRPC]; [done|done|].
  destruct (serve line s). done.
Qed.

(** OK is only ever the collector's answer to the line, in a state that keeps the invariant. *)
Lemma loop_truthful fuel retry deadline now i line s resp t s' :
  P s -> loop fuel retry deadline now i line s = Some ((true, resp), t, s') ->
  exists s0 r, P s0 /\ serve line s0 = (r, s') /\ resp = TrimSpace r /\ HasPrefix resp "OK" = true.
Proof.
  revert now i s. induction fuel as [|fuel IH]; intros now i s Hs; [done|]. cbn [rpc_loop]. cbv zeta.
  pose proof (rpc_keeps (tries i).2 line _ (Hothers i s Hs)) as Hs1.
  destruct (controlRPC serve (tries i).2 line (others i s)) as [[ok resp'] s1] eqn:E. destruct ok.
  - intros [= -> _ ->]. unfold controlRPC in E. destruct (tries i).2; [done..|].
    destruct (serve line (others i s)) as [r s2] eqn:Es. injection E as Hr <- <-. exists (others i s), r. auto.
  - destruct (_ || _); [done|]. by apply IH.
Qed.

(** When the exchange [k] begins. *)
Fixpoint begins (k : nat) (now : Z) (i : nat) : Z :=
  match k with
  | O => now
  | Datatypes.S k => begins k (now + Z.max 0 (tries i).1 + retryPause) (Datatypes.S i)
  end.

Lemma begins_mono k now i : now <= begins k now i.
Proof.
  assert (0 < retryPause) as Hp by (unfold retryPause, millisecond; lia).
  revert now i. induction k as [|k IH]; intros now i; cbn [begins]; [lia|].
  specialize (IH (now + Z.max 0 (tries i).1 + retryPause) (Datatypes.S i)). lia.
Qed.

(** A collector that answers OK within the window is waited for. *)
Lemma loop_reaches fuel k deadline now i line s resp :
  (k < fuel)%nat -> begins k now i <= deadline ->
  (forall j, (i <= j < i + k)%nat -> exists why, (tries j).2 = Unreached why) -> (tries (i + k)).2 = Answered ->
  (forall s0, P s0 -> HasPrefix (TrimSpace (serve line s0).1) "OK" = true) -> P s ->
  loop fuel (fun _ => true) deadline now i line s = Some resp -> resp.1.1.1 = true.
Proof.
  assert (0 < retryPause) as Hp by (unfold retryPause, millisecond; lia).
  revert fuel now i s. induction k as [|k IH]; intros [|fuel] now i s Hk Hb Hun Ha Hok Hs; [lia| |lia|]; cbn [rpc_loop]; cbv zeta.
  - rewrite Nat.add_0_r in *. rewrite Ha. cbn [controlRPC]. specialize (Hok _ (Hothers i s Hs)).
    destruct (serve line (others i s)) as [r s1]. cbn [fst] in Hok. rewrite Hok. by intros [= <-].
  - destruct (Hun i ltac:(lia)) as [why Hw]. rewrite Hw. cbn [controlRPC negb orb]. cbn [begins] in Hb.
    pose proof (begins_mono k (now + Z.max 0 (tries i).1 + retryPause) (Datatypes.S i)).
    destruct (Z.ltb_spec deadline (now + Z.max 0 (tries i).1)); [lia|]. apply IH.
    + lia.
    + done.
    + intros j Hj. apply Hun. lia.
    + by replace (Datatypes.S i + k)%nat with (i + Datatypes.S k)%nat by lia.
    + done.
    + auto.
Qed.
End client_props.

(** *** The enforce command *)
Lemma enforce_fields hook hid (on : bool) :
  hookID hook = Some hid ->
  request_fields ("ENFORCE-SET " ++ hook ++ " " ++ (if on then "1" else "0"))%string = ["ENFORCE-SET"; hook; if on then "1" else "0"]
  /\ 0 <= hid < 8.
Proof.
  unfold hookID. destruct (list_find (fun p : Z * string => p.2 = hook) hookNames) as [[i [h n]]|] eqn:E; [|done].
  apply list_find_Some in E as (Hl & Hn & _). cbn in Hn. subst n. intros [= <-]. cbn [snd fst].
  do 5 (destruct i as [|i]; [injection Hl as <- <-; destruct on; vm_compute; done|]). done.
Qed.

Lemma array_armed (fl fl' : list Z) hid v : array_update BPF_ANY hid v fl = Ok fl' -> array_lookup fl' hid = Some v.
Proof.
  unfold array_update, array_lookup. destruct (array_index fl hid) as [i|] eqn:Ei; [|done]. intros [= <-].
  rewrite (array_index_length _ fl) by apply length_insert. rewrite Ei. cbn. apply array_index_Some in Ei as [_ Hi].
  by apply list_lookup_insert_eq.
Qed.

Lemma ctlEnforceSet_sets e path hook hid (on : bool) s :
  isAgentCgroup path = false -> pinned e "enforce_flags" = true -> length (enforce_flags (c_maps s)) = 8%nat ->
  hookID hook = Some hid -> 0 <= hid < 8 ->
  let v := if on then "1" else "0" in
  let '(r, s') := ctlEnforceSet e path ["ENFORCE-SET"; hook; v] s in
  r = ("OK " ++ hook ++ "=" ++ v)%string /\ armed (c_maps s') hid = on.
Proof.
  intros Ha Hp Hl Hh Hr v. unfold ctlEnforceSet. rewrite Ha, Hh, Hp.
  assert (negb (v =? "0")%string && negb (v =? "1")%string = false) as -> by (subst v; by destruct on).
  cbn [negb]. cbv zeta. cbn [m_update flags_ops array_ops].
  destruct (array_update BPF_ANY hid (if (v =? "1")%string then 1 else 0) (enforce_flags (c_maps s))) as [fl|] eqn:Eu.
  - split; [done|]. unfold armed. rewrite recordControl_maps. cbn [on_maps c_maps set_flags enforce_flags].
    rewrite (array_armed _ _ _ _ Eu). subst v. by destruct on.
  - exfalso. revert Eu. unfold array_update, array_index. rewrite Hl.
    assert ((0 <=? hid) && (hid <? Z.of_nat 8) = true) as -> by (apply andb_true_intro; split; [apply Z.leb_le|apply Z.ltb_lt]; lia).
    done.
Qed.

Lemma enforce_reply_ok hook hid (on : bool) :
  hookID hook = Some hid -> HasPrefix (TrimSpace ("OK " ++ hook ++ "=" ++ (if on then "1" else "0"))) "OK" = true.
Proof.
  unfold hookID. destruct (list_find (fun p : Z * string => p.2 = hook) hookNames) as [[i [h n]]|] eqn:E; [|done].
  apply list_find_Some in E as (Hl & Hn & _). cbn in Hn. subst n. intros _.
  do 5 (destruct i as [|i]; [injection Hl as <- <-; destruct on; vm_compute; done|]). done.
Qed.

(** *** The collector's own calls *)

(** A bpf() call from a trusted cgroup passes and leaves the maps alone. *)
Lemma bpf_exempt c m : is_tcb m (cur_cgroup c) = true -> bpf_call_by c m = (true, m).
Proof.
  intros Ht. unfold bpf_call_by. rewrite invoke_eq. set (i := Inv PBpf [0; 0; 0; 0] c).
  assert (outcome_of i m = Exempt) as Ho by (unfold outcome_of, gate; change (i_cg i) with (cur_cgroup c); by rewrite Ht).
  unfold dm_of. change (i_ret i) with 0. change (guarded i m) with true. cbn [Z.eqb negb i_prog i]. by rewrite Ho.
Qed.

Lemma on_maps_id s : on_maps (c_maps s) s = s.
Proof. by destruct s. Qed.

Lemma ctlEnforceSet_exempt c e path f s :
  is_tcb (c_maps s) (cur_cgroup c) = true -> ctlEnforceSet_by c e path f s = ctlEnforceSet e path f s.
Proof.
  intros Ht. unfold ctlEnforceSet_by, ctlEnforceSet. destruct (isAgentCgroup path); [done|].
  destruct f as [|verb [|hook [|v []]]]; try done. destruct (_ && _); [done|]. destruct (hookID hook) as [hid|]; [|done].
  rewrite (bpf_exempt c _ Ht). cbv zeta. rewrite on_maps_id, (bpf_exempt c _ Ht), on_maps_id. cbn [negb orb].
  by destruct (pinned e "enforce_flags").
Qed.

(** In a trusted cgroup the collector serves a line as one event of the system. *)
Lemma control_server_is_step c e attest p line y :
  is_tcb (maps y) (cur_cgroup c) = true ->
  control_server c e attest p line y
  = ((handleControlConn e attest p (request_fields line) (CState (maps y) (control_chain y))).1,
     sys_step y (ControlReq e attest p (request_fields line))).
Proof.
  intros Ht. unfold control_server. cbn [sys_step]. cbv zeta. rewrite ctlEnforceSet_exempt by done.
  set (f := request_fields line). set (s := CState _ _).
  assert ((if (p_uid p =? 0) && bool_decide (head f = Some "ENFORCE-SET") then ctlEnforceSet e (p_path p) f s
           else handleControlConn e attest p f s) = handleControlConn e attest p f s) as ->.
  { destruct (p_uid p =? 0) eqn:Hu; [|done]. case_bool_decide as Hv; [|done]. cbn [andb].
    unfold handleControlConn. rewrite Hu. destruct f as [|verb f']; [done|]. injection Hv as ->. done. }
  by destruct (handleControlConn e attest p f s).
Qed.

(** *** What keeps the collector trusted *)

(** The collector's task is in a trusted cgroup, and the flags are there. *)
Definition trusted (c : env) (y : sys) : Prop :=
  is_tcb (maps y) (cur_cgroup c) = true /\ length (enforce_flags (maps y)) = 8%nat.

(** A tick resolves the trusted cgroups anew: whatever it reads, if it can tell the
    collector's own cgroup at all it is the one the task runs in. *)
Definition stays (c : env) (ev : sys_event) : Prop :=
  match ev with
  | Tick f => exists e, fs_tcb f = tcbCgroupIDs e
      /\ (resolveCgroupID e "self" = None \/ resolveCgroupID e "self" = Some (cur_cgroup c))
  | _ => True
  end.

Lemma self_trusted e :
  tcbCgroupIDs e = option_list (se_stat e "/sys/fs/cgroup") ++ option_list (resolveCgroupID e "self").
Proof. unfold tcbCgroupIDs, resolveCgroupID. cbv zeta. cbn [String.eqb Ascii.eqb Bool.eqb]. by destruct (_ =? _)%string. Qed.

Lemma start_trusted c e y :
  resolveCgroupID e "self" = Some (cur_cgroup c) -> maps y = start_maps e -> trusted c y.
Proof.
  intros Hs Hm. unfold trusted. rewrite Hm. split; [|done].
  apply start_is_fail_open. left. rewrite self_trusted, Hs. apply elem_of_app. right. by left.
Qed.

Lemma reconcile_trusted e broker tcb cg :
  resolveCgroupID e "self" = None \/ resolveCgroupID e "self" = Some cg -> tcb !! cg = Some 1 ->
  (reconcileTCB (tcbCgroupIDs e) broker tcb).2 !! cg = Some 1.
Proof.
  intros Hs Ht. destruct (decide (2 <= size (list_to_set (tcbCgroupIDs e) : gset Z))%nat) as [Hz|Hz].
  - rewrite reconcileTCB_spec by done. rewrite decide_True; [rewrite decide_False; [done|intros (_ & ? & _); congruence]|].
    unfold keep_set. apply elem_of_union. right. apply elem_of_list_to_set.
    assert (2 <= length (tcbCgroupIDs e))%nat as Hl by (etrans; [exact Hz|apply size_list_le]).
    rewrite self_trusted in Hl |- *. rewrite length_app in Hl. apply elem_of_app. right.
    destruct Hs as [Hs|Hs]; rewrite Hs in *; [|by left]. destruct (se_stat e _); cbn in Hl; lia.
  - unfold reconcileTCB. cbv zeta. by rewrite (proj2 (Nat.ltb_lt _ _)) by lia.
Qed.

Lemma control_flags_length e at_ p f s :
  length (enforce_flags (c_maps (handleControlConn e at_ p f s).2)) = length (enforce_flags (c_maps s)).
Proof.
  unfold handleControlConn. destruct (negb _); [done|]. destruct f as [|verb f']; [done|].
  destruct (verb =? "EGRESS-SET-SELF")%string.
  { by destruct (egress_set_frame e (p_cgid p) (p_path p) (verb :: f') s) as [->|(g & -> & ?)]. }
  destruct (verb =? "EGRESS-CLEAR-SELF")%string.
  { by destruct (egress_clear_frame e (p_cgid p) (p_path p) s) as [->|(g & -> & ?)]. }
  destruct (verb =? "GRANT-CLEAR-SELF")%string.
  { by destruct (grant_clear_frame e (p_cgid p) (p_path p) s) as [->|(g & -> & ?)]. }
  destruct (verb =? "TCB-REGISTER-BROKER")%string.
  { by destruct (tcb_register_frame e (p_path p) s) as [->|(? & bid & ? & ->)]. }
  destruct (verb =? "WAIT-BROKER-TCB")%string; [by rewrite wait_broker_frame|].
  destruct (verb =? "ENFORCE-SET")%string; [|by case_match].
  unfold ctlEnforceSet. repeat case_match; cbn [snd]; rewrite ?recordControl_maps; try done;
    cbn [on_maps c_maps set_flags enforce_flags];
    match goal with H : m_update _ _ _ _ _ = Ok _ |- _ => cbn [m_update flags_ops array_ops] in H; unfold array_update in H end;
    repeat case_match; simplify_eq; apply length_insert.
Qed.

Lemma is_tcb_one m cg : is_tcb m cg = true <-> tcb_cgroups m !! cg = Some 1.
Proof.
  unfold is_tcb, is_one. destruct (tcb_cgroups m !! cg) as [v|]; [|done].
  destruct (Z.eqb_spec v 1) as [->|]; split; try done. by intros [= ->].
Qed.

Lemma finishGated_trusted x d s :
  tcb_cgroups (b_maps (finishGated x d s).1.2) = tcb_cgroups (b_maps s)
  /\ enforce_flags (b_maps (finishGated x d s).1.2) = enforce_flags (b_maps s).
Proof.
  destruct (finishGated x d s) as [[r s'] l] eqn:E. cbn [fst snd].
  apply finishGated_cases in E as (v & a & _ & [(-> & _)|(detail & _ & E & _)]); [done|].
  apply execute_effect in E as [_ E]. destruct (pd_kind (dd_req d)); [by destruct E as [-> _]| |by destruct E as [_ ->]].
  by destruct E as (_ & live & _ & _ & ->).
Qed.

Lemma sys_step_trusted c y ev : stays c ev -> trusted c y -> trusted c (sys_step y ev).
Proof.
  unfold trusted. rewrite !is_tcb_one. intros Hev [Ht Hl].
  destruct ev as [i|x p f|e li uid pid f|id|x n|e at_ p f|f]; cbn [sys_step stays] in *.
  - cbn [maps]. rewrite (invoke_frame tcb_cgroups), (invoke_frame enforce_flags) by done. done.
  - destruct (handleBrokerConn _ _ _ _) as [|pd]; [done|]. destruct (register pd (gate_ y)) as [[id|] g]; [done|].
    cbn [maps with_broker]. destruct (finishGated_trusted x (busy pd) (broker_of y)) as [-> ->]. done.
  - destruct (handleApprove _ _ _ _ _ _ _) as [[[r g] s] d] eqn:E. cbn [maps with_gate with_broker].
    apply handleApprove_effect in E as [(_ & -> & _)|[(_ & -> & _)|(_ & _ & _ & cg & path & req & _ & Hs)]]; [done|done|].
    by destruct Hs as [->|(_ & live & _ & ->)].
  - by destruct (resolve id false "timeout" "-" (gate_ y)).
  - destruct (decided_ y !! n) as [d|]; [|done]. cbn [maps].
    destruct (finishGated_trusted x d (broker_of y)) as [-> ->]. done.
  - cbn [maps]. rewrite control_flags_length. split; [|done].
    destruct (handleControlConn_effect e at_ p f (CState (maps y) (control_chain y))) as [| | |bid _ _|]; try done.
    cbn [tcb_cgroups set_tcb c_maps]. destruct (decide (bid = cur_cgroup c)) as [->|]; [by rewrite lookup_insert_eq|by rewrite lookup_insert_ne].
  - destruct (gcTick f (gc_ y) (maps y)) as [g m] eqn:E. apply gcTick_spec in E as (_ & _ & Ef & _ & Et & _). cbn [maps].
    rewrite Ef, Et. split; [|done]. destruct Hev as (e & -> & Hs). by apply reconcile_trusted.
Qed.

Lemma run_trusted c l y : Forall (stays c) l -> trusted c y -> trusted c (System.run y l).
Proof.
  intros Hl. revert y. induction Hl as [|ev l Hev _ IH]; intros y Hy; [done|].
  apply (IH (sys_step y ev)). by apply sys_step_trusted.
Qed.

Lemma server_trusted c e attest p line y : trusted c y -> trusted c (control_server c e attest p line y).2.
Proof.
  intros Hy. rewrite control_server_is_step by apply Hy. cbn [snd]. by apply sys_step_trusted.
Qed.

(** *** The enforce command against the judged collector *)
Lemma enforce_server c e attest p hook hid (on : bool) y :
  p_uid p = 0 -> isAgentCgroup (p_path p) = false -> pinned e "enforce_flags" = true -> hookID hook = Some hid -> trusted c y ->
  let '(r, y') := control_server c e attest p ("ENFORCE-SET " ++ hook ++ " " ++ (if on then "1" else "0"))%string y in
  HasPrefix (TrimSpace r) "OK" = true /\ armed (maps y') hid = on.
Proof.
  intros Hu Ha Hp Hh [Ht Hl]. destruct (enforce_fields hook hid on Hh) as [Hf Hr]. unfold control_server. rewrite Hf, Hu.
  cbn [head]. rewrite bool_decide_true by done. cbn [Z.eqb andb]. rewrite ctlEnforceSet_exempt by done.
  pose proof (ctlEnforceSet_sets e (p_path p) hook hid on (CState (maps y) (control_chain y)) Ha Hp Hl Hh Hr) as Hs. cbv zeta in Hs |- *.
  destruct (ctlEnforceSet e (p_path p) _ _) as [r s']. destruct Hs as [-> Harm]. split; [by eapply enforce_reply_ok|done].
Qed.

Lemma cmdEnforce_works c e attest p evs tries now sw hook hid y k :
  trusted c y -> (forall i, Forall (stays c) (evs i)) ->
  p_uid p = 0 -> isAgentCgroup (p_path p) = false -> pinned e "enforce_flags" = true ->
  sw = "on" \/ sw = "off" -> hookID hook = Some hid ->
  (k < enough)%nat -> begins tries k now 0 <= now + retryWindow ->
  (forall j, (j < k)%nat -> exists why, (tries j).2 = Unreached why) -> (tries k).2 = Answered ->
  exists msg y', cmdEnforce (control_server c e attest p) (fun i y => System.run y (evs i)) tries now [sw; hook] y = (Exit0 msg, y')
    /\ armed (maps y') hid = (sw =? "on")%string.
Proof.
  intros Hy Hevs Hu Ha Hp Hsw Hh Hk Hb Hun Han. set (on := (sw =? "on")%string).
  assert (negb (sw =? "on")%string && negb (sw =? "off")%string = false) as Eu by (by destruct Hsw as [-> | ->]).
  unfold cmdEnforce. rewrite Eu, Hh. fold on. set (line := ("ENFORCE-SET " ++ hook ++ " " ++ (if on then "1" else "0"))%string).
  set (others := fun (i : nat) y => System.run y (evs i)).
  assert (forall i y, trusted c y -> trusted c (others i y)) as Hoth by (intros i y0; by apply run_trusted).
  pose proof (fun line y => server_trusted c e attest p line y) as Hsrv.
  assert (forall y, trusted c y -> let '(r, y') := control_server c e attest p line y in
    HasPrefix (TrimSpace r) "OK" = true /\ armed (maps y') hid = on) as Hserve by (intros y0 Hy0; by apply enforce_server).
  unfold controlRPCRetry, client.
  destruct (client_ends (control_server c e attest p) others tries (fun _ => true) now line y) as [[[[ok resp] tm] y'] Hc].
  rewrite Hc. cbn [default from_option].
  assert (ok = true) as ->.
  { apply (loop_reaches _ _ _ (trusted c) Hoth enough k _ now 0 line y _ Hk Hb) in Hc; [done| |done| |done].
    - intros j Hj. apply Hun. lia.
    - intros y0 Hy0. specialize (Hserve y0 Hy0). destruct (control_server _ _ _ _ _ _). apply Hserve. }
  exists resp, y'. split; [done|].
  apply (loop_truthful _ _ _ (trusted c) Hoth Hsrv) in Hc as (y0 & r & Hy0 & Hs & _ & _); [|done].
  specialize (Hserve y0 Hy0). rewrite Hs in Hserve. apply Hserve.
Qed.

Lemma bpf_denied t m :
  armed m HOOK_BPF = true -> is_tcb m (cur_cgroup t) = false ->
  exists m', bpf_call_by t m = (false, m') /\ egress_policy m' = egress_policy m.
Proof.
  intros Harm Htcb. unfold bpf_call_by. set (i := Inv PBpf [0; 0; 0; 0] t).
  assert ((invoke i m).1 = - EPERM) as Hr.
  { rewrite invoke_eq. change (i_ret i) with 0. cbn [Z.eqb negb fst]. apply verdict_eperm.
    change (guarded i m) with true. unfold outcome_of, gate. change (i_cg i) with (cur_cgroup t). cbn [i_prog i prog_hook].
    by rewrite Htcb, Harm. }
  exists (invoke i m).2. split; [|by apply (invoke_frame egress_policy)].
  destruct (invoke i m) as [r m']. cbn [fst snd] in *. by subst r.
Qed.

Lemma direct_write_fails t e args m :
  armed m HOOK_BPF = true -> is_tcb m (cur_cgroup t) = false ->
  (forall msg, (cmdEgress t e args m).1 <> Exit0 msg) /\ egress_policy (cmdEgress t e args m).2 = egress_policy m.
Proof.
  intros Harm Htcb. unfold cmdEgress.
  destruct args as [|verb [|spec rest]]; [split; [intros msg; discriminate|done]..|].
  destruct (_ && _); [split; [intros msg; discriminate|done]|].
  destruct (resolveCgroupID e spec) as [cg|]; [|split; [intros msg; discriminate|done]].
  destruct (bpf_denied t m Harm Htcb) as (m' & -> & Hm). split; [intros msg; discriminate|done].
Qed.

(** C25: The switch works when everything else is locked. The bpf() calls of the collector's
    own task are judged like any others. If the start found the collector's cgroup, then after
    any events of the system since (as long as a tick that can tell that cgroup finds the same
    one), with any more before each exchange: root's [enforce on|off] of any hook, from a
    cgroup that is no agent's, ends with success as soon as the collector answers within the
    window of retries, and its success means that the flag is as asked. Yet while the bpf hook
    is armed a task outside the trusted cgroups that writes a manifest with its own bpf() calls
    fails and changes none. *)
Theorem switch_works_under_enforcement c e0 y0 pre e attest p evs tries now sw hook hid k t se args m :
  resolveCgroupID e0 "self" = Some (cur_cgroup c) -> maps y0 = start_maps e0 ->
  Forall (stays c) pre -> (forall i, Forall (stays c) (evs i)) ->
  p_uid p = 0 -> isAgentCgroup (p_path p) = false -> pinned e "enforce_flags" = true ->
  sw = "on" \/ sw = "off" -> hookID hook = Some hid ->
  (k < enough)%nat -> begins tries k now 0 <= now + retryWindow ->
  (forall j, (j < k)%nat -> exists why, (tries j).2 = Unreached why) -> (tries k).2 = Answered ->
  armed m HOOK_BPF = true -> is_tcb m (cur_cgroup t) = false ->
  (exists msg y', cmdEnforce (control_server c e attest p) (fun i y => System.run y (evs i)) tries now [sw; hook] (System.run y0 pre)
       = (Exit0 msg, y')
     /\ armed (maps y') hid = (sw =? "on")%string)
  /\ (forall msg, (cmdEgress t se args m).1 <> Exit0 msg) /\ egress_policy (cmdEgress t se args m).2 = egress_policy m.
Proof.
  intros Hs Hm Hpre Hevs. intros. split; [|by apply direct_write_fails].
  apply cmdEnforce_works with (hid := hid) (k := k); try done. apply run_trusted; [done|]. by eapply start_trusted.
Qed.

(** ** Evaluated: the bpf hook is armed, the collector is reached at the third attempt *)
Definition collector_env : env :=
  Env 2 (Z.shiftl 99 32) (replicate 16 98) 1000 ∅ (fun dst => dst) (fun _ => true).
Definition booting (i : nat) : Z * try := (0, if (i <? 2)%nat then Unreached "dial: no such file" else Answered).
Definition arm_bpf : list sys_event := [ControlReq any_fs (fun _ => "") root_peer ["ENFORCE-SET"; "bpf"; "1"]].
Definition a_tick : sys_event := Tick (Fs {[7]} (tcbCgroupIDs started_env) (Some 3)).
Definition enforce_by (c : env) (y : sys) (args : list string) : exit * sys :=
  cmdEnforce (control_server c any_fs (fun _ => "") root_peer) (fun _ y => System.run y [Invoke bpf_call; a_tick]) booting 0 args y.

Lemma switch_works_under_enforcement_witness :
  (exists msg y', enforce_by collector_env (System.run started arm_bpf) ["on"; "socket_connect"] = (Exit0 msg, y')
     /\ armed (maps y') HOOK_CONNECT = true)
  /\ armed (maps (System.run started arm_bpf)) HOOK_BPF = true
  /\ egress_policy (cmdEgress agent_env started_env ["set"; "id:7"; "any"] (maps (System.run started arm_bpf))).2
     = egress_policy (maps (System.run started arm_bpf)).
Proof.
  destruct (switch_works_under_enforcement collector_env started_env started arm_bpf any_fs (fun _ => "") root_peer
    (fun _ => [Invoke bpf_call; a_tick]) booting 0 "on" "socket_connect" HOOK_CONNECT 2 agent_env started_env
    ["set"; "id:7"; "any"] (maps (System.run started arm_bpf))) as (H1 & _ & H2); try reflexivity.
  - repeat constructor.
  - intros i. repeat constructor. exists started_env. split; [reflexivity|by right].
  - by left.
  - unfold enough. lia.
  - vm_compute. congruence.
  - intros j Hj. exists "dial: no such file". unfold booting. cbn [snd]. by rewrite (proj2 (Nat.ltb_lt _ _) Hj).
  - split; [exact H1|]. split; [reflexivity|exact H2].
Defined.

(** A collector whose own cgroup is not in the list locks itself out: once the bpf hook is
    armed, its map cannot be opened and the hook cannot be disarmed. *)
Definition lost_env : start_env := StartEnv (fun p => if (p =? "/sys/fs/cgroup")%string then Some 1 else None) None.
Example untrusted_collector_is_locked_out :
  let y := System.run (Sys (start_maps lost_env) [] [] empty_gate [] (GcState ∅ ∅)) arm_bpf in
  (enforce_by collector_env y ["off"; "bpf"]).1 = Fatal "ERR map"
  /\ armed (maps (enforce_by collector_env y ["off"; "bpf"]).2) HOOK_BPF = true.
Proof. vm_compute. auto. Qed.

Definition a_dir : start_env :=
  StartEnv (fun p => if (p =? "/sys/fs/cgroup/system.slice/bulkhead-collector.service")%string then Some 2 else None)
    (Some "0::/system.slice/bulkhead-collector.service").

(** The same write in observe mode, and what the parser of ids ignores. *)
Example direct_writes :
  egress_policy (cmdEgress agent_env a_dir ["set"; "id:7"; "any"] observing_state).2 !! 7 = Some 31
  /\ (cmdEgress agent_env a_dir ["set"; "id:7"; "any"] armed_state).1 = Fatal "open pinned egress_policy"
  /\ resolveCgroupID a_dir "id:12abc" = Some 12 /\ resolveCgroupID a_dir "id: 5" = Some 5 /\ resolveCgroupID a_dir "self" = Some 2
  /\ resolveCgroupID a_dir "worker" = None.
Proof. vm_compute. auto 10. Qed.

(** Disarming while the collector is down dials again like arming does. *)
Example disarm_dials_again :
  exists msg y', enforce_by collector_env (System.run started arm_bpf) ["off"; "bpf"] = (Exit0 msg, y').
Proof. vm_compute. eauto. Qed.
