(* ===== verification/Monitor.v ===== *)
(** * The chain monitor: [chain-monitor/main.go]

    The off-box witness: per device and poll it fetches a quote and the chains, has the
    collector's commands verify them, and keeps the head of every chain and the attestation
    key it saw first. Everything outside the process is a world [W] that the operations
    thread: the shell commands that reach a device (class [Transport]), the verifier
    (class [Verifier]), and the disk, clock and randomness of the monitor's host (class
    [Host]). Strings are byte strings; a file of the state directory is what the decoder
    makes of it. *)
From Stdlib Require Import ZArith Lia Ascii String.
From stdpp Require Import base tactics numbers option strings list gmap sorting.
From S2P Require Import Prelude Maps Bytes Control Broker Verify AuditLog NetIP VerifyCmd.
#[local] Open Scope string_scope.
#[local] Open Scope list_scope.
#[local] Open Scope Z_scope.

(** ** Strings *)
Definition itoa (n : Z) : bytes := B (Itoa n).
Definition str (b : bytes) : string := string_of_list_ascii b.

(** [filepath.Join] of two clean parts. *)
Definition JoinPath (a b : bytes) : bytes :=
  match a, b with [], _ => b | _, [] => a | _, _ => a ++ slash :: b end.

(** [strings.ReplaceAll] with a pattern that is not empty; [skip] bytes of a match are left. *)
Fixpoint replace_from (old new : bytes) (skip : nat) (s : bytes) : bytes :=
  match s with
  | [] => []
  | c :: s' =>
      match skip with
      | S k => replace_from old new k s'
      | O => match CutPrefix old s with
             | Some _ => new ++ replace_from old new (length old - 1) s'
             | None => c :: replace_from old new 0 s'
             end
      end
  end.
Definition ReplaceAll (s old new : bytes) : bytes := replace_from old new 0 s.

Definition isHex (s : bytes) : bool := match DecodeString s with Some _ => Nat.even (length s) | None => false end.

(** [strings.TrimPrefix]. *)
Definition TrimPrefixB (s p : bytes) : bytes := default s (CutPrefix p s).

(** The last token that looks like a hexadecimal blob. *)
Definition hex_token (best f : bytes) : bytes :=
  let f := TrimPrefixB f (B "D=") in if (32 <=? length f)%nat && isHex f then f else best.
Definition lastHexToken (s : bytes) : bytes := foldl hex_token [] (Fields s).

(** The tip on the OK line of verify-audit. *)
Definition tip_token (f : bytes) : option bytes :=
  let v := TrimPrefixB f (B "tip=") in
  if bool_decide (v = f) then None
  else let v := VerifyCmd.ToLower (TrimSpaceB v) in
       if (length v =? 64)%nat && isHex v then Some v else None.
Fixpoint first_tip (fs : list bytes) : bytes :=
  match fs with [] => [] | f :: fs => match tip_token f with Some v => v | None => first_tip fs end end.
Definition tipFromVerifyOutput (s : bytes) : bytes := first_tip (Fields s).

Definition is_name_char (c : ascii) : bool :=
  between 97 122 c || between 65 90 c || between 48 57 c || (val c =? 45) || (val c =? 95).
Definition sanitize_rune (k : chunk) : ascii :=
  match k with Good [c] => if is_name_char c then c else "_"%char | _ => "_"%char end.
Definition sanitize (s : bytes) : bytes := sanitize_rune <$> chunks s.

Definition errStr (e : option bytes) : bytes := default (B "(nil)") e.

(** ** Configuration and state *)
Record Chain := MkChain { Domain : bytes; RemotePath : bytes; HeadField : bytes }.

Record Device := MkDevice {
  Name : bytes; QuoteCmd : bytes; FetchChainCmd : bytes; ListSegmentsCmd : bytes;
  ExpectedD : bytes; CollectorBinForD : bytes; AuditPub : bytes; Chains : list Chain }.

Record Config := MkConfig {
  IntervalSeconds : Z; MissedThreshold : Z; StateDir : bytes; CollectorBin : bytes; Devices : list Device }.

(** [loadConfig] on what the file parses to: the defaults, and no empty list of devices. *)
Inductive config_error := ConfigUnreadable | ConfigUnparsable | NoDevices.
Definition loadConfig (file : option (option Config)) : result config_error Config :=
  match file with
  | None => Err ConfigUnreadable
  | Some None => Err ConfigUnparsable
  | Some (Some c) =>
      let c := MkConfig (if IntervalSeconds c <=? 0 then 300 else IntervalSeconds c)
                 (if MissedThreshold c <=? 0 then 2 else MissedThreshold c)
                 (if bool_decide (StateDir c = []) then B "/var/lib/bulkhead-chain-monitor" else StateDir c)
                 (if bool_decide (CollectorBin c = []) then B "bulkhead-collector" else CollectorBin c)
                 (Devices c) in
      match Devices c with [] => Err NoDevices | _ => Ok c end
  end.

Record chainMetric := MkMetric { Records : Z; Witnessed : Z; VerifyOK : Z }.
Record pollMetrics := MkMetrics { Reachable : Z; AttestOK : Z; m_chains : gmap bytes chainMetric }.

Record chainState := MkPin { PinnedHead : bytes; LastUpdate : Z; ConsecutiveRaces : Z }.
Record deviceState := MkState {
  AKPinHex : bytes; st_chains : gmap bytes chainState; LastOK : Z; Misses : Z; Metrics : option pollMetrics }.

Definition no_chain : chainState := MkPin [] 0 0.
Definition chain_of (st : deviceState) (d : bytes) : chainState := default no_chain (st_chains st !! d).
Definition fresh_state : deviceState := MkState [] ∅ 0 0 None.

Definition set_pin (p : bytes) (st : deviceState) : deviceState :=
  MkState p (st_chains st) (LastOK st) (Misses st) (Metrics st).
Definition set_chain (d : bytes) (cs : chainState) (st : deviceState) : deviceState :=
  MkState (AKPinHex st) (<[d := cs]> (st_chains st)) (LastOK st) (Misses st) (Metrics st).
Definition set_misses (n : Z) (st : deviceState) : deviceState :=
  MkState (AKPinHex st) (st_chains st) (LastOK st) n (Metrics st).
Definition set_ok (now : Z) (st : deviceState) : deviceState :=
  MkState (AKPinHex st) (st_chains st) now 0 (Metrics st).
Definition set_metrics (f : pollMetrics -> pollMetrics) (st : deviceState) : deviceState :=
  MkState (AKPinHex st) (st_chains st) (LastOK st) (Misses st) (f <$> Metrics st).
Definition set_metric (d : bytes) (m : chainMetric) : deviceState -> deviceState :=
  set_metrics (fun p => MkMetrics (Reachable p) (AttestOK p) (<[d := m]> (m_chains p))).
Definition start_metrics (st : deviceState) : deviceState :=
  MkState (AKPinHex st) (st_chains st) (LastOK st) (Misses st) (Some (MkMetrics 0 0 ∅)).

Definition maxConsecutiveRaces : Z := 3.
Definition maxChainFileBytes : Z := 128 * 2 ^ 20.

(** A file of the state directory: a state that was written, or content the decoder rejects,
    with what it had filled in by then. *)
Inductive stored := Saved (st : deviceState) | Damaged (partial : deviceState).
Abbreviation store := (gmap bytes stored).

(** ** Alerts *)
Inductive alert_kind := MissedAttestation | QuoteVerifyFailed | ChainRewindOrFail | FetchFailed | ChainFetchUnstable.
#[export] Instance alert_kind_eq_dec : EqDecision alert_kind.
Proof. solve_decision. Defined.

Definition kind_text (k : alert_kind) : bytes :=
  B match k with
    | MissedAttestation => "missed-attestation" | QuoteVerifyFailed => "quote-verify-failed"
    | ChainRewindOrFail => "chain-rewind-or-fail" | FetchFailed => "fetch-failed"
    | ChainFetchUnstable => "chain-fetch-unstable"
    end.

Record Alert := MkAlert { a_device : bytes; Kind : alert_kind; a_domain : bytes; Detail : bytes }.

Definition alert_text (a : Alert) : bytes :=
  B "ALERT device=" ++ a_device a ++ B " " ++ kind_text (Kind a)
  ++ (if bool_decide (a_domain a = []) then [] else B " [" ++ a_domain a ++ B "]") ++ B ": " ++ Detail a.

(** ** Interfaces *)

(** A shell command that reaches the device: the template, the one placeholder and its value. *)
Class Transport (W : Type) := Fetch : bytes -> bytes * bytes -> W -> result bytes bytes * W.

(** The verifier; it sees the staged envelope, or the directory of a chain and its path. *)
Class Verifier (W : Type) := {
  AKPub : bytes -> W -> result bytes bytes * W;
  ExpectedDOf : bytes -> W -> result bytes bytes * W;
  VerifyQuote : bytes -> bytes -> bytes -> bytes -> W -> result bytes unit * W;
  VerifyChain : dir -> bytes -> bytes -> bytes -> bytes -> bytes -> W -> result bytes bytes * W }.

(** The host: staging files, preparing a directory (with what [RemoveAll] could not remove),
    the clock, a fresh nonce, a temporary directory, reading and replacing a state file. *)
Class Host (W : Type) := {
  WriteFile : bytes -> bytes -> W -> option bytes * W;
  MkdirAll : bytes -> W -> result bytes dir * W;
  Now : W -> Z * W;
  nonceHex : W -> bytes * W;
  MkdirTemp : W -> bytes * W;
  state_readable : bytes -> W -> bool * W;
  state_saved : bytes -> W -> bool * W }.

(** ** The verifier as the collector's commands *)
Section collector.
  Context {W : Type}.

(** A run of the collector: arguments, the domain put into its environment, the files the
    arguments name; what it printed, and the error unless it exited with 0. *)
Definition exec_fn : Type := list bytes -> option bytes -> dir -> W -> (bytes * option bytes) * W.
  Context (exec : exec_fn) (bin : bytes).

Fixpoint join_words (ws : list bytes) : bytes :=
  match ws with [] => [] | [a] => a | a :: ws => a ++ B " " ++ join_words ws end.

Definition run (args : list bytes) (fs : dir) (w : W) : (bytes * option bytes) * W :=
  let '((out, err), w) := exec args None fs w in
  ((out, (fun e => bin ++ B " " ++ join_words args ++ B ": " ++ e ++ B ": " ++ TrimSpaceB out) <$> err), w).

Definition env_json : bytes := B "env.json".
Definition staged (env : bytes) : dir := {[ str env_json := env ]}.

Definition collector_hex (args : list bytes) (fs : dir) (w : W) : result bytes bytes * W :=
  let '((out, err), w) := run args fs w in
  (match err with Some e => Err e | None => Ok (TrimSpaceB (lastHexToken out)) end, w).

Definition chain_args (chainPath auditPub sinceHead expectTip : bytes) : list bytes :=
  [B "verify-audit"; chainPath]
  ++ (if bool_decide (auditPub = []) then [] else [auditPub])
  ++ (if bool_decide (sinceHead = []) then [] else [B "--since=" ++ sinceHead])
  ++ (if bool_decide (expectTip = []) then [] else [B "--expect-tip=" ++ expectTip]).

Definition collector_chain (fs : dir) (chainPath auditPub domain sinceHead expectTip : bytes) (w : W)
    : result bytes bytes * W :=
  let '((out, err), w) := exec (chain_args chainPath auditPub sinceHead expectTip)
                            (if bool_decide (domain = []) then None else Some domain) fs w in
  match err with
  | Some e => (Err (B "verify-audit " ++ chainPath ++ B ": " ++ e ++ B ": " ++ TrimSpaceB out), w)
  | None =>
      let tip := tipFromVerifyOutput out in
      if bool_decide (tip = [])
      then (Err (B "verify-audit " ++ chainPath ++ B ": passed but emitted no tip= HEAD: " ++ TrimSpaceB out), w)
      else (Ok tip, w)
  end.

Definition collectorVerifier : Verifier W := {|
  AKPub env := collector_hex [B "attest"; B "akpub"; env_json] (staged env);
  ExpectedDOf collectorBin := collector_hex [B "attest"; B "expected-d"; collectorBin] ∅;
  VerifyQuote env expectedD nonce akPin w :=
    let '((_, err), w) := run [B "attest"; B "verify"; env_json; expectedD; nonce; akPin] (staged env) w in
    (match err with Some e => Err e | None => Ok tt end, w);
  VerifyChain := collector_chain |}.
End collector.

(** *** What verify-audit prints when it exits with 0 *)
Definition source_text (s : key_source) : bytes :=
  match s with
  | FromFile name => B "file:" ++ name | FromArg => B "arg" | FromSeed => B "sealed-seed" | FromPubFile => B "audit-pub.txt"
  end.

Definition ok_words (chain domain : bytes) (src : key_source) (d : verdict) : bytes :=
  B "verify-audit: OK — " ++ itoa (Z.of_nat (vd_n d)) ++ B " record(s) verified for " ++ chain
  ++ B " [key: " ++ source_text src ++ B ", domain: " ++ domain ++ B "],".

Definition tip_line (t : tip_check) : bytes :=
  match t with
  | TipMatches => B "verify-audit: tip == the quote-bound HEAD (the verified log IS the one the quote attested)" ++ [newline]
  | _ => []
  end.

Definition rewind_line (r : rewind) : bytes :=
  match r with
  | CleanGenesis => B "verify-audit: no-rewind CLEAN — prior observation is genesis (an ancestor of any chain)" ++ [newline]
  | CleanAncestor seq =>
      B "verify-audit: no-rewind CLEAN — the prior-observed HEAD is a verified ancestor (seq " ++ itoa seq
      ++ B ") of the tip; the chain extends it (no rewind/fork at or below the observation)" ++ [newline]
  | _ => []
  end.

Definition audit_text (chain domain : bytes) (src : key_source) (d : verdict) (r : rewind) (t : tip_check) : bytes :=
  ok_words chain domain src d ++ B " tip=" ++ EncodeToString (headOrZero (vd_tip d)) ++ [newline]
  ++ tip_line t ++ rewind_line r.

(** The transport: substitute, then [sh -c]. *)
Definition shellTransport {W} (sh : bytes -> W -> result bytes bytes * W) : Transport W :=
  fun cmdTemplate sub w => sh (ReplaceAll cmdTemplate (B "{" ++ sub.1 ++ B "}") sub.2) w.

(** ** The quote *)
Record quoteEnvelope := MkEnvelope { HeadCollector : bytes; HeadControl : bytes; HeadBroker : bytes }.
Definition no_envelope : quoteEnvelope := MkEnvelope [] [] [].

Definition head (e : quoteEnvelope) (field : bytes) : bytes :=
  if bool_decide (field = B "head_collector_hex") then HeadCollector e
  else if bool_decide (field = B "head_control_hex") then HeadControl e
  else if bool_decide (field = B "head_broker_hex") then HeadBroker e
  else [].

(** ** One poll *)
Section poll.
  Context {W : Type} {tr : Transport W} {v : Verifier W} {h : Host W}.
  Context (UnmarshalEnvelope : bytes -> quoteEnvelope).

Definition alert (dev : Device) (k : alert_kind) (domain detail : bytes) : Alert := MkAlert (Name dev) k domain detail.

(** What [attestPoll] returns besides the state. *)
Record attested := Attested { quoteOK : bool; reachable : bool; p_env : quoteEnvelope; p_alerts : list Alert }.

Definition failed_poll (reach : bool) (alerts : list Alert) : attested := Attested false reach no_envelope alerts.

(** The part after the quote was staged and the key is pinned. *)
Definition check_quote (dev : Device) (envBytes nonce : bytes) (now : Z) (st : deviceState) (w : W)
    : attested * deviceState * W :=
  let quote_failed st detail w :=
    (failed_poll true [alert dev QuoteVerifyFailed [] detail], st, w) in
  let verify expectedD w :=
    match VerifyQuote envBytes expectedD nonce (AKPinHex st) w with
    | (Err e, w) => quote_failed (set_misses (Misses st + 1) st) e w
    | (Ok _, w) =>
        (Attested true true (UnmarshalEnvelope envBytes) [],
         set_metrics (fun p => MkMetrics (Reachable p) 1 (m_chains p)) (set_ok now st), w)
    end in
  if bool_decide (ExpectedD dev = []) && negb (bool_decide (CollectorBinForD dev = [])) then
    match ExpectedDOf (CollectorBinForD dev) w with
    | (Ok d, w) => verify d w
    | (Err e, w) => quote_failed st (B "expected-D derivation failed: " ++ e) w
    end
  else verify (ExpectedD dev) w.

Definition missed_detail (misses : Z) (err : option bytes) : bytes :=
  B "no quote for " ++ itoa misses ++ B " consecutive polls"
  ++ match err with Some e => B ": " ++ e | None => [] end.

Definition attestPoll (cfg : Config) (dev : Device) (nonce : bytes) (now : Z) (workDir : bytes) (st : deviceState) (w : W)
    : attested * deviceState * W :=
  let missed err w :=
    let st := set_misses (Misses st + 1) st in
    (failed_poll false (if MissedThreshold cfg <=? Misses st
                        then [alert dev MissedAttestation [] (missed_detail (Misses st) err)] else []), st, w) in
  match Fetch (QuoteCmd dev) (B "nonce", nonce) w with
  | (Err e, w) => missed (Some e) w
  | (Ok [], w) => missed None w
  | (Ok envBytes, w) =>
      let st := set_metrics (fun p => MkMetrics 1 (AttestOK p) (m_chains p)) st in
      match WriteFile (JoinPath workDir env_json) envBytes w with
      | (Some e, w) => (failed_poll true [alert dev FetchFailed [] (B "cannot stage envelope: " ++ e)], st, w)
      | (None, w) =>
          if bool_decide (AKPinHex st = []) then
            match AKPub envBytes w with
            | (Ok ((_ :: _) as pin), w) => check_quote dev envBytes nonce now (set_pin pin st) w
            | (r, w) =>
                let e := match r with Err e => Some e | Ok _ => None end in
                (failed_poll true [alert dev QuoteVerifyFailed [] (B "AK pin capture failed: " ++ errStr e)],
                 set_misses (Misses st + 1) st, w)
            end
          else check_quote dev envBytes nonce now st w
      end
  end.

(** ** The chains *)

(** The loop over the listing; [segs] are the segments accepted so far. *)
Fixpoint collect_segments (prefix : bytes) (lines : list bytes) (segs : list (bytes * Z)) : result bytes (list (bytes * Z)) :=
  match lines with
  | [] => Ok segs
  | ln :: lines =>
      let p := TrimSpaceB ln in
      if bool_decide (p = []) then collect_segments prefix lines segs
      else match CutPrefix prefix (Base p) with
      | None => collect_segments prefix lines segs
      | Some suf =>
          match parse_digits (str suf) with
          | None => collect_segments prefix lines segs
          | Some num =>
              if existsb (fun s => s.2 =? num) segs
              then Err (B "segment " ++ B (pad6 num) ++ B " listed more than once by ListSegmentsCmd")
              else collect_segments prefix lines (segs ++ [(p, num)])
          end
      end
  end.

Definition seg_le (a b : bytes * Z) : Prop := a.2 <= b.2.
#[export] Instance seg_le_dec a b : Decision (seg_le a b) := Z_le_dec a.2 b.2.

Definition listRemoteSegments (dev : Device) (ch : Chain) (w : W) : result bytes (list bytes) * W :=
  if bool_decide (ListSegmentsCmd dev = []) then (Ok [], w)
  else match Fetch (ListSegmentsCmd dev) (B "chain", RemotePath ch) w with
  | (Err e, w) => (Err e, w)
  | (Ok out, w) =>
      (match collect_segments (Base (RemotePath ch) ++ B ".") (SplitLines out) [] with
       | Err e => Err e
       | Ok segs => Ok (fst <$> merge_sort seg_le segs)
       end, w)
  end.

(** The records of a fetched file, counted by lines that are not blank. *)
Definition count_records (b : bytes) : Z :=
  Z.of_nat (length (filter (fun ln => TrimSpaceB ln <> []) (SplitLines b))).

(** [fetchOneInto]: the file goes under [dest] into the directory [fs]. *)
Definition fetchOneInto (dev : Device) (remotePath destDir dest : bytes) (fs : dir) (w : W) : result bytes (Z * dir) * W :=
  match Fetch (FetchChainCmd dev) (B "chain", remotePath) w with
  | (Err e, w) => (Err e, w)
  | (Ok b, w) =>
      if maxChainFileBytes <? len b
      then (Err (B "chain file " ++ remotePath ++ B " is " ++ itoa (len b) ++ B " bytes (> the "
                 ++ itoa maxChainFileBytes ++ B "-byte cap)"), w)
      else match WriteFile (JoinPath destDir dest) b w with
      | (Some e, w) => (Err e, w)
      | (None, w) => (Ok (count_records b, <[str dest := b]> fs), w)
      end
  end.

Fixpoint fetch_segments (dev : Device) (destDir : bytes) (segs : list bytes) (n : Z) (fs : dir) (w : W)
    : result bytes (Z * dir) * W :=
  match segs with
  | [] => (Ok (n, fs), w)
  | seg :: segs =>
      match fetchOneInto dev seg destDir (Base seg) fs w with
      | (Err e, w) => (Err e, w)
      | (Ok (k, fs), w) => fetch_segments dev destDir segs (n + k) fs w
      end
  end.

(** The snapshot: the directory, the count, and whether the set of segments changed. *)
Definition fetchChainToDir (dev : Device) (ch : Chain) (destDir : bytes) (fs : dir) (w : W)
    : result bytes (dir * Z * bool) * W :=
  let base := Base (RemotePath ch) in
  match listRemoteSegments dev ch w with
  | (Err e, w) => (Err e, w)
  | (Ok segs1, w) =>
      match fetch_segments dev destDir segs1 0 fs w with
      | (Err e, w) => (Err e, w)
      | (Ok (n, fs), w) =>
          match fetchOneInto dev (RemotePath ch) destDir base fs w with
          | (Err e, w) => (Err e, w)
          | (Ok (k, fs), w) =>
              let records := n + k in
              if bool_decide (ListSegmentsCmd dev = []) then (Ok (fs, records, false), w)
              else match listRemoteSegments dev ch w with
              | (Err e, w) => (Err e, w)
              | (Ok segs2, w) => (Ok (fs, records, negb (bool_decide (segs1 = segs2))), w)
              end
          end
      end
  end.

Definition gone_detail : bytes :=
  B " — the prior-pinned HEAD is gone: a tail-truncation/rewind, OR (only if the device was unreachable past the ADR-0040 prune cadence) a benign rotation that pruned the anchor; correlate with this device's reachability/missed-attestation. After confirming the device is healthy, clear its monitor state file to re-anchor.".

Definition unstable_detail (n : Z) : bytes :=
  B "the segment set changed on " ++ itoa n
  ++ B " consecutive polls — pathological rotation or an evasion attempt (a box re-rotating every poll to dodge the off-box witness); investigate the device".

(** The body of the loop of [witnessChains]. *)
Definition witnessChain (dev : Device) (now : Z) (workDir : bytes) (at_ : attested) (ch : Chain) (st : deviceState) (w : W)
    : list Alert * deviceState * W :=
  let d := Domain ch in
  let destDir := JoinPath workDir (sanitize d) in
  match MkdirAll destDir w with
  | (Err e, w) => ([alert dev FetchFailed d e], st, w)
  | (Ok fs0, w) =>
      match fetchChainToDir dev ch destDir fs0 w with
      | (Err e, w) => (if reachable at_ then [alert dev FetchFailed d e] else [], st, w)
      | (Ok (fs, records, true), w) =>
          let cs := chain_of st d in
          let n := ConsecutiveRaces cs + 1 in
          let st := set_chain d (MkPin (PinnedHead cs) (LastUpdate cs) n) st in
          (if maxConsecutiveRaces <=? n then [alert dev ChainFetchUnstable d (unstable_detail n)] else [], st, w)
      | (Ok (fs, records, false), w) =>
          let cs := chain_of st d in
          let st := if ConsecutiveRaces cs =? 0 then st else set_chain d (MkPin (PinnedHead cs) (LastUpdate cs) 0) st in
          let expectTip := if quoteOK at_ then head (p_env at_) (HeadField ch) else [] in
          let prior := PinnedHead (chain_of st d) in
          match VerifyChain fs (JoinPath destDir (Base (RemotePath ch))) (AuditPub dev) d prior expectTip w with
          | (Err e, w) =>
              ([alert dev ChainRewindOrFail d (e ++ if bool_decide (prior = []) then [] else gone_detail)],
               set_metric d (MkMetric records 1 0) st, w)
          | (Ok tip, w) =>
              ([], set_chain d (MkPin tip now 0) (set_metric d (MkMetric records 1 1) st), w)
          end
      end
  end.

Fixpoint witnessChains (dev : Device) (now : Z) (workDir : bytes) (at_ : attested) (chs : list Chain) (st : deviceState) (w : W)
    : list Alert * deviceState * W :=
  match chs with
  | [] => ([], st, w)
  | ch :: chs =>
      let '(a1, st, w) := witnessChain dev now workDir at_ ch st w in
      let '(a2, st, w) := witnessChains dev now workDir at_ chs st w in
      (a1 ++ a2, st, w)
  end.

Definition pollDevice (cfg : Config) (dev : Device) (nonce : bytes) (now : Z) (workDir : bytes) (st : deviceState) (w : W)
    : list Alert * deviceState * W :=
  let '(at_, st, w) := attestPoll cfg dev nonce now workDir (start_metrics st) w in
  let '(alerts, st, w) := witnessChains dev now workDir at_ (Chains dev) st w in
  (p_alerts at_ ++ alerts, st, w).

(** ** The state directory *)

Definition stateFile (dir dev : bytes) : bytes := JoinPath dir (B "device-" ++ sanitize dev ++ B ".json").

(** The metrics are not written. *)
Definition persisted (st : deviceState) : deviceState :=
  MkState (AKPinHex st) (st_chains st) (LastOK st) (Misses st) None.

Definition loadState (dir dev : bytes) (s : store) (w : W) : deviceState * W :=
  let '(ok, w) := state_readable (stateFile dir dev) w in
  (match (if ok : bool then s !! stateFile dir dev else None) with
   | Some (Saved st) | Some (Damaged st) => st
   | None => fresh_state
   end, w).

Definition saveState (dir dev : bytes) (st : deviceState) (s : store) (w : W) : bool * store * W :=
  let '(ok, w) := state_saved (stateFile dir dev) w in
  (ok, if ok : bool then <[stateFile dir dev := Saved (persisted st)]> s else s, w).

(** ** The driver *)

(** One device of a cycle: load, poll, save. *)
Definition cycle (cfg : Config) (dev : Device) (s : store) (w : W) : list Alert * deviceState * store * W :=
  let '(st, w) := loadState (StateDir cfg) (Name dev) s w in
  let '(work, w) := MkdirTemp w in
  let '(nonce, w) := nonceHex w in
  let '(now, w) := Now w in
  let '(alerts, st, w) := pollDevice cfg dev nonce now work st w in
  let '(_, s, w) := saveState (StateDir cfg) (Name dev) st s w in
  (alerts, st, s, w).

(** [byName]: of devices with the same name the last one. *)
Fixpoint byName (devs : list Device) (n : bytes) : option Device :=
  match devs with
  | [] => None
  | d :: devs => match byName devs n with Some d' => Some d' | None => if bool_decide (Name d = n) then Some d else None end
  end.

Fixpoint bytes_leb (a b : bytes) : bool :=
  match a, b with
  | [], _ => true
  | _ :: _, [] => false
  | x :: a, y :: b => if val x <? val y then true else if val x =? val y then bytes_leb a b else false
  end.
Definition bytes_le (a b : bytes) : Prop := Is_true (bytes_leb a b).
#[export] Instance bytes_le_dec a b : Decision (bytes_le a b) := _.

Fixpoint run_names (cfg : Config) (names : list bytes) (s : store) (w : W) : list Alert * store * W :=
  match names with
  | [] => ([], s, w)
  | n :: names =>
      match byName (Devices cfg) n with
      | None => run_names cfg names s w
      | Some dev =>
          let '(a1, _, s, w) := cycle cfg dev s w in
          let '(a2, s, w) := run_names cfg names s w in
          (a1 ++ a2, s, w)
      end
  end.

(** The alerts of one round over all devices; the code returns their number. *)
Definition runOnce (cfg : Config) (s : store) (w : W) : list Alert * store * W :=
  run_names cfg (merge_sort bytes_le (Name <$> Devices cfg)) s w.

(** *** Enrolment *)
Record enrollResult := MkEnroll {
  r_device : bytes; AKPin : bytes; Heads : gmap bytes bytes; Already : bool; Failed : bool; r_alerts : list Alert }.

Definition enrollResultFrom (dev : Device) (st : deviceState) (already : bool) (alerts : list Alert) : enrollResult :=
  if bool_decide (AKPinHex st = []) then MkEnroll (Name dev) [] ∅ already true alerts
  else MkEnroll (Name dev) (AKPinHex st) (PinnedHead <$> st_chains st) already false alerts.

Definition enrollOne (cfg : Config) (dev : Device) (s : store) (w : W) : enrollResult * store * W :=
  let '(st0, w) := loadState (StateDir cfg) (Name dev) s w in
  let already := negb (bool_decide (AKPinHex st0 = [])) in
  let '(work, w) := MkdirTemp w in
  let '(nonce, w) := nonceHex w in
  let '(now, w) := Now w in
  let '(alerts, st, w) := pollDevice cfg dev nonce now work st0 w in
  let '(_, s, w) := saveState (StateDir cfg) (Name dev) st s w in
  (enrollResultFrom dev st already alerts, s, w).

(** The number of devices that failed to enrol, and the results. *)
Fixpoint enroll_all (cfg : Config) (devs : list Device) (s : store) (w : W) : Z * list enrollResult * store * W :=
  match devs with
  | [] => (0, [], s, w)
  | dev :: devs =>
      let '(r, s, w) := enrollOne cfg dev s w in
      let '(n, rs, s, w) := enroll_all cfg devs s w in
      ((if Failed r then 1 else 0) + n, r :: rs, s, w)
  end.
Definition runEnroll (cfg : Config) (s : store) (w : W) : Z * list enrollResult * store * W :=
  enroll_all cfg (Devices cfg) s w.
End poll.
