(* ===== verification/MonitorTurns.v ===== *)
(** * What one poll of the monitor does

    Each way a poll can go, as a relation with one rule per outcome: the half that asks for
    a quote and the turn of one chain. The theorems on sequences of polls are proved over
    these rules. *)
From Stdlib Require Import ZArith Lia Ascii String.
From stdpp Require Import base tactics numbers option strings list gmap sorting.
From S2P Require Import Prelude Maps Bytes Control Broker Verify AuditLog NetIP VerifyCmd Monitor.
#[local] Open Scope string_scope.
#[local] Open Scope list_scope.
#[local] Open Scope Z_scope.

Section turns.
  Context {W : Type} {tr : Transport W} {v : Verifier W} {h : Host W}.
  Context (UnmarshalEnvelope : bytes -> quoteEnvelope).

(** ** The quote *)

(** What the first half of a poll may do to the state. *)
Inductive quote_turn (cfg : Config) (nonce : bytes) (now : Z) (st : deviceState) : attested -> deviceState -> Prop :=
| QuoteMissed at_ st' :
    reachable at_ = false -> quoteOK at_ = false -> AKPinHex st' = AKPinHex st -> st_chains st' = st_chains st ->
    LastOK st' = LastOK st -> Misses st' = Misses st + 1 ->
    (p_alerts at_ = [] <-> Misses st' < MissedThreshold cfg) -> quote_turn cfg nonce now st at_ st'
| QuoteRefused at_ st' :
    reachable at_ = true -> quoteOK at_ = false -> p_alerts at_ <> [] -> (AKPinHex st <> [] -> AKPinHex st' = AKPinHex st) ->
    st_chains st' = st_chains st -> LastOK st' = LastOK st -> (Misses st' = Misses st \/ Misses st' = Misses st + 1) ->
    quote_turn cfg nonce now st at_ st'
| QuoteVerified at_ st' envBytes d w w' :
    reachable at_ = true -> quoteOK at_ = true -> p_alerts at_ = [] -> p_env at_ = UnmarshalEnvelope envBytes ->
    AKPinHex st' <> [] -> (AKPinHex st <> [] -> AKPinHex st' = AKPinHex st) ->
    VerifyQuote envBytes d nonce (AKPinHex st') w = (Ok tt, w') ->
    st_chains st' = st_chains st -> LastOK st' = now -> Misses st' = 0 -> quote_turn cfg nonce now st at_ st'.

Lemma check_quote_turn cfg dev envBytes nonce now st0 st w at_ st' w' :
  AKPinHex st <> [] -> (AKPinHex st0 <> [] -> AKPinHex st = AKPinHex st0) -> st_chains st = st_chains st0 ->
  LastOK st = LastOK st0 -> Misses st = Misses st0 ->
  check_quote UnmarshalEnvelope dev envBytes nonce now st w = (at_, st', w') -> quote_turn cfg nonce now st0 at_ st'.
Proof.
  intros Hp Hp0 Hc Hl Hm. unfold check_quote.
  assert (forall d w, match VerifyQuote envBytes d nonce (AKPinHex st) w with
    | (Err e, w) => (failed_poll true [alert dev QuoteVerifyFailed [] e], set_misses (Misses st + 1) st, w)
    | (Ok _, w) => (Attested true true (UnmarshalEnvelope envBytes) [],
         set_metrics (fun p => MkMetrics (Reachable p) 1 (m_chains p)) (set_ok now st), w)
    end = (at_, st', w') -> quote_turn cfg nonce now st0 at_ st') as Hv.
  { intros d w1. destruct (VerifyQuote _ _ _ _ _) as [[[]|e] w2] eqn:E; intros [= <- <- <-].
    - by eapply QuoteVerified.
    - apply QuoteRefused; try done. cbn. right. by rewrite Hm. }
  destruct (_ && _); [|by apply Hv]. destruct (ExpectedDOf _ _) as [[d|e] w1]; [by apply Hv|].
  intros [= <- <- <-]. apply QuoteRefused; try done. by left.
Qed.

Lemma attestPoll_turn cfg dev nonce now workDir st w at_ st' w' :
  attestPoll UnmarshalEnvelope cfg dev nonce now workDir st w = (at_, st', w') -> quote_turn cfg nonce now st at_ st'.
Proof.
  unfold attestPoll. cbv zeta.
  assert (forall err w, (failed_poll false (if MissedThreshold cfg <=? Misses (set_misses (Misses st + 1) st)
      then [alert dev MissedAttestation [] (missed_detail (Misses (set_misses (Misses st + 1) st)) err)] else []),
      set_misses (Misses st + 1) st, w) = (at_, st', w') -> quote_turn cfg nonce now st at_ st') as Hmiss.
  { intros err w1 [= <- <- <-]. apply QuoteMissed; try done. cbn.
    destruct (Z.leb_spec (MissedThreshold cfg) (Misses st + 1)); split; intros; try done; lia. }
  destruct (Fetch _ _ _) as [[[|c b]|e] w1]; [by apply Hmiss| |by apply Hmiss].
  destruct (WriteFile _ _ _) as [[e|] w2].
  { intros [= <- <- <-]. apply QuoteRefused; try done. by left. }
  case_bool_decide as Hp; cbn in Hp.
  - destruct (AKPub _ _) as [[[|p pin]|e] w3].
    + intros [= <- <- <-]. apply QuoteRefused; try done. by right.
    + intros E. eapply check_quote_turn; [..|exact E]; cbn; try done.
    + intros [= <- <- <-]. apply QuoteRefused; try done. by right.
  - intros E. eapply check_quote_turn; [..|exact E]; cbn; done.
Qed.

(** The metrics of the chains are empty when their turn comes. *)
Lemma attestPoll_metrics cfg dev nonce now workDir st w at_ st' w' :
  attestPoll UnmarshalEnvelope cfg dev nonce now workDir (start_metrics st) w = (at_, st', w') ->
  is_Some (Metrics st') /\ forall ch : Chain, ch ∈ Chains dev -> (Metrics st' ≫= fun m => m_chains m !! Domain ch) = None.
Proof.
  assert (forall m st', Metrics st' = Some m -> m_chains m = ∅ ->
    is_Some (Metrics st') /\ forall ch : Chain, ch ∈ Chains dev -> (Metrics st' ≫= fun m => m_chains m !! Domain ch) = None) as H0.
  { intros m s -> E. split; [by eexists|]. intros ch _. cbn. by rewrite E, lookup_empty. }
  unfold attestPoll, check_quote. cbv zeta.
  repeat (case_match; try (intros [= <- <- <-]; by eapply H0)).
Qed.

(** ** The turn of one chain *)

Definition metric (st : deviceState) (d : bytes) : option chainMetric := Metrics st ≫= fun m => m_chains m !! d.
Definition pin (st : deviceState) (d : bytes) : bytes := PinnedHead (chain_of st d).
Definition races (st : deviceState) (d : bytes) : Z := ConsecutiveRaces (chain_of st d).

(** The metric of a verified chain. *)
Definition verified (st : deviceState) (d : bytes) : bool :=
  match metric st d with Some c => VerifyOK c =? 1 | None => false end.

(** The state outside the chains is kept. *)
Definition same_device (st st' : deviceState) : Prop :=
  AKPinHex st' = AKPinHex st /\ LastOK st' = LastOK st /\ Misses st' = Misses st
  /\ (is_Some (Metrics st) -> is_Some (Metrics st')).

(** What the state and the metrics say about one chain is the same. *)
Definition agree (d : bytes) (st st' : deviceState) : Prop :=
  st_chains st' !! d = st_chains st !! d /\ metric st' d = metric st d.

(** One rule per outcome; the last index is the head that was accepted. *)
Inductive chain_turn (dev : Device) (now : Z) (at_ : attested) (ch : Chain) (st st' : deviceState)
    : list Alert -> option bytes -> Prop :=
| TurnSkipped alerts :
    st_chains st' !! Domain ch = st_chains st !! Domain ch -> (alerts = [] -> reachable at_ = false) ->
    chain_turn dev now at_ ch st st' alerts None
| TurnRaced alerts :
    pin st' (Domain ch) = pin st (Domain ch) -> races st' (Domain ch) = races st (Domain ch) + 1 ->
    (alerts = [] <-> races st' (Domain ch) < maxConsecutiveRaces) -> chain_turn dev now at_ ch st st' alerts None
| TurnRefused alerts :
    alerts <> [] -> pin st' (Domain ch) = pin st (Domain ch) -> races st' (Domain ch) = 0 ->
    chain_turn dev now at_ ch st st' alerts None
| TurnPassed fs path tip w w' :
    VerifyChain fs path (AuditPub dev) (Domain ch) (pin st (Domain ch))
      (if quoteOK at_ then head (p_env at_) (HeadField ch) else []) w = (Ok tip, w') ->
    pin st' (Domain ch) = tip -> races st' (Domain ch) = 0 -> LastUpdate (chain_of st' (Domain ch)) = now ->
    chain_turn dev now at_ ch st st' [] (Some tip).

Lemma chain_of_eq d st st' : st_chains st' !! d = st_chains st !! d -> chain_of st' d = chain_of st d.
Proof. unfold chain_of. by intros ->. Qed.

Lemma chain_turn_agree dev now at_ ch st st' st1 st1' alerts tip :
  chain_turn dev now at_ ch st1 st1' alerts tip ->
  st_chains st1 !! Domain ch = st_chains st !! Domain ch -> st_chains st' !! Domain ch = st_chains st1' !! Domain ch ->
  chain_turn dev now at_ ch st st' alerts tip.
Proof.
  intros H E E'. pose proof (chain_of_eq _ _ _ E) as C. pose proof (chain_of_eq _ _ _ E') as C'.
  destruct H; unfold pin, races in *.
  - apply TurnSkipped; [congruence|done].
  - apply TurnRaced; unfold pin, races; rewrite ?C', <- ?C; auto.
  - apply TurnRefused; unfold pin, races; rewrite ?C', <- ?C; auto.
  - eapply TurnPassed; unfold pin, races; rewrite ?C', <- ?C; eauto.
Qed.

Lemma chain_of_set d cs st : chain_of (set_chain d cs st) d = cs.
Proof. unfold chain_of, set_chain. cbn. by rewrite lookup_insert_eq. Qed.

Lemma metric_set d n k st : is_Some (Metrics st) -> metric (set_metric d (MkMetric n 1 k) st) d = Some (MkMetric n 1 k).
Proof. intros [m E]. unfold metric, set_metric, set_metrics. cbn. rewrite E. cbn. by rewrite lookup_insert_eq. Qed.

Lemma agree_refl d st : agree d st st.
Proof. done. Qed.

Lemma agree_trans d a b c : agree d a b -> agree d b c -> agree d a c.
Proof. intros [??] [??]. split; congruence. Qed.

Lemma agree_set d d' cs st : d' <> d -> agree d' st (set_chain d cs st).
Proof. intros Hd. split; [|done]. cbn. by rewrite lookup_insert_ne. Qed.

Lemma agree_metric d d' m st : d' <> d -> agree d' st (set_metric d m st).
Proof.
  intros Hd. split; [done|]. unfold metric, set_metric, set_metrics. cbn. destruct (Metrics st); [|done]. cbn.
  by rewrite lookup_insert_ne.
Qed.

Lemma same_device_refl st : same_device st st.
Proof. done. Qed.

Lemma same_device_trans a b c : same_device a b -> same_device b c -> same_device a c.
Proof. intros (? & ? & ? & ?) (? & ? & ? & ?). split_and!; [congruence..|auto]. Qed.

Lemma same_device_metric d m st : same_device st (set_metric d m st).
Proof. split_and!; [done..|]. intros [p E]. unfold set_metric, set_metrics. cbn. rewrite E. by eexists. Qed.

#[local] Hint Resolve agree_refl agree_set agree_metric same_device_refl same_device_metric : core.

(** The alerts of a turn name the device and the chain. *)
Definition about (dev : Device) (ch : Chain) (x : Alert) : Prop := a_device x = Name dev /\ a_domain x = Domain ch.

Lemma witnessChain_about dev now workDir at_ ch st w alerts st' w' :
  witnessChain dev now workDir at_ ch st w = (alerts, st', w') -> Forall (about dev ch) alerts.
Proof.
  unfold witnessChain. cbv zeta. repeat case_match; intros [= <- <- <-]; by repeat constructor.
Qed.

(** The race counter is cleared on a consistent snapshot. *)
Definition without_races (d : bytes) (st : deviceState) : deviceState :=
  if ConsecutiveRaces (chain_of st d) =? 0 then st
  else set_chain d (MkPin (PinnedHead (chain_of st d)) (LastUpdate (chain_of st d)) 0) st.

Lemma without_races_spec d st :
  pin (without_races d st) d = pin st d /\ races (without_races d st) d = 0
  /\ same_device st (without_races d st) /\ forall d', d' <> d -> agree d' st (without_races d st).
Proof.
  unfold without_races, pin, races. destruct (Z.eqb_spec (ConsecutiveRaces (chain_of st d)) 0) as [E|_]; [done|].
  rewrite chain_of_set. split_and!; auto. done.
Qed.

Lemma witnessChain_turn dev now workDir at_ ch st w alerts st' w' :
  is_Some (Metrics st) -> metric st (Domain ch) = None ->
  witnessChain dev now workDir at_ ch st w = (alerts, st', w') ->
  exists tip, chain_turn dev now at_ ch st st' alerts tip /\ same_device st st'
    /\ (forall d, d <> Domain ch -> agree d st st') /\ verified st' (Domain ch) = bool_decide (is_Some tip).
Proof.
  intros Hm Hun. unfold witnessChain. cbv zeta. destruct (MkdirAll _ _) as [[fs0|e] w1].
  2:{ intros [= <- <- <-]. exists None. split_and!; [by apply TurnSkipped|done|done|unfold verified; by rewrite Hun]. }
  destruct (fetchChainToDir _ _ _ _ _) as [[[[fs n] []]|e] w2].
  - destruct (Z.leb_spec maxConsecutiveRaces (ConsecutiveRaces (chain_of st (Domain ch)) + 1)); intros [= <- <- <-];
      exists None; (split_and!; [|done|auto|unfold verified; cbn; unfold metric in *; cbn; by rewrite Hun]);
      apply TurnRaced; unfold pin, races; rewrite ?chain_of_set; cbn [PinnedHead ConsecutiveRaces]; try done; split; intros; try done; lia.
  - fold (without_races (Domain ch) st). destruct (without_races_spec (Domain ch) st) as (Hp & Hr & Hs & Ha).
    pose proof (proj2 (proj2 (proj2 Hs)) Hm) as Hm1. set (st1 := without_races (Domain ch) st) in *.
    destruct (VerifyChain _ _ _ _ _ _ _) as [[tip|e] w3] eqn:Ev; intros [= <- <- <-].
    + exists (Some tip). split_and!.
      * eapply TurnPassed; [by rewrite <- Hp|unfold pin, races; by rewrite chain_of_set..].
      * eapply same_device_trans; [done|]. apply (same_device_metric (Domain ch)).
      * intros d Hd. eapply agree_trans; [by apply Ha|]. eapply agree_trans; [by apply agree_metric|by apply agree_set].
      * rewrite bool_decide_true by done. unfold verified.
        change (metric (set_chain ?d ?c ?s)) with (metric s). by rewrite metric_set.
    + exists None. split_and!; [by apply TurnRefused|by eapply same_device_trans; [done|]| |unfold verified; by rewrite metric_set].
      intros d Hd. eapply agree_trans; [by apply Ha|by apply agree_metric].
  - intros [= <- <- <-]. exists None. split_and!; [|done|done|unfold verified; by rewrite Hun].
    apply TurnSkipped; [done|]. by destruct (reachable at_).
Qed.

(** ** All chains of a device *)
Lemma witnessChains_turns dev now workDir at_ chs st w alerts st' w' :
  NoDup (Domain <$> chs) -> is_Some (Metrics st) -> (forall ch, ch ∈ chs -> metric st (Domain ch) = None) ->
  witnessChains dev now workDir at_ chs st w = (alerts, st', w') ->
  same_device st st' /\ (forall d, d ∉ Domain <$> chs -> agree d st st')
  /\ forall ch, ch ∈ chs -> exists a tip, chain_turn dev now at_ ch st st' a tip /\ Forall (about dev ch) a /\ (forall x, x ∈ a -> x ∈ alerts)
       /\ verified st' (Domain ch) = bool_decide (is_Some tip).
Proof.
  revert st w alerts. induction chs as [|c chs IH]; intros st w alerts Hnd Hm Hun; cbn [witnessChains].
  { intros [= <- <- <-]. split_and!; [done|done|]. by intros ch ?%not_elem_of_nil. }
  rewrite fmap_cons in Hnd. apply NoDup_cons in Hnd as [Hc Hnd].
  destruct (witnessChain _ _ _ _ _ _ _) as [[a1 st1] w1] eqn:E1.
  destruct (witnessChains _ _ _ _ chs _ _) as [[a2 st2] w2] eqn:E2. intros [= <- <- <-].
  pose proof (witnessChain_about _ _ _ _ _ _ _ _ _ _ E1) as Hab.
  apply witnessChain_turn in E1 as (tip & Ht & Hs & Ha & Hv); [|done|apply Hun; by left].
  apply IH in E2 as (Hs2 & Ha2 & Hts); [|done|by apply Hs|].
  2:{ intros ch Hch. destruct (Ha (Domain ch)) as [_ ->]; [|apply Hun; by right].
      intros E. apply Hc. rewrite <- E. by apply list_elem_of_fmap_2. }
  split_and!.
  - by eapply same_device_trans.
  - intros d Hd. rewrite fmap_cons in Hd. apply not_elem_of_cons in Hd as [Hd1 Hd2]. eapply agree_trans; [by apply Ha|by apply Ha2].
  - intros ch Hch. apply elem_of_cons in Hch as [->|Hch].
    + destruct (Ha2 (Domain c) Hc) as [Hch Hme]. exists a1, tip. split_and!.
      * by eapply chain_turn_agree.
      * done.
      * intros x Hx. apply elem_of_app. by left.
      * unfold verified in *. by rewrite Hme.
    + destruct (Hts ch Hch) as (a & tip' & Ht' & Hab' & Hin & Hv'). exists a, tip'. split_and!; [|done| |done].
      * eapply chain_turn_agree; [done| |done]. apply Ha. intros E. apply Hc. rewrite <- E. by apply list_elem_of_fmap_2.
      * intros x Hx. apply elem_of_app. right. by apply Hin.
Qed.

(** ** One poll *)
Lemma pollDevice_turns cfg dev nonce now workDir st w alerts st' w' :
  NoDup (Domain <$> Chains dev) ->
  pollDevice UnmarshalEnvelope cfg dev nonce now workDir st w = (alerts, st', w') ->
  exists at_ st1, quote_turn cfg nonce now (start_metrics st) at_ st1 /\ same_device st1 st'
    /\ (forall x, x ∈ p_alerts at_ -> x ∈ alerts)
    /\ forall ch, ch ∈ Chains dev -> exists a tip, chain_turn dev now at_ ch st st' a tip
         /\ Forall (about dev ch) a /\ (forall x, x ∈ a -> x ∈ alerts) /\ verified st' (Domain ch) = bool_decide (is_Some tip).
Proof.
  intros Hnd. unfold pollDevice. destruct (attestPoll _ _ _ _ _ _ _ _) as [[at_ st1] w1] eqn:E1.
  destruct (witnessChains _ _ _ _ _ _ _) as [[a2 st2] w2] eqn:E2. intros [= <- <- <-].
  pose proof (attestPoll_metrics _ _ _ _ _ _ _ _ _ _ E1) as [Hm Hun].
  apply attestPoll_turn in E1 as Ht. exists at_, st1.
  apply witnessChains_turns in E2 as (Hs & _ & Hts); [|done|done|done].
  assert (st_chains st1 = st_chains st) as Hc by (by destruct Ht).
  split_and!; [done|done|intros x Hx; apply elem_of_app; by left|].
  intros ch Hch. destruct (Hts ch Hch) as (a & tip & Hturn & Hab & Hin & Hv). exists a, tip. split_and!; [|done| |done].
  - eapply chain_turn_agree; [done| |done]. by rewrite Hc.
  - intros x Hx. apply elem_of_app. right. by apply Hin.
Qed.
End turns.
