(* ===== verification/MonitorProps.v ===== *)
(** * What the chain monitor guarantees

    Sequences of polls of one device through the state directory. *)
From Stdlib Require Import ZArith Lia Ascii String.
From stdpp Require Import base tactics numbers option strings list gmap sorting.
From S2P Require Import Prelude Maps Bytes Control Broker Verify AuditLog NetIP VerifyCmd Monitor MonitorTurns.
#[local] Open Scope string_scope.
#[local] Open Scope list_scope.
#[local] Open Scope Z_scope.

(** The state directory can be read and written. *)
Class Durable (W : Type) {h : Host W} : Prop := {
  reads : forall f w, (state_readable f w).1 = true;
  saves : forall f w, (state_saved f w).1 = true }.

Section sequences.
  Context {W : Type} {tr : Transport W} {v : Verifier W} {h : Host W} {D : Durable W}.
  Context (UnmarshalEnvelope : bytes -> quoteEnvelope) (cfg : Config) (dev : Device).
  Abbreviation cycle := (cycle UnmarshalEnvelope cfg dev).

(** [n] polls, with the alerts and the state of each. *)
Fixpoint cycles (n : nat) (s : store) (w : W) : list (list Alert * deviceState) * store * W :=
  match n with
  | O => ([], s, w)
  | S n => let '(a, st, s, w) := cycle s w in let '(rs, s, w) := cycles n s w in ((a, st) :: rs, s, w)
  end.

(** What is known about the device between polls. *)
Definition kept (s : store) : deviceState :=
  match s !! stateFile (StateDir cfg) (Name dev) with Some (Saved st) | Some (Damaged st) => st | None => fresh_state end.

Lemma cycle_poll s w a st s' w' :
  cycle s w = (a, st, s', w') ->
  (exists work nonce now w1 w2, pollDevice UnmarshalEnvelope cfg dev nonce now work (kept s) w1 = (a, st, w2))
  /\ kept s' = persisted st.
Proof.
  unfold Monitor.cycle, loadState, saveState. pose proof (reads (stateFile (StateDir cfg) (Name dev)) w) as Hr.
  destruct (state_readable _ w) as [ok w1]. cbn [fst] in Hr. subst ok. fold (kept s).
  destruct (MkdirTemp _) as [work w2]. destruct (nonceHex _) as [nonce w3]. destruct (Now _) as [now w4].
  destruct (pollDevice _ _ _ _ _ _ _ _) as [[a1 st1] w5] eqn:E.
  pose proof (saves (stateFile (StateDir cfg) (Name dev)) w5) as Hs.
  destruct (state_saved _ w5) as [ok w6]. cbn [fst] in Hs. subst ok. intros [= <- <- <- <-].
  split; [by eauto 10|]. unfold kept. by rewrite lookup_insert_eq.
Qed.

(** How far a device that is neither verified nor reported has used up its allowance. *)
Definition evaded (ch : Chain) (st : deviceState) : Z :=
  Z.min (races st (Domain ch)) 2 * MissedThreshold cfg + Z.min (Misses st) (MissedThreshold cfg - 1).

Lemma silent_poll nonce now work st w st' w' ch :
  NoDup (Domain <$> Chains dev) -> ch ∈ Chains dev -> 1 <= MissedThreshold cfg ->
  0 <= Misses st -> 0 <= races st (Domain ch) ->
  pollDevice UnmarshalEnvelope cfg dev nonce now work st w = ([], st', w') -> verified st' (Domain ch) = false ->
  0 <= Misses st' /\ 0 <= races st' (Domain ch) /\ evaded ch st + 1 <= evaded ch st' <= 3 * MissedThreshold cfg - 1.
Proof.
  intros Hnd Hch HT Hm Hr Hp Hv. apply pollDevice_turns in Hp as (at_ & st1 & Hq & Hs & Hqa & Hts); [|done].
  destruct (Hts ch Hch) as (a & tip & Ht & _ & Ha & Hvt). rewrite Hv in Hvt. symmetry in Hvt. apply bool_decide_eq_false in Hvt.
  assert (a = []) as -> by (destruct a as [|x a]; [done|]; destruct (not_elem_of_nil x); apply Ha; by left).
  assert (p_alerts at_ = []) as Hpa by (destruct (p_alerts at_) as [|x l]; [done|]; destruct (not_elem_of_nil x); apply Hqa; by left).
  assert (reachable at_ = false /\ Misses st' = Misses st + 1 /\ Misses st' < MissedThreshold cfg
    \/ reachable at_ = true /\ Misses st' = 0) as Hmiss.
  { destruct Hs as (_ & _ & -> & _). destruct Hq as [? ? ? ? ? ? ? ? E| |]; cbn in *; [left|done|right; done].
    split_and!; [done|done|by apply E]. }
  assert ((reachable at_ = false /\ races st' (Domain ch) = races st (Domain ch))
    \/ (races st' (Domain ch) = races st (Domain ch) + 1 /\ races st' (Domain ch) < 3)) as Hrace.
  { remember (@nil Alert) as al eqn:Eal in Ht. destruct Ht as [? E|? _ ? E|? E|]; [left|right|done|by destruct Hvt].
    - split; [auto|]. unfold races. by rewrite (chain_of_eq _ _ _ E).
    - split; [done|]. by apply E. }
  unfold evaded. destruct Hmiss as [(R & -> & ?)|(R & ->)], Hrace as [(R' & ->)|(-> & ?)]; try congruence.
  - split_and!; nia.
  - rewrite !(Z.min_l (races _ _ + _)), !(Z.min_l (races _ _)) by lia. split_and!; nia.
  - rewrite !(Z.min_l (races _ _ + _)), !(Z.min_l (races _ _)) by lia. split_and!; nia.
Qed.

(** A silent sequence uses up the allowance, one unit at least per poll. *)
Lemma silent_polls ch n s w rs s' w' :
  NoDup (Domain <$> Chains dev) -> ch ∈ Chains dev -> 1 <= MissedThreshold cfg ->
  0 <= Misses (kept s) -> 0 <= races (kept s) (Domain ch) ->
  cycles n s w = (rs, s', w') -> ~ Exists (fun r => r.1 <> [] \/ verified r.2 (Domain ch) = true) rs ->
  n <> O -> evaded ch (kept s) + Z.of_nat n <= 3 * MissedThreshold cfg - 1.
Proof.
  intros Hnd Hch HT. revert s w rs. induction n as [|n IH]; intros s w rs Hm Hr; [done|]. cbn [cycles].
  destruct (cycle s w) as [[[a st] s1] w1] eqn:E1. destruct (cycles n s1 w1) as [[rs1 s2] w2] eqn:E2.
  intros [= <- <- <-] Hno _. apply cycle_poll in E1 as [(work & nonce & now & w3 & w4 & Hp) Hk].
  assert (a = []) as -> by (apply dec_stable; intros ?; apply Hno; by constructor; left).
  assert (verified st (Domain ch) = false) as Hv.
  { apply not_true_is_false. intros ?. apply Hno. by constructor; right. }
  apply (silent_poll _ _ _ _ _ _ _ ch) in Hp as (Hm' & Hr' & Hlo & Hhi); [|done..].
  assert (evaded ch (kept s1) = evaded ch st) as He by (by rewrite Hk).
  destruct (decide (n = O)) as [->|Hn]; [lia|].
  enough (evaded ch (kept s1) + Z.of_nat n <= 3 * MissedThreshold cfg - 1) by lia.
  apply (IH s1 w1 rs1); [by rewrite Hk..|done| |done]. intros ?. apply Hno. by constructor 2.
Qed.

(** C11: The witness cannot be evaded quietly. Whatever a device answers, of any 3T consecutive
    polls (T the configured threshold of missed polls) at least one raises an alert or
    verifies the chain: silence, refusing the chain and rotating during every fetch cannot
    be combined any longer. *)
Theorem witness_not_evadable ch n s w rs s' w' :
  NoDup (Domain <$> Chains dev) -> ch ∈ Chains dev -> 1 <= MissedThreshold cfg ->
  0 <= Misses (kept s) -> 0 <= races (kept s) (Domain ch) ->
  cycles n s w = (rs, s', w') -> 3 * MissedThreshold cfg <= Z.of_nat n ->
  Exists (fun r => r.1 <> [] \/ verified r.2 (Domain ch) = true) rs.
Proof.
  intros Hnd Hch HT Hm Hr Hc Hn. apply dec_stable. intros Hno.
  pose proof (silent_polls ch n s w rs s' w' Hnd Hch HT Hm Hr Hc Hno) as Hle. unfold evaded in Hle. nia.
Qed.

(** Every poll accounts for the device. The pinned key never changes once it is set. Either a
    quote for the fresh nonce verified under it, or the last success is kept and an alert is
    raised or the miss counted below the threshold. For every chain, either verify-audit
    passed from the pinned head (and from the quoted head, if a quote verified) and its head
    is the new pin; or the pin is kept and an alert names the chain, the race is counted
    below the limit, or the device gave no quote and the miss is counted. *)
Theorem poll_accounts_for_device nonce now work st w alerts st' w' :
  NoDup (Domain <$> Chains dev) ->
  pollDevice UnmarshalEnvelope cfg dev nonce now work st w = (alerts, st', w') ->
  (AKPinHex st <> [] -> AKPinHex st' = AKPinHex st)
  /\ exists at_,
    ((quoteOK at_ = true /\ Misses st' = 0 /\ LastOK st' = now
      /\ exists env D w1 w2, p_env at_ = UnmarshalEnvelope env /\ VerifyQuote env D nonce (AKPinHex st') w1 = (Ok tt, w2))
     \/ (quoteOK at_ = false /\ LastOK st' = LastOK st
         /\ (alerts <> [] \/ (Misses st' = Misses st + 1 /\ Misses st' < MissedThreshold cfg))))
    /\ forall ch, ch ∈ Chains dev ->
      let d := Domain ch in
      (exists fs path w1 w2,
         VerifyChain fs path (AuditPub dev) d (pin st d) (if quoteOK at_ then head (p_env at_) (HeadField ch) else []) w1
         = (Ok (pin st' d), w2))
      \/ (pin st' d = pin st d
          /\ ((exists x, x ∈ alerts /\ a_device x = Name dev /\ a_domain x = d)
              \/ (races st' d = races st d + 1 /\ races st' d < maxConsecutiveRaces)
              \/ (reachable at_ = false /\ Misses st' = Misses st + 1))).
Proof.
  intros Hnd Hp. apply pollDevice_turns in Hp as (at_ & st1 & Hq & (Hak & Hlo & Hmi & _) & Hqa & Hts); [|done].
  rewrite Hak, Hlo, Hmi. split; [by destruct Hq|]. exists at_.
  assert (reachable at_ = false -> Misses st1 = Misses st + 1) as Hmiss by (destruct Hq; [done|congruence..]).
  split.
  - assert (p_alerts at_ <> [] -> alerts <> []) as alerted.
    { intros Ha ->. destruct (p_alerts at_) as [|x l]; [done|]. by apply (not_elem_of_nil x), Hqa; left. }
    destruct Hq as [? ? ? ? ? ? ? ? E|? ? ? ? E|? ? env dd w1 w2]; [right; split_and!; [done..|]|right; split_and!; [done..|]|left; split_and!; eauto 10].
    + destruct (decide (p_alerts at_ = [])) as [Ea|Ea]; [right; split; [done|by apply E]|left; by apply alerted].
    + left. by apply alerted.
  - intros ch Hch. destruct (Hts ch Hch) as (a & tip & Ht & Hab & Ha & _). cbv zeta.
    assert (a <> [] -> exists x, x ∈ alerts /\ a_device x = Name dev /\ a_domain x = Domain ch) as Hal.
    { destruct a as [|x a]; [done|]. intros _. exists x. apply Forall_cons in Hab as [Hx _]. split; [apply Ha; by left|exact Hx]. }
    destruct Ht as [a E Hr|a E1 E2 E3|a Hne E1 E2|fs path tip w1 w2 E1 E2]; [right|right|right|left].
    + unfold pin. rewrite (chain_of_eq _ _ _ E). split; [done|]. destruct (decide (a = [])) as [->|Hne]; [right; right; auto|auto].
    + split; [done|]. destruct (decide (a = [])) as [->|Hne]; [|auto]. right. left. split; [done|]. by apply E3.
    + split; [done|]. auto.
    + rewrite E2. eauto.
Qed.
End sequences.
