(* ===== verification/MonitorHistory.v ===== *)
(** * One history

    Every chain the monitor verified, over any sequence of polls, is a stretch of one and the
    same history, each ending no earlier than the one before. The runs of the verifier are
    recorded in a history variable of the world ([Recorded]); any world can be extended with
    one ([observe]). The verifier is the collector's command ([Released]). *)
From Stdlib Require Import ZArith Lia Ascii String.
From stdpp Require Import base tactics numbers option strings list gmap sorting.
From S2P Require Import Prelude Maps Bytes Sha256 Json Control Broker Verify AuditLog NetIP VerifyCmd.
From S2P Require Import AuditFiles AuditProps AuditWriter ChainProps Monitor MonitorTurns MonitorProps.
#[local] Open Scope string_scope.
#[local] Open Scope list_scope.
#[local] Open Scope Z_scope.
#[local] Opaque Sum256 canonical.

(** ** The runs of the verifier *)
Record call := Call {
  c_files : dir; c_path : bytes; c_pub : bytes; c_domain : bytes; c_since : bytes; c_tip : bytes; c_result : result bytes bytes }.

Class Recorded (W : Type) {tr : Transport W} {v : Verifier W} {h : Host W} := {
  calls : W -> list call;
  calls_Fetch t s w r w' : Fetch t s w = (r, w') -> calls w' = calls w;
  calls_AKPub e w r w' : AKPub e w = (r, w') -> calls w' = calls w;
  calls_ExpectedD b w r w' : ExpectedDOf b w = (r, w') -> calls w' = calls w;
  calls_VerifyQuote e d n p w r w' : VerifyQuote e d n p w = (r, w') -> calls w' = calls w;
  calls_WriteFile f b w r w' : WriteFile f b w = (r, w') -> calls w' = calls w;
  calls_MkdirAll f w r w' : MkdirAll f w = (r, w') -> calls w' = calls w;
  calls_Now w r w' : Now w = (r, w') -> calls w' = calls w;
  calls_nonce w r w' : nonceHex w = (r, w') -> calls w' = calls w;
  calls_MkdirTemp w r w' : MkdirTemp w = (r, w') -> calls w' = calls w;
  calls_readable f w r w' : state_readable f w = (r, w') -> calls w' = calls w;
  calls_saved f w r w' : state_saved f w = (r, w') -> calls w' = calls w;
  calls_VerifyChain fs p a d s t w r w' :
    VerifyChain fs p a d s t w = (r, w') -> calls w' = calls w ++ [Call fs p a d s t r] }.

(** Follow the world through operations that run no verifier. *)
Ltac quiet_op H :=
  first [ eapply calls_Fetch, H | eapply calls_AKPub, H | eapply calls_ExpectedD, H | eapply calls_VerifyQuote, H
        | eapply calls_WriteFile, H | eapply calls_MkdirAll, H | eapply calls_Now, H | eapply calls_nonce, H
        | eapply calls_MkdirTemp, H | eapply calls_readable, H | eapply calls_saved, H ].
Ltac quiet_part H := quiet_op H.
Ltac follow_calls :=
  repeat match goal with
         | H : _ = (_, ?w) |- calls ?w = _ => etrans; [quiet_part H|]; clear H
         end.

(** A world with a history variable. *)
Section observe.
  Context {W : Type} {tr : Transport W} {v : Verifier W} {h : Host W}.

Definition lift {A} (f : W -> A * W) (w : W * list call) : A * (W * list call) := let '(r, w') := f w.1 in (r, (w', w.2)).

#[export] Instance observe_transport : Transport (W * list call) := fun t s => lift (Fetch t s).
#[export] Instance observe_verifier : Verifier (W * list call) := {|
  AKPub e := lift (AKPub e); ExpectedDOf b := lift (ExpectedDOf b); VerifyQuote e d n p := lift (VerifyQuote e d n p);
  VerifyChain fs p a d s t w :=
    let '(r, w') := VerifyChain fs p a d s t w.1 in (r, (w', w.2 ++ [Call fs p a d s t r])) |}.
#[export] Instance observe_host : Host (W * list call) := {|
  WriteFile f b := lift (WriteFile f b); MkdirAll f := lift (MkdirAll f); Now := lift Now; nonceHex := lift nonceHex;
  MkdirTemp := lift MkdirTemp; state_readable f := lift (state_readable f); state_saved f := lift (state_saved f) |}.

Lemma lift_calls {A} (f : W -> A * W) w r w' : lift f w = (r, w') -> w'.2 = w.2.
Proof. unfold lift. destruct (f w.1). by intros [= _ <-]. Qed.

Lemma verify_calls fs p a d s t (w w' : W * list call) r :
  VerifyChain fs p a d s t w = (r, w') -> w'.2 = w.2 ++ [Call fs p a d s t r].
Proof. cbn. destruct (VerifyChain _ _ _ _ _ _ _) as [r1 w1]. by intros [= <- <-]. Qed.

#[export] Instance observe_recorded : Recorded (W * list call).
Proof. refine {| calls := snd |}; intros *; first [apply verify_calls | apply lift_calls]. Defined.
End observe.

Section recorded.
  Context {W : Type} {tr : Transport W} {v : Verifier W} {h : Host W} {R : Recorded W} {D : Durable W}.
  Context (UnmarshalEnvelope : bytes -> quoteEnvelope).

Ltac unfold_calls := repeat case_match; simplify_eq; try solve [follow_calls; reflexivity].

Lemma calls_attestPoll cfg dev nonce now work st w r w' :
  attestPoll UnmarshalEnvelope cfg dev nonce now work st w = (r, w') -> calls w' = calls w.
Proof. unfold attestPoll, check_quote. cbv zeta. intros H. unfold_calls. Qed.

Lemma calls_list dev ch w r w' : listRemoteSegments dev ch w = (r, w') -> calls w' = calls w.
Proof. unfold listRemoteSegments. intros H. unfold_calls. Qed.

Lemma calls_fetch dev p dd dest fs w r w' : fetchOneInto dev p dd dest fs w = (r, w') -> calls w' = calls w.
Proof. unfold fetchOneInto. intros H. unfold_calls. Qed.
Ltac quiet_part H ::= first [quiet_op H | eapply calls_attestPoll, H | eapply calls_list, H | eapply calls_fetch, H].

Lemma calls_segments dev dd segs n fs w r w' : fetch_segments dev dd segs n fs w = (r, w') -> calls w' = calls w.
Proof.
  revert n fs w. induction segs as [|s segs IH]; intros n fs w; cbn [fetch_segments]; [by intros [= <- <-]|].
  destruct (fetchOneInto _ _ _ _ _ _) as [[[k fs1]|e] w1] eqn:E; intros H; [apply IH in H; rewrite H|simplify_eq]; by follow_calls.
Qed.

Lemma calls_snapshot dev ch dd fs w r w' : fetchChainToDir dev ch dd fs w = (r, w') -> calls w' = calls w.
Proof.
  unfold fetchChainToDir. cbv zeta. destruct (listRemoteSegments _ _ _) as [[segs|e] w1] eqn:E1; intros H; [|unfold_calls].
  destruct (fetch_segments _ _ _ _ _ _) as [[[n fs1]|e] w2] eqn:E2; apply calls_segments in E2.
  - assert (calls w1 = calls w) as <- by (by follow_calls). rewrite <- E2. clear E1 E2. unfold_calls.
  - simplify_eq. rewrite E2. by follow_calls.
Qed.

Definition passed (d : bytes) (c : call) : bool :=
  bool_decide (c_domain c = d) && match c_result c with Ok _ => true | Err _ => false end.
Definition passes (d : bytes) (cs : list call) : list call := filter (fun c => passed d c = true) cs.

Lemma passes_one d c t : c_domain c = d -> c_result c = Ok t -> passes d [c] = [c].
Proof. intros <- E. unfold passes. rewrite filter_cons_True; [done|]. unfold passed. by rewrite bool_decide_true, E. Qed.

Lemma passes_none d c e : c_result c = Err e -> passes d [c] = [].
Proof. intros E. unfold passes. rewrite filter_cons_False; [done|]. unfold passed. by rewrite E, andb_false_r. Qed.

(** The turn of a chain runs the verifier at most once, from the pinned head, and moves the
    pin only to the head it was told. *)
Definition real (c : call) : Prop :=
  exists w w', VerifyChain (c_files c) (c_path c) (c_pub c) (c_domain c) (c_since c) (c_tip c) w = (c_result c, w').

Definition one_run (d : bytes) (st st' : deviceState) (cs : list call) : Prop :=
  (passes d cs = [] /\ pin st' d = pin st d)
  \/ exists c, passes d cs = [c] /\ c_domain c = d /\ c_since c = pin st d /\ c_result c = Ok (pin st' d) /\ real c.

Lemma witnessChain_calls dev now work at_ ch st w a st' w' :
  witnessChain dev now work at_ ch st w = (a, st', w') ->
  exists cs, calls w' = calls w ++ cs /\ Forall (fun c => c_domain c = Domain ch) cs /\ one_run (Domain ch) st st' cs.
Proof.
  unfold witnessChain. cbv zeta. destruct (MkdirAll _ _) as [[fs0|e] w1] eqn:E1.
  2:{ intros [= <- <- <-]. exists []. rewrite app_nil_r. split_and!; [by follow_calls|done|by left]. }
  apply calls_MkdirAll in E1. destruct (fetchChainToDir _ _ _ _ _) as [[[[fs n] []]|e] w2] eqn:E2; apply calls_snapshot in E2.
  - intros [= <- <- <-]. exists []. rewrite app_nil_r. split_and!; [congruence|done|left].
    unfold pin. by rewrite chain_of_set.
  - fold (without_races (Domain ch) st). destruct (without_races_spec (Domain ch) st) as (Hp & _).
    destruct (VerifyChain _ _ _ _ _ _ _) as [r w3] eqn:E3.
    pose proof (calls_VerifyChain _ _ _ _ _ _ _ _ _ E3) as Hc. rewrite E2, E1 in Hc.
    destruct r as [tip|e]; intros [= <- <- <-]; eexists; (split_and!; [exact Hc|by repeat constructor|]).
    + right. eexists. split_and!; [by eapply passes_one|done|done| |by exists w2, w3]. cbn. unfold pin. by rewrite chain_of_set.
    + left. split; [by eapply passes_none|done].
  - intros [= <- <- <-]. exists []. rewrite app_nil_r. split_and!; [congruence|done|by left].
Qed.

Lemma passes_app d a b : passes d (a ++ b) = passes d a ++ passes d b.
Proof. apply filter_app. Qed.

Lemma passes_other (d : bytes) (ds : list bytes) cs : d ∉ ds -> Forall (fun c => c_domain c ∈ ds) cs -> passes d cs = [].
Proof.
  intros Hd H. unfold passes. induction H as [|c cs Hc _ IH]; [done|]. rewrite filter_cons_False; [done|].
  unfold passed. rewrite bool_decide_false by (by intros <-). done.
Qed.

Lemma witnessChains_calls dev now work at_ chs st w a st' w' d :
  NoDup (Domain <$> chs) -> is_Some (Metrics st) -> (forall ch, ch ∈ chs -> metric st (Domain ch) = None) ->
  witnessChains dev now work at_ chs st w = (a, st', w') ->
  exists cs, calls w' = calls w ++ cs /\ Forall (fun c => c_domain c ∈ Domain <$> chs) cs /\ one_run d st st' cs.
Proof.
  revert st w a. induction chs as [|c chs IH]; intros st w a Hnd Hm Hun; cbn [witnessChains].
  { intros [= <- <- <-]. exists []. rewrite app_nil_r. split_and!; [done|done|by left]. }
  rewrite fmap_cons in Hnd. apply NoDup_cons in Hnd as [Hc Hnd].
  destruct (witnessChain _ _ _ _ _ _ _) as [[a1 st1] w1] eqn:E1.
  destruct (witnessChains _ _ _ _ chs _ _) as [[a2 st2] w2] eqn:E2. intros [= <- <- <-].
  pose proof (witnessChain_calls _ _ _ _ _ _ _ _ _ _ E1) as (cs1 & Hw1 & Hd1 & Hr1).
  apply witnessChain_turn in E1 as (_ & _ & Hs & Ha & _); [|done|apply Hun; by left].
  assert (forall ch, ch ∈ chs -> Domain ch <> Domain c) as Hne.
  { intros ch Hch E. apply Hc. rewrite <- E. by apply list_elem_of_fmap_2. }
  assert (forall ch, ch ∈ chs -> metric st1 (Domain ch) = None) as Hun1.
  { intros ch Hch. destruct (Ha (Domain ch)) as [_ ->]; [by apply Hne|apply Hun; by right]. }
  pose proof (proj2 (proj2 (proj2 Hs)) Hm) as Hm1.
  pose proof (IH st1 w1 a2 Hnd Hm1 Hun1 E2) as (cs2 & Hw2 & Hd2 & Hr2).
  apply witnessChains_turns in E2 as (_ & Ha2 & _); [|done..].
  exists (cs1 ++ cs2). split_and!; [by rewrite Hw2, Hw1, app_assoc| |].
  { rewrite fmap_cons. apply Forall_app. split; (eapply Forall_impl; [eassumption|]); cbn; intros x Hx; [rewrite Hx|]; [by left|by right]. }
  unfold one_run. rewrite passes_app. destruct (decide (d = Domain c)) as [->|Hd].
  - unfold pin. rewrite (chain_of_eq _ _ _ (proj1 (Ha2 _ Hc))), (passes_other _ _ cs2 Hc Hd2), app_nil_r. exact Hr1.
  - rewrite (passes_other d [Domain c] cs1); [|by apply not_elem_of_cons; split; [|apply not_elem_of_nil]|].
    2:{ eapply Forall_impl; [exact Hd1|]. cbn. intros x ->. by left. }
    unfold pin. rewrite <- (chain_of_eq _ _ _ (proj1 (Ha d Hd))). exact Hr2.
Qed.

Lemma pollDevice_calls cfg dev nonce now work st w a st' w' d :
  NoDup (Domain <$> Chains dev) -> pollDevice UnmarshalEnvelope cfg dev nonce now work st w = (a, st', w') ->
  exists cs, calls w' = calls w ++ cs /\ one_run d st st' cs.
Proof.
  intros Hnd. unfold pollDevice. destruct (attestPoll _ _ _ _ _ _ _ _) as [[at_ st1] w1] eqn:E1.
  destruct (witnessChains _ _ _ _ _ _ _) as [[a2 st2] w2] eqn:E2. intros [= <- <- <-].
  pose proof (attestPoll_metrics _ _ _ _ _ _ _ _ _ _ _ E1) as [Hm Hun].
  pose proof (calls_attestPoll _ _ _ _ _ _ _ _ _ E1) as Hw.
  apply attestPoll_turn in E1 as Ht. assert (st_chains st1 = st_chains st) as Hc by (by destruct Ht).
  apply (witnessChains_calls _ _ _ _ _ _ _ _ _ _ d) in E2 as (cs & Hcs & _ & Hr); [|done..].
  exists cs. split; [congruence|]. unfold one_run, pin in *. by rewrite <- (chain_of_eq d st st1) by (by rewrite Hc).
Qed.

(** Successive accepted runs: each starts from the head the previous one reported. *)
Fixpoint handed_on (d prior : bytes) (cs : list call) : Prop :=
  match cs with
  | [] => True
  | c :: cs => c_domain c = d /\ c_since c = prior /\ real c /\ exists t, c_result c = Ok t /\ handed_on d t cs
  end.

Lemma cycle_calls cfg dev d s w a st s' w' :
  NoDup (Domain <$> Chains dev) -> cycle UnmarshalEnvelope cfg dev s w = (a, st, s', w') ->
  exists cs, calls w' = calls w ++ cs /\ one_run d (kept cfg dev s) st cs.
Proof.
  intros Hnd. unfold cycle, loadState, saveState. pose proof (reads (stateFile (StateDir cfg) (Name dev)) w) as Hr.
  destruct (state_readable _ w) as [ok w1] eqn:E1. cbn [fst] in Hr. subst ok. fold (kept cfg dev s).
  destruct (MkdirTemp _) as [work w2] eqn:E2. destruct (nonceHex _) as [nonce w3] eqn:E3. destruct (Now _) as [now w4] eqn:E4.
  destruct (pollDevice _ _ _ _ _ _ _ _) as [[a1 st1] w5] eqn:E5. destruct (state_saved _ w5) as [ok w6] eqn:E6.
  intros [= <- <- <- <-]. apply (pollDevice_calls _ _ _ _ _ _ _ _ _ _ d Hnd) in E5 as (cs & Hcs & Hone).
  exists cs. split; [|done]. etrans; [by eapply calls_saved|]. rewrite Hcs. f_equal. by follow_calls.
Qed.

Lemma cycles_calls cfg dev d n s w rs s' w' :
  NoDup (Domain <$> Chains dev) -> cycles UnmarshalEnvelope cfg dev n s w = (rs, s', w') ->
  exists cs, calls w' = calls w ++ cs /\ handed_on d (pin (kept cfg dev s) d) (passes d cs).
Proof.
  intros Hnd. revert s w rs. induction n as [|n IH]; intros s w rs; cbn [cycles].
  { intros [= <- <- <-]. exists []. by rewrite app_nil_r. }
  destruct (cycle _ _ _ _ _) as [[[a st] s1] w1] eqn:E1. destruct (cycles _ _ _ n s1 w1) as [[rs1 s2] w2] eqn:E2.
  intros [= <- <- <-]. apply IH in E2 as (cs2 & Hw2 & Hh2).
  pose proof (cycle_calls _ _ d _ _ _ _ _ _ Hnd E1) as (cs1 & Hw1 & Hr). apply cycle_poll in E1 as [_ Hk].
  exists (cs1 ++ cs2). split; [by rewrite Hw2, Hw1, app_assoc|]. rewrite passes_app. rewrite Hk in Hh2.
  destruct Hr as [[-> Hp]|(c & -> & Hcd & Hs & Hres & Hreal)]; cbn [app handed_on].
  - by rewrite <- Hp.
  - split_and!; [done..|]. by exists (pin st d).
Qed.
End recorded.

(** ** What the verifier promises to the monitor *)
Definition live_name (path : bytes) : string := str (Base path).
Definition c_segs (c : call) : list (Z * opened) := segment_files (live_name (c_path c)) (c_files c).
Definition c_live (c : call) : opened := open_file (c_files c) (live_name (c_path c)).

(** A head that is reported is the head of a chain that verified, under the domain that was
    asked for, in the files that were staged; and the head that was asked for is genesis or
    was found in it. *)
Class ChainVerifier (W : Type) {v : Verifier W} (Unmarshal : bytes -> option auditRecord)
    (EdVerify : bytes -> bytes -> bytes -> bool) : Prop :=
  accepted_chain : forall fs path pub d since tip w t w',
    VerifyChain fs path pub d since tip w = (Ok t, w') -> d <> [] ->
    exists key s n vd,
      verifySegmentedChain Unmarshal bytes EdVerify key d s (segment_files (live_name path) fs)
        (open_file fs (live_name path)) = (n, Ok vd)
      /\ t = EncodeToString (headOrZero (vd_tip vd))
      /\ forall h, since = EncodeToString h -> len h = Size -> s = Some h /\ (h = zeroHash \/ vd_found vd = true).

Section history.
  Context (Unmarshal : bytes -> option auditRecord) {HJ : JsonReader Unmarshal}.
  Context (EdVerify : bytes -> bytes -> bytes -> bool) (d : bytes) (Hd : len d < 2 ^ 64) (Hd0 : d <> []).

(** The records of a verified chain, and what was hashed along it. *)
Definition records_of (c : call) : list auditRecord := chain_records Unmarshal (c_segs c) (c_live c).
Definition bodies_of (c : call) := body <$> records_of c.
Definition hashes (cs : list call) : list bytes := cs ≫= fun c => hashed Unmarshal d (c_segs c) (c_live c).

Abbreviation record_body := (Z * Z * Z * Z * (bytes * bytes * bytes * bytes))%type.

(** One history [h], seen through a sequence of logs: the first log that is not empty starts
    it; every later one contains its last record, agrees with it as far back as both reach,
    and may add records after it, or show older ones before it. *)
Inductive one_history : list record_body -> list (list record_body) -> Prop :=
| no_log : one_history [] []
| first_log log logs : one_history [] logs -> one_history log (logs ++ [log])
| later_log h logs overlap newer :
    one_history h logs -> overlap <> [] -> overlap `suffix_of` h ->
    one_history (h ++ newer) (logs ++ [overlap ++ newer])
| revealing_log h logs older newer :
    one_history h logs -> h <> [] -> one_history (older ++ h ++ newer) (logs ++ [older ++ h ++ newer]).

Lemma one_history_stretch h logs log :
  one_history h logs -> log ∈ logs -> exists before after, h = before ++ log ++ after.
Proof.
  intros H. revert log. induction H as [|l logs H IH|h logs o n H IH _ [b Hb]|h logs o n H IH _]; intros log.
  - by intros ?%not_elem_of_nil.
  - intros [Hin|Hin]%elem_of_app.
    + destruct (IH log Hin) as (b & a & E). symmetry in E. apply app_nil in E as [_ [-> _]%app_nil]. by exists [], l.
    + apply list_elem_of_singleton in Hin as ->. exists [], []. by rewrite app_nil_r.
  - intros [Hin|Hin]%elem_of_app.
    + destruct (IH log Hin) as (b' & a & ->). exists b', (a ++ n). by rewrite <- !app_assoc.
    + apply list_elem_of_singleton in Hin as ->. exists b, []. by rewrite Hb, app_nil_r, app_assoc.
  - intros [Hin|Hin]%elem_of_app.
    + destruct (IH log Hin) as (b & a & ->). exists (o ++ b), (a ++ n). by rewrite <- !app_assoc.
    + apply list_elem_of_singleton in Hin as ->. exists [], []. by rewrite app_nil_r.
Qed.

Definition broken_hash (cs : list call) : Prop := collision (hashes cs) (hashes cs) \/ zero_preimage (hashes cs).

(** The history as linked records; its head is what is pinned. *)
Definition tracked (cs : list call) (t : bytes) : Prop :=
  exists p H, len p = Size /\ Forall typed H /\ t = EncodeToString (tip_of d p H) /\ (H = [] -> p = zeroHash)
    /\ (forall x, x ∈ inputs d p H -> x ∈ hashes cs) /\ one_history (body <$> H) (bodies_of <$> cs).

Lemma hashes_app a b : hashes (a ++ b) = hashes a ++ hashes b.
Proof. apply bind_app. Qed.

Lemma hashes_one c : hashes [c] = inputs d (chain_anchor Unmarshal (c_segs c)) (records_of c).
Proof. unfold hashes. rewrite bind_cons. cbn. apply app_nil_r. Qed.

Lemma records_typed c : Forall typed (records_of c).
Proof. by apply chain_records_typed. Qed.

(** Starting the history. *)
Lemma tracked_first cs c key s n vd :
  one_history [] (bodies_of <$> cs) ->
  verifySegmentedChain Unmarshal bytes EdVerify key d s (c_segs c) (c_live c) = (n, Ok vd) ->
  tracked (cs ++ [c]) (EncodeToString (headOrZero (vd_tip vd))).
Proof.
  intros Hh (L & Hn & _ & Ht & _)%verifySegmentedChain_spec. fold (records_of c) in Hn, Ht.
  destruct (decide (records_of c = [])) as [E|E].
  - exists zeroHash, []. rewrite Ht, Hn, E. cbn [length Nat.eqb]. split_and!; [done|constructor|done|done| |].
    + by intros x ?%not_elem_of_nil.
    + rewrite fmap_app. cbn [fmap list_fmap]. unfold bodies_of at 2. rewrite E. by apply (first_log []).
  - exists (chain_anchor Unmarshal (c_segs c)), (records_of c). split_and!; [done|apply records_typed| |done| |].
    + rewrite Ht, Hn. destruct (Nat.eqb_spec (length (records_of c)) 0) as [E0|_]; [by apply nil_length_inv in E0|].
      unfold headOrZero. by rewrite len_tip, Z.eqb_refl.
    + intros x Hx. rewrite hashes_app, hashes_one. apply elem_of_app. by right.
    + rewrite fmap_app. by apply first_log.
Qed.

(** Continuing it. *)
Lemma tracked_next cs t c key s n vd :
  tracked cs t -> verifySegmentedChain Unmarshal bytes EdVerify key d s (c_segs c) (c_live c) = (n, Ok vd) ->
  (forall h, t = EncodeToString h -> len h = Size -> s = Some h /\ (h = zeroHash \/ vd_found vd = true)) ->
  tracked (cs ++ [c]) (EncodeToString (headOrZero (vd_tip vd))) \/ broken_hash (cs ++ [c]).
Proof.
  intros (p & H & Hp & HH & Et & H0 & Hin & Hh) Hv Hs. destruct (Hs _ Et) as [-> Hfound]; [by apply len_tip|].
  destruct (decide (H = [])) as [->|Hne]; [left; by eapply tracked_first|].
  destruct Hfound as [Ez|Hf].
  { right. right. destruct (tip_inputs d p H Hne) as (x & Hx & Hsx). exists x. split; [|congruence].
    rewrite hashes_app. apply elem_of_app. left. by apply Hin. }
  pose proof Hv as (L & Hn & _ & Ht & _ & Hanc)%verifySegmentedChain_spec. fold (records_of c) in Hn, Ht, Hanc.
  destruct (Hanc Hf) as (rs1 & rs2 & Er & Hne1 & [= E]). pose proof (records_typed c) as Hty. rewrite Er in Hty.
  apply Forall_app in Hty as [Hty1 Hty2].
  assert (headOrZero (vd_tip vd) = tip_of d (tip_of d p H) rs2) as ->.
  { rewrite Ht, Hn, Er, E, <- tip_app. destruct (Nat.eqb_spec (length (rs1 ++ rs2)) 0) as [E0|_].
    - apply nil_length_inv, app_nil in E0 as [-> _]. done.
    - unfold headOrZero. by rewrite len_tip, Z.eqb_refl. }
  assert (forall x, x ∈ inputs d (tip_of d p H) rs2 -> x ∈ hashes (cs ++ [c])) as Hin2.
  { intros x Hx. rewrite hashes_app, hashes_one, Er, inputs_app, <- E. rewrite !elem_of_app. auto. }
  assert (forall x, x ∈ inputs d p H -> x ∈ hashes (cs ++ [c])) as Hin1.
  { intros x Hx. rewrite hashes_app. apply elem_of_app. left. by apply Hin. }
  pose proof E as E0. apply (tips_share_suffix d Hd) in E as [(c0 & rs & -> & Hb & _)|[(c0 & rs & -> & Hb & Hc0)|Hcol]]; [..|done|done|done|done].
  - left. exists p, ((c0 ++ rs) ++ rs2). split_and!; [done|by apply Forall_app|by rewrite (tip_app d p (c0 ++ rs) rs2)|by intros [? _]%app_nil| |].
    + intros x. rewrite inputs_app, elem_of_app. intros [?|?]; auto.
    + rewrite !fmap_app. cbn [fmap list_fmap]. unfold bodies_of at 2. rewrite Er, (fmap_app body rs1 rs2), <- Hb.
      rewrite fmap_app in Hh. apply later_log; [done| |by eexists]. rewrite Hb. by destruct rs1.
  - left. exists (chain_anchor Unmarshal (c_segs c)), ((c0 ++ rs) ++ rs2). split_and!; [done|by apply Forall_app| | | |].
    + by rewrite (tip_app d _ (c0 ++ rs) rs2), <- E0.
    + by intros [? _]%app_nil.
    + intros x Hx. rewrite hashes_app, hashes_one, Er. apply elem_of_app. by right.
    + rewrite !fmap_app. cbn [fmap list_fmap]. unfold bodies_of at 2. rewrite Er, !(fmap_app body), Hb, <- !app_assoc.
      apply revealing_log; [done|]. by destruct H.
  - right. left. revert Hcol. apply collision_mono; [done|]. intros x Hx. rewrite hashes_app, hashes_one, Er, inputs_app.
    rewrite !elem_of_app. auto.
Qed.
End history.

Section theorem.
  Context {W : Type} {tr : Transport W} {v : Verifier W} {h : Host W} {R : Recorded W} {D : Durable W}.
  Context (Unmarshal : bytes -> option auditRecord) {HJ : JsonReader Unmarshal} (EdVerify : bytes -> bytes -> bytes -> bool).
  Context {CV : ChainVerifier W Unmarshal EdVerify} (UnmarshalEnvelope : bytes -> quoteEnvelope).
  Context (d : bytes) (Hd : len d < 2 ^ 64) (Hd0 : d <> []).

Lemma real_accepted c t :
  real c -> c_domain c = d -> c_result c = Ok t ->
  exists key s n vd, verifySegmentedChain Unmarshal bytes EdVerify key d s (c_segs c) (c_live c) = (n, Ok vd)
    /\ t = EncodeToString (headOrZero (vd_tip vd))
    /\ forall h, c_since c = EncodeToString h -> len h = Size -> s = Some h /\ (h = zeroHash \/ vd_found vd = true).
Proof. intros (w & w' & E) <- Er. rewrite Er in E. by apply accepted_chain in E. Qed.

Lemma broken_hash_app a b : broken_hash Unmarshal d a -> broken_hash Unmarshal d (a ++ b).
Proof.
  assert (hashes Unmarshal d a ⊆ hashes Unmarshal d (a ++ b)) as Hs.
  { intros x Hx. rewrite hashes_app. apply elem_of_app. by left. }
  intros [Hc|(x & Hx & Ex)]; [left; by eapply collision_mono|right; exists x; split; [by apply Hs|done]].
Qed.

Lemma tracked_all cs0 cs t :
  tracked Unmarshal d cs0 t -> handed_on d t cs ->
  (exists t', tracked Unmarshal d (cs0 ++ cs) t') \/ broken_hash Unmarshal d (cs0 ++ cs).
Proof.
  revert cs0 t. induction cs as [|c cs IH]; intros cs0 t Ht Hh.
  { rewrite app_nil_r. eauto. }
  destruct Hh as (Hcd & Hcs & Hreal & t' & Hres & Hh).
  destruct (real_accepted c t' Hreal Hcd Hres) as (key & s & n & vd & Hv & -> & Hs). rewrite Hcs in Hs.
  change (c :: cs) with ([c] ++ cs). rewrite app_assoc.
  destruct (tracked_next Unmarshal EdVerify d Hd cs0 t c key s n vd Ht Hv Hs) as [Ht'|Hb]; [by eapply IH|].
  right. by apply broken_hash_app.
Qed.

(** C10: One history. Over any sequence of polls, whatever the device serves, all the logs of a
    chain that the monitor verified are views of one history: each contains the last record
    of what was seen before, agrees with it as far back as both reach, and only adds records
    after it (or shows older ones before it). A rewind, a fork or an edited record between
    two verified polls, however far apart, would exhibit a collision of SHA-256, or an
    encoding that hashes to zero, among the verified logs. *)
Theorem verified_chains_are_one_history cfg dev n s w rs s' w' :
  NoDup (Domain <$> Chains dev) -> cycles UnmarshalEnvelope cfg dev n s w = (rs, s', w') ->
  exists cs, calls w' = calls w ++ cs
    /\ ((exists hist, one_history hist (bodies_of Unmarshal <$> passes d cs)) \/ broken_hash Unmarshal d (passes d cs)).
Proof.
  intros Hnd Hc. apply (cycles_calls UnmarshalEnvelope cfg dev d) in Hc as (cs & Hcs & Hh); [|done].
  exists cs. split; [done|]. destruct (passes d cs) as [|c l]; [left; exists []; constructor|].
  destruct Hh as (Hcd & _ & Hreal & t & Hres & Hh).
  destruct (real_accepted c t Hreal Hcd Hres) as (key & sn & m & vd & Hv & -> & _).
  pose proof (tracked_first Unmarshal EdVerify d [] c key sn m vd no_log Hv) as Ht.
  destruct (tracked_all [c] l _ Ht Hh) as [(t' & p & H & _ & _ & _ & _ & _ & Hone)|Hb]; [left; eauto|by right].
Qed.
End theorem.
