(* ===== verification/MonitorCollector.v ===== *)
(** * The collector behind the monitor

    The monitor reads the head out of what verify-audit prints. With the released collector
    behind it ([RunsCollector]) it keeps the promise of [ChainVerifier]. *)
From Stdlib Require Import ZArith Lia Ascii String.
From stdpp Require Import base tactics numbers option strings list gmap sorting.
From S2P Require Import Prelude Maps Bytes Sha256 Json Control Broker Verify AuditLog NetIP VerifyCmd.
From S2P Require Import AuditFiles Attest AttestProps Monitor MonitorTurns MonitorProps MonitorHistory.
#[local] Open Scope string_scope.
#[local] Open Scope list_scope.
#[local] Open Scope Z_scope.
#[local] Opaque Sum256 canonical.

(** ** Words *)
Definition printable (c : ascii) : Prop := between 33 126 c = true.

Lemma printable_range c : printable c -> 33 <= val c <= 126.
Proof. unfold printable, between. intros [?%Z.leb_le ?%Z.leb_le]%andb_prop. lia. Qed.

Lemma printable_not_space a b c : printable a -> space1 a = false /\ space2 a b = false /\ space3 a b c = false.
Proof.
  intros H%printable_range. split_and!.
  - unfold space1, between. apply orb_false_intro; [apply andb_false_intro2, Z.leb_gt; lia|apply Z.eqb_neq; lia].
  - unfold space2. by rewrite (proj2 (Z.eqb_neq (val a) 194)) by lia.
  - unfold space3. by rewrite !(proj2 (Z.eqb_neq (val a) _)) by lia.
Qed.

Lemma fields_word w t : Forall printable t -> fields_from w t = flush (rev t ++ w) [].
Proof.
  intros H. revert w. induction H as [|a t Ha Ht IH]; intros w; [done|].
  cbn [fields_from]. rewrite (proj1 (printable_not_space a a a Ha)).
  assert (forall r : bytes, rev (a :: r) ++ w = rev r ++ a :: w) as -> by (intros r; cbn [rev]; by rewrite <- app_assoc).
  rewrite <- IH. destruct t as [|b t]; [done|]. rewrite (proj1 (proj2 (printable_not_space a b b Ha))).
  destruct t as [|c t]; [done|]. by rewrite (proj2 (proj2 (printable_not_space a b c Ha))).
Qed.

Lemma flush_app w l : flush w l = flush w [] ++ l.
Proof. by destruct w. Qed.

(** An ASCII white space ends a word. *)
Lemma fields_space w a sp b : space1 sp = true -> fields_from w (a ++ sp :: b) = fields_from w a ++ fields_from [] b.
Proof.
  intros Hsp. assert (9 <= val sp <= 32) as Hr.
  { unfold space1, between in Hsp. apply orb_prop in Hsp as [[?%Z.leb_le ?%Z.leb_le]%andb_prop|?%Z.eqb_eq]; lia. }
  assert (forall x, space2 x sp = false) as H2.
  { intros x. unfold space2. rewrite !(proj2 (Z.eqb_neq (val sp) _)) by lia. by rewrite andb_false_r. }
  assert (forall x y, space3 x sp y = false) as H3.
  { intros x y. unfold space3. rewrite !(proj2 (Z.eqb_neq (val sp) _)) by lia. by rewrite !andb_false_r. }
  assert (forall x y, space3 x y sp = false) as H3'.
  { intros x y. unfold space3, between. rewrite !(proj2 (Z.eqb_neq (val sp) _)), (proj2 (Z.leb_gt 128 (val sp))) by lia.
    by rewrite !andb_false_r. }
  revert w. induction a as [a IH] using (induction_ltof1 _ (@length ascii)); unfold ltof in IH; intros w.
  destruct a as [|x a]; [cbn [app fields_from]; rewrite Hsp; apply flush_app|].
  cbn [app fields_from]. destruct (space1 x).
  { rewrite IH by (cbn; lia). by rewrite (flush_app w (_ ++ _)), (flush_app w (fields_from [] a)), app_assoc. }
  destruct a as [|y a]; cbn [app].
  { rewrite H2. destruct b as [|c b]; rewrite ?H3; exact (IH [] ltac:(cbn; lia) (x :: w)). }
  destruct (space2 x y).
  { rewrite IH by (cbn; lia). by rewrite (flush_app w (_ ++ _)), (flush_app w (fields_from [] a)), app_assoc. }
  destruct a as [|z a]; cbn [app].
  { rewrite H3'. exact (IH [y] ltac:(cbn; lia) (x :: w)). }
  destruct (space3 x y z).
  { rewrite IH by (cbn; lia). by rewrite (flush_app w (_ ++ _)), (flush_app w (fields_from [] a)), app_assoc. }
  exact (IH (y :: z :: a) ltac:(cbn; lia) (x :: w)).
Qed.

(** ** Hexadecimal words *)
Lemma hexdigit_val n : 0 <= n < 16 -> val (hexdigit n) = if n <? 10 then 48 + n else 87 + n.
Proof. intros Hn. unfold hexdigit. rewrite val_byte_of, Z.mod_small; [done|]. destruct (Z.ltb_spec n 10); lia. Qed.

Definition hex_lower (c : ascii) : Prop := 48 <= val c <= 57 \/ 97 <= val c <= 102.

Lemma hexdigit_lower n : 0 <= n < 16 -> hex_lower (hexdigit n).
Proof. intros Hn. unfold hex_lower. rewrite hexdigit_val by done. destruct (Z.ltb_spec n 10); lia. Qed.

Lemma encode_lower b : Forall hex_lower (EncodeToString b).
Proof.
  unfold EncodeToString. induction b as [|c b IH]; [constructor|]. cbn. pose proof (val_bound c).
  constructor; [|constructor; [|done]]; apply hexdigit_lower.
  - split; [apply Z.div_pos; lia|apply Z.div_lt_upper_bound; lia].
  - apply Z.mod_pos_bound. lia.
Qed.

Lemma lower_printable c : hex_lower c -> printable c.
Proof. unfold hex_lower, printable, between. intros H. apply andb_true_intro. split; apply Z.leb_le; lia. Qed.

Lemma encode_printable b : Forall printable (EncodeToString b).
Proof. eapply Forall_impl; [apply encode_lower|apply lower_printable]. Qed.

Lemma ToLower_lower l : Forall hex_lower l -> VerifyCmd.ToLower l = l.
Proof.
  intros H. unfold VerifyCmd.ToLower. induction H as [|c l Hc _ IH]; [done|]. rewrite fmap_cons, IH. f_equal.
  unfold lower, between. destruct Hc; [rewrite (proj2 (Z.leb_gt 65 _)) by lia|rewrite (proj2 (Z.leb_gt (val c) 90)) by lia];
    [done|by rewrite andb_false_r].
Qed.

Lemma TrimSpaceB_printable l : Forall printable l -> TrimSpaceB l = l.
Proof.
  intros H. unfold TrimSpaceB. destruct H as [|a l Ha Hl]; [done|]. rewrite trim_left_id by done.
  assert (Forall printable (rev (a :: l))) as Hr by (apply Forall_rev; by constructor).
  destruct (rev (a :: l)) as [|z r] eqn:E; [by apply (f_equal (@length _)) in E; rewrite length_rev in E|].
  apply Forall_cons in Hr as [Hz _]. rewrite trim_rev_id by done. rewrite <- E. apply rev_involutive.
Qed.

(** ** The head on the OK line *)
Lemma first_tip_app a b : first_tip (a ++ b) = if bool_decide (first_tip a = []) then first_tip b else first_tip a.
Proof.
  induction a as [|f a IH]; [done|]. cbn [app first_tip]. destruct (tip_token f) as [t|] eqn:E; [|done].
  rewrite bool_decide_false; [done|]. revert E. unfold tip_token. cbv zeta.
  destruct (bool_decide (TrimPrefixB f (B "tip=") = f)); [done|].
  set (x := VerifyCmd.ToLower _). destruct (Nat.eqb_spec (length x) 64) as [El|]; [|done].
  destruct (isHex x); [|done]. cbn [andb]. intros [= <-] E0. by rewrite E0 in El.
Qed.

Lemma tip_token_hex t : len t = Size -> tip_token (B "tip=" ++ EncodeToString t) = Some (EncodeToString t).
Proof.
  intros Hl. unfold tip_token. assert (TrimPrefixB (B "tip=" ++ EncodeToString t) (B "tip=") = EncodeToString t) as ->.
  { unfold TrimPrefixB. by rewrite (proj2 (CutPrefix_Some _ _ (EncodeToString t))). }
  cbv zeta. rewrite bool_decide_false.
  2:{ intros E. apply (f_equal (@length _)) in E. rewrite length_app in E. cbn in E. lia. }
  rewrite TrimSpaceB_printable, ToLower_lower by (apply encode_printable || apply encode_lower).
  pose proof (len_encode t) as Hle. rewrite Hl in Hle. unfold len, Size in Hle.
  assert (length (EncodeToString t) = 64%nat) as -> by lia.
  unfold isHex. rewrite decode_encode. assert (length (EncodeToString t) = 64%nat) as -> by lia. done.
Qed.

Lemma tip_of_output before t after :
  tipFromVerifyOutput before = [] -> len t = Size ->
  tipFromVerifyOutput (before ++ B " tip=" ++ EncodeToString t ++ newline :: after) = EncodeToString t.
Proof.
  unfold tipFromVerifyOutput, Fields. intros Hb Hl.
  change (B " tip=" ++ ?x) with (byte_of 32 :: B "tip=" ++ x). rewrite fields_space, first_tip_app by done.
  rewrite Hb, bool_decide_true by done. rewrite app_assoc, fields_space by done.
  rewrite fields_word by (apply Forall_app; split; [by repeat constructor|apply encode_printable]).
  assert (forall l : bytes, l <> [] -> flush (rev l ++ []) [] = [l]) as ->.
  { intros l Hne. rewrite app_nil_r. unfold flush. destruct (rev l) eqn:E; [|by rewrite <- E, rev_involutive].
    apply (f_equal (@rev _)) in E. by rewrite rev_involutive in E. }
  - cbn [app first_tip]. by rewrite tip_token_hex.
  - done.
Qed.

(** ** The released collector *)

(** How a run that ends in acceptance went. *)
Lemma cmdVerifyAudit_accepts Unmarshal EdVerify e chain args vd r t :
  cmdVerifyAudit Unmarshal EdVerify e (chain :: args) = Verified vd r t true ->
  exists sinceArg expectTip rest pub src since n,
    parseVerifyArgs args = Ok (sinceArg, expectTip, rest) /\ resolveAuditPub e rest = Ok (pub, src)
    /\ (if bool_decide (sinceArg = []) then since = None else exists h, since_head e sinceArg = Some h /\ since = Some h)
    /\ verifySegmentedChain Unmarshal bytes EdVerify pub (chainDomain e chain) since (chainFiles e chain).1
         (chainFiles e chain).2 = (n, Ok vd)
    /\ audit_verdict since expectTip vd = (r, t, true).
Proof.
  unfold cmdVerifyAudit. destruct (parseVerifyArgs args) as [[[s tip] rest]|]; [|done].
  destruct (resolveAuditPub e rest) as [[pub src]|] eqn:Er; [|done].
  destruct (bool_decide (s = [])) eqn:Es; cbn [mbind option_bind].
  - destruct (chainFiles e chain) as [segs live] eqn:Ef. destruct (verifySegmentedChain _ _ _ _ _ _ _ _) as [n [d|]] eqn:Ev; [|done].
    destruct (audit_verdict _ _ d) as [[w tc] ok] eqn:Ed. intros [= <- <- <- ->].
    exists s, tip, rest, pub, src, None, n. rewrite Es. done.
  - destruct (since_head e s) as [h|] eqn:Eh; [|done]. cbn [fmap option_fmap option_map].
    destruct (chainFiles e chain) as [segs live] eqn:Ef. destruct (verifySegmentedChain _ _ _ _ _ _ _ _) as [n [d|]] eqn:Ev; [|done].
    destruct (audit_verdict _ _ d) as [[w tc] ok] eqn:Ed. intros [= <- <- <- ->].
    exists s, tip, rest, pub, src, (Some h), n. rewrite Es. split_and!; eauto.
Qed.

Lemma since_head_encode e h : len h = Size -> since_head e (EncodeToString h) = Some h.
Proof.
  intros Hl. unfold since_head. destruct (CutPrefix (B "@") (EncodeToString h)) as [n|] eqn:E.
  - apply CutPrefix_Some in E. pose proof (encode_lower h) as Hh. rewrite E in Hh. apply Forall_cons in Hh as [Hh _].
    unfold hex_lower in Hh. change (val "@"%char) with 64 in Hh. lia.
  - by rewrite TrimSpaceB_printable, decode_encode, Hl by apply encode_printable.
Qed.

(** A run that exits with 0 is a run of verify-audit on the staged files, in an environment
    with the domain it was given; what it logs before its own lines, and the names it
    prints, hold no word like a head. *)
Class RunsCollector {W} (exec : @exec_fn W) (Unmarshal : bytes -> option auditRecord) (EdVerify : bytes -> bytes -> bytes -> bool)
    : Prop :=
  collector_run : forall chain args dom fs w out w',
    exec (B "verify-audit" :: chain :: args) dom fs w = ((out, None), w') ->
    exists e vd r t src logged,
      (forall d, dom = Some d -> auditDomain e = d)
      /\ chainFiles e chain = (segment_files (live_name chain) fs, open_file fs (live_name chain))
      /\ cmdVerifyAudit Unmarshal EdVerify e (chain :: args) = Verified vd r t true
      /\ out = logged ++ audit_text chain (chainDomain e chain) src vd r t
      /\ tipFromVerifyOutput (logged ++ ok_words chain (chainDomain e chain) src vd) = [].

Lemma last_since pub since tip :
  since <> [] ->
  last_flag sinceFlag ((if bool_decide (pub = []) then [] else [pub]) ++ [B "--since=" ++ since]
    ++ (if bool_decide (tip = []) then [] else [B "--expect-tip=" ++ tip])) = Some since.
Proof. intros Hs. destruct (bool_decide (pub = [])), (bool_decide (tip = [])); done. Qed.

#[export] Instance collector_keeps_promise {W} (exec : @exec_fn W) bin Unmarshal EdVerify :
  RunsCollector exec Unmarshal EdVerify -> @ChainVerifier W (collectorVerifier exec bin) Unmarshal EdVerify.
Proof.
  intros HR fs path pub d since tip w t w'. cbn [VerifyChain collectorVerifier]. unfold collector_chain.
  rewrite bool_decide_decide. intros H Hd. destruct (decide (d = [])) as [|_]; [done|].
  destruct (exec _ _ _ _) as [[out [e|]] w1] eqn:E; [done|]. cbv zeta in H.
  destruct (bool_decide (tipFromVerifyOutput out = [])); [done|]. injection H as <- <-.
  unfold chain_args in E. cbn [app] in E. apply HR in E as (e & vd & r & tc & src & logged & Hdom & Hf & Hc & -> & Hq).
  apply cmdVerifyAudit_accepts in Hc as (sn & et & rest & key & src' & s & n & Hp & _ & Hs & Hv & Ha).
  exists key, s, n, vd. split_and!.
  - rewrite Hf in Hv. unfold chainDomain in Hv. rewrite (Hdom d eq_refl), bool_decide_false in Hv by done. exact Hv.
  - unfold audit_text. rewrite app_assoc. by apply tip_of_output; [|apply headOrZero_len].
  - intros h -> Hl. assert (EncodeToString h <> []) as Hne.
    { intros E0. apply (f_equal len) in E0. rewrite len_encode, Hl in E0. done. }
    rewrite (bool_decide_false (EncodeToString h = [])) in Hp by done.
    apply parse_flags_spec in Hp as (_ & -> & _). rewrite last_since in Hs by done. cbn [from_option id] in Hs.
    rewrite bool_decide_false in Hs by done. destruct Hs as (h' & Hh & ->).
    rewrite since_head_encode in Hh by done. injection Hh as <-. split; [done|].
    revert Ha. unfold audit_verdict. destruct (bool_decide (h = zeroHash)) eqn:Ez; [left; by apply bool_decide_eq_true in Ez|].
    destruct (vd_found vd); [by right|]. repeat case_match; discriminate.
Qed.
