(* ===== verification/EnrollProps.v ===== *)
(** * Enrolment: what a written pin proves, and that an honest box obtains one

    A TPM promises the verifier that it opens a credential only with the endorsement key it
    was wrapped to and with the named key loaded ([CredentialProtection]). Against that promise
    the pin that [cmdAttestEnrollVerify] writes is the attestation key of the TPM with the
    challenged endorsement key, and the later verifier trusts no other. *)
From Stdlib Require Import ZArith Lia Ascii String.
From stdpp Require Import base tactics numbers option strings list gmap.
From S2P Require Import Prelude Endian Maps Bytes Sha256 Json Control Broker Verify AuditLog AuditFiles Attest AttestProps MonitorCollector Enroll.
#[local] Open Scope string_scope.
#[local] Open Scope list_scope.
#[local] Open Scope Z_scope.
#[local] Opaque Sum256.

(** ** The pin file *)
Lemma TrimSpaceB_line l : Forall printable l -> TrimSpaceB (l ++ [newline]) = l.
Proof.
  intros H. destruct H as [|a l Ha Hl]; [reflexivity|]. rewrite <- (TrimSpaceB_printable (a :: l)) at 2 by by constructor.
  unfold TrimSpaceB. cbn [app]. rewrite !trim_left_id by done.
  change (a :: l ++ [newline]) with ((a :: l) ++ [newline]). by rewrite rev_app_distr.
Qed.

Lemma pin_file_resolves {PubKey} (ecdsaPubFromDER : bytes -> option PubKey) ReadFile path der :
  Forall printable path -> ReadFile path = Some (EncodeToString der ++ [newline]) -> is_Some (ecdsaPubFromDER der) ->
  resolveAKPin PubKey ecdsaPubFromDER ReadFile (byte_of 64 :: path) = Some der.
Proof.
  intros Hp Hf [k Hk]. unfold resolveAKPin. cbv zeta. rewrite TrimSpaceB_printable by by constructor.
  rewrite Ascii.eqb_refl, Hf. cbn [fmap option_fmap option_map].
  by rewrite TrimSpaceB_line, decode_encode, Hk by apply encode_printable.
Qed.

Lemma accepted_has_pin U {PubKey} (ecdsaPubFromDER : bytes -> option PubKey) V ReadFile env D nonce pin der :
  resolveAKPin PubKey ecdsaPubFromDER ReadFile pin = Some der ->
  cmdAttestVerify U PubKey ecdsaPubFromDER V ReadFile env D nonce pin = Accepted -> DecodePrefix (AKPubDER env) = der.
Proof.
  intros Hr. unfold cmdAttestVerify. destruct (DecodeString D); [|done]. destruct (negb _); [done|].
  destruct (DecodeString nonce); [|done]. destruct (_ <? 16); [done|]. rewrite Hr. cbv zeta.
  by case_bool_decide.
Qed.

(** ** The certificate in the non-volatile memory *)
Definition nv_holds (m : nv) (idx : Z) (c : bytes) : Prop :=
  nv_size m idx = Some (len c)
  /\ forall off n, 0 <= off -> 0 <= n <= 512 -> off + n <= len c ->
       nv_read m idx off n = Some (take (Z.to_nat n) (drop (Z.to_nat off) c)).

Lemma nv_chunks_read m idx c : nv_holds m idx c -> forall fuel off,
  0 <= off <= len c -> len c - off <= 512 * (Z.of_nat fuel - 1) ->
  nv_chunks fuel m idx (len c) off (take (Z.to_nat off) c) = Some c.
Proof.
  intros [_ Hr]. induction fuel as [|fuel IH]; intros off Ho Hf; [lia|]. cbn [nv_chunks]. cbv zeta.
  destruct (Z.ltb_spec off (len c)) as [Hlt|]; [|by rewrite take_ge by (unfold len in *; lia)].
  set (n := if 512 <? len c - off then 512 else len c - off).
  assert (0 < n <= 512 /\ off + n <= len c /\ (off + n = len c \/ n = 512)) as (Hn & Hle & Hor)
    by (unfold n; destruct (Z.ltb_spec 512 (len c - off)); lia).
  rewrite Hr by lia. rewrite <- (IH (off + n)) by lia. f_equal.
  rewrite Z2Nat.inj_add by lia. rewrite <- (take_drop (Z.to_nat off) c) at 3.
  rewrite take_app_ge by (rewrite length_take; lia). f_equal. f_equal. rewrite length_take. unfold len in *. lia.
Qed.

Lemma ek_cert_is_read {Cert} (ParseCertificate : bytes -> option Cert) m c cert :
  nv_holds m 0x01c0000a c -> 0 < len c <= 8192 -> ParseCertificate c = Some cert ->
  readEKCert ParseCertificate m = (c, "0x01c0000a").
Proof.
  intros Hm Hl Hc. unfold readEKCert, ekCandidateIndices. cbn [first_cert]. rewrite (proj1 Hm).
  rewrite (proj2 (Z.eqb_neq (len c) 0)), (proj2 (Z.ltb_ge 8192 (len c))) by lia. cbn [orb].
  pose proof (nv_chunks_read _ _ _ Hm nv_fuel 0 ltac:(lia) ltac:(unfold nv_fuel; lia)) as E. rewrite take_0 in E.
  by rewrite E, Hc.
Qed.

(** ** The protocol *)
Section protocol.
  Context {TPMT Cert EKey PubKey T : Type}.
  Context (UnmarshalPub : bytes -> option TPMT) (MarshalPub : TPMT -> bytes).
  Context (ObjectName : TPMT -> option bytes).
  Context (ECC : TPMT -> option (Z * Z)) (marshalPKIX : Z * Z -> option bytes).
  Context (ImportEncapsulationKey : TPMT -> option EKey).
  Context (CreateCredential : EKey -> bytes -> bytes -> option (bytes * bytes)).
  Context (ParseCertificate : bytes -> option Cert) (cert_point : Cert -> option (Z * Z)).
  Context (AppendCertsFromPEM : bytes -> bool) (chains_to : bytes -> Cert -> bool).
  Context (ecdsaPubFromDER : bytes -> option PubKey).
  Context (ops : enroll_ops (TPMT := TPMT) T).

  Abbreviation PKIX := (tpmtECCToPKIX ECC marshalPKIX).
  Abbreviation MakeCredential := (cmdAttestMakeCredential UnmarshalPub ObjectName ECC marshalPKIX ImportEncapsulationKey
    CreateCredential ParseCertificate cert_point AppendCertsFromPEM chains_to).
  Abbreviation EnrollVerify := (cmdAttestEnrollVerify ecdsaPubFromDER).

(** What TPM2_ActivateCredential promises of a credential made by MakeCredential: it is opened
    only with the endorsement key it is wrapped to and the key of that name, and gives the
    wrapped secret. Names are hashes of public areas, an encapsulation key has one point. *)
Class CredentialProtection := {
  activation_binds k name secret blob enc t t' s :
    CreateCredential k name secret = Some (blob, enc) -> en_activate ops blob enc t = ((RcOk, Some s), t') ->
    s = secret /\ exists ek ak, en_ek ops t = Some ek /\ en_ak ops t = Some ak
      /\ ImportEncapsulationKey ek = Some k /\ ObjectName ak = Some name;
  names_are_hashes a b name : ObjectName a = Some name -> ObjectName b = Some name -> a = b;
  keys_have_a_point a b k : ImportEncapsulationKey a = Some k -> ImportEncapsulationKey b = Some k -> ECC a = ECC b }.

(** The secret is random: whoever answers with it had it from a TPM of the world. *)
Definition unguessed (world : T -> Prop) (chal : activationChallenge) (secret : bytes) (resp : activationResponse) : Prop :=
  DecodeString (RecoveredSecret resp) = Some secret ->
  exists t t' blob enc, world t /\ DecodeString (CredBlob chal) = Some blob /\ DecodeString (EncSecret chal) = Some enc
    /\ en_activate ops blob enc t = ((RcOk, Some secret), t').

(** What the verifier reads in a request, and the key of a certificate. *)
Definition requested_ek (req : enrollRequest) : option TPMT := b ← DecodeString (EKPubTPMT req); UnmarshalPub b.
Definition requested_cert (req : enrollRequest) : option Cert := b ← DecodeString (EKCertDER req); ParseCertificate b.
Definition cert_pkix (cert : Cert) : option bytes := p ← cert_point cert; marshalPKIX p.

(** What a challenge was made of. *)
Inductive challenged req ekCA secret chal round : Prop :=
| Challenged ek ak name der key blob enc
    (Hek : requested_ek req = Some ek) (Hname : ObjectName ak = Some name)
    (Hder : PKIX ak = Some der) (Hkey : ImportEncapsulationKey ek = Some key)
    (Hcred : CreateCredential key name secret = Some (blob, enc))
    (Hchal : chal = ActivationChallenge (EncodeToString blob) (EncodeToString enc))
    (Hround : round = VerifierRound (EncodeToString secret) (EncodeToString der))
    (Hcert : forall ca, ekCA = Some ca -> exists cert, requested_cert req = Some cert
       /\ chains_to ca cert = true /\ cert_pkix cert = Some (derFromEKPub ECC marshalPKIX ek)).

Lemma validate_inv req der ca :
  validateEKCertChain marshalPKIX ParseCertificate cert_point AppendCertsFromPEM chains_to req der ca = true ->
  exists cert, requested_cert req = Some cert
    /\ chains_to ca cert = true /\ cert_pkix cert = Some der.
Proof.
  unfold validateEKCertChain. destruct (EKCertDER req) as [|x l] eqn:EC; [done|].
  destruct (DecodeString (x :: l)) as [c|] eqn:E0; [|done]. destruct (ParseCertificate c) as [cert|] eqn:Ep; [|done].
  destruct (AppendCertsFromPEM ca); [|done]. destruct (chains_to ca cert) eqn:Ec; [|done]. cbn [andb].
  destruct (cert_point cert) as [pt|] eqn:Ept; [|done]. destruct (marshalPKIX pt) as [d|] eqn:Em; [|done].
  intros ->%bool_decide_eq_true. exists cert. unfold requested_cert, cert_pkix.
  rewrite EC, E0, Ept. cbn. by rewrite Ep.
Qed.

Lemma make_credential_inv req ekCA secret chal round :
  MakeCredential req ekCA secret = Ok (chal, round) -> challenged req ekCA secret chal round.
Proof.
  unfold cmdAttestMakeCredential. destruct (DecodeString (EKPubTPMT req)) as [eb|] eqn:E1; [|done].
  destruct (UnmarshalPub eb) as [ek|] eqn:E2; [|done]. destruct (DecodeString (AKPubTPMT req)) as [ab|]; [|done].
  destruct (UnmarshalPub ab) as [ak|]; [|done]. destruct (ObjectName ak) as [name|] eqn:E3; [|done].
  destruct (negb (bool_decide (name = _))); [done|]. destruct (PKIX ak) as [der|] eqn:E4; [|done].
  destruct (negb (bool_decide (der = _))); [done|].
  destruct (negb (match ekCA with Some _ => _ | None => _ end)) eqn:E5; [done|].
  destruct (ImportEncapsulationKey ek) as [key|] eqn:E6; [|done].
  destruct (CreateCredential key name secret) as [[blob enc]|] eqn:E7; [|done].
  intros [= <- <-]. refine (Challenged _ _ _ _ _ ek ak name der key blob enc _ E3 E4 E6 E7 eq_refl eq_refl _).
  - unfold requested_ek. by rewrite E1.
  - intros ca ->. apply negb_false_iff in E5. by apply validate_inv in E5.
Qed.

Lemma enroll_verify_inv resp secret der pin :
  EnrollVerify resp (VerifierRound (EncodeToString secret) (EncodeToString der)) = Some pin ->
  DecodeString (RecoveredSecret resp) = Some secret /\ is_Some (ecdsaPubFromDER der) /\ pin = EncodeToString der ++ [newline].
Proof.
  unfold cmdAttestEnrollVerify. cbn [rd_Secret rd_AKPubDER]. destruct (DecodeString (RecoveredSecret resp)) as [r|]; [|done].
  rewrite !decode_encode. destruct (len secret <? 16); [done|]. cbn [orb]. case_bool_decide as Er; [|done]. cbn [negb].
  case_bool_decide; [done|]. destruct (ecdsaPubFromDER der); [|done]. intros [= <-]. by rewrite Er.
Qed.

(** C15: A pin is written only for a key in the challenged TPM. Whatever request and response
    reach the verifier, if [make-credential] accepts the request and [enroll-verify] writes a
    pin, then a TPM of the world holds the endorsement key of the request together with an
    attestation key whose PKIX form is the pin; with an EK-CA the certificate in the request
    chains to it and certifies that endorsement key; the pin file resolves to that key and the
    quote verifier accepts no envelope of another key against it. *)
Theorem enrolled_pin_is_ek_rooted {CP : CredentialProtection} world req ekCA secret chal round resp pin :
  MakeCredential req ekCA secret = Ok (chal, round) -> unguessed world chal secret resp -> EnrollVerify resp round = Some pin ->
  exists t ek ak der key, world t /\ en_ek ops t = Some ek /\ en_ak ops t = Some ak
    /\ ImportEncapsulationKey ek = Some key
    /\ (exists ek', requested_ek req = Some ek' /\ ImportEncapsulationKey ek' = Some key)
    /\ PKIX ak = Some der /\ pin = EncodeToString der ++ [newline]
    /\ (forall ca, ekCA = Some ca -> exists cert, requested_cert req = Some cert
          /\ chains_to ca cert = true /\ cert_pkix cert = Some (derFromEKPub ECC marshalPKIX ek))
    /\ forall ReadFile path, Forall printable path -> ReadFile path = Some pin ->
         resolveAKPin PubKey ecdsaPubFromDER ReadFile (byte_of 64 :: path) = Some der
         /\ forall U V env D nonce,
              cmdAttestVerify U PubKey ecdsaPubFromDER V ReadFile env D nonce (byte_of 64 :: path) = Accepted ->
              DecodePrefix (AKPubDER env) = der.
Proof.
  intros [ek ak name der key blob enc Hek Hname Hder Hkey Hcred -> -> Hcert]%make_credential_inv Hu
    (Hr & Hpub & ->)%enroll_verify_inv.
  destruct (Hu Hr) as (t & t' & b & e & Hw & Hb & He & Hact). cbn [CredBlob EncSecret] in Hb, He.
  rewrite decode_encode in Hb, He. injection Hb as <-. injection He as <-.
  destruct (activation_binds _ _ _ _ _ _ _ _ Hcred Hact) as (_ & ek' & ak' & He & Ha & Hk & Hn).
  rewrite <- (names_are_hashes _ _ _ Hname Hn) in Ha.
  exists t, ek', ak, der, key. split_and!; try done.
  - by exists ek.
  - intros ca Hca. destruct (Hcert ca Hca) as (cert & ? & ? & Hpt). exists cert. split_and!; try done. rewrite Hpt.
    unfold derFromEKPub, tpmtECCToPKIX. by rewrite (keys_have_a_point _ _ _ Hkey Hk).
  - intros ReadFile path Hp Hf. pose proof (pin_file_resolves ecdsaPubFromDER _ _ _ Hp Hf Hpub) as Hres. split; [done|].
    intros U V env D nonce. by apply accepted_has_pin.
Qed.

(** ** An honest box *)

(** The TPM opens the challenge after [n] answers of TPM_RC_RETRY. *)
Inductive opens (blob enc secret : bytes) : nat -> T -> T -> Prop :=
| opens_now t t' : en_activate ops blob enc t = ((RcOk, Some secret), t') -> opens blob enc secret 0 t t'
| opens_later n t t1 t' r : en_activate ops blob enc t = ((RcRetry, r), t1) -> opens blob enc secret n t1 t' ->
    opens blob enc secret (S n) t t'.

Lemma activation_succeeds blob enc secret n t t' :
  opens blob enc secret n t t' -> (n < 8)%nat -> en_open ops t = true -> is_Some (en_ek ops t) -> is_Some (en_ak ops t) ->
  doAttestActivate ops (EncodeToString blob) (EncodeToString enc) t = (Ok (ActivationResponse (EncodeToString secret)), t').
Proof.
  intros Ho Hn Hop [ek Hek] [ak Hak]. unfold doAttestActivate. rewrite !decode_encode, Hop, Hek, Hak. cbv zeta. cbn [negb].
  unfold tpmRetry. clear Hop Hek Hak.
  match goal with |- context [retry 8 ?f _ _] =>
    enough (forall m err r, (n < m)%nat -> retry m f err (r, t) = (RcOk, (Some secret, t'))) as E by by rewrite E end.
  clear Hn. induction Ho as [t t' E|n t t1 t' r' E _ IH]; intros [|m] err r Hm; try lia; cbn [retry]; rewrite E; [done|].
  apply IH. lia.
Qed.

Record honest_box (t t' : T) (secret der : bytes) : Prop := Honest {
  hb_open : en_open ops t = true;
  hb_reads pub : UnmarshalPub (MarshalPub pub) = Some pub;
  hb_keys : exists ek ak name key blob enc n, en_ek ops t = Some ek /\ en_ak ops t = Some ak
    /\ PKIX ak = Some der /\ ObjectName ak = Some name /\ en_name ops t = name
    /\ ImportEncapsulationKey ek = Some key /\ CreateCredential key name secret = Some (blob, enc)
    /\ opens blob enc secret n t t' /\ (n < 8)%nat;
  hb_secret : 16 <= len secret;
  hb_pub : is_Some (ecdsaPubFromDER der);
  hb_der : der <> [] }.

(** The manufacturer's certificate of the endorsement key at its specified index. *)
Definition certified (ca : bytes) (t : T) : Prop :=
  AppendCertsFromPEM ca = true /\
  exists c cert ek pt d, nv_holds (en_nv ops t) 0x01c0000a c /\ 0 < len c <= 8192 /\ ParseCertificate c = Some cert
    /\ chains_to ca cert = true /\ en_ek ops t = Some ek /\ ECC ek = Some pt /\ cert_point cert = Some pt /\ marshalPKIX pt = Some d.

Lemma certified_validates ca t ek a b c d e :
  certified ca t -> en_ek ops t = Some ek ->
  validateEKCertChain marshalPKIX ParseCertificate cert_point AppendCertsFromPEM chains_to
    (EnrollRequest a (EncodeToString (readEKCert ParseCertificate (en_nv ops t)).1) b c d e) (derFromEKPub ECC marshalPKIX ek) ca = true.
Proof.
  intros (Hpem & x & cert & ek' & pt & dd & Hnv & Hl & Hp & Hch & Hek' & Hecc & Hpt & Hm) Hek.
  assert (ek' = ek) as -> by congruence. rewrite (ek_cert_is_read _ _ _ _ Hnv Hl Hp). cbn [fst].
  unfold validateEKCertChain. cbn [EKCertDER]. pose proof (len_encode x) as Hle.
  destruct (EncodeToString x) as [|y l] eqn:E; [unfold len in *; cbn in Hle; lia|]. rewrite <- E, decode_encode, Hp, Hpem, Hch, Hpt, Hm.
  cbn [andb]. apply bool_decide_eq_true. unfold derFromEKPub, tpmtECCToPKIX. rewrite Hecc. cbn. by rewrite Hm.
Qed.

(** C33: An honest box enrols. The request it exports is accepted (with an EK-CA too, when the
    certificate in its memory chains to it), the challenge is opened even if the TPM asks for up
    to seven retries, and the pin written is the key the box exported, in hexadecimal. *)
Theorem honest_box_enrols t t' secret der ekCA :
  honest_box t t' secret der -> (forall ca, ekCA = Some ca -> certified ca t) ->
  exists req chal round resp, doAttestEK MarshalPub ECC marshalPKIX ParseCertificate ops t = Ok req
    /\ MakeCredential req ekCA secret = Ok (chal, round)
    /\ doAttestActivate ops (CredBlob chal) (EncSecret chal) t = (Ok resp, t')
    /\ EnrollVerify resp round = Some (rq_AKPubDER req ++ [newline]) /\ rq_AKPubDER req = EncodeToString der.
Proof.
  intros [Hop Hrd (ek & ak & name & key & blob & enc & n & Hek & Hak & Hder & Hname & Hn & Hkey & Hcred & Ho & Hlt) Hs [k Hk] Hd] Hca.
  pose proof (fun ca H => certified_validates ca t ek (EncodeToString (MarshalPub ek)) (readEKCert ParseCertificate (en_nv ops t)).2
    (EncodeToString der) (EncodeToString (MarshalPub ak)) (EncodeToString name) (Hca ca H) Hek) as Hval.
  pose proof (activation_succeeds _ _ _ _ _ _ Ho Hlt Hop ltac:(by eexists) ltac:(by eexists)) as Hact.
  unfold doAttestEK. rewrite Hop, Hek, Hak, Hder, Hn. cbn [negb].
  destruct (readEKCert ParseCertificate (en_nv ops t)) as [c i]. cbn [fst snd] in Hval.
  eexists _, (ActivationChallenge (EncodeToString blob) (EncodeToString enc)),
    (VerifierRound (EncodeToString secret) (EncodeToString der)), _. split; [done|]. split; [|split; [exact Hact|split; [|done]]].
  - unfold cmdAttestMakeCredential. cbn [EKPubTPMT AKPubTPMT AKName rq_AKPubDER].
    rewrite !decode_encode, !Hrd, Hname, !DecodePrefix_encode, !bool_decide_true, Hder, bool_decide_true by done. cbn [negb].
    destruct ekCA as [ca|]; [rewrite (Hval ca eq_refl)|]; by rewrite Hkey, Hcred.
  - unfold cmdAttestEnrollVerify. cbn [RecoveredSecret rd_Secret rd_AKPubDER]. rewrite !decode_encode, Hk.
    rewrite (proj2 (Z.ltb_ge _ _)), bool_decide_true by done. cbn [orb negb]. rewrite bool_decide_false; [done|].
    intros E. apply Hd. apply (f_equal DecodePrefix) in E. by rewrite DecodePrefix_encode in E.
Qed.
End protocol.

(** ** A small TPM: one-byte keys, a box that asks for a retry once *)
Module Small.
Definition Unmarshal (b : bytes) : option ascii := match b with [a] => Some a | _ => None end.
Definition MarshalByte (a : ascii) : bytes := [a].
Definition Name (a : ascii) : option bytes := Some [byte_of 0; a].
Definition Point (a : ascii) : option (Z * Z) := Some (val a, 1).
Definition Pkix (p : Z * Z) : option bytes := Some [byte_of 48; byte_of (p.1)].
Definition Wrap (k : ascii) (name secret : bytes) : option (bytes * bytes) := Some (k :: name, secret).
Definition Pub (der : bytes) : option ascii := match der with [_; a] => Some a | _ => None end.
Definition Pem (ca : bytes) : bool := negb (bool_decide (ca = [])).
Definition Chains (ca : bytes) (c : ascii) : bool := bool_decide (ca = [c]).

(** Endorsement key, attestation key, and whether the next command is answered by a retry. *)
Definition tpm : Type := ascii * ascii * bool.
Definition memory (ek : ascii) : nv :=
  NV (fun idx => if idx =? 0x01c0000a then Some 1 else None)
     (fun _ off n => Some (take (Z.to_nat n) (drop (Z.to_nat off) [ek]))).
Definition activate (blob enc : bytes) (t : tpm) : (rc * option bytes) * tpm :=
  let '(ek, ak, busy) := t in
  if busy then ((RcRetry, None), (ek, ak, false))
  else if bool_decide (blob = ek :: [byte_of 0; ak]) then ((RcOk, Some enc), t) else ((RcError, None), t).
Definition ops : enroll_ops (TPMT := ascii) tpm :=
  EnrollOps (fun _ => true) (fun t => Some t.1.1) (fun t => Some t.1.2) (fun t => [byte_of 0; t.1.2]) (fun t => memory t.1.1) activate.

#[export] Instance protects : CredentialProtection Name Point Some Wrap ops.
Proof.
  split.
  - intros k name secret blob enc [[ek ak] busy] t' s [= <- <-]. cbn [en_activate ops activate].
    destruct busy; [done|]. case_bool_decide as E; [|done]. injection E as -> ->. intros [= -> _]. split; [done|]. by exists ek, ak.
  - by intros a b name [= <-] [= ->].
  - by intros a b k [= ->] [= ->].
Qed.

Definition box (busy : bool) : tpm := (byte_of 7, byte_of 9, busy).
Definition secret : bytes := replicate 32 (byte_of 5).
Definition request : enrollRequest :=
  EnrollRequest (EncodeToString [byte_of 7]) (EncodeToString [byte_of 7]) "0x01c0000a" (EncodeToString [byte_of 48; byte_of 9])
    (EncodeToString [byte_of 9]) (EncodeToString [byte_of 0; byte_of 9]).

(** Another box's key in the request: the credential is made, but this box cannot open it. *)
Example stolen_key_not_opened :
  match cmdAttestMakeCredential Unmarshal Name Point Pkix Some Wrap Unmarshal Point Pem Chains
          (EnrollRequest (EncodeToString [byte_of 7]) [] "" (EncodeToString [byte_of 48; byte_of 8])
             (EncodeToString [byte_of 8]) (EncodeToString [byte_of 0; byte_of 8])) None secret with
  | Ok (chal, _) => (doAttestActivate ops (CredBlob chal) (EncSecret chal) (box true)).1
  | Err _ => Err NoEk
  end = Err ActivateFailed.
Proof. reflexivity. Qed.
End Small.

Lemma enrolled_pin_is_ek_rooted_witness :
  exists t ek ak der key, t = Small.box false /\ en_ek Small.ops t = Some ek /\ en_ak Small.ops t = Some ak
    /\ Some ek = Some key
    /\ (exists ek', requested_ek Small.Unmarshal Small.request = Some ek' /\ Some ek' = Some key)
    /\ tpmtECCToPKIX Small.Point Small.Pkix ak = Some der
    /\ EncodeToString [byte_of 48; byte_of 9] ++ [newline] = EncodeToString der ++ [newline].
Proof.
  destruct (enrolled_pin_is_ek_rooted Small.Unmarshal Small.Name Small.Point Small.Pkix Some Small.Wrap
    Small.Unmarshal Small.Point Small.Pem Small.Chains Small.Pub Small.ops (CP := Small.protects)
    (fun t => t = Small.box false) Small.request (Some [byte_of 7]) Small.secret
    (ActivationChallenge (EncodeToString [byte_of 7; byte_of 0; byte_of 9]) (EncodeToString Small.secret))
    (VerifierRound (EncodeToString Small.secret) (EncodeToString [byte_of 48; byte_of 9]))
    (ActivationResponse (EncodeToString Small.secret)) (EncodeToString [byte_of 48; byte_of 9] ++ [newline]))
    as (t & ek & ak & der & key & H1 & H2 & H3 & H4 & H5 & H6 & H7 & _).
  - reflexivity.
  - intros _. exists (Small.box false), (Small.box false), [byte_of 7; byte_of 0; byte_of 9], Small.secret. split; [reflexivity|]. split; [reflexivity|]. split; [reflexivity|]. reflexivity.
  - reflexivity.
  - exists t, ek, ak, der, key. repeat split; assumption.
Defined.

Lemma honest_box_enrols_witness :
  exists req chal round resp,
    doAttestEK Small.MarshalByte Small.Point Small.Pkix Small.Unmarshal Small.ops (Small.box true) = Ok req
    /\ cmdAttestMakeCredential Small.Unmarshal Small.Name Small.Point Small.Pkix Some Small.Wrap
         Small.Unmarshal Small.Point Small.Pem Small.Chains req (Some [byte_of 7]) Small.secret = Ok (chal, round)
    /\ doAttestActivate Small.ops (CredBlob chal) (EncSecret chal) (Small.box true) = (Ok resp, Small.box false)
    /\ cmdAttestEnrollVerify Small.Pub resp round = Some (rq_AKPubDER req ++ [newline])
    /\ rq_AKPubDER req = EncodeToString [byte_of 48; byte_of 9].
Proof.
  apply honest_box_enrols.
  - split; [reflexivity|reflexivity| |vm_compute; discriminate|by eexists|discriminate].
    exists (byte_of 7), (byte_of 9), [byte_of 0; byte_of 9], (byte_of 7), [byte_of 7; byte_of 0; byte_of 9], Small.secret, 1%nat.
    repeat (split; [reflexivity|]). split; [|lia].
    eapply opens_later; [reflexivity|]. apply opens_now. reflexivity.
  - intros ca [= <-]. split; [reflexivity|]. exists [byte_of 7], (byte_of 7), (byte_of 7), (val (byte_of 7), 1), [byte_of 48; byte_of 7].
    split; [split; [reflexivity|]|].
    + intros off n _ _ _. reflexivity.
    + split; [split; reflexivity || (vm_compute; discriminate)|]. repeat (split; [reflexivity|]). reflexivity.
Defined.
