(* ===== verification/Float64.v ===== *)
(** * float64 arithmetic

    A float64 is the rational it denotes. [rnd] rounds a rational to a significand of 53 bits,
    to nearest, ties to even, as Go's operators and conversions do for values in the normal
    range; the values of the rate limiter stay within it. The error of [rnd] is at most half a
    unit in the last place ([rnd_upper], [rnd_lower]). *)
From Stdlib Require Import ZArith Lia QArith Qpower Lqa.
From stdpp Require Import base tactics numbers.
From S2P Require Import Prelude.
#[local] Open Scope Z_scope.

(** The exponent: the largest [k] with [2^k <= x]. *)
Definition exponent (x : Q) : Z :=
  let k := Z.log2 (Qnum x) - Z.log2 (Zpos (Qden x)) in
  if Qle_bool (2 ^ k)%Q x then k else k - 1.

(** To the nearest integer, ties to even. *)
Definition nearest_even (y : Q) : Z :=
  let d := Zpos (Qden y) in
  let q := Qnum y / d in let r := Qnum y mod d in
  if 2 * r <? d then q else if d <? 2 * r then q + 1 else if Z.even q then q else q + 1.

Definition rnd_pos (x : Q) : Q :=
  let k := exponent x in Qred (inject_Z (nearest_even (x * 2 ^ (52 - k))) * 2 ^ (k - 52))%Q.

Definition rnd (x : Q) : Q := if Qle_bool x 0 then if Qle_bool 0 x then 0%Q else (- rnd_pos (- x))%Q else rnd_pos x.

(** ** Error bounds *)
#[local] Open Scope Q_scope.

Lemma Qpower_pos2 k : 0 < 2 ^ k.
Proof. by apply Qpower_0_lt. Qed.

Lemma Qpower_Z k : (0 <= k)%Z -> inject_Z (2 ^ k) == 2 ^ k.
Proof. intros Hk. change 2 with (inject_Z 2). by apply Zpower_Qpower. Qed.

Lemma nearest_even_close y : inject_Z (nearest_even y) <= y + (1 # 2) /\ y - (1 # 2) <= inject_Z (nearest_even y).
Proof.
  destruct y as [n d]. unfold nearest_even. cbn [Qnum Qden].
  pose proof (Z.div_mod n (Zpos d) ltac:(lia)) as E. pose proof (Z.mod_pos_bound n (Zpos d) ltac:(lia)) as B.
  set (q := (n / Zpos d)%Z) in *. set (r := (n mod Zpos d)%Z) in *.
  assert (forall m, (2 * (m * Zpos d - n) <= Zpos d)%Z -> (- Zpos d <= 2 * (m * Zpos d - n))%Z ->
    inject_Z m <= (n # d) + (1 # 2) /\ (n # d) - (1 # 2) <= inject_Z m) as H.
  { intros m H1 H2. unfold Qminus, Qle, Qplus, Qopp, inject_Z. cbn [Qnum Qden]. rewrite !Pos2Z.inj_mul. split; lia. }
  destruct (Z.ltb_spec (2 * r) (Zpos d)); [apply H; lia|]. destruct (Z.ltb_spec (Zpos d) (2 * r)); [apply H; lia|].
  destruct (Z.even q); apply H; lia.
Qed.

Lemma exponent_le x : 0 < x -> 2 ^ exponent x <= x.
Proof.
  intros Hx. unfold exponent. destruct (Qle_bool _ x) eqn:E; [by apply Qle_bool_iff in E|].
  destruct x as [n d]. unfold Qlt in Hx. cbn [Qnum Qden] in *.
  pose proof (Z.log2_spec n ltac:(lia)) as [Hn _]. pose proof (Z.log2_spec (Zpos d) ltac:(lia)) as [_ Hd].
  pose proof (Z.log2_nonneg n). pose proof (Z.log2_nonneg (Zpos d)).
  set (a := Z.log2 n) in *. set (b := Z.log2 (Zpos d)) in *. clear E.
  replace (a - b - 1)%Z with (a + - Z.succ b)%Z by lia. rewrite Qpower_plus, Qpower_opp by done.
  pose proof (Qpower_pos2 (Z.succ b)) as Hp. apply Qle_shift_div_r; [done|].
  rewrite <- !Qpower_Z by lia. unfold Qle, Qmult, inject_Z. cbn [Qnum Qden]. nia.
Qed.

(** The other half: the significand has 53 bits. *)
Lemma exponent_gt x : 0 < x -> x < 2 ^ (exponent x + 1).
Proof.
  intros Hx. unfold exponent. destruct (Qle_bool _ x) eqn:E.
  - destruct x as [n d]. unfold Qlt in Hx. cbn [Qnum Qden] in *.
    pose proof (Z.log2_spec n ltac:(lia)) as [_ Hn]. pose proof (Z.log2_spec (Zpos d) ltac:(lia)) as [Hd _].
    pose proof (Z.log2_nonneg n). pose proof (Z.log2_nonneg (Zpos d)).
    set (a := Z.log2 n) in *. set (b := Z.log2 (Zpos d)) in *. clear E.
    replace (a - b + 1)%Z with (Z.succ a + - b)%Z by lia. rewrite Qpower_plus, Qpower_opp by done.
    pose proof (Qpower_pos2 b) as Hp. apply Qlt_shift_div_l; [done|].
    rewrite <- !Qpower_Z by lia. unfold Qlt, Qmult, inject_Z. cbn [Qnum Qden]. nia.
  - replace (_ - 1 + 1)%Z with (Z.log2 (Qnum x) - Z.log2 (Zpos (Qden x)))%Z by lia.
    apply Qnot_le_lt. intros H%Qle_bool_iff. congruence.
Qed.

(** The unit roundoff. *)
Definition ulp_half : Q := 1 # 9007199254740992.

Example ulp_half_is : ulp_half == / 2 ^ 53.
Proof. reflexivity. Qed.

Lemma rnd_pos_close x : 0 < x -> rnd_pos x <= x * (1 + ulp_half) /\ x * (1 - ulp_half) <= rnd_pos x.
Proof.
  intros Hx. unfold rnd_pos. cbv zeta. rewrite Qred_correct. pose proof (exponent_le x Hx) as Hk.
  set (k := exponent x) in *. set (y := x * 2 ^ (52 - k)).
  pose proof (Qpower_pos2 (k - 52)) as Hp. set (p := 2 ^ (k - 52)) in *.
  assert (x == y * p) as Hy.
  { unfold y, p. rewrite <- Qmult_assoc, <- Qpower_plus by done. replace (52 - k + (k - 52))%Z with 0%Z by lia.
    cbn [Qpower]. ring. }
  assert (1 <= 2 * y * ulp_half) as Hbig.
  { assert (2 ^ 52 <= y) as H52.
    { unfold y. replace 52%Z with (k + (52 - k))%Z at 1 by lia. rewrite Qpower_plus by done.
      apply Qmult_le_compat_r; [done|]. apply Qlt_le_weak, Qpower_pos2. }
    unfold ulp_half. change (2 ^ 52) with (4503599627370496 # 1) in H52. lra. }
  destruct (nearest_even_close y) as [H1 H2]. set (m := inject_Z (nearest_even y)) in *. rewrite Hy.
  split.
  - assert (y * p * (1 + ulp_half) == (y + y * ulp_half) * p) as -> by ring.
    apply Qmult_le_compat_r; [lra|by apply Qlt_le_weak].
  - assert (y * p * (1 - ulp_half) == (y - y * ulp_half) * p) as -> by ring.
    apply Qmult_le_compat_r; [lra|by apply Qlt_le_weak].
Qed.

Lemma rnd_close x : 0 <= x -> rnd x <= x * (1 + ulp_half) /\ x * (1 - ulp_half) <= rnd x.
Proof.
  intros Hx. unfold rnd. destruct (Qle_bool x 0) eqn:E.
  - apply Qle_bool_iff in E. rewrite (proj2 (Qle_bool_iff 0 x)) by done. split; unfold ulp_half; lra.
  - apply rnd_pos_close. apply Qnot_le_lt. intros H%Qle_bool_iff. congruence.
Qed.

Lemma rnd_upper x : 0 <= x -> rnd x <= x + x * ulp_half.
Proof. intros H. destruct (rnd_close x H) as [H1 _]. lra. Qed.

Lemma rnd_lower x : 0 <= x -> x - x * ulp_half <= rnd x.
Proof. intros H. destruct (rnd_close x H) as [_ H1]. lra. Qed.

Lemma rnd_nonneg x : 0 <= x -> 0 <= rnd x.
Proof. intros H. pose proof (rnd_lower x H). unfold ulp_half in *. lra. Qed.

(** Values checked against the arithmetic of the target. *)
Example rnd_examples :
  rnd (1 # 10) == (3602879701896397 # 36028797018963968) /\ rnd (1 # 3) == (6004799503160661 # 18014398509481984)
  /\ rnd (inject_Z (2 ^ 53 + 1)) == inject_Z (2 ^ 53) /\ rnd (inject_Z (2 ^ 53 + 3)) == inject_Z (2 ^ 53 + 4)
  /\ rnd (3 # 60) == (3602879701896397 # 72057594037927936) /\ rnd (- 5 # 2) == (- 5 # 2).
Proof. vm_compute. auto 10. Qed.
