(* ===== verification/RateLimit.v ===== *)
(** * The paid-call limiter: [router/ratelimit.go]

    The token bucket in float64, and the bound it gives on the number of calls it lets
    through: the burst, what is refilled in the elapsed time, and the rounding errors. *)
From Stdlib Require Import ZArith Lia QArith Qpower Lqa.
From stdpp Require Import base tactics numbers list.
From S2P Require Import Prelude Float64.
#[local] Open Scope list_scope.
#[local] Open Scope Z_scope.

(** Instants and durations are in nanoseconds. *)
Record rateLimiter := Limiter { tokens : Q; capacity : Q; refill : Q; last : Z }.

Definition float64 (n : Z) : Q := rnd (inject_Z n).

Definition newRateLimiter (perMin now : Z) : option rateLimiter :=
  if perMin <=? 0 then None
  else Some (Limiter (float64 perMin) (float64 perMin) (rnd (float64 perMin / 60)) now).

(** [time.Time.Sub]: saturates at the range of [time.Duration]. *)
Definition Sub (t u : Z) : Z := Z.max (- 2 ^ 63) (Z.min (2 ^ 63 - 1) (t - u)).

(** [time.Duration.Seconds]. *)
Definition Seconds (d : Z) : Q := rnd (float64 (Z.quot d 1000000000) + rnd (float64 (Z.rem d 1000000000) / 1000000000)).

(** [tokens + elapsed * refill]; the compiler may fuse the two operations into one. *)
Definition refilled (fused : bool) (l : rateLimiter) (elapsed : Q) : Q :=
  rnd (tokens l + (if fused then elapsed * refill l else rnd (elapsed * refill l))).

Definition advance (fused : bool) (now : Z) (l : rateLimiter) : rateLimiter :=
  let elapsed := Seconds (Sub now (last l)) in
  if Qle_bool elapsed 0 then l
  else let t := refilled fused l elapsed in
       Limiter (if Qle_bool t (capacity l) then t else capacity l) (capacity l) (refill l) now.

Definition take_token (l : rateLimiter) : bool * rateLimiter :=
  if Qle_bool 1 (tokens l) then (true, Limiter (rnd (tokens l - 1)) (capacity l) (refill l) (last l)) else (false, l).

(** [allow] on a limiter; an absent one allows. *)
Definition allow_at (fused : bool) (now : Z) (l : rateLimiter) : bool * rateLimiter := take_token (advance fused now l).

Definition allow (fused : bool) (now : Z) (l : option rateLimiter) : bool * option rateLimiter :=
  match l with
  | None => (true, None)
  | Some l => let '(ok, l) := allow_at fused now l in (ok, Some l)
  end.

(** The scenario of the repository's test: a burst of three, then one token after 20 s. *)
Fixpoint allow_seq (nows : list Z) (l : option rateLimiter) : list bool :=
  match nows with [] => [] | now :: nows => let '(ok, l) := allow false now l in ok :: allow_seq nows l end.

Example burst_then_refill :
  allow_seq [0; 0; 0; 0; 20000000000; 20000000000] (newRateLimiter 3 0) = [true; true; true; false; true; false].
Proof. vm_compute. reflexivity. Qed.

(** ** The bound *)
#[local] Open Scope Q_scope.

(** The limiter was made for [perMin] and holds between zero and its capacity. *)
Record limiter_ok (perMin : Z) (l : rateLimiter) : Prop := {
  lo_low : 0 <= tokens l;
  lo_high : tokens l <= capacity l;
  lo_cap : capacity l = float64 perMin;
  lo_refill : refill l = rnd (float64 perMin / 60) }.

(** Tokens per second, seconds, and the factor that covers the rounding of a refill. *)
Definition rate (perMin : Z) : Q := inject_Z perMin / 60.
Definition seconds (ns : Z) : Q := inject_Z ns / 1000000000.
Definition inflation : Q := 1 + (1 # 562949953421312).
Definition rounding (perMin : Z) : Q := inject_Z perMin / 2251799813685248.

Example inflation_is : inflation == 1 + / 2 ^ 49 /\ forall n, rounding n == inject_Z n / 2 ^ 51.
Proof. split; [reflexivity|]. intros n. reflexivity. Qed.

Ltac rnd_bounds H := pose proof (rnd_upper _ H); pose proof (rnd_nonneg _ H).

Lemma inject_nonneg n : (0 <= n)%Z -> 0 <= inject_Z n.
Proof. intros H. unfold Qle, inject_Z. cbn. lia. Qed.

Lemma rnd_nonpos x : x <= 0 -> rnd x <= 0.
Proof.
  intros Hx. unfold rnd. rewrite (proj2 (Qle_bool_iff x 0)) by done. destruct (Qle_bool 0 x) eqn:E; [done|].
  assert (0 < - x) as Hn.
  { destruct (Qlt_le_dec 0 (- x)) as [|H]; [done|]. exfalso. assert (0 <= x) as H0 by lra. apply Qle_bool_iff in H0. congruence. }
  destruct (rnd_pos_close (- x) Hn) as [_ H]. unfold ulp_half in H. lra.
Qed.

Lemma Seconds_nonpos d : (d <= 0)%Z -> Seconds d <= 0.
Proof.
  intros Hd. unfold Seconds, float64. apply rnd_nonpos.
  assert (Z.quot d 1000000000 <= 0)%Z as Hq by (apply Z.quot_le_upper_bound; lia).
  assert (Z.rem d 1000000000 <= 0)%Z as Hr by (apply Z.rem_nonpos; lia).
  assert (rnd (inject_Z (Z.quot d 1000000000)) <= 0) by (apply rnd_nonpos; unfold Qle, inject_Z; cbn; lia).
  assert (rnd (inject_Z (Z.rem d 1000000000)) <= 0) by (apply rnd_nonpos; unfold Qle, inject_Z; cbn; lia).
  assert (rnd (rnd (inject_Z (Z.rem d 1000000000)) / 1000000000) <= 0).
  { apply rnd_nonpos. unfold Qdiv. change (/ 1000000000) with (1 # 1000000000). lra. }
  lra.
Qed.

Lemma Seconds_bound d : (0 <= d)%Z -> 0 <= Seconds d /\ Seconds d <= seconds d * (1 + 4 * ulp_half).
Proof.
  intros Hd. unfold Seconds, float64, seconds, Qdiv. change (/ 1000000000) with (1 # 1000000000).
  pose proof (Z.quot_rem' d 1000000000) as E. assert (0 <= Z.quot d 1000000000)%Z as Hq by (apply Z.quot_pos; lia).
  assert (0 <= Z.rem d 1000000000)%Z as Hr by (apply Z.rem_nonneg; lia).
  set (q := Z.quot d 1000000000) in *. set (r := Z.rem d 1000000000) in *.
  assert (inject_Z d == 1000000000 * inject_Z q + inject_Z r) as Ed.
  { rewrite E at 1. by rewrite inject_Z_plus, inject_Z_mult. }
  apply inject_nonneg in Hq, Hr. rnd_bounds Hq. rnd_bounds Hr.
  assert (0 <= rnd (inject_Z r) * (1 # 1000000000)) as Hx by lra. rnd_bounds Hx.
  assert (0 <= rnd (inject_Z q) + rnd (rnd (inject_Z r) * (1 # 1000000000))) as Hs by lra. rnd_bounds Hs.
  split; [done|]. rewrite Ed. unfold ulp_half in *. lra.
Qed.

Section bound.
  Context (perMin : Z) (Hpos : (0 < perMin)%Z) (Hmax : (perMin <= 2 ^ 52)%Z).

Lemma perMin_range : 1 <= inject_Z perMin /\ inject_Z perMin <= 4503599627370496.
Proof. unfold Qle, inject_Z. cbn. split; lia. Qed.

Lemma cap_bound : 1 - ulp_half <= float64 perMin /\ float64 perMin <= inject_Z perMin * (1 + ulp_half).
Proof.
  destruct perMin_range as [H1 _]. destruct (rnd_close (inject_Z perMin)) as [Hu Hl]; [lra|]. unfold float64.
  split; [|done]. unfold ulp_half in *. lra.
Qed.

Lemma refill_bound : 0 <= rnd (float64 perMin / 60) /\ rnd (float64 perMin / 60) <= rate perMin * (1 + 3 * ulp_half).
Proof.
  destruct perMin_range as [H1 _]. destruct cap_bound as [Hl Hu]. unfold rate, Qdiv. change (/ 60) with (1 # 60).
  assert (0 <= float64 perMin * (1 # 60)) as H by (unfold ulp_half in *; lra). rnd_bounds H. split; [done|].
  unfold ulp_half in *. lra.
Qed.

(** What a refill adds. *)
Lemma refill_amount (fused : bool) l now :
  limiter_ok perMin l -> (0 < Sub now (last l))%Z ->
  let x := if fused then Seconds (Sub now (last l)) * refill l else rnd (Seconds (Sub now (last l)) * refill l) in
  0 <= x /\ x <= seconds (now - last l) * rate perMin * inflation.
Proof.
  intros [_ _ _ Hr] Hd. cbv zeta. rewrite Hr. destruct refill_bound as [R0 R1].
  destruct (Seconds_bound (Sub now (last l))) as [S0 S1]; [lia|].
  assert (seconds (Sub now (last l)) <= seconds (now - last l)) as S2.
  { unfold seconds, Qdiv. apply Qmult_le_compat_r; [|done]. unfold Qle, inject_Z. cbn. unfold Sub in *. lia. }
  assert (0 <= rate perMin) as HR by (destruct perMin_range; unfold rate, Qdiv; change (/ 60) with (1 # 60); lra).
  set (e := Seconds _) in *. set (r := rnd (_ / 60)) in *. set (E := seconds (now - last l)) in *. set (R := rate perMin) in *.
  assert (0 <= E) as HE by (unfold E, seconds, Qdiv; apply Qmult_le_0_compat; [apply inject_nonneg; unfold Sub in Hd; lia|done]).
  assert (e <= E * (1 + 4 * ulp_half)) as He by (unfold ulp_half in *; lra).
  assert (e * r <= E * R * ((1 + 4 * ulp_half) * (1 + 3 * ulp_half))) as Hprod.
  { assert (E * R * ((1 + 4 * ulp_half) * (1 + 3 * ulp_half)) == (E * (1 + 4 * ulp_half)) * (R * (1 + 3 * ulp_half))) as -> by ring.
    apply Qmult_le_compat_nonneg; done. }
  assert (0 <= e * r) as H0 by (by apply Qmult_le_0_compat). assert (0 <= E * R) as HER by (by apply Qmult_le_0_compat).
  rnd_bounds H0. set (p := e * r) in *. set (Q := E * R) in *. unfold inflation, ulp_half in *.
  destruct fused; (split; [done|]); lra.
Qed.

Lemma advance_ok (fused : bool) now l :
  limiter_ok perMin l ->
  let l' := advance fused now l in
  limiter_ok perMin l' /\ (last l <= last l')%Z /\ (last l' = last l \/ last l' = now)
  /\ tokens l' <= tokens l + seconds (last l' - last l) * rate perMin * inflation + 2 * capacity l * ulp_half.
Proof.
  intros Hl. pose proof Hl as [H0 H1 Hc Hr]. cbv zeta. unfold advance. cbv zeta.
  destruct cap_bound as [C1 C2]. rewrite <- Hc in C1, C2.
  destruct (Qle_bool (Seconds (Sub now (last l))) 0) eqn:E.
  { split_and!; [done|lia|by left|]. rewrite Z.sub_diag. unfold seconds. change (inject_Z 0) with 0. unfold Qdiv.
    rewrite !Qmult_0_l. unfold ulp_half in *. lra. }
  assert (0 < Sub now (last l))%Z as Hd.
  { destruct (Z_le_gt_dec (Sub now (last l)) 0) as [H|]; [|lia]. apply Seconds_nonpos, Qle_bool_iff in H. congruence. }
  assert (last l < now)%Z as Hlt by (unfold Sub in Hd; lia).
  destruct (refill_amount fused l now Hl Hd) as [X0 X1]. unfold refilled. cbv zeta in X0, X1.
  set (x := if fused then _ else _) in *. set (X := seconds (now - last l) * rate perMin * inflation) in *.
  assert (0 <= tokens l + x) as Hs by lra. destruct (rnd_close _ Hs) as [Su Sl]. set (s := rnd (tokens l + x)) in *.
  destruct (Qle_bool s (capacity l)) eqn:Es; cbn [tokens capacity refill last]; (split_and!; [|lia|by right|]).
  - apply Qle_bool_iff in Es. split; cbn [tokens capacity refill last]; try done. unfold ulp_half in *. lra.
  - apply Qle_bool_iff in Es. fold X. unfold ulp_half in *. lra.
  - split; cbn [tokens capacity refill last]; try done; [unfold ulp_half in *; lra|lra].
  - assert (capacity l < s) as Hgt by (apply Qnot_le_lt; intros H%Qle_bool_iff; congruence). fold X. unfold ulp_half in *. lra.
Qed.

Definition bit (b : bool) : Q := if b then 1 else 0.

Lemma allow_step (fused : bool) now l ok l' :
  limiter_ok perMin l -> allow_at fused now l = (ok, l') ->
  limiter_ok perMin l' /\ (last l <= last l')%Z /\ (last l' = last l \/ last l' = now)
  /\ bit ok + tokens l' <= tokens l + seconds (last l' - last l) * rate perMin * inflation + rounding perMin.
Proof.
  intros Hl. unfold allow_at. destruct (advance_ok fused now l Hl) as (Hl1 & Hle & Hlast & Ht).
  set (l1 := advance fused now l) in *. clearbody l1. pose proof Hl1 as [H0 H1 Hc Hr]. destruct cap_bound as [C1 C2].
  rewrite <- Hc in C1, C2. rewrite (lo_cap _ _ Hl), <- Hc in Ht. destruct perMin_range as [P1 P2].
  unfold take_token, rounding, Qdiv. change (/ 2251799813685248) with (1 # 2251799813685248).
  destruct (Qle_bool 1 (tokens l1)) eqn:E; intros [= <- <-]; cbn [last tokens bit].
  - apply Qle_bool_iff in E. assert (0 <= tokens l1 - 1) as Hp by lra. rnd_bounds Hp. split_and!; [|done|done|].
    + split; cbn [tokens capacity refill last]; try done. unfold ulp_half in *. lra.
    + set (X := seconds _ * _ * _) in *. unfold ulp_half in *. lra.
  - split_and!; [done|done|done|]. set (X := seconds _ * _ * _) in *. unfold ulp_half in *. lra.
Qed.
End bound.

(** Calls at the given instants, each fused or not; the number let through. *)
Fixpoint allow_run (calls : list (bool * Z)) (l : rateLimiter) : nat * rateLimiter :=
  match calls with
  | [] => (0%nat, l)
  | (fused, now) :: calls =>
      let '(ok, l) := allow_at fused now l in
      let '(n, l) := allow_run calls l in ((if ok : bool then S n else n), l)
  end.

Lemma new_limiter_ok perMin now l : (perMin <= 2 ^ 52)%Z -> newRateLimiter perMin now = Some l -> (0 < perMin)%Z /\ limiter_ok perMin l /\ last l = now /\ tokens l = float64 perMin.
Proof.
  intros Hmax. unfold newRateLimiter. destruct (Z.leb_spec perMin 0); [done|]. intros [= <-]. split_and!; [done| |done|done].
  split; cbn [tokens capacity refill]; try done; [|lra]. unfold float64. apply rnd_nonneg, inject_nonneg. lia.
Qed.

Lemma inject_S n : inject_Z (Z.of_nat (S n)) == 1 + inject_Z (Z.of_nat n).
Proof. rewrite Nat2Z.inj_succ, <- Z.add_1_l. by rewrite inject_Z_plus. Qed.

Lemma seconds_add a b : seconds (a + b) == seconds a + seconds b.
Proof. unfold seconds, Qdiv. rewrite inject_Z_plus. ring. Qed.

Lemma allow_run_bound perMin calls l n l' :
  (0 < perMin)%Z -> (perMin <= 2 ^ 52)%Z -> limiter_ok perMin l -> allow_run calls l = (n, l') ->
  limiter_ok perMin l' /\ (last l <= last l')%Z
  /\ inject_Z (Z.of_nat n) + tokens l' <= tokens l + seconds (last l' - last l) * rate perMin * inflation
       + inject_Z (Z.of_nat (length calls)) * rounding perMin.
Proof.
  intros Hpos Hmax. revert l n. induction calls as [|[fused now] calls IH]; intros l n Hl; cbn [allow_run].
  { intros [= <- <-]. split_and!; [done|lia|]. rewrite Z.sub_diag. cbn [length]. unfold seconds, Qdiv.
    change (inject_Z (Z.of_nat 0)) with 0. change (inject_Z 0) with 0. rewrite !Qmult_0_l. lra. }
  destruct (allow_at fused now l) as [ok l1] eqn:E1. destruct (allow_run calls l1) as [m l2] eqn:E2.
  intros [= <- <-]. apply (allow_step perMin Hpos Hmax) in E1 as (Hl1 & Hle1 & _ & H1); [|done].
  apply IH in E2 as (Hl2 & Hle2 & H2); [|done]. split_and!; [done|lia|].
  cbn [length]. rewrite inject_S.
  assert (seconds (last l2 - last l) == seconds (last l1 - last l) + seconds (last l2 - last l1)) as ->.
  { rewrite <- seconds_add. replace (last l2 - last l)%Z with (last l1 - last l + (last l2 - last l1))%Z by lia. reflexivity. }
  rewrite !Qmult_plus_distr_l, Qmult_1_l.
  assert (inject_Z (Z.of_nat (if ok then S m else m)) == bit ok + inject_Z (Z.of_nat m)) as ->.
  { destruct ok; cbn [bit]; [apply inject_S|]. by rewrite Qplus_0_l. }
  lra.
Qed.
