(* ===== verification/Router.v ===== *)
(** * The model router: [router/*.go]

    The routing rule, the configuration, the providers with their keys and validated hosts,
    and [handleChat] as a process that asks the limiter, appends a record, calls one upstream
    and answers. Requests interleave at these steps over one limiter and one signed log (that
    of [AuditLog]; [router/audit.go] is the collector's writer with cgroup and pid zero).
    [encoding/json] on requests and replies, [net/url] and the case tables of Unicode are
    arguments; request bodies sent upstream are the typed values that are marshalled. *)
From Stdlib Require Import ZArith QArith Lia Ascii String.
From stdpp Require Import base tactics numbers option strings list gmap.
From S2P Require Import Prelude Endian Maps Bytes Json Control Broker Verify AuditLog NetIP VerifyCmd Proxy RateLimit.
#[local] Open Scope string_scope.
#[local] Open Scope list_scope.
#[local] Open Scope Z_scope.

(** ** Requests *)
Definition RouteLocal : bytes := B "local".
Definition RouteAPI : bytes := B "api".

Record ChatMessage := MkMessage { Role : bytes; Content : bytes }.
Record ChatRequest := MkRequest {
  Model : bytes; Messages : list ChatMessage; MaxTokens : Z; Temperature : option Q; Stream : bool; Route : bytes }.

(** What is sent to an OpenAI-compatible provider: the request without the route. *)
Record openAIUpstreamRequest := MkOpenAI {
  oa_model : bytes; oa_messages : list ChatMessage; oa_maxTokens : Z; oa_temperature : option Q; oa_stream : bool }.

Record anthropicRequest := MkAnthropic {
  an_model : bytes; an_system : bytes; an_messages : list ChatMessage; an_maxTokens : Z; an_temperature : option Q }.

Record anthropicResponse := MkAnthropicResponse {
  ar_id : bytes; ar_model : bytes; ar_content : list (bytes * bytes); ar_stop : bytes; ar_input : Z; ar_output : Z }.

Record ChatResponse := MkResponse {
  cr_id : bytes; cr_created : Z; cr_model : bytes; cr_content : bytes; cr_finish : bytes;
  cr_prompt : Z; cr_completion : Z; cr_total : Z }.

(** ** The routing rule *)
Record Decision := MkDecision { d_route : bytes; d_reason : bytes }.

Definition selectProvider `{Unicode} (model def : bytes) : bytes :=
  let m := NetIP.ToLower (TrimSpaceB model) in
  if HasPrefixB m (B "claude") then B "anthropic"
  else if HasPrefixB m (B "gpt") || HasPrefixB m (B "o1") || HasPrefixB m (B "o3") || HasPrefixB m (B "o4") then B "openai"
  else if HasPrefixB m (B "gemini") then B "gemini"
  else def.

(** [utf8.RuneCountInString]. *)
Definition RuneCount (s : bytes) : Z := Z.of_nat (length (chunks s)).
Definition promptLen (req : ChatRequest) : Z := foldl (fun n m => n + RuneCount (Content m)) 0 (Messages req).

Definition decide_route (req : ChatRequest) (threshold : Z) (def : bytes) : Decision :=
  if bool_decide (Route req = RouteLocal) then MkDecision RouteLocal (B "client downgrade to local")
  else if threshold <=? promptLen req then MkDecision RouteAPI (B "prompt length >= threshold")
  else MkDecision def (B "default (short prompt)").

(** ** Translation *)
Definition defaultMaxTokens : Z := 1024.

Definition capTokens (want limit : Z) : Z :=
  let want := if want <=? 0 then defaultMaxTokens else want in
  if (0 <? limit) && (limit <? want) then limit else want.

Definition chooseModel (client override : bytes) : bytes := if bool_decide (override = []) then client else override.

Definition fold_role (m : ChatMessage) : ChatMessage :=
  MkMessage (if bool_decide (Role m = B "assistant") then B "assistant" else B "user") (Content m).

Fixpoint join_paragraphs (l : list bytes) : bytes :=
  match l with [] => [] | [a] => a | a :: l => a ++ [newline; newline] ++ join_paragraphs l end.

Definition clamp01 (t : Q) : Q :=
  let t := if Qle_bool 0 t then t else 0%Q in if Qle_bool t 1 then t else 1%Q.

Definition toAnthropic (req : ChatRequest) (model : bytes) (maxTokensCap : Z) : anthropicRequest :=
  let system := Content <$> filter (fun m => Role m = B "system") (Messages req) in
  let msgs := fold_role <$> filter (fun m => Role m <> B "system") (Messages req) in
  let maxTok := if MaxTokens req <=? 0 then defaultMaxTokens else MaxTokens req in
  let maxTok := if (0 <? maxTokensCap) && (maxTokensCap <? maxTok) then maxTokensCap else maxTok in
  MkAnthropic model (join_paragraphs system) msgs maxTok (clamp01 <$> Temperature req).

Definition fromAnthropic (ar : anthropicResponse) (now : Z) : ChatResponse :=
  MkResponse (ar_id ar) now (ar_model ar)
    (concat (snd <$> filter (fun b => b.1 = B "text") (ar_content ar)))
    (if bool_decide (ar_stop ar = B "max_tokens") then B "length" else B "stop")
    (ar_input ar) (ar_output ar) (s64 (ar_input ar + ar_output ar)).

(** ** Configuration *)
Record config := MkConfig {
  LlamaURL : bytes; Threshold : Z; DefaultRoute : bytes; PaidRatePerMin : Z; APIProvider : bytes;
  ClaudeModel : bytes; AnthropicBase : bytes; AnthropicVersion : bytes; AnthropicMaxTokens : Z; AllowInsecureBase : bool;
  OpenAIBase : bytes; OpenAIModel : bytes; OpenAIMaxTokens : Z; AllowInsecureOpenAI : bool;
  GeminiBase : bytes; GeminiModel : bytes; GeminiMaxTokens : Z; AllowInsecureGemini : bool }.

(** The environment; a variable that is not set is empty. *)
Definition environ : Type := string -> bytes.

Definition env_or (e : environ) (k : string) (def : bytes) : bytes := if bool_decide (e k = []) then def else e k.
Definition envInt (e : environ) (k : string) (def : Z) : Z :=
  if bool_decide (e k = []) then def else match parse_int (string_of_list_ascii (e k)) with Some n => n | None => def end.

Definition thresholdFloor (n : Z) : Z := if n <? 64 then 64 else n.

(** [strings.TrimRight(s, "/")]. *)
Definition TrimSlashes (s : bytes) : bytes := rev (drop_slashes (rev s)).

Definition configFromEnv (e : environ) : config :=
  let cap := envInt e "BULKHEAD_MAX_TOKENS_CAP" 4096 in
  MkConfig (TrimSlashes (env_or e "BULKHEAD_LLAMA_URL" (B "http://127.0.0.1:8081")))
    (thresholdFloor (envInt e "BULKHEAD_THRESHOLD" 2000)) RouteLocal
    (envInt e "BULKHEAD_ROUTER_PAID_RATE_PER_MIN" 0) (env_or e "BULKHEAD_API_PROVIDER" (B "anthropic"))
    (env_or e "BULKHEAD_CLAUDE_MODEL" (B "claude-sonnet-4-6"))
    (TrimSlashes (env_or e "BULKHEAD_ANTHROPIC_BASE" (B "https://api.anthropic.com")))
    (env_or e "ANTHROPIC_VERSION" (B "2023-06-01")) cap
    (bool_decide (e "BULKHEAD_ALLOW_INSECURE_ANTHROPIC_BASE" = B "1"))
    (TrimSlashes (env_or e "BULKHEAD_OPENAI_BASE" (B "https://api.openai.com"))) (e "BULKHEAD_OPENAI_MODEL")
    (envInt e "BULKHEAD_OPENAI_MAX_TOKENS_CAP" cap) (bool_decide (e "BULKHEAD_ALLOW_INSECURE_OPENAI_BASE" = B "1"))
    (TrimSlashes (env_or e "BULKHEAD_GEMINI_BASE" (B "https://generativelanguage.googleapis.com/v1beta/openai")))
    (e "BULKHEAD_GEMINI_MODEL") (envInt e "BULKHEAD_GEMINI_MAX_TOKENS_CAP" cap)
    (bool_decide (e "BULKHEAD_ALLOW_INSECURE_GEMINI_BASE" = B "1")).

(** [net/url]: the scheme and the host name of a URL that parses. *)
Class URLs := ParseURL : bytes -> option (bytes * bytes).

Inductive base_error := BadURL | NotHTTPS | OtherHost.
Definition validateBase `{URLs} (base allowedHost : bytes) (allowInsecure : bool) : result base_error unit :=
  match ParseURL base with
  | None => Err BadURL
  | Some (scheme, host) =>
      if allowInsecure then Ok tt
      else if negb (bool_decide (scheme = B "https")) then Err NotHTTPS
      else if negb (bool_decide (host = allowedHost)) then Err OtherHost else Ok tt
  end.

(** [loadKeyFile]: the files in the order they are tried, each readable or not. *)
Fixpoint loadKeyFile (files : list (option bytes)) : bytes :=
  match files with
  | [] => []
  | f :: files =>
      match f with
      | Some b => let k := TrimSpaceB b in if bool_decide (k = []) then loadKeyFile files else k
      | None => loadKeyFile files
      end
  end.

(** ** Providers *)
Inductive Backend :=
| OpenAICompat (name base chatPath key model : bytes) (maxTokens : Z)
| AnthropicBackend (key base version model : bytes) (maxTokens : Z).

Definition backend_name (b : Backend) : bytes :=
  match b with OpenAICompat name _ _ _ _ _ => name | AnthropicBackend _ _ _ _ _ => B "anthropic" end.
Definition backend_key (b : Backend) : bytes := match b with OpenAICompat _ _ _ k _ _ | AnthropicBackend k _ _ _ _ => k end.
Definition backend_base (b : Backend) : bytes := match b with OpenAICompat _ b _ _ _ _ | AnthropicBackend _ b _ _ _ => b end.
Definition backend_cap (b : Backend) : Z := match b with OpenAICompat _ _ _ _ _ n | AnthropicBackend _ _ _ _ n => n end.

Record key_files := MkKeys { k_anthropic : list (option bytes); k_openai : list (option bytes); k_gemini : list (option bytes) }.

(** [buildProviders]: an invalid base ends the process. *)
Definition buildProviders `{URLs} (cfg : config) (keys : key_files) : result base_error (list (bytes * Backend)) :=
  match validateBase (AnthropicBase cfg) (B "api.anthropic.com") (AllowInsecureBase cfg) with
  | Err e => Err e
  | Ok _ =>
      match validateBase (OpenAIBase cfg) (B "api.openai.com") (AllowInsecureOpenAI cfg) with
      | Err e => Err e
      | Ok _ =>
          match validateBase (GeminiBase cfg) (B "generativelanguage.googleapis.com") (AllowInsecureGemini cfg) with
          | Err e => Err e
          | Ok _ =>
              Ok [(B "anthropic", AnthropicBackend (loadKeyFile (k_anthropic keys)) (AnthropicBase cfg)
                                    (AnthropicVersion cfg) (ClaudeModel cfg) (AnthropicMaxTokens cfg));
                  (B "openai", OpenAICompat (B "openai") (OpenAIBase cfg) (B "/v1/chat/completions")
                                 (loadKeyFile (k_openai keys)) (OpenAIModel cfg) (OpenAIMaxTokens cfg));
                  (B "gemini", OpenAICompat (B "gemini") (GeminiBase cfg) (B "/chat/completions")
                                 (loadKeyFile (k_gemini keys)) (GeminiModel cfg) (GeminiMaxTokens cfg))]
          end
      end
  end.

Fixpoint lookup_provider (ps : list (bytes * Backend)) (name : bytes) : option Backend :=
  match ps with [] => None | (n, b) :: ps => if bool_decide (n = name) then Some b else lookup_provider ps name end.

(** ** The handler *)

(** What is sent upstream. *)
Inductive payload := RawBody (b : bytes) | OpenAIBody (r : openAIUpstreamRequest) | AnthropicBody (r : anthropicRequest).
Record upstream_call := MkCall { u_url : bytes; u_headers : list (bytes * bytes); u_body : payload }.

(** How a call turns out; redirects are not followed. *)
Inductive upstream_reply := NotBuilt | Unreachable | Replied (status : Z) (contentType body : bytes).

Inductive answer := ErrorAnswer (msg : bytes) | ChatAnswer (r : ChatResponse) | RawAnswer (contentType body : bytes).
Record response := MkReply { rp_status : Z; rp_route : bytes; rp_provider : bytes; rp_answer : answer }.

Inductive rproc :=
| Finish (r : response)
| Limit (k : bool -> rproc)
| Record_ (ev : provEvent) (k : bool -> rproc)
| Call (paid : bool) (c : upstream_call) (k : Z -> upstream_reply -> rproc)
| Finished.

(** [io.LimitReader]: what is read of a stream through it. *)
Definition LimitReader (n : Z) (b : bytes) : bytes := if len b <=? n then b else take (Z.to_nat n) b.

Definition maxRequestBytes : Z := 8 * 2 ^ 20.
Definition maxResponseBytes : Z := 32 * 2 ^ 20.

(** Reading the body: everything, or the error of the stream. *)
Inductive read_body := BodyRead (b : bytes) | BodyFailed.

Definition maxAuditModelLen : nat := 200.
Definition bounded_model (model : bytes) : bytes :=
  if (maxAuditModelLen <? length model)%nat then take (rune_cut maxAuditModelLen model) model ++ B "...(truncated)" else model.

Definition route_mode (reason model : bytes) (n : Z) (provider : bytes) : bytes :=
  B "reason=" ++ reason ++ B " model=" ++ bounded_model model ++ B " promptlen=" ++ B (Itoa n)
  ++ (if bool_decide (provider = []) then [] else B " provider=" ++ provider).

Definition route_event (route reason model : bytes) (n : Z) (provider : bytes) : provEvent :=
  ProvEvent 0 0 (B "router") (B "route") route (route_mode reason model n provider).

Section handler.
  Context `{Unicode}.
  Context (UnmarshalChat : bytes -> option ChatRequest) (UnmarshalAnthropic : bytes -> option anthropicResponse).

Record server := MkServer { s_cfg : config; s_providers : list (bytes * Backend); s_default : bytes }.

Definition newServer (cfg : config) (ps : list (bytes * Backend)) : server :=
  MkServer cfg ps (if bool_decide (APIProvider cfg = []) then B "anthropic" else APIProvider cfg).

Definition writeError (status : Z) (route provider : bytes) (msg : string) : rproc :=
  Finish (MkReply status route provider (ErrorAnswer (B msg))).

Definition limited (b : bytes) : bytes := LimitReader maxResponseBytes b.

Definition proxy_openai (name base chatPath key model : bytes) (maxTokens : Z) (req : ChatRequest) : rproc :=
  let err status msg := Finish (MkReply status RouteAPI name (ErrorAnswer msg)) in
  if bool_decide (key = []) then err 503 (name ++ B " API key not configured")
  else
    let out := MkOpenAI (chooseModel (Model req) model) (Messages req) (capTokens (MaxTokens req) maxTokens) (Temperature req) false in
    Call true (MkCall (base ++ chatPath)
                 [(B "content-type", B "application/json"); (B "Authorization", B "Bearer " ++ key)] (OpenAIBody out))
      (fun _ r =>
         match r with
         | NotBuilt => err 500 (B "internal error")
         | Unreachable => err 502 (B "upstream API unavailable")
         | Replied status _ body =>
             if negb (status =? 200) then err status (B "upstream API error")
             else Finish (MkReply 200 RouteAPI name (RawAnswer (B "application/json") (limited body)))
         end).

Definition proxy_anthropic (key base version model : bytes) (maxTokens : Z) (req : ChatRequest) : rproc :=
  let err status msg := Finish (MkReply status RouteAPI (B "anthropic") (ErrorAnswer (B msg))) in
  if bool_decide (key = []) then err 503 "Anthropic API key not configured"
  else
    let ar := toAnthropic req model maxTokens in
    match an_messages ar with
    | [] => err 400 "no user or assistant messages"
    | _ =>
        Call true (MkCall (base ++ B "/v1/messages")
                     [(B "content-type", B "application/json"); (B "x-api-key", key); (B "anthropic-version", version)]
                     (AnthropicBody ar))
          (fun now r =>
             match r with
             | NotBuilt => err 500 "internal error"
             | Unreachable => err 502 "upstream API unavailable"
             | Replied status _ body =>
                 if negb (status =? 200) then err status "upstream API error"
                 else match UnmarshalAnthropic (limited body) with
                      | None => err 502 "invalid upstream response"
                      | Some a => Finish (MkReply 200 RouteAPI (B "anthropic") (ChatAnswer (fromAnthropic a now)))
                      end
             end)
    end.

(** [Backend.Proxy]. *)
Definition proxy (b : Backend) (req : ChatRequest) : rproc :=
  match b with
  | OpenAICompat name base chatPath key model cap => proxy_openai name base chatPath key model cap req
  | AnthropicBackend key base version model cap => proxy_anthropic key base version model cap req
  end.

Definition proxyLocal (s : server) (route : bytes) (body : bytes) : rproc :=
  Call false (MkCall (LlamaURL (s_cfg s) ++ B "/v1/chat/completions") [(B "Content-Type", B "application/json")] (RawBody body))
    (fun _ r =>
       match r with
       | NotBuilt => writeError 500 route [] "internal error"
       | Unreachable => writeError 502 route [] "local inference backend unavailable"
       | Replied status ct b => Finish (MkReply status route [] (RawAnswer ct (limited b)))
       end).

(** After the record: the upstream. *)
Definition dispatch (s : server) (d : Decision) (provider : bytes) (req : ChatRequest) (body : bytes) : rproc :=
  if bool_decide (d_route d = RouteAPI) then
    match lookup_provider (s_providers s) provider with
    | None => writeError 503 (d_route d) [] "api provider unavailable"
    | Some b => proxy b req
    end
  else proxyLocal s (d_route d) body.

Definition recorded (s : server) (d : Decision) (req : ChatRequest) (body : bytes) : rproc :=
  let provider := if bool_decide (d_route d = RouteAPI) then selectProvider (Model req) (s_default s) else [] in
  Record_ (route_event (d_route d) (d_reason d) (Model req) (promptLen req) provider)
    (fun ok => if ok then dispatch s d provider req body else writeError 500 (d_route d) [] "internal error").

Definition handleChat (s : server) (rb : read_body) : rproc :=
  match rb with
  | BodyFailed => writeError 400 [] [] "could not read request body"
  | BodyRead body =>
      if maxRequestBytes <? len body then writeError 413 [] [] "request body too large"
      else match UnmarshalChat body with
      | None => writeError 400 [] [] "invalid JSON request body"
      | Some req =>
          match Messages req with
          | [] => writeError 400 [] [] "messages must not be empty"
          | _ =>
              if Stream req then writeError 400 [] [] "streaming responses are not supported"
              else
                let d := decide_route req (Threshold (s_cfg s)) (DefaultRoute (s_cfg s)) in
                if bool_decide (d_route d = RouteAPI)
                then Limit (fun ok => if ok then recorded s d req body
                                      else writeError 429 (d_route d) [] "paid-call rate limit exceeded")
                else recorded s d req body
          end
      end
  end.

(** ** The running router *)
Inductive robs := OLimit (now : Z) (ok : bool) | ORecord (ev : provEvent) (ok : bool) | OCall (paid : bool) (c : upstream_call)
                | OEnd (r : response).

Record rsys := RSys {
  y_limiter : option rateLimiter; r_log : log_state; r_hist : list log_event; r_reqs : list (rproc * option upstream_call);
  r_trace : list (nat * robs) }.

(** What can happen: the process starts (at an instant); a request arrives; a request makes
    its next step, with the instant, the outcome of its file operations and the reply of its
    upstream; power is lost. *)
Inductive rlabel :=
| RStart (now : Z) (repair_ok : bool)
| RAccept (rb : read_body)
| RStep (i : nat) (fused : bool) (now : Z) (x : io) (reply : upstream_reply)
| RCrash (x : io) (ev : provEvent) (mid : bool) (k : nat).

  Context (s : server) (UnmarshalRecord : bytes -> option auditRecord) (base : string) (rotateBytes : Z) (segKeep : nat)
    (sign : bytes -> bytes).

Definition router_domain : bytes := B "router".
Definition rlog_do (y : rsys) (e : log_event) : log_state :=
  log_step UnmarshalRecord base router_domain rotateBytes segKeep sign (r_log y) e.

(** A call is two steps: the request goes out, then the reply comes back. *)
Definition rexec (y : rsys) (l : rlabel) : rsys :=
  match l, r_log y with
  | RStart now r, (None, _) =>
      RSys (newRateLimiter (PaidRatePerMin (s_cfg s)) now) (rlog_do y (Boot r)) (r_hist y ++ [Boot r]) (r_reqs y) (r_trace y)
  | RAccept rb, (Some _, _) =>
      RSys (y_limiter y) (r_log y) (r_hist y) (r_reqs y ++ [(handleChat s rb, None)]) (r_trace y)
  | RStep i fused now x reply, (Some a, fs) =>
      match r_reqs y !! i with
      | Some (Call paid c k, None) =>
          RSys (y_limiter y) (r_log y) (r_hist y) (<[i := (Call paid c k, Some c)]> (r_reqs y)) (r_trace y ++ [(i, OCall paid c)])
      | Some (Call paid c k, Some _) =>
          RSys (y_limiter y) (r_log y) (r_hist y) (<[i := (k (now / 1000000000) reply, None)]> (r_reqs y)) (r_trace y)
      | Some (Limit k, _) =>
          let '(ok, l) := allow fused now (y_limiter y) in
          RSys l (r_log y) (r_hist y) (<[i := (k ok, None)]> (r_reqs y)) (r_trace y ++ [(i, OLimit now ok)])
      | Some (Record_ ev k, _) =>
          let ok := (append base router_domain rotateBytes segKeep sign x ev a fs).1.1 in
          RSys (y_limiter y) (rlog_do y (Append x ev)) (r_hist y ++ [Append x ev]) (<[i := (k ok, None)]> (r_reqs y))
            (r_trace y ++ [(i, ORecord ev ok)])
      | Some (Finish r, _) =>
          RSys (y_limiter y) (r_log y) (r_hist y) (<[i := (Finished, None)]> (r_reqs y)) (r_trace y ++ [(i, OEnd r)])
      | _ => y
      end
  | RCrash x ev mid k, (Some _, _) =>
      RSys None (rlog_do y (PowerLoss x ev mid k)) (r_hist y ++ [PowerLoss x ev mid k])
        ((fun _ => (Finished, None)) <$> r_reqs y) (r_trace y)
  | _, _ => y
  end.

Definition router_run (fs : dir) (ls : list rlabel) : rsys := foldl rexec (RSys None (None, fs) [] [] []) ls.
End handler.
