(* ===== verification/RouterProps.v ===== *)
(** * What the router guarantees

    Over every interleaving of requests, with failing appends, calls and losses of power: a
    paid call is for a long prompt that the client did not keep local, it took a token of the
    limiter and its decision was recorded; each request makes at most one call; keys go to
    their own hosts; and the volume of paid calls is bounded. *)
From Stdlib Require Import ZArith QArith Lia Lqa Ascii String.
From stdpp Require Import base tactics numbers option strings list gmap sorting.
From S2P Require Import Prelude Endian Maps Bytes Json Control Broker Verify AuditLog NetIP VerifyCmd Proxy Float64 RateLimit Router.
#[local] Open Scope string_scope.
#[local] Open Scope list_scope.
#[local] Open Scope Z_scope.

(** ** Paths of a request *)

(** Observations of a request and where it stands; the flag says that its call is out. *)
Inductive rpath : rproc -> list robs -> rproc * option upstream_call -> Prop :=
| rp_nil pr : rpath pr [] (pr, None)
| rp_limit pr t k f now ok : rpath pr t (Limit k, f) -> rpath pr (t ++ [OLimit now ok]) (k ok, None)
| rp_record pr t ev k f ok : rpath pr t (Record_ ev k, f) -> rpath pr (t ++ [ORecord ev ok]) (k ok, None)
| rp_call pr t p c k : rpath pr t (Call p c k, None) -> rpath pr (t ++ [OCall p c]) (Call p c k, Some c)
| rp_reply pr t p c k c' now r : rpath pr t (Call p c k, Some c') -> rpath pr t (k now r, None)
| rp_end pr t r f : rpath pr t (Finish r, f) -> rpath pr (t ++ [OEnd r]) (Finished, None)
| rp_cut pr t x : rpath pr t x -> rpath pr t (Finished, None).

Definition took (t : list robs) : bool := existsb (fun o => match o with OLimit _ true => true | _ => false end) t.
Definition acked_events (t : list robs) : list provEvent := omap (fun o => match o with ORecord ev true => Some ev | _ => None end) t.
Definition calls_made (t : list robs) : list upstream_call := omap (fun o => match o with OCall _ c => Some c | _ => None end) t.

(** A process that only answers. *)
Definition ended (pr : rproc) : Prop := match pr with Finish _ | Finished => True | _ => False end.

(** A call is justified by the token and the records that came before, and is the only one. *)
Fixpoint rsafe (P : bool -> list provEvent -> bool -> upstream_call -> Prop) (tok : bool) (seen : list provEvent) (pr : rproc) : Prop :=
  match pr with
  | Finish _ | Finished => True
  | Limit k => rsafe P true seen (k true) /\ rsafe P tok seen (k false)
  | Record_ ev k => rsafe P tok (seen ++ [ev]) (k true) /\ rsafe P tok seen (k false)
  | Call paid c k => P tok seen paid c /\ forall now r, ended (k now r)
  end.

Lemma took_snoc t o : took (t ++ [o]) = took t || took [o].
Proof. unfold took. by rewrite existsb_app. Qed.

Lemma acked_snoc t o : acked_events (t ++ [o]) = acked_events t ++ acked_events [o].
Proof. apply omap_app. Qed.

Lemma calls_snoc t o : calls_made (t ++ [o]) = calls_made t ++ calls_made [o].
Proof. apply omap_app. Qed.

Lemma split_snoc {A} (t t1 t2 : list A) o x :
  t ++ [o] = t1 ++ x :: t2 -> (t2 = [] /\ t = t1 /\ o = x) \/ exists t2', t2 = t2' ++ [o] /\ t = t1 ++ x :: t2'.
Proof.
  destruct t2 as [|y t2 _] using rev_ind; intros E.
  - apply app_inj_tail in E as [-> ->]. by left.
  - rewrite app_comm_cons, app_assoc in E. apply app_inj_tail in E as [-> ->]. right. by exists t2.
Qed.

Lemma rpath_safe P pr t x :
  rpath pr t x -> rsafe P false [] pr ->
  (match calls_made t with
   | [] => rsafe P (took t) (acked_events t) x.1 /\ x.2 = None
   | _ => ended x.1 \/ exists p c k c', x = (Call p c k, Some c') /\ forall now r, ended (k now r)
   end)
  /\ (forall t1 p c t2, t = t1 ++ OCall p c :: t2 -> P (took t1) (acked_events t1) p c /\ calls_made t1 = []).
Proof.
  intros Hp Hs. induction Hp as [pr|pr t k f now ok Hp IH|pr t ev k f ok Hp IH|pr t p c k Hp IH|pr t p c k c' now r Hp IH|pr t r f Hp IH|pr t x Hp IH].
  - split; [done|]. by intros [|] ? ? ?.
  - destruct (IH Hs) as [Hst Hpre]. split.
    + rewrite calls_snoc, took_snoc, acked_snoc. cbn [calls_made omap list_omap app]. rewrite !app_nil_r.
      destruct (calls_made t); [|destruct Hst as [?|(? & ? & ? & ? & ? & _)]; [done|congruence]].
      destruct Hst as [[Ht Hf] _]. cbn [fst]. destruct ok; cbn; [by rewrite orb_true_r|by rewrite orb_false_r].
    + intros t1 p c t2 E. apply split_snoc in E as [(_ & _ & ?)|(t2' & _ & E)]; [done|by eapply Hpre].
  - destruct (IH Hs) as [Hst Hpre]. split.
    + rewrite calls_snoc, took_snoc, acked_snoc. cbn [calls_made omap list_omap app]. rewrite !app_nil_r.
      destruct (calls_made t); [|destruct Hst as [?|(? & ? & ? & ? & ? & _)]; [done|congruence]].
      destruct Hst as [[Ht Hf] _]. cbn [fst]. destruct ok; cbn; rewrite orb_false_r, ?app_nil_r; done.
    + intros t1 p c t2 E. apply split_snoc in E as [(_ & _ & ?)|(t2' & _ & E)]; [done|by eapply Hpre].
  - destruct (IH Hs) as [Hst Hpre].
    assert (calls_made t = [] /\ P (took t) (acked_events t) p c /\ forall now r, ended (k now r)) as (Hn & HP & Hk).
    { destruct (calls_made t); [destruct Hst as [[? ?] _]; done|]. destruct Hst as [?|(? & ? & ? & ? & ? & _)]; [done|congruence]. }
    split.
    + rewrite calls_snoc, Hn. cbn. right. by eauto 10.
    + intros t1 p' c' t2 E. apply split_snoc in E as [(_ & <- & [= <- <-])|(t2' & _ & E)]; [done|by eapply Hpre].
  - destruct (IH Hs) as [Hst Hpre]. split; [|done]. cbn [fst snd] in *.
    destruct (calls_made t); [by destruct Hst as [_ ?]|]. left.
    destruct Hst as [?|(? & ? & ? & ? & [= <- <- <- <-] & Hk)]; [done|apply Hk].
  - destruct (IH Hs) as [Hst Hpre]. split.
    + rewrite calls_snoc. cbn [calls_made omap list_omap app]. rewrite app_nil_r. destruct (calls_made t); [done|by left].
    + intros t1 p c t2 E. apply split_snoc in E as [(_ & _ & ?)|(t2' & _ & E)]; [done|by eapply Hpre].
  - destruct (IH Hs) as [Hst Hpre]. split; [|done]. destruct (calls_made t); [done|by left].
Qed.

(** ** What a call needs *)
Definition max_tokens (p : payload) : option Z :=
  match p with RawBody _ => None | OpenAIBody r => Some (oa_maxTokens r) | AnthropicBody r => Some (an_maxTokens r) end.

Definition backend_path (b : Backend) : bytes :=
  match b with OpenAICompat _ _ path _ _ _ => path | AnthropicBackend _ _ _ _ _ => B "/v1/messages" end.

(** The headers that carry the key of a provider. *)
Definition key_headers (b : Backend) : list (bytes * bytes) :=
  match b with
  | OpenAICompat _ _ _ k _ _ => [(B "Authorization", B "Bearer " ++ k)]
  | AnthropicBackend k _ version _ _ => [(B "x-api-key", k); (B "anthropic-version", version)]
  end.

(** A call of one provider: its URL, its key and no other, and a capped number of tokens. *)
Definition call_of (b : Backend) (c : upstream_call) : Prop :=
  backend_key b <> [] /\ u_url c = backend_base b ++ backend_path b
  /\ u_headers c = (B "content-type", B "application/json") :: key_headers b
  /\ exists n, max_tokens (u_body c) = Some n /\ 1 <= n /\ (0 < backend_cap b -> n <= backend_cap b).

Lemma capTokens_range want limit : 1 <= capTokens want limit /\ (0 < limit -> capTokens want limit <= limit).
Proof.
  unfold capTokens, defaultMaxTokens. cbv zeta. destruct (Z.leb_spec want 0), (Z.ltb_spec 0 limit); cbn [andb];
    repeat match goal with |- context [?a <? ?b] => destruct (Z.ltb_spec a b) end; lia.
Qed.

Lemma toAnthropic_tokens req model cap : an_maxTokens (toAnthropic req model cap) = capTokens (MaxTokens req) cap.
Proof. reflexivity. Qed.

Section gate.
  Context `{Unicode} (UnmarshalChat : bytes -> option ChatRequest) (UnmarshalAnthropic : bytes -> option anthropicResponse).
  Context (s : server).
  Abbreviation handleChat := (handleChat UnmarshalChat UnmarshalAnthropic s).

(** The record of a decision for the paid tier, and of any other. *)
Definition paid_record (req : ChatRequest) : provEvent :=
  route_event RouteAPI (B "prompt length >= threshold") (Model req) (promptLen req) (selectProvider (Model req) (s_default s)).

(** The request that a body carries. *)
Definition requested (rb : read_body) (req : ChatRequest) : Prop := exists body, rb = BodyRead body /\ UnmarshalChat body = Some req.

Definition justified (rb : read_body) (tok : bool) (seen : list provEvent) (paid : bool) (c : upstream_call) : Prop :=
  if paid then
    tok = true
    /\ exists req b, requested rb req /\ Route req <> RouteLocal /\ Threshold (s_cfg s) <= promptLen req /\ paid_record req ∈ seen
       /\ lookup_provider (s_providers s) (selectProvider (Model req) (s_default s)) = Some b /\ call_of b c
  else
    (exists body, c = MkCall (LlamaURL (s_cfg s) ++ B "/v1/chat/completions") [(B "Content-Type", B "application/json")] (RawBody body))
    /\ exists req d, route_event (d_route d) (d_reason d) (Model req) (promptLen req) [] ∈ seen /\ d_route d <> RouteAPI.

Lemma proxy_safe rb b req tok seen :
  (forall c, call_of b c -> justified rb tok seen true c) -> rsafe (justified rb) tok seen (proxy UnmarshalAnthropic b req).
Proof.
  intros Hj. destruct b as [name base path key model cap|key base version model cap]; cbn [proxy].
  - unfold proxy_openai. cbv zeta. case_bool_decide as Hk; [done|]. cbn [rsafe]. split.
    + apply Hj. split_and!; [done|done|done|]. eexists. split; [reflexivity|]. apply capTokens_range.
    + intros now [| |status ct body]; [done|done|]. by destruct (status =? 200).
  - unfold proxy_anthropic. cbv zeta. case_bool_decide as Hk; [done|].
    destruct (an_messages _) as [|m ms] eqn:Em; [done|]. cbn [rsafe]. split.
    + apply Hj. split_and!; [done|done|done|]. eexists. split; [reflexivity|]. rewrite toAnthropic_tokens. apply capTokens_range.
    + intros now [| |status ct body]; [done|done|]. destruct (status =? 200); [|done]. cbn [negb].
      by destruct (UnmarshalAnthropic _).
Qed.

Lemma local_not_api : RouteLocal <> RouteAPI.
Proof. discriminate. Qed.

Lemma handleChat_safe rb : DefaultRoute (s_cfg s) <> RouteAPI -> rsafe (justified rb) false [] (handleChat rb).
Proof.
  intros Hdef. pose proof local_not_api as Hla. unfold Router.handleChat. destruct rb as [body|]; [|done]. destruct (maxRequestBytes <? len body); [done|].
  destruct (UnmarshalChat body) as [req|] eqn:Eq; [|done]. destruct (Messages req) as [|m ms] eqn:Em; [done|].
  destruct (Stream req); [done|]. cbv zeta. unfold decide_route. destruct (bool_decide_reflect (Route req = RouteLocal)) as [Hl|Hl].
  - cbn [d_route]. rewrite bool_decide_false by done. unfold recorded. cbn [d_route]. cbv zeta. rewrite bool_decide_false by done. cbn [rsafe app].
    split; [|done]. unfold dispatch. cbn [d_route]. rewrite bool_decide_false by done. cbn [rsafe justified]. split.
    + split; [by eexists|]. exists req, (MkDecision RouteLocal (B "client downgrade to local")). split; [by left|done].
    + intros now [| |]; done.
  - destruct (Z.leb_spec (Threshold (s_cfg s)) (promptLen req)) as [Ht|Ht].
    + cbn [d_route]. rewrite bool_decide_true by done. cbn [rsafe]. split; [|done]. unfold recorded. cbn [d_route]. cbv zeta. rewrite bool_decide_true by done.
      cbn [rsafe app]. split; [|done]. unfold dispatch. cbn [d_route]. rewrite bool_decide_true by done.
      destruct (lookup_provider _ _) as [b|] eqn:Eb; [|done]. apply proxy_safe. intros c Hc. split; [done|].
      exists req, b. split_and!; try done; [by exists body|by left].
    + cbn [d_route]. rewrite bool_decide_false by done. unfold recorded. cbn [d_route]. cbv zeta. rewrite bool_decide_false by done. cbn [rsafe app].
      split; [|done]. unfold dispatch. cbn [d_route]. rewrite bool_decide_false by done. cbn [rsafe justified]. split.
      * split; [by eexists|]. exists req, (MkDecision (DefaultRoute (s_cfg s)) (B "default (short prompt)")). split; [by left|done].
      * intros now [| |]; done.
Qed.
End gate.

(** ** The running router *)
Definition of_req (i : nat) (t : list (nat * robs)) : list robs :=
  omap (fun io => if decide (io.1 = i) then Some io.2 else None) t.

Lemma of_req_app i t t' : of_req i (t ++ t') = of_req i t ++ of_req i t'.
Proof. apply omap_app. Qed.

Lemma of_req_one i j o : of_req i [(j, o)] = if decide (j = i) then [o] else [].
Proof. unfold of_req. cbn. by destruct (decide (j = i)). Qed.

Section running.
  Context `{Unicode} (UnmarshalChat : bytes -> option ChatRequest) (UnmarshalAnthropic : bytes -> option anthropicResponse).
  Context (s : server) (UnmarshalRecord : bytes -> option auditRecord) (base : string) (rotateBytes : Z) (segKeep : nat)
    (sign : bytes -> bytes).
  Abbreviation handleChat := (handleChat UnmarshalChat UnmarshalAnthropic s).
  Abbreviation rexec := (rexec UnmarshalChat UnmarshalAnthropic s UnmarshalRecord base rotateBytes segKeep sign).
  Abbreviation router_run := (router_run UnmarshalChat UnmarshalAnthropic s UnmarshalRecord base rotateBytes segKeep sign).

(** The bodies the running process accepted, in order: request [i] carries the [i]-th. *)
Definition accepts (y : rsys) (l : rlabel) : list read_body :=
  match l, r_log y with RAccept rb, (Some _, _) => [rb] | _, _ => [] end.
Fixpoint bodies_from (y : rsys) (ls : list rlabel) : list read_body :=
  match ls with [] => [] | l :: ls => accepts y l ++ bodies_from (rexec y l) ls end.
Definition bodies (fs : dir) (ls : list rlabel) : list read_body := bodies_from (RSys None (None, fs) [] [] []) ls.

(** Every request is on the path of its handler on its own body, and only requests are observed. *)
Definition on_paths (bs : list read_body) (y : rsys) : Prop :=
  (forall i x, r_reqs y !! i = Some x -> exists rb, bs !! i = Some rb /\ rpath (handleChat rb) (of_req i (r_trace y)) x)
  /\ (forall i o, (i, o) ∈ r_trace y -> (i < length (r_reqs y))%nat) /\ length bs = length (r_reqs y).

Lemma of_req_fresh bs y i : on_paths bs y -> (length (r_reqs y) <= i)%nat -> of_req i (r_trace y) = [].
Proof.
  intros (_ & Hi & _) Hle. unfold of_req. apply elem_of_nil_inv. intros o ([j o'] & Hj & E)%list_elem_of_omap. cbn [fst snd] in E.
  case_decide; [|done]. subst. apply Hi in Hj. lia.
Qed.

(** One request moves, observed or not. *)
Lemma on_paths_move bs y i x x' obs lim lg hist :
  on_paths bs y -> r_reqs y !! i = Some x -> (forall pr t, rpath pr t x -> rpath pr (t ++ obs) x') ->
  on_paths bs (RSys lim lg hist (<[i := x']> (r_reqs y)) (r_trace y ++ ((fun o => (i, o)) <$> obs))).
Proof.
  intros (Hp & Hi & Hlen) Hx Hstep. pose proof (lookup_lt_Some _ _ _ Hx) as Hlt. split_and!; cbn [r_reqs r_trace]; [| |by rewrite length_insert].
  - intros j z Hz. rewrite of_req_app. assert (of_req j ((fun o => (i, o)) <$> obs) = if decide (i = j) then obs else []) as ->.
    { clear. unfold of_req. induction obs as [|o obs IH]; cbn; [by destruct (decide (i = j))|]. cbn in IH.
      destruct (decide (i = j)); [by rewrite IH|done]. }
    destruct (decide (i = j)) as [<-|Hne].
    + rewrite list_lookup_insert_eq in Hz by done. injection Hz as <-. destruct (Hp i x Hx) as (rb & Hb & Hrb). exists rb. split; [done|]. by apply Hstep.
    + rewrite list_lookup_insert_ne in Hz by done. rewrite app_nil_r. by apply Hp.
  - intros j o. rewrite length_insert. intros [Hj|Hj]%elem_of_app; [by eapply Hi|].
    apply list_elem_of_fmap in Hj as (o' & [= -> _] & _). done.
Qed.

Lemma rexec_paths bs y l : on_paths bs y -> on_paths (bs ++ accepts y l) (rexec y l).
Proof.
  intros Hy. pose proof Hy as (Hp & Hi & Hlen). unfold accepts. destruct l as [now r|rb|i fused now x reply|x ev mid k]; cbn [Router.rexec].
  - rewrite app_nil_r. by destruct (r_log y) as [[a|] fs].
  - destruct (r_log y) as [[a|] fs]; [|by rewrite app_nil_r].
    split_and!; cbn [r_reqs r_trace]; [| |by rewrite !length_app, Hlen].
    + intros i z Hz. apply lookup_app_Some in Hz as [Hz|[Hle Hz]].
      { destruct (Hp i z Hz) as (rb' & Hb & Hrb). exists rb'. split; [by apply lookup_app_l_Some|done]. }
      apply list_lookup_singleton_Some in Hz as [Hz <-]. rewrite (of_req_fresh bs y i Hy Hle). exists rb. split; [|constructor].
      rewrite lookup_app_r by lia. by replace (i - length bs)%nat with 0%nat by lia.
    + intros i o Ho. rewrite length_app. apply Hi in Ho. lia.
  - rewrite app_nil_r. destruct (r_log y) as [[a|] fs]; [|done]. destruct (r_reqs y !! i) as [[[r|kk|ev kk|paid c kk|] fl]|] eqn:Ex; try done.
    + refine (on_paths_move bs y i _ _ [OEnd r] _ _ _ Hy Ex _). intros pr t Hpt. by eapply rp_end.
    + destruct (allow fused now (y_limiter y)) as [ok l]. refine (on_paths_move bs y i _ _ [OLimit now ok] _ _ _ Hy Ex _).
      intros pr t Hpt. by eapply rp_limit.
    + cbv zeta. match goal with |- context [ORecord ev ?b] => refine (on_paths_move bs y i _ _ [ORecord ev b] _ _ _ Hy Ex _) end.
      intros pr t Hpt. by eapply rp_record.
    + destruct fl as [c'|].
      * rewrite <- (app_nil_r (r_trace y)). refine (on_paths_move bs y i _ _ [] _ _ _ Hy Ex _).
        intros pr t Hpt. rewrite app_nil_r. by eapply rp_reply.
      * refine (on_paths_move bs y i _ _ [OCall paid c] _ _ _ Hy Ex _). intros pr t Hpt. by eapply rp_call.
  - rewrite app_nil_r. destruct (r_log y) as [[a|] fs]; [|done]. split_and!; cbn [r_reqs r_trace]; [| |by rewrite length_fmap].
    + intros i z Hz. rewrite list_lookup_fmap in Hz. destruct (r_reqs y !! i) as [x0|] eqn:Ex; [|done]. injection Hz as <-.
      destruct (Hp i x0 Ex) as (rb & Hb & Hrb). exists rb. split; [done|]. by eapply rp_cut.
    + intros i o Ho. rewrite length_fmap. by eapply Hi.
Qed.

Lemma router_run_paths fs ls : on_paths (bodies fs ls) (router_run fs ls).
Proof.
  unfold Router.router_run, bodies. assert (on_paths [] (RSys None (None, fs) [] [] [])) as Hy.
  { split_and!; cbn; [by intros i x|by intros i o ?%not_elem_of_nil|done]. }
  change (bodies_from (RSys None (None, fs) [] [] []) ls) with ([] ++ bodies_from (RSys None (None, fs) [] [] []) ls).
  revert Hy. generalize (RSys None (None, fs) [] [] []), (@nil read_body).
  induction ls as [|l ls IH]; intros y bs Hy; cbn [foldl bodies_from]; [by rewrite app_nil_r|].
  rewrite app_assoc. apply IH. by apply rexec_paths.
Qed.

(** A call in the trace, seen from its own request. *)
Lemma call_justified fs ls t1 i p c t2 :
  DefaultRoute (s_cfg s) <> RouteAPI -> r_trace (router_run fs ls) = t1 ++ (i, OCall p c) :: t2 ->
  exists rb, bodies fs ls !! i = Some rb
    /\ justified UnmarshalChat s rb (took (of_req i t1)) (acked_events (of_req i t1)) p c /\ calls_made (of_req i t1) = [].
Proof.
  intros Hdef E. destruct (router_run_paths fs ls) as (Hp & Hi & _).
  assert (i < length (r_reqs (router_run fs ls)))%nat as Hlt.
  { eapply (Hi i (OCall p c)). rewrite E. apply elem_of_app. right. by left. }
  destruct (lookup_lt_is_Some_2 _ _ Hlt) as [x Hx]. destruct (Hp i x Hx) as (rb & Hb & Hrb). rewrite E in Hrb.
  change ((i, OCall p c) :: t2) with ([(i, OCall p c)] ++ t2) in Hrb. rewrite !of_req_app, of_req_one, decide_True in Hrb by done.
  exists rb. split; [done|].
  apply (rpath_safe (justified UnmarshalChat s rb)) in Hrb as [_ Hcalls]; [|by apply handleChat_safe]. by eapply Hcalls.
Qed.

Lemma of_req_elem i o t : o ∈ of_req i t <-> (i, o) ∈ t.
Proof.
  unfold of_req. rewrite list_elem_of_omap. split.
  - intros ([j o'] & Hj & E). cbn [fst snd] in E. case_decide; [|done]. by simplify_eq.
  - intros Hio. exists (i, o). split; [done|]. cbn. by rewrite decide_True.
Qed.

Lemma took_elem i t : took (of_req i t) = true -> exists now, (i, OLimit now true) ∈ t.
Proof.
  unfold took. intros (o & Ho & Eo)%existsb_exists. apply list_elem_of_In, of_req_elem in Ho.
  destruct o as [now []| | |]; try done. by exists now.
Qed.

Lemma acked_elem i t ev : ev ∈ acked_events (of_req i t) -> (i, ORecord ev true) ∈ t.
Proof.
  unfold acked_events. intros (o & Ho & Eo)%list_elem_of_omap. apply of_req_elem in Ho.
  destruct o as [|ev' []| |]; try done. by injection Eo as ->.
Qed.


(** *** Volume *)
Definition paid_ids (t : list (nat * robs)) : list nat := omap (fun io => match io.2 with OCall true _ => Some io.1 | _ => None end) t.
Definition token_ids (t : list (nat * robs)) : list nat := omap (fun io => match io.2 with OLimit _ true => Some io.1 | _ => None end) t.
Definition limit_steps (t : list (nat * robs)) : nat := length (omap (fun io => match io.2 with OLimit _ b => Some b | _ => None end) t).

(** One token at least per paid call. *)
Lemma paid_le_tokens fs ls : DefaultRoute (s_cfg s) <> RouteAPI ->
  (length (paid_ids (r_trace (router_run fs ls))) <= length (token_ids (r_trace (router_run fs ls))))%nat.
Proof.
  intros Hdef. pose proof (fun t1 i p c t2 => call_justified fs ls t1 i p c t2 Hdef) as Hc.
  apply submseteq_length, NoDup_submseteq.
  - revert Hc. generalize (r_trace (router_run fs ls)). intros t. induction t as [|[i o] t IH] using rev_ind; intros Hc; [constructor|].
    unfold paid_ids. rewrite omap_app. apply NoDup_app. split_and!.
    + apply IH. intros t1 j p c t2 ->. apply (Hc t1 j p c (t2 ++ [(i, o)])). by rewrite <- app_assoc.
    + intros j Hj Hj'. destruct o as [|[]|[] c|]; cbn in Hj'; try by apply not_elem_of_nil in Hj'.
      apply list_elem_of_singleton in Hj' as ->. apply list_elem_of_omap in Hj as ([k o'] & Ho' & Ek). cbn [snd fst] in Ek.
      destruct o' as [| |[] c'|]; try done. injection Ek as ->.
      destruct (Hc t i true c []) as (_ & _ & _ & Hn); [done|]. apply (not_elem_of_nil (A := upstream_call) c'). rewrite <- Hn.
      unfold calls_made. apply list_elem_of_omap. exists (OCall true c'). split; [by apply of_req_elem|done].
    + destruct o as [|[]|[] c|]; cbn; repeat constructor. apply not_elem_of_nil.
  - intros i Hi. apply list_elem_of_omap in Hi as ([j o] & Ho & E). cbn [snd fst] in E. destruct o as [| |[] c|]; try done. injection E as ->.
    apply list_elem_of_split in Ho as (t1 & t2 & E). destruct (Hc t1 i true c t2 E) as (_ & _ & (Htok & _) & _).
    apply took_elem in Htok as [now Hnow]. apply list_elem_of_omap. exists (i, OLimit now true). split; [|done].
    rewrite E. apply elem_of_app. by left.
Qed.

(** The instants of the labels do not run backwards, from [t0] to [t1]. *)
Fixpoint ordered (t0 t1 : Z) (ls : list rlabel) : Prop :=
  match ls with
  | [] => t0 <= t1
  | RStart now _ :: ls | RStep _ _ now _ _ :: ls => t0 <= now /\ ordered now t1 ls
  | _ :: ls => ordered t0 t1 ls
  end.

Definition is_start (l : rlabel) : nat := match l with RStart _ _ => 1 | _ => 0 end.
Definition starts (ls : list rlabel) : nat := foldr (fun l n => (is_start l + n)%nat) 0%nat ls.

(** What [k] processes may have let through by the instant [t], in [n] questions. *)
Definition budget (t0 : Z) (k : nat) (t : Z) (n : nat) : Q :=
  inject_Z (Z.of_nat k) * float64 (PaidRatePerMin (s_cfg s))
  + seconds (t - t0) * rate (PaidRatePerMin (s_cfg s)) * inflation
  + inject_Z (Z.of_nat n) * rounding (PaidRatePerMin (s_cfg s)).

Definition granted_tokens (y : rsys) : Q := inject_Z (Z.of_nat (length (token_ids (r_trace y)))).

Definition within (t0 clk : Z) (k : nat) (y : rsys) : Prop :=
  match y_limiter y with
  | Some l => limiter_ok (PaidRatePerMin (s_cfg s)) l /\ t0 <= last l <= clk
              /\ (granted_tokens y + tokens l <= budget t0 k (last l) (limit_steps (r_trace y)))%Q
  | None => (r_log y).1 = None /\ (granted_tokens y <= budget t0 k clk (limit_steps (r_trace y)))%Q
  end.

Section volume.
  Context (Hpos : 0 < PaidRatePerMin (s_cfg s)) (Hmax : PaidRatePerMin (s_cfg s) <= 2 ^ 52).

Lemma seconds_mono a b : a <= b -> (seconds a <= seconds b)%Q.
Proof. intros Hab. unfold seconds, Qdiv. apply Qmult_le_compat_r; [|done]. unfold Qle, inject_Z. cbn. lia. Qed.

Lemma budget_later t0 k t t' n : t <= t' -> (budget t0 k t n <= budget t0 k t' n)%Q.
Proof.
  intros Ht. unfold budget.
  assert (seconds (t - t0) * rate (PaidRatePerMin (s_cfg s)) * inflation
    <= seconds (t' - t0) * rate (PaidRatePerMin (s_cfg s)) * inflation)%Q; [|lra].
  apply Qmult_le_compat_r; [|done]. apply Qmult_le_compat_r; [apply seconds_mono; lia|].
  destruct (perMin_range _ Hpos Hmax) as [? _]. unfold rate, Qdiv. change (/ 60)%Q with (1 # 60)%Q. lra.
Qed.

Lemma budget_start t0 k t n : (budget t0 (S k) t n == budget t0 k t n + float64 (PaidRatePerMin (s_cfg s)))%Q.
Proof. unfold budget. rewrite inject_S. ring. Qed.

Lemma cap_nonneg : (0 <= float64 (PaidRatePerMin (s_cfg s)))%Q.
Proof. destruct (cap_bound _ Hpos Hmax) as [Hc _]. unfold ulp_half in Hc. lra. Qed.

(** At any instant from now on, whether the process runs or not. *)
Lemma within_weak t0 clk k y t : within t0 clk k y -> clk <= t -> (granted_tokens y <= budget t0 k t (limit_steps (r_trace y)))%Q.
Proof.
  intros Hw Ht. unfold within in Hw. destruct (y_limiter y) as [l|].
  - destruct Hw as (Hl & [_ Hlast] & Hb). pose proof (lo_low _ _ Hl).
    pose proof (budget_later t0 k (last l) t (limit_steps (r_trace y)) ltac:(lia)). lra.
  - destruct Hw as [_ Hb]. pose proof (budget_later t0 k clk t (limit_steps (r_trace y)) Ht). lra.
Qed.

Lemma within_later t0 clk clk' k y : within t0 clk k y -> clk <= clk' -> within t0 clk' k y.
Proof.
  intros Hw Ht. pose proof (within_weak _ _ _ _ clk' Hw Ht). unfold within in *. destruct (y_limiter y) as [l|]; [|by destruct Hw].
  destruct Hw as (Hl & Hlast & Hb). split_and!; try done; lia.
Qed.

Lemma within_start t0 clk k y : within t0 clk k y -> within t0 clk (S k) y.
Proof.
  pose proof cap_nonneg. unfold within. destruct (y_limiter y) as [l|].
  - intros (Hl & Hlast & Hb). split_and!; try done; try lia. rewrite budget_start. lra.
  - intros [Hl Hb]. split; [done|]. rewrite budget_start. lra.
Qed.

(** A step that does not ask the limiter. *)
Lemma within_quiet t0 clk k y lg hist reqs t :
  within t0 clk k y -> is_Some (r_log y).1 -> token_ids t = [] -> limit_steps t = 0%nat ->
  within t0 clk k (RSys (y_limiter y) lg hist reqs (r_trace y ++ t)).
Proof.
  intros Hw [a Ha] Ht Hn. unfold within, granted_tokens in *. cbn [y_limiter r_trace r_log].
  destruct (y_limiter y) as [l|]; [|by rewrite Ha in Hw; destruct Hw].
  unfold token_ids, limit_steps in *. rewrite !omap_app, !length_app, Ht, Hn. cbn [length]. by rewrite !Nat.add_0_r.
Qed.

Definition label_time (clk : Z) (l : rlabel) : Z := match l with RStart now _ | RStep _ _ now _ _ => now | _ => clk end.

Lemma within_step t0 clk k y l :
  t0 <= clk -> clk <= label_time clk l -> within t0 clk k y -> within t0 (label_time clk l) (is_start l + k) (rexec y l).
Proof.
  intros H0 Hclk Hw. destruct l as [now r|rb|i fused now x reply|x ev mid kk]; cbn [label_time is_start Router.rexec] in *.
  - destruct (r_log y) as [[a|] fs] eqn:El; [by apply within_start, (within_later _ clk)|].
    pose proof (within_weak _ _ _ _ now Hw Hclk) as Hb. unfold within. cbn [y_limiter r_trace].
    unfold newRateLimiter. rewrite (proj2 (Z.leb_gt (PaidRatePerMin (s_cfg s)) 0)) by done. cbn [last tokens].
    split_and!; [|lia|lia|].
    + destruct (new_limiter_ok (PaidRatePerMin (s_cfg s)) now (Limiter (float64 (PaidRatePerMin (s_cfg s)))
        (float64 (PaidRatePerMin (s_cfg s))) (rnd (float64 (PaidRatePerMin (s_cfg s)) / 60)) now)) as (_ & Hok & _); [done| |done].
      unfold newRateLimiter. by rewrite (proj2 (Z.leb_gt (PaidRatePerMin (s_cfg s)) 0)).
    + unfold granted_tokens in *. cbn [r_trace]. rewrite budget_start. lra.
  - destruct (r_log y) as [[a|] fs] eqn:El; [|done]. rewrite <- (app_nil_r (r_trace y)).
    apply (within_quiet t0 clk k y); [done| |done|done]. rewrite El. by eexists.
  - apply (within_later _ _ now) in Hw; [|done]. destruct (r_log y) as [[a|] fs] eqn:El; [|done].
    assert (is_Some (r_log y).1) as Hrun by (rewrite El; by eexists).
    destruct (r_reqs y !! i) as [[[r|kk|ev kk|paid c kk|] fl]|] eqn:Ex; try done.
    + by apply (within_quiet t0 now k y).
    + destruct (allow fused now (y_limiter y)) as [ok l'] eqn:Ea. unfold within in Hw.
      destruct (y_limiter y) as [l|] eqn:Elim; [|destruct Hw as [Hn _]; by rewrite El in Hn].
      destruct Hw as (Hl & Hlast & Hb). cbn [allow] in Ea. destruct (allow_at fused now l) as [ok' l1] eqn:Eat.
      injection Ea as <- <-. apply (allow_step _ Hpos Hmax) in Eat as (Hl1 & Hle & Hnow & Hstep); [|done].
      unfold within. cbn [y_limiter r_trace]. split_and!; [done|lia|lia|].
      unfold granted_tokens, token_ids, limit_steps in *. cbn [r_trace]. rewrite !omap_app, !length_app. cbn [omap list_omap length fst snd].
      assert (inject_Z (Z.of_nat (length (token_ids (r_trace y)) + length (token_ids [(i, OLimit now ok')])))
        == granted_tokens y + bit ok')%Q as Hg.
      { unfold granted_tokens. rewrite Nat2Z.inj_add, inject_Z_plus. destruct ok'; reflexivity. }
      unfold token_ids in Hg at 1 2. cbn [omap list_omap] in Hg. unfold granted_tokens in Hg.
      assert (budget t0 k (last l1) (length (omap (fun io : nat * robs => match io.2 with OLimit _ b => Some b | _ => None end) (r_trace y)) + 1)
        == budget t0 k (last l) (limit_steps (r_trace y)) + seconds (last l1 - last l) * rate (PaidRatePerMin (s_cfg s)) * inflation
           + rounding (PaidRatePerMin (s_cfg s)))%Q as Hbud.
      { unfold budget, limit_steps. rewrite Nat2Z.inj_add, inject_Z_plus.
        replace (last l1 - t0) with ((last l - t0) + (last l1 - last l)) by lia. rewrite seconds_add.
        change (inject_Z (Z.of_nat 1)) with 1%Q. ring. }
      unfold limit_steps in Hbud. rewrite Hbud. destruct ok'; cbn [bit length] in *; rewrite Hg; unfold token_ids in *; lra.
    + by apply (within_quiet t0 now k y).
    + destruct fl; [rewrite <- (app_nil_r (r_trace y))|]; by apply (within_quiet t0 now k y).
  - destruct (r_log y) as [[a|] fs] eqn:El; [|done]. pose proof (within_weak _ _ _ _ clk Hw ltac:(lia)) as Hb.
    unfold within. cbn [y_limiter r_log r_trace]. split; [|exact Hb]. unfold rlog_do. by rewrite El.
Qed.

Lemma ordered_cons t0 t1 l ls : ordered t0 t1 (l :: ls) -> t0 <= label_time t0 l /\ ordered (label_time t0 l) t1 ls.
Proof. destruct l; cbn; intros Ho; split; try lia; by apply Ho. Qed.

Lemma within_run t0 clk t1 k y ls :
  t0 <= clk -> ordered clk t1 ls -> within t0 clk k y -> exists clk', clk <= clk' <= t1 /\ within t0 clk' (starts ls + k) (foldl rexec y ls).
Proof.
  revert clk k y. induction ls as [|l ls IH]; intros clk k y H0 Ho Hw; [by exists clk|].
  apply ordered_cons in Ho as [Hl Ho]. apply (within_step _ _ _ _ l H0 Hl) in Hw.
  apply IH in Hw as (clk' & Hc & Hw); [|lia|done].
  exists clk'. split; [lia|]. cbn [foldl starts foldr]. replace (is_start l + _ + k)%nat with (starts ls + (is_start l + k))%nat by (unfold starts; lia).
  exact Hw.
Qed.

Lemma within_init t0 fs : within t0 t0 0 (RSys None (None, fs) [] [] []).
Proof. unfold within, budget, granted_tokens. cbn [y_limiter r_log r_trace fst]. rewrite Z.sub_diag. split; [done|].
  change (seconds 0) with (0 / 1000000000)%Q. unfold limit_steps, token_ids. cbn [omap list_omap length].
  change (inject_Z (Z.of_nat 0)) with 0%Q. unfold Qdiv. rewrite !Qmult_0_l. done. Qed.

(** C21: The number of paid calls is bounded. Over any run of the router whose clock does not
    go backwards, from [t0] to [t1], with any number of restarts and any number of requests,
    the paid calls are at most one burst of the configured rate for every start of the
    process, plus the rate times the elapsed time, up to the rounding of float64: a factor of
    1 + 2^-49 on the refill and a 2^-51 of the rate per question to the limiter. *)
Theorem paid_volume_bounded t0 t1 fs ls :
  DefaultRoute (s_cfg s) <> RouteAPI -> ordered t0 t1 ls ->
  let t := r_trace (router_run fs ls) in
  (inject_Z (Z.of_nat (length (paid_ids t))) <= budget t0 (starts ls) t1 (limit_steps t))%Q.
Proof.
  intros Hdef Ho t. pose proof (paid_le_tokens fs ls Hdef) as Hle.
  destruct (within_run t0 t0 t1 0 _ ls (Z.le_refl _) Ho (within_init t0 fs)) as (clk & Hclk & Hw). rewrite Nat.add_0_r in Hw.
  pose proof (within_weak _ _ _ _ t1 Hw ltac:(lia)) as Hb. unfold granted_tokens in Hb.
  apply Nat2Z.inj_le in Hle. rewrite Zle_Qle in Hle. eapply Qle_trans; [exact Hle|exact Hb].
Qed.
End volume.
End running.

(** ** Keys *)

(** [net/url]: a plain path appended to a URL with a host changes neither scheme nor host. *)
Definition path_char (c : ascii) : bool := existsb (Ascii.eqb c) (B "abcdefghijklmnopqrstuvwxyz0123456789/").
Definition plain_path (p : bytes) : bool := HasPrefixB p (B "/") && forallb path_char p.

Class URLLaws `{URLs} : Prop :=
  parse_append base path scheme host :
    ParseURL base = Some (scheme, host) -> host <> [] -> plain_path path = true -> ParseURL (base ++ path) = Some (scheme, host).

(** The keys that a call carries. *)
Definition carried_keys (c : upstream_call) : list bytes :=
  omap (fun h => if bool_decide (h.1 = B "x-api-key") then Some h.2
                 else if bool_decide (h.1 = B "Authorization") then CutPrefix (B "Bearer ") h.2 else None) (u_headers c).

(** Each provider's host with the key that is read for it. *)
Definition provider_hosts (keys : key_files) : list (bytes * bytes) :=
  [(B "api.anthropic.com", loadKeyFile (k_anthropic keys)); (B "api.openai.com", loadKeyFile (k_openai keys));
   (B "generativelanguage.googleapis.com", loadKeyFile (k_gemini keys))].

Section keys.
  Context `{Unicode} `{URLLaws} (UnmarshalChat : bytes -> option ChatRequest) (UnmarshalAnthropic : bytes -> option anthropicResponse).
  Context (UnmarshalRecord : bytes -> option auditRecord) (base : string) (rotateBytes : Z) (segKeep : nat) (sign : bytes -> bytes).

Lemma validateBase_pins b host : validateBase b host false = Ok tt -> ParseURL b = Some (B "https", host).
Proof.
  unfold validateBase. destruct (ParseURL b) as [[sch h]|]; [|done].
  destruct (bool_decide_reflect (sch = B "https")) as [->|]; [|done].
  destruct (bool_decide_reflect (h = host)) as [->|]; [|done]. done.
Qed.

(** Every provider that is built has a pinned base. *)
Lemma buildProviders_pins cfg ks ps name b :
  buildProviders cfg ks = Ok ps -> AllowInsecureBase cfg = false -> AllowInsecureOpenAI cfg = false -> AllowInsecureGemini cfg = false ->
  lookup_provider ps name = Some b ->
  exists host, (host, backend_key b) ∈ provider_hosts ks /\ host <> [] /\ ParseURL (backend_base b) = Some (B "https", host)
    /\ plain_path (backend_path b) = true.
Proof.
  unfold buildProviders. intros Hb Ha Ho Hg Hl. rewrite Ha, Ho, Hg in Hb.
  destruct (validateBase (AnthropicBase cfg) _ _) as [[]|] eqn:Ea; [|done].
  destruct (validateBase (OpenAIBase cfg) _ _) as [[]|] eqn:Eo; [|done].
  destruct (validateBase (GeminiBase cfg) _ _) as [[]|] eqn:Eg; [|done]. injection Hb as <-.
  apply validateBase_pins in Ea, Eo, Eg. cbn [lookup_provider] in Hl.
  repeat (destruct (bool_decide _); [injection Hl as <-|]); [| | |done]; eexists; (split; [|split; [|split]]);
    cbn [backend_base backend_key backend_path]; try eassumption; try reflexivity; try discriminate; set_solver.
Qed.

(** C20: Keys stay with their hosts. A router configured from the environment, without the
    opt-outs for tests, that got past the validation of its providers sends every paid call
    over https to the pinned host of one provider with exactly that provider's key, and no
    key at all to the local backend, under every interleaving and failure. *)
Theorem keys_stay_with_their_host (e : environ) ks ps fs ls i paid c :
  let cfg := configFromEnv e in
  let y := router_run UnmarshalChat UnmarshalAnthropic (newServer cfg ps) UnmarshalRecord base rotateBytes segKeep sign fs ls in
  e "BULKHEAD_ALLOW_INSECURE_ANTHROPIC_BASE" <> B "1" -> e "BULKHEAD_ALLOW_INSECURE_OPENAI_BASE" <> B "1" ->
  e "BULKHEAD_ALLOW_INSECURE_GEMINI_BASE" <> B "1" -> buildProviders cfg ks = Ok ps -> (i, OCall paid c) ∈ r_trace y ->
  if paid then exists host key, (host, key) ∈ provider_hosts ks /\ key <> [] /\ carried_keys c = [key]
                 /\ ParseURL (u_url c) = Some (B "https", host)
  else carried_keys c = [] /\ u_url c = LlamaURL cfg ++ B "/v1/chat/completions".
Proof.
  intros cfg y Ha Ho Hg Hb (t1 & t2 & E)%list_elem_of_split.
  apply call_justified in E as (rb0 & _ & Hj & _); [|discriminate]. destruct paid; cbn [justified] in Hj.
  - destruct Hj as (_ & req & b & _ & _ & _ & _ & Hl & Hk & Hu & Hh & _).
    destruct (buildProviders_pins _ _ _ _ _ Hb (bool_decide_false _ Ha) (bool_decide_false _ Ho) (bool_decide_false _ Hg) Hl)
      as (host & Hin & Hne & Hp & Hpath).
    exists host, (backend_key b). split_and!; [done|done| |rewrite Hu; by apply parse_append].
    unfold carried_keys. rewrite Hh. destruct b; reflexivity.
  - destruct Hj as [[body ->] _]. done.
Qed.
End keys.
