(* ===== verification/RouterChain.v ===== *)
(** * Paid calls on the chain

    The router over the writer of [AuditLog]: with faults that the writer tolerates, no paid
    call is hidden from the signed chain, across losses of power. *)
From Stdlib Require Import ZArith QArith Lia Ascii String.
From stdpp Require Import base tactics numbers option strings list gmap.
From S2P Require Import Prelude Endian Maps Bytes Sha256 Json Control Broker Verify AuditLog AuditFiles AuditProps AuditWriter ChainProps.
From S2P Require Import LogClients NetIP Proxy ProxyProps RateLimit Router RouterProps.
#[local] Open Scope string_scope.
#[local] Open Scope list_scope.
#[local] Open Scope Z_scope.

(** ** Records are small *)
Fixpoint revents_ok (pr : rproc) : Prop :=
  match pr with
  | Finish _ | Finished => True
  | Limit k => forall b, revents_ok (k b)
  | Record_ ev k => event_ok ev /\ forall b, revents_ok (k b)
  | Call _ _ k => forall now r, revents_ok (k now r)
  end.

Lemma ended_ok pr : ended pr -> revents_ok pr.
Proof. by destruct pr. Qed.

Lemma len_bounded_model m : len (bounded_model m) <= 214.
Proof.
  unfold bounded_model, maxAuditModelLen. destruct (Nat.ltb_spec 200 (length m)) as [Hl|Hl]; [|unfold len; lia].
  unfold len. rewrite length_app, length_take. pose proof (rune_cut_le 200 m). cbn [B length list_ascii_of_string]. lia.
Qed.

Lemma route_event_ok route reason model n provider :
  len route <= 10 -> len reason <= 100 -> len provider <= 2 ^ 16 -> event_ok (route_event route reason model n provider).
Proof.
  intros Hr Hre Hp. split_and!; [done..|]. cbn [e_comm e_hook e_decision e_mode route_event]. unfold route_mode.
  rewrite !len_app. pose proof (len_num n) as Hn. unfold num in Hn. pose proof (len_bounded_model model).
  change (len (B "router")) with 6. change (len (B "route")) with 5. change (len (B "reason=")) with 7.
  change (len (B " model=")) with 7. change (len (B " promptlen=")) with 11.
  case_bool_decide; [change (len []) with 0; lia|]. rewrite len_app. change (len (B " provider=")) with 10. lia.
Qed.

Section chain.
  Context `{Unicode} (UnmarshalChat : bytes -> option ChatRequest) (UnmarshalAnthropic : bytes -> option anthropicResponse).
  Context (s : server) (UnmarshalRecord : bytes -> option auditRecord) {HJ : JsonReader UnmarshalRecord}.
  Context (base : string) (rotateBytes : Z) (segKeep : nat) (sign : bytes -> bytes).
  Context (Hdef : DefaultRoute (s_cfg s) = RouteLocal) (Hname : len (s_default s) <= 2 ^ 16).
  Abbreviation handleChat := (handleChat UnmarshalChat UnmarshalAnthropic s).
  Abbreviation rexec := (rexec UnmarshalChat UnmarshalAnthropic s UnmarshalRecord base rotateBytes segKeep sign).
  Abbreviation router_run := (router_run UnmarshalChat UnmarshalAnthropic s UnmarshalRecord base rotateBytes segKeep sign).
  Abbreviation records fs := (chain_records UnmarshalRecord (segment_files base fs) (open_file fs base)).
  Abbreviation keeps := (keeps_history UnmarshalRecord base router_domain rotateBytes segKeep sign).

Lemma dispatch_ok d provider req body : revents_ok (dispatch UnmarshalAnthropic s d provider req body).
Proof.
  unfold dispatch, proxyLocal, proxy, proxy_openai, proxy_anthropic. cbv zeta. repeat (case_match; try done);
    cbn [revents_ok]; intros now r; repeat (case_match; try done).
Qed.

Lemma selectProvider_len model : len (selectProvider model (s_default s)) <= 2 ^ 16.
Proof. unfold selectProvider. repeat case_match; try done; by vm_compute. Qed.

Lemma recorded_ok d req body : len (d_route d) <= 10 -> len (d_reason d) <= 100 -> revents_ok (recorded UnmarshalAnthropic s d req body).
Proof.
  intros Hr Hre. unfold recorded. cbv zeta. split.
  - apply route_event_ok; [done|done|]. case_bool_decide; [apply selectProvider_len|by vm_compute].
  - intros []; [apply dispatch_ok|done].
Qed.

Lemma handleChat_ok rb : revents_ok (handleChat rb).
Proof.
  unfold Router.handleChat. destruct rb as [body|]; [|done]. destruct (maxRequestBytes <? len body); [done|].
  destruct (UnmarshalChat body) as [req|]; [|done]. destruct (Messages req); [done|]. destruct (Stream req); [done|]. cbv zeta.
  assert (revents_ok (recorded UnmarshalAnthropic s (decide_route req (Threshold (s_cfg s)) (DefaultRoute (s_cfg s))) req body)) as Hrec.
  { apply recorded_ok; rewrite Hdef; unfold decide_route; repeat case_match; by vm_compute. }
  case_bool_decide; [|done]. by intros [].
Qed.

(** Faults within the design: those the writer of the log tolerates. *)
Definition tame_rlabel (l : rlabel) : Prop :=
  match l with
  | RStart _ r => r = true
  | RAccept _ => True
  | RStep _ _ _ x _ => tame_io x
  | RCrash x ev _ _ => tame_io x /\ event_ok ev
  end.

Record router_inv (fs : dir) (n : nat) (y : rsys) : Prop := {
  ri_history : keeps fs n (r_log y) (r_hist y) (fun ev => exists i, (i, ORecord ev true) ∈ r_trace y);
  ri_events : Forall (fun x => revents_ok x.1) (r_reqs y) }.

Lemma router_inv_mono fs n y : router_inv fs n y -> router_inv fs (S n) y.
Proof. intros [Hh He]. split; [|done]. revert Hh. apply history_weaken; [lia|done]. Qed.

(** A step that does not append. *)
Lemma router_inv_quiet fs n y i lim x o t :
  router_inv fs n y -> revents_ok x -> t = [] \/ t = [(i, o)] /\ (forall ev, o <> ORecord ev true) ->
  router_inv fs (S n) (RSys lim (r_log y) (r_hist y) (<[i := (x, None)]> (r_reqs y)) (r_trace y ++ t)).
Proof.
  intros [Hh He] Hx Ht. split; cbn [r_log r_hist r_reqs r_trace]; [|by apply Forall_insert].
  revert Hh. apply history_weaken; [lia|]. intros ev (j & [Hj|Hj]%elem_of_app); [by exists j|].
  destruct Ht as [->|[-> Ho]]; [by apply not_elem_of_nil in Hj|]. apply list_elem_of_singleton in Hj as [= <- <-]. by edestruct Ho.
Qed.

Lemma rexec_inv fs n y l : tame_rlabel l -> router_inv fs n y -> router_inv fs (S n) (rexec y l).
Proof.
  intros Hl Hinv. pose proof Hinv as [Hh He].
  destruct l as [now r|rb|i fused now x reply|x ev mid k]; cbn [Router.rexec]; destruct (r_log y) as [[a|] fs0] eqn:Hlog;
    try by apply router_inv_mono.
  - split; cbn [r_log r_hist r_reqs r_trace]; [rewrite <- Hlog in Hh; by apply history_event|done].
  - apply router_inv_mono. split; cbn [r_log r_hist r_reqs r_trace]; [done|]. apply Forall_app. split; [done|].
    repeat constructor. apply handleChat_ok.
  - destruct (r_reqs y !! i) as [[pr fl]|] eqn:Hi; [|by apply router_inv_mono].
    pose proof (proj1 (Forall_lookup _ _) He i _ Hi) as Hk. cbn [fst] in Hk. rewrite <- Hlog.
    destruct pr as [r|k|ev k|paid c k|]; cbn [revents_ok] in Hk; try by apply router_inv_mono.
    + eapply router_inv_quiet; [done|done|right; done].
    + destruct (allow fused now (y_limiter y)) as [ok lim]. eapply router_inv_quiet; [done|apply Hk|right; done].
    + destruct Hk as [Hev Hk]. split; cbn [r_log r_hist r_reqs r_trace]; [|apply Forall_insert; [done|apply Hk]].
      rewrite <- Hlog in Hh. apply (history_append _ _ _ _ _ _ fs n _ _ _ x ev a fs0 Hl Hev Hlog) in Hh.
      revert Hh. apply history_weaken; [done|]. intros ev' (j & [Hj|Hj]%elem_of_app); [left; by exists j|right].
      apply list_elem_of_singleton in Hj as [= -> -> Hok]. done.
    + destruct fl as [c'|].
      * rewrite <- (app_nil_r (r_trace y)). eapply (router_inv_quiet _ _ _ _ _ _ (OCall paid c)); [done|apply Hk|by left].
      * apply router_inv_mono. split; cbn [r_log r_hist r_reqs r_trace]; [|by apply Forall_insert]. rewrite Hlog.
        revert Hh. apply history_weaken; [done|]. intros ev (j & [Hj|Hj]%elem_of_app); [by exists j|]. by apply list_elem_of_singleton in Hj.
  - split; cbn [r_log r_hist r_reqs r_trace]; [rewrite <- Hlog in Hh; by apply history_event|]. apply Forall_fmap. by apply Forall_true.
Qed.

Lemma router_run_inv fs ls : Forall tame_rlabel ls -> router_inv fs (length ls) (router_run fs ls).
Proof.
  intros Hls. unfold Router.router_run. assert (router_inv fs 0 (RSys None (None, fs) [] [] [])) as H0.
  { split; [|constructor]. apply (history_weaken _ _ _ _ _ _ fs 0 0 _ _ (fun _ => False)); [done| |apply history_init].
    intros ? [? []%elem_of_nil]. }
  change (length ls) with (0 + length ls)%nat. revert H0. generalize (RSys None (None, fs) [] [] []) 0%nat.
  induction Hls as [|l ls Hl _ IH]; intros y n Hy; cbn [foldl length]; [by rewrite Nat.add_0_r|].
  rewrite Nat.add_succ_r, <- Nat.add_succ_l. apply IH. by apply rexec_inv.
Qed.

(** C19: No paid call is hidden. With faults that the writer of the log tolerates, starting from
    an empty directory: if the router runs, every paid call it ever made, before or after
    losses of power, has a "route" "api" record, naming the provider that was called, among
    what was pruned and what the directory retains, and these records form one signed hash
    chain from zero. *)
Theorem paid_calls_stay_on_the_chain fs ls i c a fs' :
  (1 <= segKeep)%nat -> (forall m, len (sign m) = 64) -> fresh base fs ->
  Forall tame_rlabel ls -> Z.of_nat (length ls) + 3 < 2 ^ 64 ->
  r_log (router_run fs ls) = (Some a, fs') -> (i, OCall true c) ∈ r_trace (router_run fs ls) ->
  exists pruned r req b,
    r ∈ pruned ++ records fs' /\ chained router_domain sign zeroHash 0 (pruned ++ records fs')
    /\ Hook r = B "route" /\ Decision_ r = B "api" /\ Json.Mode r = ToValidUTF8 (e_mode (paid_record s req))
    /\ lookup_provider (s_providers s) (selectProvider (Model req) (s_default s)) = Some b /\ call_of b c.
Proof.
  intros Hk Hsl Hf Hls Hb Hlog (t1 & t2 & Et)%list_elem_of_split.
  destruct (router_run_inv fs ls Hls) as [Hh _].
  destruct (call_justified UnmarshalChat UnmarshalAnthropic s UnmarshalRecord base rotateBytes segKeep sign fs ls t1 i true c t2)
    as (_ & _ & (_ & req & b & _ & _ & _ & Hrec%acked_elem & Hb' & Hc) & _); [by rewrite Hdef|done|].
  destruct (told_is_on_chain UnmarshalRecord base router_domain rotateBytes segKeep sign fs _ _ _ _ a fs' (paid_record s req)
    Hk Hsl Hf Hb Hh Hlog) as (pruned & r & Hin & Hch & now & a0 & ->).
  { exists i. rewrite Et. apply elem_of_app. by left. }
  eexists pruned, _, req, b. split_and!; [exact Hin|exact Hch| | |reflexivity|done|done].
  - change (ToValidUTF8 (B "route") = B "route"). vm_compute. reflexivity.
  - change (ToValidUTF8 (B "api") = B "api"). vm_compute. reflexivity.
Qed.
End chain.
