(* ===== verification/RouterExamples.v ===== *)
(** * The router, evaluated

    A router configured from the environment with one key, serving a long and a short prompt
    at once: the witnesses of the theorems, and where the configuration is not what it says. *)
From Stdlib Require Import ZArith QArith Lia Ascii String.
From stdpp Require Import base tactics numbers option strings list gmap sorting.
From S2P Require Import Prelude Endian Maps Bytes Json Control Broker Verify AuditLog NetIP VerifyCmd Proxy AuditFiles ChainProps ProxyProps.
From S2P Require Import AuditProps AuditWriter LogClients Float64 RateLimit Router RouterProps RouterChain.
#[local] Open Scope string_scope.
#[local] Open Scope list_scope.
#[local] Open Scope Z_scope.

(** ** A configured router *)

(** URLs of the form https://host/path. *)
Fixpoint host_part (s : bytes) : bytes :=
  match s with [] => [] | c :: s => if Ascii.eqb c "/" then [] else c :: host_part s end.
#[local] Instance https_urls : URLs := fun s => (fun rest => (B "https", host_part rest)) <$> CutPrefix (B "https://") s.

Lemma host_part_app s p : HasPrefixB p (B "/") = true -> host_part (s ++ p) = host_part s.
Proof.
  intros Hp. induction s as [|c s IH]; cbn [app host_part].
  - apply bool_decide_eq_true in Hp as [p' ->]. reflexivity.
  - destruct (Ascii.eqb c "/"); [done|]. by rewrite IH.
Qed.

Lemma cut_append p s rest q : CutPrefix p s = Some rest -> CutPrefix p (s ++ q) = Some (rest ++ q).
Proof.
  revert s. induction p as [|a p IH]; intros [|b s]; cbn; intros E; try done; [injection E as <-; done..|].
  destruct (Ascii.eqb a b); [by apply IH|done].
Qed.

#[local] Instance https_laws : URLLaws.
Proof.
  intros base path scheme host E _ [Hp _]%andb_true_iff. unfold ParseURL, https_urls in *.
  destruct (CutPrefix _ base) as [rest|] eqn:Ec; [|done]. injection E as <- <-.
  rewrite (cut_append _ _ _ path Ec). cbn [fmap option_fmap option_map]. by rewrite host_part_app.
Qed.

Definition env_file (l : list (string * string)) : environ :=
  fun k => default [] (B <$> (snd <$> (snd <$> list_find (fun p => p.1 = k) l))).

Definition a_env : environ := env_file [("BULKHEAD_ROUTER_PAID_RATE_PER_MIN", "3"); ("BULKHEAD_THRESHOLD", "0")].
Definition a_keys : key_files := MkKeys [None; Some (B "sk-ant" ++ [newline])] [Some (B "sk-oai")] [].
Definition a_providers : list (bytes * Backend) :=
  Eval vm_compute in match buildProviders (configFromEnv a_env) a_keys with Ok ps => ps | Err _ => [] end.
Abbreviation a_router := (newServer (configFromEnv a_env) a_providers).

(** Requests whose body is the prompt. *)
Definition toy_chat (body : bytes) : option ChatRequest := Some (MkRequest (B "claude") [MkMessage (B "user") body] 0 None false []).
Definition toy_reply (body : bytes) : option anthropicResponse := None.
Definition long_prompt : bytes := replicate 70 "a"%char.

Definition a_step (i : nat) (now : Z) : rlabel := RStep i false now good_io (Replied 200 (B "application/json") (B "{}")).
Definition a_session : list rlabel :=
  [RStart 0 true; RAccept (BodyRead long_prompt); RAccept (BodyRead (B "hi"));
   a_step 0 0; a_step 1 0; a_step 0 0; a_step 1 0; a_step 0 1; a_step 0 1000000000; a_step 1 1000000000; a_step 0 2000000000; a_step 1 2000000000].

Abbreviation a_served :=
  (router_run (H := ascii_only) toy_chat toy_reply a_router UnmarshalStrict a_log 0 1 toy_sign ∅ a_session).
Definition session_trace : list (nat * robs) := Eval vm_compute in r_trace a_served.

Definition kind_of (o : robs) : string :=
  match o with OLimit _ _ => "limit" | ORecord _ _ => "record" | OCall true _ => "paid" | OCall false _ => "local" | OEnd _ => "end" end.

Example a_session_runs :
  (fun io => (io.1, kind_of io.2)) <$> session_trace
  = [(0%nat, "limit"); (1%nat, "record"); (0%nat, "record"); (1%nat, "local"); (0%nat, "paid"); (0%nat, "end"); (1%nat, "end")].
Proof. vm_compute. reflexivity. Qed.

Definition the_paid_call : upstream_call :=
  MkCall (B "https://api.anthropic.com/v1/messages")
    [(B "content-type", B "application/json"); (B "x-api-key", B "sk-ant"); (B "anthropic-version", B "2023-06-01")]
    (AnthropicBody (MkAnthropic (B "claude-sonnet-4-6") [] [MkMessage (B "user") long_prompt] 1024 None)).

Lemma session_split : r_trace a_served = take 4 session_trace ++ (0%nat, OCall true the_paid_call) :: drop 5 session_trace.
Proof. vm_compute. reflexivity. Qed.


Lemma paid_volume_bounded_witness :
  (inject_Z (Z.of_nat (length (paid_ids (r_trace a_served)))) <= budget a_router 0 (starts a_session) 2000000000 (limit_steps (r_trace a_served)))%Q.
Proof.
  exact (paid_volume_bounded (H := ascii_only) toy_chat toy_reply a_router UnmarshalStrict a_log 0 1 toy_sign
    ltac:(vm_compute; reflexivity) ltac:(vm_compute; discriminate) 0 2000000000 ∅ a_session
    ltac:(discriminate) ltac:(vm_compute; repeat split; discriminate)).
Defined.

(** Here the bound is a little more than three and a tenth. *)
Example budget_is : (budget a_router 0 (starts a_session) 2000000000 1 <= 31000001 # 10000000)%Q.
Proof. vm_compute. discriminate. Qed.

Lemma paid_call_made : (0%nat, OCall true the_paid_call) ∈ r_trace a_served.
Proof. rewrite session_split. apply elem_of_app. right. left. Qed.

Lemma keys_stay_with_their_host_witness :
  exists host key, (host, key) ∈ provider_hosts a_keys /\ carried_keys the_paid_call = [key]
    /\ ParseURL (u_url the_paid_call) = Some (B "https", host).
Proof.
  destruct (keys_stay_with_their_host (H := ascii_only) toy_chat toy_reply UnmarshalStrict a_log 0 1 toy_sign
    a_env a_keys a_providers ∅ a_session 0 true the_paid_call ltac:(discriminate) ltac:(discriminate) ltac:(discriminate)
    ltac:(vm_compute; reflexivity)
    paid_call_made) as (host & key & H1 & _ & H2 & H3).
  exists host, key. split; [exact H1|split; [exact H2|exact H3]].
Defined.

Definition session_log : log_state := Eval vm_compute in r_log a_served.
Lemma session_log_is : r_log a_served = session_log.
Proof. vm_compute. reflexivity. Qed.

Lemma a_session_tame : Forall tame_rlabel a_session.
Proof. repeat constructor; unfold tame_rlabel; try apply good_io_tame; done. Qed.

Lemma paid_calls_stay_on_the_chain_witness :
  exists pruned r, r ∈ pruned ++ chain_records UnmarshalStrict (segment_files a_log session_log.2) (open_file session_log.2 a_log)
    /\ Hook r = B "route" /\ Decision_ r = B "api".
Proof.
  destruct (paid_calls_stay_on_the_chain (H := ascii_only) toy_chat toy_reply a_router UnmarshalStrict a_log 0 1 toy_sign
    eq_refl ltac:(vm_compute; discriminate) ∅ a_session 0 the_paid_call
    (match session_log.1 with Some a => a | None => AuditLog "" [] 0 0 end) session_log.2
    ltac:(lia) toy_length a_log_fresh a_session_tame ltac:(vm_compute; reflexivity) session_log_is paid_call_made)
    as (pruned & r & _ & _ & H1 & _ & H2 & H3 & _).
  exists pruned, r. split; [exact H1|split; [exact H2|exact H3]].
Defined.

(** ** Where the configuration is not what it says *)

(** A rate that does not parse is no limit at all, without an error. *)
Lemma misspelt_rate_is_no_limit now :
  newRateLimiter (PaidRatePerMin (configFromEnv (env_file [("BULKHEAD_ROUTER_PAID_RATE_PER_MIN", "10/min")]))) now = None
  /\ newRateLimiter (PaidRatePerMin (configFromEnv (env_file [("BULKHEAD_ROUTER_PAID_RATE_PER_MIN", "10")]))) now <> None.
Proof. vm_compute. split; [reflexivity|discriminate]. Qed.

(** The route of a client never raises the tier: asking for the paid one changes nothing. *)
Lemma client_cannot_ask_for_paid req threshold def :
  decide_route (MkRequest (Model req) (Messages req) (MaxTokens req) (Temperature req) (Stream req) RouteAPI) threshold def
  = decide_route (MkRequest (Model req) (Messages req) (MaxTokens req) (Temperature req) (Stream req) []) threshold def.
Proof. reflexivity. Qed.
