(* ===== verification/AgentProps.v ===== *)
(** * What the quarantine guarantees

    Whatever the world answers, the calls of a quarantined run are those of the plan, in its
    order, with the values its variables were bound to. *)
From Stdlib Require Import ZArith QArith Lia Ascii String.
From stdpp Require Import base tactics numbers option strings list gmap.
From S2P Require Import Prelude Endian Maps Bytes Control Broker NetIP VerifyCmd Router Agent.
#[local] Open Scope string_scope.
#[local] Open Scope list_scope.
#[local] Open Scope Z_scope.

(** ** Programs *)
Lemma perform_bind {A R} w past (p : prog A) (f : A -> prog R) :
  perform w past (p ≫= f)
  = let '(hs, a) := perform w past p in let '(hs', r) := perform w (past ++ hs) (f a) in (hs ++ hs', r).
Proof.
  revert past. induction p as [a|c k IH]; intros past.
  - cbn. rewrite app_nil_r. by destruct (perform w past (f a)).
  - change (Ask c k ≫= f) with (Ask c (fun x => k x ≫= f)). cbn [perform]. cbv zeta. rewrite IH.
    destruct (perform w _ (k (w past c))) as [hs a]. rewrite <- app_assoc. cbn [app].
    by destruct (perform w _ (f a)).
Qed.

Lemma perform_ask w past c : perform w past (ask c) = ([Happened c (w past c)], w past c).
Proof. reflexivity. Qed.

Lemma perform_ret {R} w past (r : R) : perform w past (mret r) = ([], r).
Proof. reflexivity. Qed.

(** Every call a program can make satisfies [P]. *)
Fixpoint all_calls {R} (P : call -> Prop) (p : prog R) : Prop :=
  match p with Ret _ => True | Ask c k => P c /\ forall x, all_calls P (k x) end.

Lemma all_calls_bind {A R} P (p : prog A) (f : A -> prog R) :
  all_calls P p -> (forall a, all_calls P (f a)) -> all_calls P (p ≫= f).
Proof.
  intros Hp Hf. induction p as [a|c k IH]; [apply Hf|]. destruct Hp as [Hc Hk].
  change (Ask c k ≫= f) with (Ask c (fun x => k x ≫= f)). split; [done|]. intros x. by apply IH.
Qed.

Lemma perform_all {R} P w past (p : prog R) hs r :
  all_calls P p -> perform w past p = (hs, r) -> Forall (fun h => P (h_call h)) hs.
Proof.
  revert past hs r. induction p as [a|c k IH]; intros past hs r Hp E; cbn [perform] in E; [injection E as <- <-; constructor|].
  destruct Hp as [Hc Hk]. destruct (perform w _ (k (w past c))) as [hs' r'] eqn:E'. injection E as <- <-.
  constructor; [done|]. by eapply IH.
Qed.

(** At most [n] calls of the kind [f] along any path. *)
Fixpoint at_most {R} (f : call -> bool) (n : nat) (p : prog R) : Prop :=
  match p with Ret _ => True | Ask c k => if f c then match n with O => False | S n => forall x, at_most f n (k x) end else forall x, at_most f n (k x) end.

Lemma at_most_mono {R} f n n' (p : prog R) : (n <= n')%nat -> at_most f n p -> at_most f n' p.
Proof.
  revert n n'. induction p as [r|c k IH]; [done|]. intros a b Hab. cbn [at_most]. destruct (f c); [|intros Hq x; by eapply IH].
  destruct a as [|a], b as [|b]; try done; [lia|]. intros Hq x. apply (IH x a); [lia|done].
Qed.

Lemma at_most_bind {A R} f n m (p : prog A) (g : A -> prog R) :
  at_most f n p -> (forall a, at_most f m (g a)) -> at_most f (n + m) (p ≫= g).
Proof.
  intros Hp Hg. revert n Hp. induction p as [a|c k IH]; intros n Hp; [apply (at_most_mono _ m); [lia|apply Hg]|].
  change (Ask c k ≫= g) with (Ask c (fun x => k x ≫= g)). cbn [at_most] in *. destruct (f c).
  - destruct n as [|n]; [done|]. cbn [Nat.add]. intros x. by apply IH.
  - intros x. by apply IH.
Qed.

Lemma perform_at_most {R} f n w past (p : prog R) hs r :
  at_most f n p -> perform w past p = (hs, r) -> (length (filter (fun h => f (h_call h) = true) hs) <= n)%nat.
Proof.
  revert n past hs r. induction p as [a|c k IH]; intros n past hs r Hp E; cbn [perform] in E; [injection E as <- <-; cbn; lia|].
  destruct (perform w _ (k (w past c))) as [hs' r'] eqn:E'. injection E as <- <-. rewrite filter_cons. cbn [h_call at_most] in *.
  destruct (f c) eqn:Hf; [rewrite decide_True by done; destruct n as [|n]; [done|]|rewrite decide_False by congruence].
  - cbn [length]. specialize (IH _ n _ _ _ (Hp _) E'). lia.
  - by eapply IH.
Qed.

Definition is_call (h : happening) : bool := match h_call h with Deadline => false | _ => true end.
Definition calls (hs : list happening) : list happening := filter is_call hs.

Lemma calls_deadline x hs : calls (Happened Deadline x :: hs) = calls hs.
Proof. reflexivity. Qed.

Lemma calls_call h hs : is_call h = true -> calls (h :: hs) = h :: calls hs.
Proof. intros Hc. unfold calls. rewrite filter_cons, Hc. reflexivity. Qed.

Section quarantine.
  Context `{WebURLs}.
  Context (UnmarshalChoices : bytes -> result bytes (list bytes)) (env : agent_env).
  Abbreviation chat := (chat UnmarshalChoices).
  Abbreviation runPlan := (runPlan UnmarshalChoices env).
  Abbreviation runQuarantine := (runQuarantine UnmarshalChoices env).

(** ** What the plan commands *)

(** The reply in an exchange with the router, as [chat] reads it. *)
Definition reply_in (x : exchange) : result bytes bytes :=
  (perform (fun _ c => match c return answer_of c with
                       | Post _ => x | Get _ => Denied | Collector _ => ([], false) | Deadline => None end) [] (chat [])).2.

Lemma perform_chat w past msgs :
  perform w past (chat msgs) = ([Happened (Post (agent_request msgs)) (w past (Post (agent_request msgs)))],
                                reply_in (w past (Post (agent_request msgs)))).
Proof. reflexivity. Qed.

(** The value a call brought. *)
Definition value_of (h : happening) : option qval :=
  match h with
  | Happened (Get _) (Fetched _ body) => Some (Body (LimitReader fetchBodyCap body))
  | Happened (Get _) (Unbuilt _) => None
  | Happened (Get _) _ => Some (Body [])
  | Happened (Post _) x => match reply_in x with Ok t => Some (Data t) | Err _ => None end
  | _ => None
  end.

Definition binds (s : planStep) : option bytes := match s with opFetch _ x | opExtract _ _ x => Some x | _ => None end.

Definition record_value (s : planStep) (h : happening) (st : gmap bytes qval) : gmap bytes qval :=
  match binds s, value_of h with Some x, Some v => <[x := v]> st | _, _ => st end.

(** A report makes no call, and neither does a delegation that is disabled. *)
Definition acts (s : planStep) : bool :=
  match s with opReport _ => false | opDelegate _ _ _ => ALLOW_DELEGATE env | _ => true end.

Definition task_text (st : gmap bytes qval) (t : planTask) : bytes :=
  match t with Literal t => t | TaskVar x => q_text (load st x) end.

(** The call a step commands, given the values so far. *)
Definition command (st : gmap bytes qval) (s : planStep) : call :=
  match s with
  | opFetch url _ => Get url
  | opExtract src question _ => Post (agent_request (reader_messages (q_bytes (load st src)) question))
  | opReport _ => Deadline
  | opDelegate suffix classes t =>
      Collector ([B "delegate"; suffix; classes] ++ if bool_decide (task_text st t = []) then [] else [task_text st t])
  end.

(** The calls are, one by one, those the steps command. *)
Fixpoint obeys (steps : list planStep) (st : gmap bytes qval) (hs : list happening) {struct hs} : Prop :=
  match hs, steps with
  | [], _ => True
  | h :: hs, s :: steps => h_call h = command st s /\ obeys steps (record_value s h st) hs
  | _ :: _, [] => False
  end.

(** The values after the calls. *)
Fixpoint values (steps : list planStep) (st : gmap bytes qval) (hs : list happening) {struct hs} : gmap bytes qval :=
  match hs, steps with h :: hs, s :: steps => values steps (record_value s h st) hs | _, _ => st end.

(** The answer of a finished run: the reported value, or what the delegation said. *)
Definition delegation_said (h : happening) : bytes :=
  match h with
  | Happened (Collector _) (out, ok) => if ok then B "escalation OK: " ++ TrimSpaceB out else B "ESCALATION DENIED: " ++ TrimSpaceB out
  | _ => []
  end.

Definition final_answer (t : planStep) (st : gmap bytes qval) (hs : list happening) : bytes :=
  match t with
  | opReport x => q_text (load st x)
  | opDelegate _ _ _ =>
      if ALLOW_DELEGATE env then default [] (delegation_said <$> last hs) else B "ERROR: delegation is disabled for this agent"
  | _ => []
  end.

(** ** Plans that are accepted *)
Definition literal_control (suffix classes : bytes) : Prop :=
  isIdent suffix = true /\ validClassList classes = None /\ HasPrefixB classes (B "$") = false.

Definition name_ok (x : bytes) : Prop := x <> [] /\ isIdent x = true.

Fixpoint scoped (bound : gmap bytes valKind) (steps : list planStep) : Prop :=
  match steps with
  | [] => False
  | [opReport x] => bound !! x = Some vData
  | [opDelegate suffix classes t] =>
      literal_control suffix classes /\ match t with TaskVar x => bound !! x = Some vData | Literal _ => True end
  | opFetch url x :: steps =>
      fetchValidate url = true /\ HasPrefixB url (B "$") = false /\ name_ok x /\ bound !! x = None /\ scoped (<[x := vBody]> bound) steps
  | opExtract src question x :: steps =>
      bound !! src = Some vBody /\ question <> [] /\ name_ok x /\ bound !! x = None /\ scoped (<[x := vData]> bound) steps
  | _ => False
  end.

(** ** The interpreter obeys the plan *)

(** The body a fetch leaves, as [fetchVia] returns it. *)
Definition body_in (x : fetched) : result bytes bytes :=
  match x with Unbuilt e => Err e | Fetched _ b => Ok (LimitReader fetchBodyCap b) | _ => Ok [] end.

Lemma perform_fetchVia w past url :
  exists meta, perform w past (fetchVia url)
    = ([Happened (Get url) (w past (Get url))],
       match body_in (w past (Get url)) with Err e => Err e | Ok b => Ok (meta, b) end).
Proof.
  unfold fetchVia. cbn -[LimitReader]. destruct (w past (Get url)); [exists []|eexists..]; reflexivity.
Qed.

Lemma perform_runDelegate w past suffix classes t :
  perform w past (runDelegate env suffix classes t)
  = if ALLOW_DELEGATE env
    then let c := Collector ([B "delegate"; suffix; classes] ++ if bool_decide (t = []) then [] else [t]) in
         ([Happened c (w past c)], delegation_said (Happened c (w past c)))
    else ([], B "ERROR: delegation is disabled for this agent").
Proof.
  unfold runDelegate. destruct (ALLOW_DELEGATE env); [|done]. cbn [negb]. unfold runCollector.
  cbn -[B]. by destruct (w past _) as [out []].
Qed.

Lemma acts_cons s steps : acts s = true -> filter acts (s :: steps) = s :: filter acts steps.
Proof. intros Hc. rewrite filter_cons, Hc. reflexivity. Qed.

(** The calls obey the plan; a run with an answer has carried all of it out, and the answer
    is the one the plan asks for. *)
Definition obeyed (steps : list planStep) (st : gmap bytes qval) (hs : list happening) (r : result bytes bytes) : Prop :=
  obeys (filter acts steps) st hs
  /\ forall a, r = Ok a -> length hs = length (filter acts steps)
     /\ exists t, last steps = Some t /\ a = final_answer t (values (filter acts steps) st hs) hs.

Lemma obeyed_stop steps st e : obeyed steps st [] (Err e).
Proof. by split. Qed.

Lemma obeyed_fail s steps st h e : acts s = true -> h_call h = command st s -> obeyed (s :: steps) st [h] (Err e).
Proof. intros Ha Hc. split; [|done]. rewrite acts_cons by done. by split. Qed.

Lemma obeyed_step s steps st h hs r :
  acts s = true -> h_call h = command st s -> obeyed steps (record_value s h st) hs r -> obeyed (s :: steps) st (h :: hs) r.
Proof.
  intros Ha Hc [Ho Hr]. unfold obeyed. rewrite acts_cons by done. split; [done|]. intros a ->.
  destruct (Hr a eq_refl) as (Hl & t & Ht & ->). split; [cbn; by rewrite Hl|]. exists t.
  destruct steps as [|s' steps]; [done|]. split; [done|]. cbn [values]. destruct t as [| | |suffix classes t]; try done. cbn [final_answer].
  destruct (ALLOW_DELEGATE env) eqn:Hal; [|done]. destruct hs as [|h' hs]; [|done]. exfalso.
  apply last_Some_elem_of in Ht. assert (opDelegate suffix classes t ∈ filter acts (s' :: steps)) as Hin.
  { apply list_elem_of_filter. split; [cbn; by rewrite Hal|done]. }
  destruct (filter acts (s' :: steps)); [by apply not_elem_of_nil in Hin|done].
Qed.

Lemma value_fetch url x b : body_in x = Ok b -> value_of (Happened (Get url) x) = Some (Body b).
Proof. destruct x; cbn; congruence. Qed.

Lemma value_reply req x t : reply_in x = Ok t -> value_of (Happened (Post req) x) = Some (Data t).
Proof. intros E. unfold value_of. by rewrite E. Qed.

Lemma runPlan_obeys steps bound st w past hs r :
  scoped bound steps -> perform w past (runPlan steps st) = (hs, r) -> obeyed steps st (calls hs) r.
Proof.
  revert bound st past hs r. induction steps as [|s steps IH]; intros bound st past hs r Hs E; [done|].
  cbn [Agent.runPlan] in E. rewrite perform_bind in E. cbn [perform ask] in E. cbv zeta in E. cbn [app] in E.
  destruct (w past Deadline) as [e|] eqn:Ed; [injection E as <- <-; apply obeyed_stop|].
  destruct s as [url x|src q x|x|suffix classes t].
  - destruct Hs as (Hv & _ & _ & _ & Hs). rewrite Hv in E. cbn [negb] in E. rewrite perform_bind in E.
    destruct (perform_fetchVia w (past ++ [Happened Deadline None]) url) as [meta Em]. rewrite Em in E. clear Em.
    destruct (body_in _) as [body|e] eqn:Eb in E; [|injection E as <- <-; by apply obeyed_fail].
    apply (value_fetch url) in Eb. cbn [app] in E. destruct (perform _ _ (runPlan steps _)) as [hs' r'] eqn:E'.
    injection E as <- <-. apply (IH _ _ _ _ _ Hs) in E'. apply obeyed_step; [done|done|]. by unfold record_value; rewrite Eb.
  - destruct Hs as (_ & _ & _ & _ & Hs). rewrite perform_bind in E. unfold extract in E. rewrite perform_chat in E.
    destruct (reply_in _) as [text|e] eqn:Eb in E; [|injection E as <- <-; by apply obeyed_fail].
    eapply value_reply in Eb. cbn [app] in E. destruct (perform _ _ (runPlan steps _)) as [hs' r'] eqn:E'.
    injection E as <- <-. apply (IH _ _ _ _ _ Hs) in E'. apply obeyed_step; [done|done|]. by unfold record_value; rewrite Eb.
  - assert (steps = []) as -> by (by destruct steps). injection E as <- <-. split; [done|]. intros a [= <-]. split; [done|].
    by exists (opReport x).
  - assert (steps = []) as -> by (by destruct steps). rewrite perform_bind, perform_runDelegate in E.
    unfold obeyed. rewrite filter_cons. cbn [acts]. destruct (ALLOW_DELEGATE env) eqn:Hal; injection E as <- <-; split; try done.
    + intros a [= <-]. split; [done|]. eexists. split; [done|]. cbn [final_answer]. by rewrite Hal.
    + intros a [= <-]. split; [done|]. eexists. split; [done|]. cbn [final_answer]. by rewrite Hal.
Qed.

(** ** The parser accepts static plans only *)

(** The steps before the last, with the variables they bind. *)
Inductive building : list planStep -> gmap bytes valKind -> Prop :=
| b_nil : building [] ∅
| b_fetch steps bound url x :
    building steps bound -> fetchValidate url = true -> HasPrefixB url (B "$") = false -> name_ok x -> bound !! x = None ->
    building (steps ++ [opFetch url x]) (<[x := vBody]> bound)
| b_extract steps bound src question x :
    building steps bound -> bound !! src = Some vBody -> question <> [] -> name_ok x -> bound !! x = None ->
    building (steps ++ [opExtract src question x]) (<[x := vData]> bound).

Lemma building_scoped steps bound tail : building steps bound -> scoped bound tail -> scoped ∅ (steps ++ tail).
Proof.
  intros Hb. revert tail. induction Hb as [|steps bound url x Hb IH|steps bound src q x Hb IH]; intros tail Ht; [done|..];
    rewrite <- app_assoc; apply IH; by destruct tail.
Qed.

Definition parser_ok (p : parser) : Prop :=
  (length (p_steps p) <= maxPlanSteps)%nat /\ if p_reported p then scoped ∅ (p_steps p) else building (p_steps p) (p_bound p).

Lemma varName_ok tok x : varName tok = Some x -> name_ok x.
Proof.
  unfold varName. destruct (CutPrefix _ tok) as [name|]; [|done]. case_bool_decide as Hn; [done|].
  destruct (isIdent name) eqn:Hi; [|done]. intros [= <-]. done.
Qed.

Lemma parse_line_ok raw p p' : parser_ok p -> parse_line raw p = Ok p' -> parser_ok p'.
Proof.
  intros Hp. unfold parse_line. cbv zeta. case_bool_decide; [by intros [= <-]|]. destruct (p_reported p) eqn:Hrep; [done|].
  destruct (Nat.leb_spec maxPlanSteps (length (p_steps p))) as [|Hlt]; [done|].
  destruct Hp as [_ Hb]. rewrite Hrep in Hb. destruct (CutSpace _) as [verb rest].
  assert (forall s, length (p_steps p ++ [s]) <= maxPlanSteps)%nat as Hlen by (intros s; rewrite length_app; cbn; lia).
  repeat case_bool_decide; [..|done].
  - unfold parse_fetch. destruct (splitArrow rest) as [[lhs dst]|]; [|done]. destruct (varName dst) as [x|] eqn:Hx; [|done].
    case_bool_decide as Hn; [done|]. cbv zeta. destruct (HasPrefixB _ _) eqn:Hd; [done|]. destruct (fetchValidate _) eqn:Hv; [|done].
    intros [= <-]. split; [apply Hlen|]. cbn. constructor; try done; [by eapply varName_ok|by apply eq_None_not_Some].
  - unfold parse_extract. destruct (splitArrow rest) as [[lhs dst]|]; [|done]. destruct (varName dst) as [x|] eqn:Hx; [|done].
    case_bool_decide as Hn; [done|]. destruct (CutSpace _) as [srcTok q]. destruct (varName srcTok) as [src|]; [|done].
    case_bool_decide as Hs; [|done]. cbn [negb]. case_bool_decide as Hq; [done|].
    intros [= <-]. split; [apply Hlen|]. cbn. constructor; try done; [by eapply varName_ok|by apply eq_None_not_Some].
  - unfold parse_report. destruct (varName _) as [x|]; [|done]. case_bool_decide as Hs; [|done]. intros [= <-].
    split; [apply Hlen|]. cbn. by eapply building_scoped.
  - unfold parse_delegate. destruct (Fields rest) as [|suffix [|classes [|w words]]]; try done.
    destruct (HasPrefixB suffix _); [done|]. destruct (HasPrefixB classes _) eqn:Hc; [done|]. cbn [orb].
    destruct (isIdent suffix) eqn:Hi; [|done]. cbn [negb]. case_bool_decide as Hv; [done|].
    apply eq_None_not_Some in Hv. cbv zeta. destruct (_ && _).
    + destruct (varName _) as [x|]; [|done]. case_bool_decide as Hs; [|done]. intros [= <-].
      split; [apply Hlen|]. cbn. by eapply building_scoped.
    + intros [= <-]. split; [apply Hlen|]. cbn. by eapply building_scoped.
Qed.

Lemma parsePlan_scoped text steps : parsePlan text = Ok steps -> scoped ∅ steps /\ (length steps <= maxPlanSteps)%nat.
Proof.
  unfold parsePlan. assert (parser_ok (Parser [] ∅ false)) as Hp by (split; [cbn; lia|constructor]).
  revert Hp. generalize (Parser [] ∅ false). induction (SplitLines text) as [|l lines IH]; intros p Hp; cbn [parse_lines].
  - destruct Hp as [Hl Hp]. destruct (p_reported p); [|done]. by intros [= <-].
  - destruct (parse_line l p) as [p'|] eqn:E; [|done]. apply IH. by eapply parse_line_ok.
Qed.

(** ** The guarantees *)

(** The plan in the answer of the planner. *)
Definition plan_in (x : exchange) : option (list planStep) :=
  match reply_in x with Ok text => match parsePlan text with Ok steps => Some steps | Err _ => None end | Err _ => None end.

(** C8: Control flow is the plan. A quarantined run asks the planner once, first, and with the
    task only. If there is no plan that parses, it does nothing else. Otherwise every call it
    makes, whatever fetched pages and the reader answer, is the one that the next acting step
    of that plan commands with the values bound so far: fetches of the plan's own URLs, reader
    requests with one fetched page and the plan's question, delegations with the plan's suffix
    and classes; and a run that answers has made all of them and answers what the plan says. *)
Theorem control_flow_is_the_plan task w hs r :
  perform w [] (runQuarantine task) = (hs, r) ->
  exists x rest, hs = Happened (Post (agent_request (planner_messages task))) x :: rest
    /\ match plan_in x with
       | None => rest = [] /\ forall a, r <> Ok a
       | Some steps =>
           scoped ∅ steps /\ (length steps <= maxPlanSteps)%nat /\ obeys (filter acts steps) ∅ (calls rest)
           /\ forall a, r = Ok a -> length (calls rest) = length (filter acts steps)
              /\ exists t, last steps = Some t /\ a = final_answer t (values (filter acts steps) ∅ (calls rest)) (calls rest)
       end.
Proof.
  unfold Agent.runQuarantine. rewrite perform_bind, perform_chat. set (x := w [] _). unfold plan_in. intros E.
  exists x. destruct (reply_in x) as [text|e]; [|injection E as <- <-; eexists; by split].
  destruct (parsePlan text) as [steps|e] eqn:Ep; [|injection E as <- <-; eexists; by split].
  rewrite perform_bind in E. destruct (perform w _ (runPlan steps ∅)) as [rest r'] eqn:Er. injection E as <- <-.
  exists rest. rewrite app_nil_r. split; [done|]. destruct (parsePlan_scoped _ _ Ep) as [Hs Hl].
  destruct (runPlan_obeys steps ∅ ∅ w _ rest r' Hs Er) as [Ho Ha]. split_and!; [done..|].
  intros a. destruct r' as [a'|]; [|done]. intros [= <-]. by apply Ha.
Qed.

(** *** Two worlds *)

(** A call without its data: what the fetched bytes must not choose. *)
Inductive shape := ToRouter (system : bytes) | ToWeb (url : bytes) | ToCollector (authority : list bytes) | ToClock.
Definition shape_of (h : happening) : shape :=
  match h_call h with
  | Post req => ToRouter (default [] (Content <$> head (Messages req)))
  | Get url => ToWeb url
  | Collector args => ToCollector (take 3 args)
  | Deadline => ToClock
  end.

Definition step_shape (s : planStep) : shape :=
  match s with
  | opFetch url _ => ToWeb url
  | opExtract _ _ _ => ToRouter qSystemPrompt
  | opReport _ => ToClock
  | opDelegate suffix classes _ => ToCollector [B "delegate"; suffix; classes]
  end.

Lemma obeys_shapes steps st hs : obeys steps st hs -> (shape_of <$> hs) `prefix_of` (step_shape <$> steps).
Proof.
  revert steps st. induction hs as [|h hs IH]; intros steps st Ho; [apply prefix_nil|]. destruct steps as [|s steps]; [done|].
  destruct Ho as [Hc Ho]. rewrite !fmap_cons. unfold shape_of at 1. rewrite Hc. apply IH in Ho.
  destruct s; cbn [command step_shape]; by apply prefix_cons.
Qed.

Lemma quarantine_shapes task w hs r :
  perform w [] (runQuarantine task) = (hs, r) ->
  let sh := shape_of <$> calls hs in
  let planner := ToRouter planPrompt in
  match plan_in (w [] (Post (agent_request (planner_messages task)))) with
  | None => sh = [planner]
  | Some steps => sh `prefix_of` planner :: (step_shape <$> filter acts steps)
                  /\ forall a, r = Ok a -> sh = planner :: (step_shape <$> filter acts steps)
  end.
Proof.
  unfold Agent.runQuarantine. rewrite perform_bind, perform_chat. set (x := w [] _). cbv zeta. unfold plan_in. intros E.
  destruct (reply_in x) as [text|e]; [|by injection E as <- <-].
  destruct (parsePlan text) as [steps|e] eqn:Ep; [|by injection E as <- <-].
  rewrite perform_bind in E. destruct (perform w _ (runPlan steps ∅)) as [rest r'] eqn:Er. injection E as <- <-.
  rewrite app_nil_r. destruct (parsePlan_scoped _ _ Ep) as [Hs _]. destruct (runPlan_obeys steps ∅ ∅ w _ rest r' Hs Er) as [Ho Ha].
  cbn [app]. rewrite calls_call, fmap_cons by done. apply obeys_shapes in Ho. split; [by apply prefix_cons|].
  intros a Hr. destruct r' as [a'|]; [|done]. destruct (Ha a' eq_refl) as [Hl _]. f_equal.
  apply prefix_length_eq; [done|]. rewrite !length_fmap. by rewrite Hl.
Qed.

(** C22: Fetched bytes do not steer. In two worlds that agree on the planner's answer and on
    nothing else, the calls of a quarantined run have the same shape (who is called, with
    which URL, which prompt, which authority) as far as both go, and wholly if both answer. *)
Theorem fetched_bytes_do_not_steer task w1 w2 hs1 r1 hs2 r2 :
  perform w1 [] (runQuarantine task) = (hs1, r1) -> perform w2 [] (runQuarantine task) = (hs2, r2) ->
  (let q := Post (agent_request (planner_messages task)) in w1 [] q = w2 [] q) ->
  (shape_of <$> calls hs1 `prefix_of` shape_of <$> calls hs2 \/ shape_of <$> calls hs2 `prefix_of` shape_of <$> calls hs1)
  /\ ((exists a1 a2, r1 = Ok a1 /\ r2 = Ok a2) -> shape_of <$> calls hs1 = shape_of <$> calls hs2).
Proof.
  cbv zeta. intros E1%quarantine_shapes E2%quarantine_shapes Eq. cbv zeta in *. rewrite <- Eq in E2.
  destruct (plan_in _) as [steps|]; [|rewrite E1, E2; split; [by left|done]].
  destruct E1 as [P1 A1], E2 as [P2 A2]. split; [by eapply prefix_weak_total|].
  intros (a1 & a2 & H1 & H2). by rewrite (A1 _ H1), (A2 _ H2).
Qed.
End quarantine.
