(* ===== verification/AgentLoop.v ===== *)
(** * The agent's loop, and agents in front of the router

    The loop is bounded and its tools are validated, whatever the model says. Whatever agents
    do, in either mode, they drive no paid call of the router. *)
From Stdlib Require Import ZArith QArith Lia Ascii String.
From stdpp Require Import base tactics numbers option strings list gmap.
From S2P Require Import Prelude Endian Maps Bytes Json Control Broker Verify AuditLog NetIP VerifyCmd Proxy RateLimit Router RouterProps Agent AgentProps.
#[local] Open Scope string_scope.
#[local] Open Scope list_scope.
#[local] Open Scope Z_scope.

(** ** The loop *)
Definition is_post (c : call) : bool := match c with Post _ => true | _ => false end.
Definition is_act (c : call) : bool := match c with Get _ | Collector _ => true | _ => false end.

Section loop.
  Context `{WebURLs} `{Unicode}.
  Context (Quote : bytes -> bytes) (UnmarshalChoices : bytes -> result bytes (list bytes)) (env : agent_env).
  Abbreviation chat := (chat UnmarshalChoices).
  Abbreviation loop := (loop Quote UnmarshalChoices env).
  Abbreviation runLoop := (runLoop Quote UnmarshalChoices env).
  Abbreviation dispatch_tool := (dispatch_tool Quote env).

(** What the agent may ask of the collector: a widening of listed classes, unless it is a
    delegated child, and a delegation with listed classes, if it is allowed to. *)
Definition asked_ok (args : list bytes) : Prop :=
  (exists classes, args = [B "expand"; classes] /\ validClassList classes = None /\ NO_EXPAND env = false)
  \/ (exists suffix classes task, args = [B "delegate"; suffix; classes] ++ task /\ (length task <= 1)%nat
      /\ validClassList classes = None /\ ALLOW_DELEGATE env = true).

(** The calls of an agent whose first messages are [start]. *)
Definition confined (start : list ChatMessage) (c : call) : Prop :=
  match c with
  | Post req => exists later, req = agent_request (start ++ later)
  | Get url => fetchValidate url = true
  | Collector args => asked_ok args
  | Deadline => True
  end.

Lemma runDelegate_confined start suffix classes task :
  validClassList classes = None -> all_calls (confined start) (runDelegate env suffix classes task).
Proof.
  intros Hv. unfold runDelegate. destruct (ALLOW_DELEGATE env) eqn:Hal; [|done]. split; [|done]. right.
  eexists _, _, _. split_and!; [reflexivity| |done|done]. case_bool_decide; cbn; lia.
Qed.

Lemma dispatch_confined start name arg : all_calls (confined start) (dispatch_tool name arg).
Proof.
  unfold Agent.dispatch_tool, toolRegistry. repeat case_bool_decide; [..|done]; cbn [Validate Run fetch_tool request_egress_tool delegate_tool].
  - destruct (fetchValidate arg) eqn:Hv; [|done]. by split.
  - destruct (validClassList arg) eqn:Hv; [done|]. cbn [fmap option_fmap option_map]. destruct (NO_EXPAND env) eqn:Hn; [done|].
    split; [|done]. left. by exists arg.
  - destruct (Fields arg) as [|suffix [|classes words]]; [done..|]. destruct (validClassList classes) eqn:Hv; [done|].
    cbn [fmap option_fmap option_map]. apply all_calls_bind; [|done]. apply all_calls_bind; [by apply runDelegate_confined|done].
Qed.

Lemma dispatch_once name arg : at_most is_act 1 (dispatch_tool name arg) /\ at_most is_post 0 (dispatch_tool name arg).
Proof.
  unfold Agent.dispatch_tool, toolRegistry, runDelegate. repeat case_bool_decide; [..|done];
    cbn [Validate Run fetch_tool request_egress_tool delegate_tool].
  - by destruct (fetchValidate arg).
  - destruct (validClassList arg); [done|]. by destruct (NO_EXPAND env).
  - destruct (Fields arg) as [|suffix [|classes words]]; [done..|]. destruct (validClassList classes); [done|].
    cbn [fmap option_fmap option_map]. unfold runDelegate. by destruct (ALLOW_DELEGATE env).
Qed.

Lemma loop_confined m n start later : all_calls (confined start) (loop m n (start ++ later)).
Proof.
  revert later. induction n as [|n IH]; intros later; [done|]. cbn [Agent.loop]. cbv zeta. apply all_calls_bind; [by split|].
  intros [e|]; [done|]. apply all_calls_bind; [split; [by exists later|done]|]. intros [reply|e]; [|done].
  destruct (parse reply) as [[name arg|arg]|]; [|done|].
  - apply all_calls_bind; [apply dispatch_confined|]. intros obs. rewrite <- app_assoc. apply IH.
  - rewrite <- app_assoc. apply IH.
Qed.

Lemma loop_bounded m n msgs : at_most is_post n (loop m n msgs) /\ at_most is_act n (loop m n msgs).
Proof.
  revert msgs. induction n as [|n IH]; intros msgs; [done|]. cbn [Agent.loop]. cbv zeta. split.
  - apply (at_most_bind _ 0); [done|]. intros [e|]; [done|]. apply (at_most_bind _ 1 n); [done|]. intros [reply|e]; [|done].
    destruct (parse reply) as [[name arg|arg]|]; [|done|apply IH].
    apply (at_most_bind _ 0); [apply dispatch_once|]. intros obs. apply IH.
  - apply (at_most_bind _ 0); [done|]. intros [e|]; [done|]. apply (at_most_bind _ 0); [done|]. intros [reply|e]; [|done].
    destruct (parse reply) as [[name arg|arg]|]; [|done|].
    + apply (at_most_bind _ 1 n); [apply dispatch_once|]. intros obs. apply IH.
    + apply (at_most_mono _ n); [lia|apply IH].
Qed.

(** C23: The loop is bounded and confined. Whatever the model answers and the tools bring, a run
    of the loop ends within its budget of steps, one request to the router and at most one
    action per step; every request starts with the agent's own prompt and task and asks for
    the local tier; a fetch is of a validated http(s) URL; the collector is asked only for a
    widening by listed classes, never by a delegated child, or for a delegation with listed
    classes, if allowed. *)
Theorem loop_is_bounded_and_confined task maxSteps w hs r :
  perform w [] (runLoop task maxSteps) = (hs, r) ->
  (length (filter (fun h => is_post (h_call h) = true) hs) <= Z.to_nat maxSteps)%nat
  /\ (length (filter (fun h => is_act (h_call h) = true) hs) <= Z.to_nat maxSteps)%nat
  /\ Forall (fun h => confined [MkMessage (B "system") (systemPrompt env); MkMessage (B "user") (B "Task: " ++ task)] (h_call h)) hs.
Proof.
  intros E. unfold Agent.runLoop in E. set (start := [_; _]) in *. split_and!.
  - eapply perform_at_most; [apply loop_bounded|exact E].
  - eapply perform_at_most; [apply loop_bounded|exact E].
  - eapply perform_all; [|exact E]. rewrite <- (app_nil_r start). apply loop_confined.
Qed.

(** ** What agents ask of the router *)
Definition local_post (c : call) : Prop := match c with Post req => exists msgs, req = agent_request msgs | _ => True end.

Lemma all_calls_weaken {R} (P Q : call -> Prop) (p : prog R) : (forall c, P c -> Q c) -> all_calls P p -> all_calls Q p.
Proof. intros HPQ. induction p as [r|c k IH]; [done|]. intros [Hc Hk]. split; [auto|]. intros x. by apply IH. Qed.

Lemma runLoop_local task maxSteps : all_calls local_post (runLoop task maxSteps).
Proof.
  unfold Agent.runLoop. set (start := [_; _]). apply (all_calls_weaken (confined start)).
  - intros []; cbn; try done. intros [later ->]. by eexists.
  - rewrite <- (app_nil_r start). apply loop_confined.
Qed.

Lemma runPlan_local steps st : all_calls local_post (runPlan UnmarshalChoices env steps st).
Proof.
  revert st. induction steps as [|s steps IH]; intros st; [done|]. cbn [runPlan]. apply all_calls_bind; [by split|].
  intros [e|]; [done|]. destruct s as [url x|src q x|x|suffix classes t].
  - destruct (fetchValidate url); [|done]. apply all_calls_bind; [by split|]. intros [[meta body]|e]; [apply IH|done].
  - apply all_calls_bind; [split; [by eexists|done]|]. intros [text|e]; [apply IH|done].
  - done.
  - apply all_calls_bind; [|done]. unfold runDelegate. by destruct (ALLOW_DELEGATE env).
Qed.

Lemma runQuarantine_local task : all_calls local_post (runQuarantine UnmarshalChoices env task).
Proof.
  unfold runQuarantine. apply all_calls_bind; [split; [by eexists|done]|]. intros [text|e]; [|done].
  destruct (parsePlan text) as [steps|e]; [|done]. apply all_calls_bind; [apply runPlan_local|done].
Qed.

(** A request that an agent sends, in either mode, in some world. *)
Definition sent_by_agent (req : ChatRequest) : Prop :=
  exists task w hs, Post req ∈ h_call <$> hs
    /\ ((exists r, perform w [] (runQuarantine UnmarshalChoices env task) = (hs, r))
        \/ exists maxSteps r, perform w [] (runLoop task maxSteps) = (hs, r)).

Lemma sent_local req : sent_by_agent req -> exists msgs, req = agent_request msgs.
Proof.
  intros (task & w & hs & (h & E & Hin)%list_elem_of_fmap & Hrun).
  assert (Forall (fun h => local_post (h_call h)) hs) as Hl.
  { destruct Hrun as [[r Er]|(m & r & Er)]; eapply perform_all; [apply runQuarantine_local|exact Er|apply runLoop_local|exact Er]. }
  rewrite Forall_forall in Hl. specialize (Hl h Hin). by rewrite <- E in Hl.
Qed.
End loop.

(** ** Agents in front of the router *)

(** No paid call is ahead. *)
Fixpoint unpaid (pr : rproc) : Prop :=
  match pr with
  | Finish _ | Finished => True
  | Limit k => forall b, unpaid (k b)
  | Record_ _ k => forall b, unpaid (k b)
  | Call paid _ k => paid = false /\ forall now r, unpaid (k now r)
  end.

Section free.
  Context `{Unicode} (UnmarshalChat : bytes -> option ChatRequest) (UnmarshalAnthropic : bytes -> option anthropicResponse).
  Context (s : server) (UnmarshalRecord : bytes -> option auditRecord) (base : string) (rotateBytes : Z) (segKeep : nat)
    (sign : bytes -> bytes).
  Abbreviation handleChat := (handleChat UnmarshalChat UnmarshalAnthropic s).
  Abbreviation rexec := (rexec UnmarshalChat UnmarshalAnthropic s UnmarshalRecord base rotateBytes segKeep sign).
  Abbreviation router_run := (router_run UnmarshalChat UnmarshalAnthropic s UnmarshalRecord base rotateBytes segKeep sign).

Lemma handleChat_unpaid body req :
  UnmarshalChat body = Some req -> Route req = RouteLocal -> unpaid (handleChat (BodyRead body)).
Proof.
  intros Eu Er. unfold Router.handleChat. destruct (maxRequestBytes <? len body); [done|]. rewrite Eu.
  destruct (Messages req); [done|]. destruct (Stream req); [done|]. cbv zeta.
  unfold decide_route. rewrite (bool_decide_true (Route req = RouteLocal)) by done.
  cbn [d_route]. pose proof local_not_api. rewrite bool_decide_false by done. intros []; [|done]. unfold dispatch. cbn [d_route].
  rewrite bool_decide_false by done.
  split; [done|]. by intros now [].
Qed.

Definition free (y : rsys) : Prop :=
  Forall (fun x => unpaid x.1) (r_reqs y) /\ forall i c, (i, OCall true c) ∉ r_trace y.

Lemma free_move y i x obs lim lg hist :
  free y -> unpaid x.1 -> (forall c, OCall true c ∉ obs) ->
  free (RSys lim lg hist (<[i := x]> (r_reqs y)) (r_trace y ++ ((fun o => (i, o)) <$> obs))).
Proof.
  intros [Hf Ht] Hx Ho. split; cbn [r_reqs r_trace]; [by apply Forall_insert|]. intros j c [Hj|Hj]%elem_of_app; [by eapply Ht|].
  apply list_elem_of_fmap in Hj as (o & [= -> <-] & Hj). by eapply Ho.
Qed.

Lemma rexec_free y l :
  free y -> (forall rb, l = RAccept rb -> unpaid (handleChat rb)) -> free (rexec y l).
Proof.
  intros Hy Hl. pose proof Hy as [Hf Ht]. destruct l as [now r|rb|i fused now x reply|x ev mid k]; cbn [Router.rexec];
    destruct (r_log y) as [[a|] fs0]; try done.
  - split; cbn [r_reqs r_trace]; [|done]. apply Forall_app. split; [done|]. repeat constructor. by apply Hl.
  - destruct (r_reqs y !! i) as [[pr fl]|] eqn:Hi; [|done]. pose proof (proj1 (Forall_lookup _ _) Hf i _ Hi) as Hk. cbn [fst] in Hk.
    destruct pr as [r|k|ev k|paid c k|]; cbn [unpaid] in Hk; try done.
    + apply (free_move y i (Finished, None) [OEnd r]); [done|done|]. by intros c ?%list_elem_of_singleton.
    + destruct (allow fused now (y_limiter y)) as [ok lim]. apply (free_move y i (k ok, None) [OLimit now ok]); [done|apply Hk|].
      by intros c ?%list_elem_of_singleton.
    + cbv zeta. match goal with |- context [ORecord ev ?b] => apply (free_move y i (k b, None) [ORecord ev b]) end; [done|apply Hk|].
      by intros c ?%list_elem_of_singleton.
    + destruct Hk as [-> Hk]. destruct fl as [c'|].
      * rewrite <- (app_nil_r (r_trace y)). apply (free_move y i _ []); [done|apply Hk|]. intros c0. apply not_elem_of_nil.
      * apply (free_move y i (Call false c k, Some c) [OCall false c]); [done|done|]. by intros c0 ?%list_elem_of_singleton.
  - split; cbn [r_reqs r_trace]; [|done]. apply Forall_fmap. by apply Forall_true.
Qed.

(** Agents spend nothing. If every request body that reaches the router is the encoding of
    a request some agent sends, in the quarantine or in the loop, with any task and any world
    answering it, then the router makes no paid call, over any interleaving and failure, for
    any configuration. The encoding is assumed to be read back as it was written. *)
Theorem agents_drive_no_paid_call `{WebURLs} Quote UnmarshalChoices env (Marshal : ChatRequest -> bytes) fs ls i c :
  (forall msgs, UnmarshalChat (Marshal (agent_request msgs)) = Some (agent_request msgs)) ->
  (forall rb, RAccept rb ∈ ls -> exists req, rb = BodyRead (Marshal req) /\ sent_by_agent Quote UnmarshalChoices env req) ->
  (i, OCall true c) ∉ r_trace (router_run fs ls).
Proof.
  intros Hjson Hsent. enough (free (router_run fs ls)) as [_ Ht] by apply Ht.
  unfold Router.router_run. assert (free (RSys None (None, fs) [] [] [])) as Hy by (split; [constructor|intros ? ? ?%elem_of_nil; done]).
  revert Hy Hsent. generalize (RSys None (None, fs) [] [] []). induction ls as [|l ls IH]; intros y Hy Hsent; [done|]. cbn [foldl].
  apply IH; [|intros rb Hin; apply Hsent; by right]. apply rexec_free; [done|]. intros rb ->.
  destruct (Hsent rb) as (req & -> & (msgs & ->)%sent_local); [by left|]. by eapply handleChat_unpaid.
Qed.
End free.
