(* ===== verification/AgentPlans.v ===== *)
(** * Plans as text

    A plan, printed one step per line, is read back by [parsePlan] as it was: the grammar
    loses nothing of a plan, and every static plan of printable parts can be committed. *)
From Stdlib Require Import ZArith QArith Lia Ascii String.
From stdpp Require Import base tactics numbers option strings list gmap.
From S2P Require Import Prelude Endian Maps Bytes Control Broker NetIP VerifyCmd AuditFiles MonitorCollector Router Agent AgentProps.
#[local] Open Scope string_scope.
#[local] Open Scope list_scope.
#[local] Open Scope Z_scope.

(** ** Trimming and cutting *)

(** A string that starts and ends with a visible character. *)
Definition trimmed (q : bytes) : Prop := (exists a l, q = a :: l /\ printable a) /\ exists l z, q = l ++ [z] /\ printable z.

Definition space : ascii := byte_of 32.

Lemma trimmed_trim q : trimmed q -> TrimSpaceB q = q /\ TrimSpaceB (q ++ [space]) = q /\ TrimSpaceB (space :: q) = q.
Proof.
  intros [(a & l & Eq & Ha) (l' & z & Eq' & Hz)]. unfold TrimSpaceB.
  assert (rev (trim_rev (rev q)) = q) as Hr.
  { rewrite Eq', rev_app_distr. cbn [rev app]. rewrite trim_rev_id by done. change (z :: rev l') with ([z] ++ rev l').
    by rewrite rev_app_distr, rev_involutive. }
  split_and!.
  - rewrite Eq at 1. rewrite trim_left_id by done. by rewrite <- Eq.
  - rewrite Eq at 1. cbn [app]. rewrite trim_left_id by done. rewrite app_comm_cons, <- Eq, rev_app_distr. exact Hr.
  - change (trim_left (space :: q)) with (trim_left q). rewrite Eq at 1. rewrite trim_left_id by done. by rewrite <- Eq.
Qed.

Lemma trimmed_between a m b : trimmed a -> trimmed b -> trimmed (a ++ m ++ b).
Proof.
  intros [(x & l & -> & Hx) _] [_ (l' & z & -> & Hz)]. split; [by eexists _, _|].
  exists ((x :: l) ++ m ++ l'), z. by rewrite <- !app_assoc.
Qed.

Lemma trimmed_printable q : q <> [] -> Forall printable q -> trimmed q.
Proof.
  intros Hq Hp. split.
  - destruct Hp as [|a l Ha Hl]; [done|]. by eexists _, _.
  - destruct q as [|z l _] using rev_ind; [done|]. apply Forall_app in Hp as [_ [Hz _]%Forall_cons]. by eexists _, _.
Qed.

(** No "->" inside. *)
Definition no_arrow (s : bytes) : Prop := Contains s (B "->") = false.

Lemma cut_arrow_at s r : no_arrow s -> cut_arrow (s ++ space :: B "->" ++ r) = Some (s ++ [space], r).
Proof.
  unfold no_arrow. induction s as [|c s IH]; intros Hn; [reflexivity|]. cbn [Contains] in Hn. cbn [app cut_arrow].
  destruct (CutPrefix (B "->") (c :: s)) eqn:Ec; [done|].
  assert (CutPrefix (B "->") (c :: s ++ space :: B "->" ++ r) = None) as ->.
  { cbn in Ec |- *. destruct c as [[] [] [] [] [] [] [] []]; try done. destruct s as [|d s]; [done|]. cbn.
    destruct d as [[] [] [] [] [] [] [] []]; done. }
  rewrite IH by done. reflexivity.
Qed.

Lemma word_char_printable c : word_char c = true -> printable c.
Proof.
  unfold word_char, printable, between, is_char. rewrite !orb_true_iff, !andb_true_iff, !Z.leb_le, Z.eqb_eq. lia.
Qed.

Lemma name_printable x : name_ok x -> Forall printable x.
Proof.
  intros [_ Hi]. unfold isIdent in Hi. apply Forall_forall. intros c Hc. apply word_char_printable.
  rewrite forallb_forall in Hi. by apply Hi, list_elem_of_In.
Qed.

Definition var (x : bytes) : bytes := B "$" ++ x.

Lemma var_trimmed x : name_ok x -> trimmed (var x).
Proof. intros Hx. apply trimmed_printable; [done|]. constructor; [done|by apply name_printable]. Qed.

Lemma varName_var x : name_ok x -> varName (var x) = Some x.
Proof. intros [Hn Hi]. unfold varName, var. change (CutPrefix _ _) with (Some x). cbv beta iota. rewrite bool_decide_false by done. by rewrite Hi. Qed.

Lemma splitArrow_at s x : trimmed s -> no_arrow s -> name_ok x -> splitArrow (s ++ B " -> " ++ var x) = Some (s, var x).
Proof.
  intros Hs Hn Hx. unfold splitArrow. change (B " -> " ++ var x) with (space :: B "->" ++ space :: var x).
  rewrite cut_arrow_at by done. cbn [fmap option_fmap option_map prod_map fst snd].
  destruct (trimmed_trim _ Hs) as (_ & -> & _). by destruct (trimmed_trim _ (var_trimmed x Hx)) as (_ & _ & ->).
Qed.

(** ** Printing *)
Definition print_task (t : planTask) : bytes := match t with Literal t => t | TaskVar x => var x end.

Definition print_step (s : planStep) : bytes :=
  match s with
  | opFetch url x => B "FETCH " ++ url ++ B " -> " ++ var x
  | opExtract src question x => B "EXTRACT " ++ (var src ++ [space] ++ question) ++ B " -> " ++ var x
  | opReport x => B "REPORT " ++ var x
  | opDelegate suffix classes t => B "DELEGATE " ++ suffix ++ [space] ++ classes ++ [space] ++ print_task t
  end.

Definition print_plan (steps : list planStep) : bytes := JoinB [newline] (print_step <$> steps).

(** A visible word. *)
Definition word (s : bytes) : Prop := s <> [] /\ Forall printable s.

(** The parts of a step can be written: words and lines without arrows; a literal task is
    words that are not the name of a variable. *)
Definition writable (s : planStep) : Prop :=
  match s with
  | opFetch url _ => word url /\ no_arrow url
  | opExtract src question _ => name_ok src /\ trimmed question /\ no_newline question /\ no_arrow question
  | opReport x => name_ok x
  | opDelegate suffix classes t =>
      word suffix /\ word classes
      /\ match t with
         | TaskVar x => name_ok x
         | Literal t => exists words, words <> [] /\ t = JoinB [space] words /\ Forall word words
                          /\ (forall w, words = [w] -> HasPrefixB w (B "$") = false)
         end
  end.

Lemma word_trimmed s : word s -> trimmed s.
Proof. intros [? ?]. by apply trimmed_printable. Qed.

Lemma word_newline s : Forall printable s -> no_newline s.
Proof.
  intros Hs Hin. rewrite Forall_forall in Hs. apply Hs, printable_range in Hin. change (val newline) with 10 in Hin. lia.
Qed.

Lemma CutSpace_verb v rest : has_char 32 v = false -> CutSpace (v ++ space :: rest) = (v, rest).
Proof.
  intros Hv. unfold CutSpace. assert (cut_at 32 (v ++ space :: rest) = (v, space :: rest)) as ->; [|done].
  induction v as [|c v IH]; [reflexivity|]. cbn [has_char existsb] in Hv. apply orb_false_iff in Hv as [Hc Hv].
  cbn [app cut_at]. rewrite Hc. by rewrite IH.
Qed.

Lemma printable_has_space s : Forall printable s -> has_char 32 s = false.
Proof.
  intros Hs. unfold has_char. apply not_true_iff_false. intros (c & Hc & E)%existsb_exists.
  rewrite Forall_forall in Hs. apply list_elem_of_In, Hs, printable_range in Hc. unfold is_char in E. apply Z.eqb_eq in E. lia.
Qed.

(** A line of the grammar in a parser that is still open. *)
Section reading.
  Context `{WebURLs}.

Definition open_parser (p : parser) : Prop := p_reported p = false /\ (length (p_steps p) < maxPlanSteps)%nat.

Lemma parse_line_verb v rest p :
  open_parser p -> has_char 32 v = false -> trimmed (v ++ space :: rest) ->
  parse_line (v ++ space :: rest) p
  = if bool_decide (v = B "FETCH") then parse_fetch rest p
    else if bool_decide (v = B "EXTRACT") then parse_extract rest p
    else if bool_decide (v = B "REPORT") then parse_report rest p
    else if bool_decide (v = B "DELEGATE") then parse_delegate rest p
    else Err UnknownOpcode.
Proof.
  intros [Hr Hl] Hv Ht. unfold parse_line. destruct (trimmed_trim _ Ht) as (-> & _). cbv zeta.
  case_bool_decide as Hnil; [by destruct v|]. rewrite Hr.
  rewrite (proj2 (Nat.leb_gt _ _)) by done. by rewrite CutSpace_verb.
Qed.

Lemma verb_trimmed v rest : word v -> trimmed rest -> trimmed (v ++ space :: rest).
Proof. intros Hv Hr. apply (trimmed_between v [space] rest); [by apply word_trimmed|done]. Qed.

Ltac verb := first [split; [discriminate|repeat constructor]|reflexivity].

Lemma read_fetch url x p :
  open_parser p -> word url -> no_arrow url -> fetchValidate url = true -> HasPrefixB url (B "$") = false -> name_ok x ->
  p_bound p !! x = None -> parse_line (print_step (opFetch url x)) p = Ok (bind_var x vBody (opFetch url x) p).
Proof.
  intros Hp Hu Hn Hv Hd Hx Hb. pose proof (word_trimmed _ Hu) as Hut.
  change (print_step _) with (B "FETCH" ++ space :: (url ++ B " -> " ++ var x)).
  rewrite parse_line_verb;
    [|done|reflexivity|apply verb_trimmed; [verb|apply trimmed_between; [done|by apply var_trimmed]]].
  rewrite bool_decide_true by done. unfold parse_fetch. rewrite splitArrow_at by done. rewrite varName_var by done.
  rewrite bool_decide_false by (rewrite Hb; by intros []). destruct (trimmed_trim _ Hut) as (-> & _). cbv zeta. by rewrite Hd, Hv.
Qed.

Lemma no_arrow_app x q : name_ok x -> no_arrow q -> no_arrow (var x ++ [space] ++ q).
Proof.
  intros Hx Hq. unfold no_arrow in *. assert (Contains (space :: q) (B "->") = false) as Hs by (cbn; by destruct q).
  assert (forall y, Forall (fun c => word_char c = true) y -> Contains (y ++ space :: q) (B "->") = false) as Hy.
  { induction 1 as [|c y Hc Hy IH]; [done|]. cbn [app Contains]. rewrite IH.
    assert (CutPrefix (B "->") (c :: y ++ space :: q) = None) as ->; [|done].
    cbn [B list_ascii_of_string CutPrefix]. destruct (Ascii.eqb_spec "-" c) as [<-|]; [by vm_compute in Hc|done]. }
  assert (Forall (fun c => word_char c = true) x) as Hwx.
  { destruct Hx as [_ Hi]. unfold isIdent in Hi. rewrite forallb_forall in Hi. apply Forall_forall. intros c Hc. by apply Hi, list_elem_of_In. }
  specialize (Hy x Hwx). change (var x ++ [space] ++ q) with ("$"%char :: x ++ space :: q). cbn [Contains]. rewrite Hy. reflexivity.
Qed.

Lemma read_extract src q x p :
  open_parser p -> name_ok src -> trimmed q -> no_arrow q -> p_bound p !! src = Some vBody -> name_ok x -> p_bound p !! x = None ->
  parse_line (print_step (opExtract src q x)) p = Ok (bind_var x vData (opExtract src q x) p).
Proof.
  intros Hp Hs Hq Hn Hb Hx Hbx. assert (trimmed (var src ++ [space] ++ q)) as Ht by (apply trimmed_between; [by apply var_trimmed|done]).
  change (print_step _) with (B "EXTRACT" ++ space :: ((var src ++ [space] ++ q) ++ B " -> " ++ var x)).
  rewrite parse_line_verb;
    [|done|reflexivity|apply verb_trimmed; [verb|apply trimmed_between; [done|by apply var_trimmed]]].
  rewrite (bool_decide_false (_ = B "FETCH")) by done. rewrite bool_decide_true by done.
  unfold parse_extract. rewrite splitArrow_at by (try done; by apply no_arrow_app). rewrite varName_var by done.
  rewrite (bool_decide_false (is_Some _)) by (rewrite Hbx; by intros []). destruct (trimmed_trim _ Ht) as (-> & _).
  change (var src ++ [space] ++ q) with (var src ++ space :: q). rewrite CutSpace_verb by (apply printable_has_space; constructor; [done|by apply name_printable]).
  rewrite varName_var by done. rewrite bool_decide_true by done. destruct (trimmed_trim _ Hq) as (-> & _).
  rewrite (bool_decide_false (q = [])) by (by destruct Hq as [(? & ? & -> & _) _]). done.
Qed.

Lemma read_report x p :
  open_parser p -> name_ok x -> p_bound p !! x = Some vData -> parse_line (print_step (opReport x)) p = Ok (finish (opReport x) p).
Proof.
  intros Hp Hx Hb. change (print_step _) with (B "REPORT" ++ space :: (var x)).
  rewrite parse_line_verb;
    [|done|reflexivity|apply verb_trimmed; [verb|by apply var_trimmed]].
  rewrite (bool_decide_false (_ = B "FETCH")), (bool_decide_false (_ = B "EXTRACT")) by done. rewrite bool_decide_true by done.
  unfold parse_report. destruct (trimmed_trim _ (var_trimmed x Hx)) as (-> & _). rewrite varName_var by done.
  by rewrite bool_decide_true.
Qed.

Lemma Fields_word s : word s -> Fields s = [s].
Proof.
  intros [Hs Hp]. unfold Fields. rewrite fields_word by done. rewrite app_nil_r. destruct s as [|c s]; [done|].
  unfold flush. destruct (rev (c :: s)) eqn:E; [by apply (f_equal length) in E; rewrite length_rev in E|]. by rewrite <- E, rev_involutive.
Qed.

Lemma Fields_words s rest : word s -> Fields (s ++ space :: rest) = s :: Fields rest.
Proof. intros Hs. unfold Fields. rewrite fields_space by done. change (fields_from [] s) with (Fields s). by rewrite Fields_word. Qed.

Lemma Fields_join words : Forall word words -> words <> [] -> Fields (JoinB [space] words) = words.
Proof.
  induction 1 as [|w words Hw Hws IH]; [done|]. intros _. destruct words as [|w' words]; [by apply Fields_word|].
  change (JoinB [space] (w :: w' :: words)) with (w ++ space :: JoinB [space] (w' :: words)). rewrite Fields_words by done. by rewrite IH.
Qed.

Lemma join_trimmed words : Forall word words -> words <> [] -> trimmed (JoinB [space] words).
Proof.
  induction 1 as [|w words Hw Hws IH]; [done|]. intros _. destruct words as [|w' words]; [by apply word_trimmed|].
  apply (trimmed_between w [space]); [by apply word_trimmed|by apply IH].
Qed.

Lemma join_space w w' words : has_char 32 (JoinB [space] (w :: w' :: words)) = true.
Proof. apply existsb_exists. exists space. split; [|done]. apply in_or_app. right. by left. Qed.

Lemma word_is_join s : word s -> exists words, words <> [] /\ s = JoinB [space] words /\ Forall word words.
Proof. intros Hs. exists [s]. split; [done|]. split; [done|]. by constructor. Qed.

Lemma read_delegate suffix classes t p :
  open_parser p -> literal_control suffix classes -> writable (opDelegate suffix classes t) ->
  match t with TaskVar x => p_bound p !! x = Some vData | Literal _ => True end ->
  parse_line (print_step (opDelegate suffix classes t)) p = Ok (finish (opDelegate suffix classes t) p).
Proof.
  intros Hp (Hi & Hc & Hd) (Hs & Hcl & Ht) Hb.
  assert (exists words, words <> [] /\ print_task t = JoinB [space] words /\ Forall word words
          /\ (words = [print_task t] \/ exists w w' ws, words = w :: w' :: ws)) as (words & Hne & Et & Hw & Hshape).
  { destruct t as [t|x]; cbn [print_task].
    - destruct Ht as (words & Hne & -> & Hw & _). exists words. split_and!; try done. destruct words as [|w [|w' ws]]; [done|by left|right; by eexists _, _, _].
    - exists [var x]. split_and!; try done; [|by left]. constructor; [|constructor]. split; [done|]. constructor; [done|by apply name_printable]. }
  change (print_step _) with (B "DELEGATE" ++ space :: suffix ++ space :: classes ++ space :: print_task t).
  assert (trimmed (suffix ++ space :: classes ++ space :: print_task t)) as Htr.
  { apply (trimmed_between suffix [space]); [by apply word_trimmed|]. apply (trimmed_between classes [space]); [by apply word_trimmed|].
    rewrite Et. by apply join_trimmed. }
  rewrite parse_line_verb; [|done|reflexivity|apply verb_trimmed; [verb|done]].
  rewrite (bool_decide_false (_ = B "FETCH")), (bool_decide_false (_ = B "EXTRACT")), (bool_decide_false (_ = B "REPORT")) by done.
  rewrite bool_decide_true by done. unfold parse_delegate. rewrite Fields_words by done. rewrite Fields_words by done.
  rewrite Et, Fields_join by done.
  assert (HasPrefixB suffix (B "$") = false) as ->.
  { destruct suffix as [|c suffix]; [by destruct Hs|]. apply bool_decide_false. intros [l [= -> _]]. by cbn in Hi. }
  rewrite Hd. cbn [orb]. rewrite Hi, Hc. cbn [negb]. rewrite (bool_decide_false (is_Some None)) by (by intros []).
  destruct words as [|w ws] eqn:Ews; [done|]. rewrite <- Ews in *. change (B " ") with [space].
  destruct (trimmed_trim _ (join_trimmed words Hw Hne)) as (-> & _). cbv zeta. rewrite <- Et.
  destruct t as [t|x]; cbn [print_task] in *.
  - assert (HasPrefixB t (B "$") && negb (has_char 32 t || has_char 9 t) = false) as ->; [|done].
    destruct Hshape as [->|(w1 & w2 & ws' & ->)]; [|rewrite Et, join_space; by rewrite andb_false_r].
    destruct Ht as (words & _ & Et' & Hw' & Hv).
    destruct words as [|w1 [|w2 ws']]; subst t; [|cbn [JoinB]; by rewrite (Hv w1 eq_refl)|rewrite join_space; by rewrite andb_false_r].
    by apply Forall_cons in Hw as [[? _] _].
  - assert (HasPrefixB (var x) (B "$") = true) as -> by (apply bool_decide_true; by exists x).
    assert (Forall printable (var x)) as Hpx by (constructor; [done|by apply name_printable]).
    assert (has_char 32 (var x) || has_char 9 (var x) = false) as ->.
    { rewrite printable_has_space by done. cbn [orb]. apply not_true_iff_false. intros (c & Hin & E)%existsb_exists.
      rewrite Forall_forall in Hpx. apply list_elem_of_In, Hpx, printable_range in Hin. apply Z.eqb_eq in E. lia. }
    cbn [negb andb]. rewrite varName_var by done. by rewrite bool_decide_true.
Qed.

(** *** The whole plan *)
Definition parser_after (p : parser) (steps : list planStep) : parser :=
  foldl (fun p s => match s with
                    | opFetch _ x => bind_var x vBody s p
                    | opExtract _ _ x => bind_var x vData s p
                    | _ => finish s p
                    end) p steps.

Lemma after_steps p steps : p_steps (parser_after p steps) = p_steps p ++ steps.
Proof.
  unfold parser_after. revert p. induction steps as [|s steps IH]; intros p; cbn [foldl]; [by rewrite app_nil_r|].
  rewrite IH. destruct s; cbn [bind_var finish p_steps]; by rewrite <- app_assoc.
Qed.

Lemma read_steps p steps :
  p_reported p = false -> scoped (p_bound p) steps -> Forall writable steps -> (length (p_steps p) + length steps <= maxPlanSteps)%nat ->
  parse_lines (print_step <$> steps) p = Ok (parser_after p steps) /\ p_reported (parser_after p steps) = true.
Proof.
  revert p. induction steps as [|s steps IH]; intros p Hr Hs Hw Hl; [done|]. apply Forall_cons in Hw as [Hw Hws].
  cbn [length] in Hl. assert (open_parser p) as Hp by (split; [done|lia]). rewrite fmap_cons. cbn [parse_lines].
  assert (forall x k, length (p_steps (bind_var x k s p)) + length steps <= maxPlanSteps)%nat as Hl'.
  { intros x k. cbn [bind_var p_steps]. rewrite length_app. cbn [length]. lia. }
  destruct s as [url x|src q x|x|suffix classes t].
  - destruct Hs as (Hv & Hd & Hx & Hb & Hs), Hw as [Hu Hn]. rewrite read_fetch by done. by apply IH.
  - destruct Hs as (Hb & Hq & Hx & Hbx & Hs), Hw as (Hsn & Ht & _ & Hn). rewrite read_extract by done. by apply IH.
  - destruct steps; [|done]. by rewrite read_report.
  - destruct steps; [|done]. destruct Hs as [Hc Ht]. by rewrite read_delegate.
Qed.

Lemma print_no_newline s : (forall x, binds s = Some x -> name_ok x) -> writable s -> no_newline (print_step s).
Proof.
  assert (forall x, name_ok x -> no_newline (var x)) as Hvar.
  { intros x Hx. apply word_newline. constructor; [done|by apply name_printable]. }
  assert (forall a b : bytes, no_newline a -> no_newline b -> no_newline (a ++ b)) as Happ.
  { intros a b Ha Hb [?|?]%elem_of_app; [by apply Ha|by apply Hb]. }
  assert (no_newline [space]) as Hsp by (by intros ?%list_elem_of_singleton).
  assert (forall l : bytes, forallb (fun c => negb (Ascii.eqb c newline)) l = true -> no_newline l) as Hlit.
  { intros l Hl Hin. rewrite forallb_forall in Hl. apply list_elem_of_In, Hl in Hin. by rewrite Ascii.eqb_refl in Hin. }
  assert (forall s, word s -> no_newline s) as Hword by (intros ? [_ ?]; by apply word_newline).
  intros Hb Hw. destruct s as [url x|src q x|x|suffix classes t]; cbn [print_step writable binds] in *.
  - destruct Hw as [Hu _]. apply Happ; [by apply Hlit|]. apply Happ; [auto|]. apply Happ; [by apply Hlit|auto].
  - destruct Hw as (Hs & _ & Hn & _). apply Happ; [by apply Hlit|]. apply Happ; [apply Happ; [auto|]; apply Happ; auto|].
    apply Happ; [by apply Hlit|auto].
  - apply Happ; [by apply Hlit|auto].
  - destruct Hw as (Hs & Hc & Ht). do 5 (apply Happ; [first [by apply Hlit|auto]|]). destruct t as [t|x]; [|by apply Hvar].
    destruct Ht as (words & _ & -> & Hws & _). clear -Hws Happ Hsp Hword. induction Hws as [|w words Hw Hws IH]; [by intros ?%elem_of_nil|].
    destruct words as [|w' words]; [by apply Hword|]. apply Happ; [by apply Hword|]. by apply Happ.
Qed.

Lemma SplitLines_join lines : lines <> [] -> Forall no_newline lines -> SplitLines (JoinB [newline] lines) = lines.
Proof.
  intros Hne Hl. induction Hl as [|l lines Hl Hls IH]; [done|]. destruct lines as [|l' lines]; [by apply SplitLines_last|].
  change (JoinB [newline] (l :: l' :: lines)) with (l ++ newline :: JoinB [newline] (l' :: lines)).
  rewrite SplitLines_line by done. by rewrite IH.
Qed.

Lemma scoped_names bound steps s x : scoped bound steps -> s ∈ steps -> binds s = Some x -> name_ok x.
Proof.
  revert bound. induction steps as [|s' steps IH]; intros bound Hs Hin Hb; [by apply not_elem_of_nil in Hin|].
  apply elem_of_cons in Hin as [<-|Hin].
  - destruct s as [url y|src q y|y|]; try done; injection Hb as <-; apply Hs.
  - destruct s' as [url y|src q y|y|]; [eapply IH; [apply Hs|done..]|eapply IH; [apply Hs|done..]|..];
      destruct steps; try done; by apply not_elem_of_nil in Hin.
Qed.

(** C24: Plans survive the text. A static plan of at most sixteen steps whose parts are words and
    lines, printed one step per line, is accepted by the parser and read back as it was. *)
Theorem plans_survive_the_text steps :
  scoped ∅ steps -> Forall writable steps -> (length steps <= maxPlanSteps)%nat -> parsePlan (print_plan steps) = Ok steps.
Proof.
  intros Hs Hw Hl. unfold parsePlan, print_plan. rewrite SplitLines_join.
  - destruct (read_steps (Parser [] ∅ false) steps eq_refl Hs Hw Hl) as [-> ->]. by rewrite after_steps.
  - by destruct steps.
  - apply Forall_fmap. rewrite Forall_forall in *. intros s Hin. apply print_no_newline; [|by apply Hw].
    intros x Hb. by eapply scoped_names.
Qed.
End reading.
